(** * ZFS volume emulation (zvol): admission control, lock discipline,
      suspend/resume, intent-log record selection and geometry checks.

    Shallow embedding of [module/zfs/zvol.c] and of the FreeBSD front end
    [module/os/freebsd/zfs/zvol_os.c].

    Conventions.
    - C integers are [Z]; where an unsigned 64-bit operation can wrap, the
      reduction modulo [2^64] is written out.
    - Calls into the DMU, the ZIL, the SPA and the kernel are external: their
      results come in as explicit oracle arguments and the calls themselves
      are recorded in an event trace returned by the embedded function.
    - The per-volume locks [zv_suspend_lock] and [zv_state_lock] are modelled
      from the point of view of the calling thread: the record says in which
      mode the caller holds them.  Misuse (releasing what is not held,
      re-acquiring what is held) makes the embedded function return [None],
      the kernel's panic or self-deadlock. *)

From Stdlib Require Import ZArith List Bool Lia String Ascii.
Import ListNotations.
Open Scope Z_scope.

(* ------------------------------------------------------------------ *)
(** ** Error numbers (FreeBSD [sys/errno.h]) *)

Module Errno.
Definition EINTR : Z := 4.
Definition EIO : Z := 5.
Definition ENXIO : Z := 6.
Definition EINVAL : Z := 22.
Definition EROFS : Z := 30.
Definition EINPROGRESS : Z := 36.
Definition EOPNOTSUPP : Z := 45.
Definition EOVERFLOW : Z := 84.
End Errno.
Import Errno.

Definition UINT64_MOD : Z := 2 ^ 64.

(** Unsigned 64-bit subtraction. *)
Definition sub64 (a b : Z) : Z := (a - b) mod UINT64_MOD.

(* ------------------------------------------------------------------ *)
(** ** Geometry check: [zvol_check_volsize] *)

(** [zvol_check_volsize(volsize, blocksize)].  [ilp32] describes the build:
    [None] when [_ILP32] is not defined, [Some m] when it is and
    [SPEC_MAXOFFSET_T] is [m].  The C remainder by zero traps; the embedding
    returns [None] there. *)
Definition zvol_check_volsize (ilp32 : option Z) (volsize blocksize : Z)
  : option Z :=
  if volsize =? 0 then Some EINVAL
  else if blocksize =? 0 then None
  else if negb (volsize mod blocksize =? 0) then Some EINVAL
  else
    match ilp32 with
    | Some maxoff =>
        if maxoff <? sub64 volsize 1 then Some EOVERFLOW else Some 0
    | None => Some 0
    end.

(* ------------------------------------------------------------------ *)
(** ** Data model *)

(** Mode of an rwlock acquisition ([RW_NONE] asks for no lock at all). *)
Inductive krw_t := RW_NONE | RW_READER | RW_WRITER.

Definition krw_eqb (a b : krw_t) : bool :=
  match a, b with
  | RW_NONE, RW_NONE | RW_READER, RW_READER | RW_WRITER, RW_WRITER => true
  | _, _ => false
  end.

(** The part of [objset_t] the driver reads: identity and whether the
    dataset has [sync=always]. *)
Record objset := mk_objset { os_id : Z; os_sync_always : bool }.

Inductive logbias_t := ZFS_LOGBIAS_LATENCY | ZFS_LOGBIAS_THROUGHPUT.

(** The part of [zilog_t] read by [zvol_log_write]: [zl_logbias],
    [spa_has_slogs(zl_spa)], [zil_replaying] and [zil_max_copied_data]. *)
Record zilog := mk_zilog {
  zl_id : Z;
  zl_logbias : logbias_t;
  zl_has_slogs : bool;
  zl_replaying : bool;
  zl_max_copied_data : Z
}.

(** [zvol_dmu_state_t], the per-request I/O context.  The bits of
    [zds_dmu_flags] and [dbc_flags] the driver tests are kept as booleans
    (their numeric values live in DMU headers). *)
Record zvol_dmu_state := mk_zds {
  zds_id : Z;
  zds_off : Z;
  zds_io_size : Z;
  zds_reader : bool;   (* zds_dmu_flags & DMU_CTX_FLAG_READ *)
  zds_sync : bool;
  zds_retry : bool;
  zds_async : bool;    (* zds_dc.dc_buf_ctx.dbc_flags & DMU_CTX_FLAG_ASYNC *)
  zds_dc_err : Z       (* zds_dc.dc_err *)
}.

Definition zds_set_retry (z : zvol_dmu_state) (b : bool) :=
  mk_zds (zds_id z) (zds_off z) (zds_io_size z) (zds_reader z) (zds_sync z)
         b (zds_async z) (zds_dc_err z).
Definition zds_set_async (z : zvol_dmu_state) (b : bool) :=
  mk_zds (zds_id z) (zds_off z) (zds_io_size z) (zds_reader z) (zds_sync z)
         (zds_retry z) b (zds_dc_err z).
Definition zds_set_sync (z : zvol_dmu_state) (b : bool) :=
  mk_zds (zds_id z) (zds_off z) (zds_io_size z) (zds_reader z) b
         (zds_retry z) (zds_async z) (zds_dc_err z).
Definition zds_set_io_size (z : zvol_dmu_state) (n : Z) :=
  mk_zds (zds_id z) (zds_off z) n (zds_reader z) (zds_sync z)
         (zds_retry z) (zds_async z) (zds_dc_err z).
Definition zds_set_dc_err (z : zvol_dmu_state) (e : Z) :=
  mk_zds (zds_id z) (zds_off z) (zds_io_size z) (zds_reader z) (zds_sync z)
         (zds_retry z) (zds_async z) e.

(** [zvol_state_t].  [zv_rdonly] and [zv_written_to] are the [ZVOL_RDONLY]
    and [ZVOL_WRITTEN_TO] bits of [zv_flags].  [zv_suspend_lock] is the mode
    in which the calling thread holds the lock, [zv_state_lock] whether it
    holds the mutex. *)
Record zvol_state := mk_zv {
  zv_name : string;
  zv_hash : Z;
  zv_volsize : Z;
  zv_volblocksize : Z;
  zv_open_count : Z;
  zv_suspend_ref : Z;
  zv_active : Z;
  zv_rdonly : bool;
  zv_written_to : bool;
  zv_changed : Z;
  zv_objset : option objset;
  zv_dn : option Z;
  zv_zilog : option zilog;
  zv_deferred : list zvol_dmu_state;
  zv_suspend_lock : krw_t;
  zv_state_lock : bool
}.

Definition zv_set_volsize (v : zvol_state) (x : Z) :=
  mk_zv (zv_name v) (zv_hash v) x (zv_volblocksize v) (zv_open_count v)
    (zv_suspend_ref v) (zv_active v) (zv_rdonly v) (zv_written_to v)
    (zv_changed v) (zv_objset v) (zv_dn v) (zv_zilog v) (zv_deferred v)
    (zv_suspend_lock v) (zv_state_lock v).
Definition zv_set_suspend_ref (v : zvol_state) (x : Z) :=
  mk_zv (zv_name v) (zv_hash v) (zv_volsize v) (zv_volblocksize v)
    (zv_open_count v) x (zv_active v) (zv_rdonly v) (zv_written_to v)
    (zv_changed v) (zv_objset v) (zv_dn v) (zv_zilog v) (zv_deferred v)
    (zv_suspend_lock v) (zv_state_lock v).
Definition zv_set_active (v : zvol_state) (x : Z) :=
  mk_zv (zv_name v) (zv_hash v) (zv_volsize v) (zv_volblocksize v)
    (zv_open_count v) (zv_suspend_ref v) x (zv_rdonly v) (zv_written_to v)
    (zv_changed v) (zv_objset v) (zv_dn v) (zv_zilog v) (zv_deferred v)
    (zv_suspend_lock v) (zv_state_lock v).
Definition zv_set_rdonly (v : zvol_state) (x : bool) :=
  mk_zv (zv_name v) (zv_hash v) (zv_volsize v) (zv_volblocksize v)
    (zv_open_count v) (zv_suspend_ref v) (zv_active v) x (zv_written_to v)
    (zv_changed v) (zv_objset v) (zv_dn v) (zv_zilog v) (zv_deferred v)
    (zv_suspend_lock v) (zv_state_lock v).
Definition zv_set_written_to (v : zvol_state) (x : bool) :=
  mk_zv (zv_name v) (zv_hash v) (zv_volsize v) (zv_volblocksize v)
    (zv_open_count v) (zv_suspend_ref v) (zv_active v) (zv_rdonly v) x
    (zv_changed v) (zv_objset v) (zv_dn v) (zv_zilog v) (zv_deferred v)
    (zv_suspend_lock v) (zv_state_lock v).
Definition zv_set_changed (v : zvol_state) (x : Z) :=
  mk_zv (zv_name v) (zv_hash v) (zv_volsize v) (zv_volblocksize v)
    (zv_open_count v) (zv_suspend_ref v) (zv_active v) (zv_rdonly v)
    (zv_written_to v) x (zv_objset v) (zv_dn v) (zv_zilog v) (zv_deferred v)
    (zv_suspend_lock v) (zv_state_lock v).
Definition zv_set_objset (v : zvol_state) (x : option objset) :=
  mk_zv (zv_name v) (zv_hash v) (zv_volsize v) (zv_volblocksize v)
    (zv_open_count v) (zv_suspend_ref v) (zv_active v) (zv_rdonly v)
    (zv_written_to v) (zv_changed v) x (zv_dn v) (zv_zilog v) (zv_deferred v)
    (zv_suspend_lock v) (zv_state_lock v).
Definition zv_set_dn (v : zvol_state) (x : option Z) :=
  mk_zv (zv_name v) (zv_hash v) (zv_volsize v) (zv_volblocksize v)
    (zv_open_count v) (zv_suspend_ref v) (zv_active v) (zv_rdonly v)
    (zv_written_to v) (zv_changed v) (zv_objset v) x (zv_zilog v)
    (zv_deferred v) (zv_suspend_lock v) (zv_state_lock v).
Definition zv_set_zilog (v : zvol_state) (x : option zilog) :=
  mk_zv (zv_name v) (zv_hash v) (zv_volsize v) (zv_volblocksize v)
    (zv_open_count v) (zv_suspend_ref v) (zv_active v) (zv_rdonly v)
    (zv_written_to v) (zv_changed v) (zv_objset v) (zv_dn v) x
    (zv_deferred v) (zv_suspend_lock v) (zv_state_lock v).
Definition zv_set_deferred (v : zvol_state) (x : list zvol_dmu_state) :=
  mk_zv (zv_name v) (zv_hash v) (zv_volsize v) (zv_volblocksize v)
    (zv_open_count v) (zv_suspend_ref v) (zv_active v) (zv_rdonly v)
    (zv_written_to v) (zv_changed v) (zv_objset v) (zv_dn v) (zv_zilog v) x
    (zv_suspend_lock v) (zv_state_lock v).
Definition zv_set_suspend_lock (v : zvol_state) (x : krw_t) :=
  mk_zv (zv_name v) (zv_hash v) (zv_volsize v) (zv_volblocksize v)
    (zv_open_count v) (zv_suspend_ref v) (zv_active v) (zv_rdonly v)
    (zv_written_to v) (zv_changed v) (zv_objset v) (zv_dn v) (zv_zilog v)
    (zv_deferred v) x (zv_state_lock v).
Definition zv_set_state_lock (v : zvol_state) (x : bool) :=
  mk_zv (zv_name v) (zv_hash v) (zv_volsize v) (zv_volblocksize v)
    (zv_open_count v) (zv_suspend_ref v) (zv_active v) (zv_rdonly v)
    (zv_written_to v) (zv_changed v) (zv_objset v) (zv_dn v) (zv_zilog v)
    (zv_deferred v) (zv_suspend_lock v) x.


(** Locks named in traces. *)
Inductive lock_id :=
| L_zvol_state_lock                (* the global registry lock *)
| L_suspend (name : string)        (* zv->zv_suspend_lock *)
| L_state (name : string).         (* zv->zv_state_lock *)

(** Calls that leave the driver, in program order. *)
Inductive event :=
| EvMutexEnter (l : lock_id)                      (* blocking *)
| EvMutexExit (l : lock_id)
| EvRwEnter (l : lock_id) (mode : krw_t)          (* blocking *)
| EvRwTryEnter (l : lock_id) (mode : krw_t) (ok : bool)
| EvRwTryUpgrade (l : lock_id) (ok : bool)
| EvRwDowngrade (l : lock_id)
| EvRwExit (l : lock_id)
| EvErrCb (id err : Z)                            (* err_cb(&zds->zds_dc) *)
| EvDmuCtxInit (id off size : Z)
| EvRangelockTryenterAsync (id off size : Z) (reader : bool)
| EvRangelockEnter (off size : Z) (reader : bool)
| EvRangelockExit
| EvPrefaultSetup (id off size : Z)
| EvPrefault (id : Z)
| EvTxCreate
| EvTxAssign (err : Z)
| EvTxAbort
| EvTxCommit
| EvDmuIssue (id : Z)
| EvDispatch (id : Z)                 (* dmu_thread_context_dispatch *)
| EvCtxRele (id : Z)
| EvZilOpen
| EvZilClose
| EvZilCommit
| EvZilCommitAsync
| EvDnodeRele
| EvDnodeHold (err : Z)
| EvTxgWaitSynced
| EvEvictDbufs
| EvObjsetHold
| EvObjsetRele
| EvObjsetOwn (err : Z)
| EvObjsetDisown
| EvSetCapacity (sectors : Z)
| EvSetDiskRo (ro : bool)
| EvZapUpdateSize (volsize : Z) (err : Z)
| EvFreeLongRange (off len : Z)
| EvLogTruncate (off len : Z) (sync : bool)
| EvLogWrite (off len : Z) (sync : bool)
| EvDmuWrite (off len : Z)
| EvOsUpdateVolsize (volsize : Z)     (* ops->zv_update_volsize *)
| EvDone (err : Z).                   (* zvol_done(bp, err) *)

(* ------------------------------------------------------------------ *)
(** ** Admission-controlled I/O pipeline ([zvol.c]) *)

(** Results of the external calls made while a context is set up.  The
    range-lock manager answers [EINPROGRESS] (the callback fires later) or
    [0] (granted now). *)
Record dmu_oracle := mk_oracle {
  o_dmu_ctx_init : Z;        (* dmu_ctx_init *)
  o_rangelock_wait : bool;   (* zfs_rangelock_tryenter_async = EINPROGRESS *)
  o_prefault_count : Z;      (* dmu_tx_prefault_setup *)
  o_prefault_err : Z;        (* dtbs_err when the prefault calls back *)
  o_tx_assign : Z            (* dmu_tx_assign *)
}.

(** Where a context that owns an admission slot is waiting. *)
Inductive ctx_phase :=
| PhDispatched   (* popped from zv_deferred, zvol_dmu_ctx_init_wrapper pending *)
| PhPrefault     (* dmu_tx_prefault running, callback pending *)
| PhLockWait     (* range lock queued, zvol_dmu_issue is the callback *)
| PhLocked.      (* range lock granted, 0 returned to the caller *)

Record init_result := mk_ir {
  ir_zv : zvol_state;
  ir_zds : zvol_dmu_state;
  ir_ret : Z;
  ir_phase : option ctx_phase;          (* None: the context owns no slot *)
  ir_queued : bool;                     (* appended to zv_deferred *)
  ir_dispatched : list zvol_dmu_state;  (* handed to the dispatcher *)
  ir_trace : list event
}.

Definition zvol_dmu_max_active (boot_ncpus : Z) (zv : zvol_state) : bool :=
  boot_ncpus <=? zv_active zv.

Definition zvol_dmu_ctx_init_enqueue (zv : zvol_state) (zds : zvol_dmu_state)
  : zvol_state * zvol_dmu_state :=
  let zds' := zds_set_async zds true in
  let zv1 := zv_set_suspend_ref zv (zv_suspend_ref zv + 1) in
  (zv_set_deferred zv1 (zv_deferred zv1 ++ [zds']), zds').

(** Runs under [zv_state_lock]: hand the slot of the finished context to the
    head of the deferred list, or give it back when the list is empty. *)
Definition zvol_dmu_ctx_init_deferred (zv : zvol_state)
  : zvol_state * list zvol_dmu_state * list event :=
  match zv_deferred zv with
  | zds :: rest =>
      (zv_set_deferred zv rest, [zds_set_retry zds true],
       [EvDispatch (zds_id zds)])
  | [] => (zv_set_active zv (zv_active zv - 1), [], [])
  end.

Definition zvol_dmu_err (zv : zvol_state) (zds : zvol_dmu_state)
  : zvol_state * list zvol_dmu_state * list event :=
  let '(zv', d, tr) := zvol_dmu_ctx_init_deferred zv in
  (zv', d, EvErrCb (zds_id zds) (zds_dc_err zds) :: tr).

Definition zvol_dmu_issue (zv : zvol_state) (zds : zvol_dmu_state)
  : zvol_state * list zvol_dmu_state * list event :=
  let '(zv', d, tr) := zvol_dmu_ctx_init_deferred zv in
  (zv', d, EvDmuIssue (zds_id zds) :: tr ++ [EvCtxRele (zds_id zds)]).

(** Outcome of a path that ended in [zvol_dmu_ctx_init_deferred]. *)
Definition ir_released (ret : Z) (zds : zvol_dmu_state)
    (x : zvol_state * list zvol_dmu_state * list event)
    (pre : list event) : init_result :=
  let '(zv', d, tr) := x in mk_ir zv' zds ret None false d (pre ++ tr).

(** [zvol_dmu_ctx_init_write_impl]; [prefault_done] and [dtbs_err] are the
    fields of the prefault state read on entry.  The C function is [void]:
    [ir_ret] carries the [EINPROGRESS] of [zvol_dmu_ctx_init_write]. *)
Definition zvol_dmu_ctx_init_write_impl (o : dmu_oracle)
    (prefault_done : bool) (dtbs_err : Z)
    (zv : zvol_state) (zds : zvol_dmu_state) : init_result :=
  let id := zds_id zds in
  let off := zds_off zds in
  let io_size := zds_io_size zds in
  if negb prefault_done && negb (o_prefault_count o =? 0) then
    mk_ir zv zds EINPROGRESS (Some PhPrefault) false []
          [EvPrefaultSetup id off io_size; EvPrefault id]
  else
    let pre0 :=
      if prefault_done then [] else [EvPrefaultSetup id off io_size] in
    if negb (dtbs_err =? 0) then
      let zds1 := zds_set_dc_err zds dtbs_err in
      ir_released EINPROGRESS zds1 (zvol_dmu_err zv zds1) pre0
    else if negb (o_tx_assign o =? 0) then
      let zds1 := zds_set_dc_err zds (o_tx_assign o) in
      ir_released EINPROGRESS zds1 (zvol_dmu_err zv zds1)
        (pre0 ++ [EvTxCreate; EvTxAssign (o_tx_assign o); EvTxAbort])
    else
      let pre := pre0 ++ [EvTxCreate; EvTxAssign 0;
                          EvRangelockTryenterAsync id off io_size false] in
      if o_rangelock_wait o then
        mk_ir zv zds EINPROGRESS (Some PhLockWait) false [] pre
      else ir_released EINPROGRESS zds (zvol_dmu_issue zv zds) pre.

Definition zvol_dmu_ctx_init_write (o : dmu_oracle)
    (zv : zvol_state) (zds : zvol_dmu_state) : init_result :=
  zvol_dmu_ctx_init_write_impl o false 0 zv zds.

(** [zvol_dmu_ctx_init], the read-only and bounds checks (the [err] that
    reaches [if (err)]). *)
Definition zvol_dmu_ctx_validate (zv : zvol_state) (zds : zvol_dmu_state)
  : Z :=
  let err :=
    if zds_reader zds then 0 else if zv_rdonly zv then EIO else 0 in
  if (0 <? zds_io_size zds) && (zv_volsize zv <=? zds_off zds)
  then EIO else err.

(** [zvol_dmu_ctx_init], the block under [zv_state_lock] that admits or
    defers a context that is not a retry. *)
Definition zvol_dmu_ctx_admit (boot_ncpus : Z)
    (zv : zvol_state) (zds : zvol_dmu_state)
  : zvol_state * zvol_dmu_state * Z :=
  if zvol_dmu_max_active boot_ncpus zv then
    let zds' := zds_set_async zds true in
    (zv_set_deferred zv (zv_deferred zv ++ [zds']), zds', EINPROGRESS)
  else (zv_set_active zv (zv_active zv + 1), zds, 0).

(** [zvol_dmu_ctx_init] from [ASSERT(err == 0)] to the end: the pipeline of
    a context that owns a slot. *)
Definition zvol_dmu_ctx_start (o : dmu_oracle)
    (zv : zvol_state) (zds : zvol_dmu_state) : init_result :=
  let id := zds_id zds in
  let off := zds_off zds in
  let io_size := Z.min (zds_io_size zds) (sub64 (zv_volsize zv) off) in
  let zds1 := zds_set_io_size zds io_size in
  let ev := EvDmuCtxInit id off io_size in
  if negb (o_dmu_ctx_init o =? 0) then
    let zds2 := zds_set_dc_err zds1 (o_dmu_ctx_init o) in
    ir_released (o_dmu_ctx_init o) zds2 (zvol_dmu_err zv zds2) [ev]
  else if zds_reader zds then
    let ev2 := EvRangelockTryenterAsync id off io_size true in
    if o_rangelock_wait o then
      mk_ir zv zds1 EINPROGRESS (Some PhLockWait) false [] [ev; ev2]
    else mk_ir zv zds1 0 (Some PhLocked) false [] [ev; ev2]
  else
    let r := zvol_dmu_ctx_init_write o zv zds1 in
    mk_ir (ir_zv r) (ir_zds r) (ir_ret r) (ir_phase r) (ir_queued r)
          (ir_dispatched r) (ev :: ir_trace r).

(** [zvol_dmu_ctx_init].  [None] is the NULL dereference of [zv_objset]. *)
Definition zvol_dmu_ctx_init (boot_ncpus : Z) (o : dmu_oracle)
    (zv : zvol_state) (zds : zvol_dmu_state) : option init_result :=
  match zv_objset zv with
  | None => None
  | Some os =>
      let zv1 :=
        if zds_retry zds then zv
        else zv_set_suspend_ref zv (zv_suspend_ref zv + 1) in
      let zds1 :=
        zds_set_sync zds
          (zds_sync zds || (negb (zds_reader zds) && os_sync_always os)) in
      let err := zvol_dmu_ctx_validate zv1 zds1 in
      if negb (err =? 0) then
        if zds_retry zds1 then
          let zds2 := zds_set_dc_err zds1 err in
          Some (ir_released err zds2 (zvol_dmu_err zv1 zds2) [])
        else Some (mk_ir zv1 zds1 err None false [] [])
      else if zds_retry zds1 then Some (zvol_dmu_ctx_start o zv1 zds1)
      else
        let '(zv2, zds2, e) := zvol_dmu_ctx_admit boot_ncpus zv1 zds1 in
        if e =? EINPROGRESS then Some (mk_ir zv2 zds2 e None true [] [])
        else Some (zvol_dmu_ctx_start o zv2 zds2)
  end.

(** [zvol_geom_bio_async] ([zvol_os.c]): the block entered when
    [mutex_tryenter] succeeds, up to [mutex_exit].  [zvol_dmu_max_active]
    was evaluated before the mutex was taken.  The value the caller assigns
    to [error] is left out: [zvol_dmu_ctx_init_enqueue] is [void] in
    [zvol.c]. *)
Definition zvol_geom_bio_async_locked (zv : zvol_state)
    (zds : zvol_dmu_state) : zvol_state * list zvol_dmu_state :=
  if 1 <? zv_active zv then
    let '(zv', zds') := zvol_dmu_ctx_init_enqueue zv zds in (zv', [zds'])
  else (zv, []).

(* ------------------------------------------------------------------ *)
(** ** Lock primitives, seen from the calling thread *)

Definition mutex_enter (zv : zvol_state) : option zvol_state :=
  if zv_state_lock zv then None else Some (zv_set_state_lock zv true).

Definition mutex_exit (zv : zvol_state) : option zvol_state :=
  if zv_state_lock zv then Some (zv_set_state_lock zv false) else None.

Definition rw_enter (zv : zvol_state) (mode : krw_t) : option zvol_state :=
  match mode, zv_suspend_lock zv with
  | RW_NONE, _ => None
  | _, RW_NONE => Some (zv_set_suspend_lock zv mode)
  | _, _ => None
  end.

(** [ok] says whether the other threads leave the lock available. *)
Definition rw_tryenter (ok : bool) (zv : zvol_state) (mode : krw_t)
  : zvol_state * bool :=
  match mode, zv_suspend_lock zv with
  | RW_NONE, _ => (zv, false)
  | _, RW_NONE => if ok then (zv_set_suspend_lock zv mode, true)
                  else (zv, false)
  | _, _ => (zv, false)
  end.

Definition rw_exit (zv : zvol_state) : option zvol_state :=
  match zv_suspend_lock zv with
  | RW_NONE => None
  | _ => Some (zv_set_suspend_lock zv RW_NONE)
  end.

Definition rw_tryupgrade (ok : bool) (zv : zvol_state)
  : option (zvol_state * bool) :=
  match zv_suspend_lock zv with
  | RW_READER => Some (if ok then (zv_set_suspend_lock zv RW_WRITER, true)
                       else (zv, false))
  | _ => None
  end.

Definition rw_downgrade (zv : zvol_state) : option zvol_state :=
  match zv_suspend_lock zv with
  | RW_WRITER => Some (zv_set_suspend_lock zv RW_READER)
  | _ => None
  end.

(** What other threads do to the volume while the caller is blocked: any
    change of the fields, except that they cannot alter what the caller
    itself holds. *)
Definition interfere (env : zvol_state -> zvol_state) (zv : zvol_state)
  : zvol_state :=
  zv_set_state_lock
    (zv_set_suspend_lock (env zv) (zv_suspend_lock zv)) (zv_state_lock zv).

(** *** A state, trace and failure monad over one volume *)

Definition M (A : Type) : Type :=
  zvol_state -> option (A * zvol_state * list event).

Definition ret {A} (a : A) : M A := fun zv => Some (a, zv, []).

Definition bind {A B} (c : M A) (k : A -> M B) : M B :=
  fun zv =>
    match c zv with
    | None => None
    | Some (a, zv1, t1) =>
        match k a zv1 with
        | None => None
        | Some (b, zv2, t2) => Some (b, zv2, t1 ++ t2)
        end
    end.

Declare Scope zvol_scope.
Delimit Scope zvol_scope with zvol.
Notation "x <- c ;; k" := (bind c (fun x => k))
  (at level 61, c at next level, right associativity) : zvol_scope.
Notation "c ;; k" := (bind c (fun _ => k))
  (at level 61, right associativity) : zvol_scope.
Open Scope zvol_scope.

Definition get : M zvol_state := fun zv => Some (zv, zv, []).
Definition modify (f : zvol_state -> zvol_state) : M unit :=
  fun zv => Some (tt, f zv, []).
Definition emit (e : event) : M unit := fun zv => Some (tt, zv, [e]).
Definition emit_all (tr : list event) : M unit :=
  fun zv => Some (tt, zv, tr).
(** [ASSERT]/[VERIFY]: a failed check panics. *)
Definition assert_ (b : zvol_state -> bool) : M unit :=
  fun zv => if b zv then Some (tt, zv, []) else None.
Definition lock_op (f : zvol_state -> option zvol_state) (e : event)
  : M unit :=
  fun zv => match f zv with
            | Some zv' => Some (tt, zv', [e])
            | None => None
            end.
Definition when_ (b : bool) (c : M unit) : M unit := if b then c else ret tt.

Definition m_state_lock : M lock_id := fun zv => Some (L_state (zv_name zv), zv, []).
Definition m_suspend_lock : M lock_id :=
  fun zv => Some (L_suspend (zv_name zv), zv, []).

Definition m_mutex_enter : M unit :=
  l <- m_state_lock ;; lock_op mutex_enter (EvMutexEnter l).
Definition m_mutex_exit : M unit :=
  l <- m_state_lock ;; lock_op mutex_exit (EvMutexExit l).
Definition m_rw_enter (mode : krw_t) : M unit :=
  l <- m_suspend_lock ;; lock_op (fun zv => rw_enter zv mode) (EvRwEnter l mode).
Definition m_rw_exit : M unit :=
  l <- m_suspend_lock ;; lock_op rw_exit (EvRwExit l).
Definition m_rw_downgrade : M unit :=
  l <- m_suspend_lock ;; lock_op rw_downgrade (EvRwDowngrade l).
Definition m_rw_tryupgrade (ok : bool) : M bool :=
  fun zv => match rw_tryupgrade ok zv with
            | Some (zv', b) =>
                Some (b, zv', [EvRwTryUpgrade (L_suspend (zv_name zv)) b])
            | None => None
            end.

Definition MUTEX_HELD (zv : zvol_state) : bool := zv_state_lock zv.
Definition RW_WRITE_HELD (zv : zvol_state) : bool :=
  krw_eqb (zv_suspend_lock zv) RW_WRITER.
Definition RW_READ_HELD (zv : zvol_state) : bool :=
  krw_eqb (zv_suspend_lock zv) RW_READER.
Definition RW_LOCK_HELD (zv : zvol_state) : bool :=
  negb (krw_eqb (zv_suspend_lock zv) RW_NONE).

(* ------------------------------------------------------------------ *)
(** ** Registry lookup *)

(** [MAXNAMELEN] of the system headers. *)
Definition MAXNAMELEN : nat := 256.

(** [strncmp(a, b, n) == 0] on NUL-free strings. *)
Fixpoint strncmp_eq (a b : string) (n : nat) : bool :=
  match n with
  | O => true
  | S n' =>
      match a, b with
      | EmptyString, EmptyString => true
      | String x a', String y b' => Ascii.eqb x y && strncmp_eq a' b' n'
      | _, _ => false
      end
  end.

(** [zvol_name_hash]; [table] is [zfs_crc64_table]. *)
Fixpoint zvol_name_hash_loop (table : Z -> Z) (n : nat) (p : string)
    (crc : Z) : Z :=
  match n, p with
  | S n', String c p' =>
      if Ascii.eqb c Ascii.zero then crc
      else
        zvol_name_hash_loop table n' p'
          (Z.lxor (Z.shiftr crc 8)
             (table (Z.land (Z.lxor crc (Z.of_N (N_of_ascii c))) 255)))
  | _, _ => crc
  end.

Definition zvol_name_hash (table : Z -> Z) (name : string) : Z :=
  zvol_name_hash_loop table (MAXNAMELEN - 1) name (UINT64_MOD - 1).

(** [zv->zv_hash == hash && strncmp(zv->zv_name, name, MAXNAMELEN) == 0]. *)
Definition name_hash_match (zv : zvol_state) (name : string) (hash : Z)
  : bool :=
  (zv_hash zv =? hash) && strncmp_eq (zv_name zv) name MAXNAMELEN.

(** The walk of [zvol_find_by_name_hash] over one hash chain.  The result
    is the position of the volume found in the chain together with its
    state as the caller now holds it. *)
Fixpoint zvol_find_chain (env : zvol_state -> zvol_state) (try_ok : bool)
    (chain : list zvol_state) (name : string) (hash : Z) (mode : krw_t)
  : option (option (nat * zvol_state) * list event) :=
  match chain with
  | [] => Some (None, [])
  | zv :: rest =>
      let ls := L_state (zv_name zv) in
      let lq := L_suspend (zv_name zv) in
      match mutex_enter zv with
      | None => None
      | Some zv1 =>
          if name_hash_match zv1 name hash then
            if krw_eqb mode RW_NONE then
              Some (Some (O, zv1), [EvMutexEnter ls])
            else
              let '(zv2, ok) := rw_tryenter try_ok zv1 mode in
              if ok then
                Some (Some (O, zv2),
                      [EvMutexEnter ls; EvRwTryEnter lq mode true])
              else
                match mutex_exit zv2 with
                | None => None
                | Some zv3 =>
                    match rw_enter (interfere env zv3) mode with
                    | None => None
                    | Some zv4 =>
                        match mutex_enter zv4 with
                        | None => None
                        | Some zv5 =>
                            if name_hash_match zv5 name hash then
                              Some (Some (O, zv5),
                                    [EvMutexEnter ls;
                                     EvRwTryEnter lq mode false;
                                     EvMutexExit ls; EvRwEnter lq mode;
                                     EvMutexEnter ls])
                            else None
                        end
                    end
                end
          else
            match mutex_exit zv1 with
            | None => None
            | Some _ =>
                match zvol_find_chain env try_ok rest name hash mode with
                | None => None
                | Some (r, tr) =>
                    Some (option_map (fun '(i, z) => (S i, z)) r,
                          EvMutexEnter ls :: EvMutexExit ls :: tr)
                end
            end
      end
  end.

(** [zvol_find_by_name_hash]; [chain] is the list [ZVOL_HT_HEAD(hash)]. *)
Definition zvol_find_by_name_hash (env : zvol_state -> zvol_state)
    (try_ok : bool) (chain : list zvol_state) (name : string) (hash : Z)
    (mode : krw_t) : option (option (nat * zvol_state) * list event) :=
  match zvol_find_chain env try_ok chain name hash mode with
  | None => None
  | Some (r, tr) =>
      Some (r, EvRwEnter L_zvol_state_lock RW_READER :: tr
               ++ [EvRwExit L_zvol_state_lock])
  end.

(** [zvol_find_by_name]; [ht] maps a hash to its chain. *)
Definition zvol_find_by_name (env : zvol_state -> zvol_state)
    (try_ok : bool) (table : Z -> Z) (ht : Z -> list zvol_state)
    (name : string) (mode : krw_t) :=
  let hash := zvol_name_hash table name in
  zvol_find_by_name_hash env try_ok (ht hash) name hash mode.

(** Locks still held at the end of a trace (most recent first). *)
Definition lock_id_eqb (a b : lock_id) : bool :=
  match a, b with
  | L_zvol_state_lock, L_zvol_state_lock => true
  | L_suspend x, L_suspend y => String.eqb x y
  | L_state x, L_state y => String.eqb x y
  | _, _ => false
  end.

Fixpoint drop_lock (l : lock_id) (held : list (lock_id * krw_t))
  : list (lock_id * krw_t) :=
  match held with
  | [] => []
  | (l', m) :: h => if lock_id_eqb l l' then h else (l', m) :: drop_lock l h
  end.

Fixpoint held_after (held : list (lock_id * krw_t)) (tr : list event)
  : list (lock_id * krw_t) :=
  match tr with
  | [] => held
  | EvMutexEnter l :: tr' => held_after ((l, RW_WRITER) :: held) tr'
  | EvRwEnter l m :: tr' => held_after ((l, m) :: held) tr'
  | EvRwTryEnter l m true :: tr' => held_after ((l, m) :: held) tr'
  | EvRwTryUpgrade l true :: tr' =>
      held_after ((l, RW_WRITER) :: drop_lock l held) tr'
  | EvRwDowngrade l :: tr' =>
      held_after ((l, RW_READER) :: drop_lock l held) tr'
  | EvMutexExit l :: tr' => held_after (drop_lock l held) tr'
  | EvRwExit l :: tr' => held_after (drop_lock l held) tr'
  | _ :: tr' => held_after held tr'
  end.

Definition holds (held : list (lock_id * krw_t)) (l : lock_id) : bool :=
  existsb (fun x => lock_id_eqb l (fst x)) held.

(** The locks [zvol_find_by_name_hash] hands to its caller. *)
Definition find_held (name : string) (mode : krw_t)
  : list (lock_id * krw_t) :=
  match mode with
  | RW_NONE => [(L_state name, RW_WRITER)]
  | _ => [(L_state name, RW_WRITER); (L_suspend name, mode)]
  end.

(** The lock events of [zvol_find_by_name_hash] on the volume it returns:
    the mutex first; then the suspend lock by [rw_tryenter]; when that
    fails, the mutex is dropped, the suspend lock is taken blocking and the
    mutex is taken again. *)
Definition find_acquire_events (name : string) (mode : krw_t)
    (try_ok : bool) : list event :=
  let ls := L_state name in
  let lq := L_suspend name in
  match mode with
  | RW_NONE => [EvMutexEnter ls]
  | _ =>
      if try_ok then [EvMutexEnter ls; EvRwTryEnter lq mode true]
      else [EvMutexEnter ls; EvRwTryEnter lq mode false; EvMutexExit ls;
            EvRwEnter lq mode; EvMutexEnter ls]
  end.

(** The lock order of the file's header comment: no thread blocks on a
    volume's [zv_suspend_lock] while it holds that volume's
    [zv_state_lock]. *)
Fixpoint lock_order_ok (held : list (lock_id * krw_t)) (tr : list event)
  : bool :=
  match tr with
  | [] => true
  | e :: tr' =>
      (match e with
       | EvRwEnter (L_suspend n) _ => negb (holds held (L_state n))
       | _ => true
       end)
      && lock_order_ok (held_after held [e]) tr'
  end.

(* ------------------------------------------------------------------ *)
(** ** Set-up, shutdown, suspend and resume *)

(** Results of the calls made by [zvol_resume] and [zvol_setup_zv]. *)
Record setup_oracle := mk_setup {
  so_hold_err : Z;         (* dmu_objset_hold *)
  so_objset : objset;      (* the objset it binds *)
  so_prop_err : Z;         (* dsl_prop_get_integer "readonly" *)
  so_ro : bool;
  so_zap_err : Z;          (* zap_lookup "size" *)
  so_volsize : Z;
  so_dnode_err : Z;        (* dnode_hold *)
  so_dn : Z;
  so_snapshot : bool;      (* dmu_objset_is_snapshot *)
  so_writeable : bool      (* spa_writeable *)
}.

Definition zvol_setup_zv (o : setup_oracle) : M Z :=
  assert_ MUTEX_HELD ;;
  assert_ RW_LOCK_HELD ;;
  modify (fun zv => zv_set_written_to (zv_set_zilog zv None) false) ;;
  if negb (so_prop_err o =? 0) then ret (so_prop_err o)
  else if negb (so_zap_err o =? 0) then ret (so_zap_err o)
  else
    emit (EvDnodeHold (so_dnode_err o)) ;;
    if negb (so_dnode_err o =? 0) then ret (so_dnode_err o)
    else
      modify (fun zv => zv_set_dn zv (Some (so_dn o))) ;;
      emit (EvSetCapacity (Z.shiftr (so_volsize o) 9)) ;;
      modify (fun zv => zv_set_volsize zv (so_volsize o)) ;;
      (if so_ro o || so_snapshot o || negb (so_writeable o) then
         emit (EvSetDiskRo true) ;;
         modify (fun zv => zv_set_rdonly zv true)
       else
         emit (EvSetDiskRo false) ;;
         modify (fun zv => zv_set_rdonly zv false)) ;;
      ret 0.

Definition zvol_shutdown_zv : M unit :=
  assert_ (fun zv => MUTEX_HELD zv && RW_LOCK_HELD zv) ;;
  zv <- get ;;
  when_ (zv_written_to zv)
    (assert_ (fun zv => match zv_zilog zv with Some _ => true | None => false end) ;;
     emit EvZilClose) ;;
  modify (fun zv => zv_set_zilog zv None) ;;
  emit EvDnodeRele ;;
  modify (fun zv => zv_set_dn zv None) ;;
  when_ (zv_written_to zv) (emit EvTxgWaitSynced) ;;
  emit EvEvictDbufs.

(** [zvol_suspend] after the lookup has found the volume. *)
Definition zvol_suspend_found : M unit :=
  assert_ MUTEX_HELD ;;
  assert_ RW_WRITE_HELD ;;
  assert_ (fun zv => 0 <=? zv_suspend_ref zv) ;;
  modify (fun zv => zv_set_suspend_ref zv (zv_suspend_ref zv + 1)) ;;
  zv <- get ;;
  when_ (0 <? zv_open_count zv) zvol_shutdown_zv ;;
  m_mutex_exit.

Definition zvol_suspend (env : zvol_state -> zvol_state) (try_ok : bool)
    (table : Z -> Z) (ht : Z -> list zvol_state) (name : string)
  : option (option (nat * zvol_state) * list event) :=
  match zvol_find_by_name env try_ok table ht name RW_WRITER with
  | None => None
  | Some (None, tr) => Some (None, tr)
  | Some (Some (i, zv), tr) =>
      match zvol_suspend_found zv with
      | None => None
      | Some (_, zv', tr') => Some (Some (i, zv'), tr ++ tr')
      end
  end.

Definition zvol_resume (o : setup_oracle) : M Z :=
  assert_ RW_WRITE_HELD ;;
  m_mutex_enter ;;
  zv <- get ;;
  error <- (if 0 <? zv_open_count zv then
              emit EvObjsetHold ;;
              assert_ (fun _ => so_hold_err o =? 0) ;;
              modify (fun zv => zv_set_objset zv (Some (so_objset o))) ;;
              emit EvObjsetRele ;;
              zvol_setup_zv o
            else ret 0) ;;
  m_mutex_exit ;;
  m_rw_exit ;;
  assert_ (fun zv => 0 <? zv_suspend_ref zv) ;;
  modify (fun zv => zv_set_suspend_ref zv (zv_suspend_ref zv - 1)) ;;
  ret error.

(* ------------------------------------------------------------------ *)
(** ** Lazy creation of the ZIL handle ([zvol_os.c]) *)

(** [zl] is the handle [zil_open] returns; [env] is what other threads do
    while the lock is dropped between [rw_exit] and [rw_enter]. *)
Definition zvol_ensure_zilog (upgrade_ok : bool)
    (env : zvol_state -> zvol_state) (zl : zilog) : M unit :=
  assert_ RW_READ_HELD ;;
  zv <- get ;;
  match zv_zilog zv with
  | Some _ => ret tt
  | None =>
      ok <- m_rw_tryupgrade upgrade_ok ;;
      when_ (negb ok)
        (m_rw_exit ;; modify (interfere env) ;; m_rw_enter RW_WRITER) ;;
      zv <- get ;;
      (match zv_zilog zv with
       | None =>
           emit EvZilOpen ;;
           modify (fun zv => zv_set_written_to (zv_set_zilog zv (Some zl)) true)
       | Some _ => ret tt
       end) ;;
      m_rw_downgrade
  end.

(** [env] acts between the unlocked test and [rw_enter]. *)
Definition zvol_ensure_zilog_async (env : zvol_state -> zvol_state)
    (zl : zilog) : M unit :=
  zv <- get ;;
  match zv_zilog zv with
  | Some _ => ret tt
  | None =>
      modify (interfere env) ;;
      m_rw_enter RW_WRITER ;;
      zv <- get ;;
      (match zv_zilog zv with
       | None =>
           emit EvZilOpen ;;
           modify (fun zv => zv_set_written_to (zv_set_zilog zv (Some zl)) true)
       | Some _ => ret tt
       end) ;;
      m_rw_exit
  end.

(* ------------------------------------------------------------------ *)
(** ** Administrative resize: [zvol_set_volsize] *)

Definition DMU_OBJECT_END : Z := UINT64_MOD - 1.

Record volsize_oracle := mk_vo {
  vo_prop_err : Z;       (* dsl_prop_get_integer "readonly" *)
  vo_readonly : Z;
  vo_own_err : Z;        (* dmu_objset_own *)
  vo_os : objset;
  vo_info_err : Z;       (* dmu_object_info *)
  vo_blocksize : Z;      (* doi_data_block_size *)
  vo_assign_err : Z;     (* dmu_tx_assign *)
  vo_zap_err : Z;        (* zap_update "size" *)
  vo_free_err : Z        (* dmu_free_long_range *)
}.

(** The static [zvol_update_volsize(volsize, os)] of [zvol.c]. *)
Definition zvol_update_volsize (o : volsize_oracle) (volsize : Z)
  : Z * list event :=
  if negb (vo_assign_err o =? 0) then
    (vo_assign_err o, [EvTxCreate; EvTxAssign (vo_assign_err o); EvTxAbort])
  else
    let error := vo_zap_err o in
    let tr := [EvTxCreate; EvTxAssign 0; EvZapUpdateSize volsize error;
               EvTxCommit; EvTxgWaitSynced] in
    if error =? 0 then
      (vo_free_err o, tr ++ [EvFreeLongRange volsize DMU_OBJECT_END])
    else (error, tr).

(** [zvol_set_volsize] from [dmu_object_info] to [zvol_update_volsize]. *)
Definition zvol_set_volsize_checked (o : volsize_oracle) (ilp32 : option Z)
    (volsize : Z) : option (Z * list event) :=
  if negb (vo_info_err o =? 0) then Some (vo_info_err o, [])
  else
    match zvol_check_volsize ilp32 volsize (vo_blocksize o) with
    | None => None
    | Some e =>
        if negb (e =? 0) then Some (e, [])
        else Some (zvol_update_volsize o volsize)
    end.

Definition lift_checked (x : option (Z * list event)) : M Z :=
  fun zv => match x with
            | None => None
            | Some (e, tr) => Some (e, zv, tr)
            end.

(** [zvol_set_volsize] when the lookup found the volume. *)
Definition zvol_set_volsize_found (o : volsize_oracle) (ilp32 : option Z)
    (volsize : Z) : M Z :=
  assert_ (fun zv => MUTEX_HELD zv && RW_READ_HELD zv) ;;
  zv <- get ;;
  let owned := match zv_objset zv with None => true | Some _ => false end in
  let rest : M Z :=
    error <- lift_checked (zvol_set_volsize_checked o ilp32 volsize) ;;
    when_ (error =? 0)
      (modify (fun zv => zv_set_changed (zv_set_volsize zv volsize) 1)) ;;
    (if owned then
       emit EvObjsetDisown ;; modify (fun zv => zv_set_objset zv None)
     else m_rw_exit) ;;
    m_mutex_exit ;;
    when_ (error =? 0) (emit (EvOsUpdateVolsize volsize)) ;;
    ret error in
  if owned then
    m_rw_exit ;;
    emit (EvObjsetOwn (vo_own_err o)) ;;
    if negb (vo_own_err o =? 0) then m_mutex_exit ;; ret (vo_own_err o)
    else modify (fun zv => zv_set_objset zv (Some (vo_os o))) ;; rest
  else rest.

(** [zvol_set_volsize] when no volume is registered under the name. *)
Definition zvol_set_volsize_absent (o : volsize_oracle) (ilp32 : option Z)
    (volsize : Z) : option (Z * list event) :=
  if negb (vo_own_err o =? 0) then
    Some (vo_own_err o, [EvObjsetOwn (vo_own_err o)])
  else
    match zvol_set_volsize_checked o ilp32 volsize with
    | None => None
    | Some (e, tr) => Some (e, EvObjsetOwn 0 :: tr ++ [EvObjsetDisown])
    end.

Definition zvol_set_volsize (env : zvol_state -> zvol_state) (try_ok : bool)
    (table : Z -> Z) (ht : Z -> list zvol_state)
    (o : volsize_oracle) (ilp32 : option Z) (name : string) (volsize : Z)
  : option (Z * option (nat * zvol_state) * list event) :=
  if negb (vo_prop_err o =? 0) then Some (vo_prop_err o, None, [])
  else if negb (vo_readonly o =? 0) then Some (EROFS, None, [])
  else
    match zvol_find_by_name env try_ok table ht name RW_READER with
    | None => None
    | Some (None, tr) =>
        match zvol_set_volsize_absent o ilp32 volsize with
        | None => None
        | Some (e, tr') => Some (e, None, tr ++ tr')
        end
    | Some (Some (i, zv), tr) =>
        match zvol_set_volsize_found o ilp32 volsize zv with
        | None => None
        | Some (e, zv', tr') => Some (e, Some (i, zv'), tr ++ tr')
        end
    end.

(* ------------------------------------------------------------------ *)
(** ** Intent-log records: [zvol_log_write] *)

Inductive itx_wr_state_t := WR_INDIRECT | WR_COPIED | WR_NEED_COPY.

Definition wr_state_eqb (a b : itx_wr_state_t) : bool :=
  match a, b with
  | WR_INDIRECT, WR_INDIRECT | WR_COPIED, WR_COPIED
  | WR_NEED_COPY, WR_NEED_COPY => true
  | _, _ => false
  end.

(** One [itx_t] handed to [zil_itx_assign]. *)
Record itx := mk_itx {
  itx_wr_state : itx_wr_state_t;
  lr_offset : Z;
  lr_length : Z;
  itx_sync : bool
}.

(** Default of the tunable [zvol_immediate_write_sz]. *)
Definition zvol_immediate_write_sz : Z := 32768.

(** [P2PHASE(x, align)] with a [uint32_t] alignment. *)
Definition P2PHASE (x align : Z) : Z := Z.land x ((align - 1) mod 2 ^ 32).

(** The [write_state] chosen before the loop. *)
Definition zvol_log_write_state (imm_sz : Z) (zl : zilog)
    (blocksize size : Z) (sync : bool) : itx_wr_state_t :=
  match zl_logbias zl with
  | ZFS_LOGBIAS_THROUGHPUT => WR_INDIRECT
  | ZFS_LOGBIAS_LATENCY =>
      if negb (zl_has_slogs zl) && (blocksize <=? size)
         && (imm_sz <? blocksize)
      then WR_INDIRECT
      else if sync then WR_COPIED else WR_NEED_COPY
  end.

(** The [while (size)] loop; [read_fails off len] says whether
    [dmu_read_by_dnode] fails for the chunk. *)
Fixpoint zvol_log_write_loop (fuel : nat) (zl : zilog)
    (read_fails : Z -> Z -> bool) (write_state : itx_wr_state_t)
    (blocksize offset size : Z) (sync : bool) : list itx :=
  match fuel with
  | O => []
  | S fuel' =>
      if size =? 0 then []
      else
        let demote :=
          wr_state_eqb write_state WR_COPIED
          && (zl_max_copied_data zl <? size) in
        let wr0 := if demote then WR_NEED_COPY else write_state in
        let len :=
          if negb demote && wr_state_eqb write_state WR_INDIRECT
          then Z.min (sub64 blocksize (P2PHASE offset blocksize)) size
          else size in
        let wr1 :=
          if wr_state_eqb wr0 WR_COPIED && read_fails offset len
          then WR_NEED_COPY else wr0 in
        mk_itx wr1 offset len sync
          :: zvol_log_write_loop fuel' zl read_fails write_state blocksize
               ((offset + len) mod UINT64_MOD) (size - len) sync
  end.

(** [zvol_log_write]: the records assigned to the log, in order.  Every
    pass of the loop logs at least one byte when the block size is not
    zero, so [size] passes are enough. *)
Definition zvol_log_write (imm_sz : Z) (zl : zilog)
    (read_fails : Z -> Z -> bool) (blocksize offset size : Z) (sync : bool)
  : list itx :=
  if zl_replaying zl then []
  else
    zvol_log_write_loop (Z.to_nat size) zl read_fails
      (zvol_log_write_state imm_sz zl blocksize size sync)
      blocksize offset size sync.

(** The two record forms and the selection rule in the words of the
    specification: inline below the immediate-write threshold, by reference
    above it unless there is no separate log device and the write is smaller
    than a block, and by reference whenever the read-back fails. *)
Inductive record_form := InlineCopy | ByReference.

Definition spec_record_form (imm_sz : Z) (has_slog : bool)
    (blocksize size : Z) (read_failed : bool) : record_form :=
  if read_failed then ByReference
  else if size <? imm_sz then InlineCopy
  else if negb has_slog && (size <? blocksize) then InlineCopy
  else ByReference.

(* ------------------------------------------------------------------ *)
(** ** Synchronous front-end paths ([zvol_os.c]) *)

Inductive bio_cmd_t := BIO_READ | BIO_WRITE | BIO_DELETE | BIO_FLUSH
                     | BIO_OTHER.

Record bio := mk_bio { bio_cmd : bio_cmd_t; bio_offset : Z; bio_length : Z }.

Record sync_oracle := mk_so {
  yo_upgrade_ok : bool;                  (* rw_tryupgrade *)
  yo_env : zvol_state -> zvol_state;     (* other threads, lock dropped *)
  yo_zl : zilog;                         (* zil_open *)
  yo_assign_err : Z;                     (* dmu_tx_assign *)
  yo_free_err : Z;                       (* dmu_free_long_range *)
  yo_commit_rc : Z                       (* zil_commit_async *)
}.

Definition m_os_sync_always : M bool :=
  fun zv => match zv_objset zv with
            | Some os => Some (os_sync_always os, zv, [])
            | None => None
            end.

(** [zvol_log_truncate]. *)
Definition zvol_log_truncate (off len : Z) (sync : bool) : M unit :=
  fun zv => match zv_zilog zv with
            | None => None
            | Some zl =>
                if zl_replaying zl then Some (tt, zv, [])
                else Some (tt, zv, [EvLogTruncate off len sync])
            end.

(** [zvol_geom_bio_sync].  The value is the error the bio is completed
    with ([zvol_done] now, or [zvol_commit_done] when the commit is still in
    progress) and [bio_completed]. *)
Definition zvol_geom_bio_sync (o : sync_oracle) (bp : bio) : M (Z * Z) :=
  m_rw_enter RW_READER ;;
  let commit (error completed : Z) : M (Z * Z) :=
    emit EvZilCommitAsync ;;
    m_rw_exit ;;
    when_ (yo_commit_rc o =? 0) (emit (EvDone error)) ;;
    ret (error, completed) in
  match bio_cmd bp with
  | BIO_FLUSH =>
      zvol_ensure_zilog (yo_upgrade_ok o) (yo_env o) (yo_zl o) ;;
      commit 0 0
  | BIO_DELETE =>
      zvol_ensure_zilog (yo_upgrade_ok o) (yo_env o) (yo_zl o) ;;
      sync <- m_os_sync_always ;;
      zv <- get ;;
      let off := bio_offset bp in
      let volsize := zv_volsize zv in
      emit (EvRangelockEnter off (bio_length bp) false) ;;
      emit EvTxCreate ;;
      emit (EvTxAssign (yo_assign_err o)) ;;
      r <- (if negb (yo_assign_err o =? 0) then
              emit EvTxAbort ;; ret (yo_assign_err o, bio_length bp)
            else
              zvol_log_truncate off (bio_length bp) sync ;;
              emit EvTxCommit ;;
              emit (EvFreeLongRange off (bio_length bp)) ;;
              ret (yo_free_err o, 0)) ;;
      emit EvRangelockExit ;;
      let completed := bio_length bp - snd r in
      let error :=
        if (completed <? bio_length bp) && (volsize <? off)
        then EINVAL else fst r in
      if sync then commit error completed
      else
        m_rw_exit ;; emit (EvDone error) ;; ret (error, completed)
  | _ =>
      m_rw_exit ;; emit (EvDone EOPNOTSUPP) ;; ret (EOPNOTSUPP, 0)
  end.

Definition DEV_BSIZE : Z := 512.

(** [zvol_cdev_ioctl], case [DIOCGDELETE]; [offset] and [length] are the
    two [off_t] of the argument. *)
Definition zvol_cdev_ioctl_DIOCGDELETE (unmap_enabled : bool)
    (o : sync_oracle) (offset length : Z) : M Z :=
  assert_ (fun zv => 0 <? zv_open_count zv) ;;
  if negb unmap_enabled then ret 0
  else
    zv <- get ;;
    if negb (Z.rem offset DEV_BSIZE =? 0)
       || negb (Z.rem length DEV_BSIZE =? 0)
       || (offset <? 0)
       || (zv_volsize zv <=? offset mod UINT64_MOD)
       || (length <=? 0)
    then ret EINVAL
    else
      m_rw_enter RW_READER ;;
      zvol_ensure_zilog (yo_upgrade_ok o) (yo_env o) (yo_zl o) ;;
      emit (EvRangelockEnter offset length false) ;;
      emit EvTxCreate ;;
      emit (EvTxAssign (yo_assign_err o)) ;;
      r <- (if negb (yo_assign_err o =? 0) then
              emit EvTxAbort ;; ret (yo_assign_err o, false)
            else
              sync <- m_os_sync_always ;;
              zvol_log_truncate offset length sync ;;
              emit EvTxCommit ;;
              emit (EvFreeLongRange offset length) ;;
              ret (yo_free_err o, sync)) ;;
      emit EvRangelockExit ;;
      when_ (snd r) (emit EvZilCommit) ;;
      m_rw_exit ;;
      ret (fst r).





(* ------------------------------------------------------------------ *)
(** ** Minor removal *)

(** [zv_name[namelen]], when [name] is a proper prefix of [zv_name]. *)
Definition name_selects (name : option string) (zvname : string) : bool :=
  match name with
  | None => true
  | Some n =>
      String.eqb zvname n
      || (String.prefix n zvname
          && match String.get (String.length n) zvname with
             | Some c => Ascii.eqb c "/"%char || Ascii.eqb c "@"%char
             | None => false
             end)
  end.

(** The loop of [zvol_remove_minors_impl] over [zvol_state_list]: the
    volumes left in the registry and the volumes unlinked and freed. *)
Fixpoint zvol_remove_minors_loop (name : option string)
    (l : list zvol_state) : list zvol_state * list zvol_state :=
  match l with
  | [] => ([], [])
  | zv :: rest =>
      let '(kept, freed) := zvol_remove_minors_loop name rest in
      if name_selects name (zv_name zv) then
        if (0 <? zv_open_count zv) || negb (zv_suspend_ref zv =? 0)
        then (zv :: kept, freed)
        else (kept, zv :: freed)
      else (zv :: kept, freed)
  end.

Definition zvol_remove_minors_impl (zvol_inhibit_dev : bool)
    (name : option string) (zvol_state_list : list zvol_state)
  : list zvol_state * list zvol_state :=
  if zvol_inhibit_dev then (zvol_state_list, [])
  else zvol_remove_minors_loop name zvol_state_list.

(* ------------------------------------------------------------------ *)
(** ** One volume under concurrent requests

    Every critical section of the pipeline runs under [zv_state_lock], so a
    run of the driver on one volume is an interleaving of the sections
    below.  Besides the volume the state records the contexts that own an
    admission slot and where they wait, the contexts of
    [zvol_geom_bio_async] that have read [zvol_dmu_max_active] as true and
    not yet tried the mutex, and two logs: the identifiers appended to
    [zv_deferred] and those removed from its head, both in order. *)

Record sys := mk_sys {
  s_zv : zvol_state;
  s_inflight : list (zvol_dmu_state * ctx_phase);
  s_prechecked : list zvol_dmu_state;
  s_enq_log : list Z;
  s_promoted : list Z
}.

Definition sys_with_zv (s : sys) (zv : zvol_state) : sys :=
  mk_sys zv (s_inflight s) (s_prechecked s) (s_enq_log s) (s_promoted s).

(** The state after a pipeline section that left [inflight] waiting and
    produced [r]. *)
Definition sys_apply (s : sys)
    (inflight : list (zvol_dmu_state * ctx_phase)) (r : init_result) : sys :=
  mk_sys (ir_zv r)
    (inflight
     ++ match ir_phase r with
        | Some ph => [(ir_zds r, ph)]
        | None => []
        end
     ++ map (fun d => (d, PhDispatched)) (ir_dispatched r))
    (s_prechecked s)
    (s_enq_log s ++ if ir_queued r then [zds_id (ir_zds r)] else [])
    (s_promoted s ++ map (fun d => zds_id d) (ir_dispatched r)).

Inductive sys_step (boot_ncpus : Z) : sys -> sys -> Prop :=
| step_arrive s zds o r :
    (* a new context enters zvol_dmu_ctx_init *)
    zds_retry zds = false ->
    zvol_dmu_ctx_init boot_ncpus o (s_zv s) zds = Some r ->
    sys_step boot_ncpus s (sys_apply s (s_inflight s) r)
| step_retry s l1 l2 zds o r :
    (* zvol_dmu_ctx_init_wrapper runs a dispatched context *)
    s_inflight s = l1 ++ (zds, PhDispatched) :: l2 ->
    zvol_dmu_ctx_init boot_ncpus o (s_zv s) zds = Some r ->
    sys_step boot_ncpus s (sys_apply s (l1 ++ l2) r)
| step_prefault_done s l1 l2 zds o :
    (* the prefault calls zvol_dmu_ctx_init_write_impl back *)
    s_inflight s = l1 ++ (zds, PhPrefault) :: l2 ->
    sys_step boot_ncpus s
      (sys_apply s (l1 ++ l2)
         (zvol_dmu_ctx_init_write_impl o true (o_prefault_err o)
            (s_zv s) zds))
| step_lock_granted s l1 l2 zds :
    (* the range lock calls zvol_dmu_issue back *)
    s_inflight s = l1 ++ (zds, PhLockWait) :: l2 ->
    sys_step boot_ncpus s
      (sys_apply s (l1 ++ l2)
         (ir_released 0 zds (zvol_dmu_issue (s_zv s) zds) []))
| step_issue s l1 l2 zds :
    (* zvol_geom_bio_dmu_ctx_init calls zvol_dmu_issue after a 0 return *)
    s_inflight s = l1 ++ (zds, PhLocked) :: l2 ->
    zds_retry zds = false ->
    sys_step boot_ncpus s
      (sys_apply s (l1 ++ l2)
         (ir_released 0 zds (zvol_dmu_issue (s_zv s) zds) []))
| step_precheck s zds :
    (* zvol_geom_bio_async reads zvol_dmu_max_active without the mutex *)
    zvol_dmu_max_active boot_ncpus (s_zv s) = true ->
    sys_step boot_ncpus s
      (mk_sys (s_zv s) (s_inflight s) (s_prechecked s ++ [zds])
              (s_enq_log s) (s_promoted s))
| step_bio_locked s l1 l2 zds :
    (* ... and then wins mutex_tryenter *)
    s_prechecked s = l1 ++ zds :: l2 ->
    sys_step boot_ncpus s
      (mk_sys (fst (zvol_geom_bio_async_locked (s_zv s) zds))
              (s_inflight s) (l1 ++ l2)
              (s_enq_log s
               ++ map (fun d => zds_id d)
                      (snd (zvol_geom_bio_async_locked (s_zv s) zds)))
              (s_promoted s))
| step_suspend s try_ok table ht name i zv' tr :
    nth_error (ht (zvol_name_hash table name)) i = Some (s_zv s) ->
    zvol_suspend (fun zv => zv) try_ok table ht name
      = Some (Some (i, zv'), tr) ->
    sys_step boot_ncpus s (sys_with_zv s zv')
| step_resume s o e zv' tr :
    zvol_resume o (s_zv s) = Some (e, zv', tr) ->
    sys_step boot_ncpus s (sys_with_zv s zv').

(** A freshly inserted minor that has been opened: nothing queued, nothing
    running, no reference held, no lock held. *)
Definition sys_initial (s : sys) : Prop :=
  zv_active (s_zv s) = 0 /\ zv_deferred (s_zv s) = [] /\
  zv_suspend_ref (s_zv s) = 0 /\ zv_suspend_lock (s_zv s) = RW_NONE /\
  zv_state_lock (s_zv s) = false /\
  s_inflight s = [] /\ s_prechecked s = [] /\
  s_enq_log s = [] /\ s_promoted s = [].

Inductive reachable (boot_ncpus : Z) : sys -> Prop :=
| reach_init s : sys_initial s -> reachable boot_ncpus s
| reach_step s s' :
    reachable boot_ncpus s -> sys_step boot_ncpus s s' ->
    reachable boot_ncpus s'.


(** Number of admission slots owned by the contexts a section leaves
    behind. *)
Definition ir_slots (r : init_result) : Z :=
  (match ir_phase r with Some _ => 1 | None => 0 end)
  + Z.of_nat (List.length (ir_dispatched r)).

Definition ids (l : list zvol_dmu_state) : list Z :=
  map (fun d => zds_id d) l.

(** What a section run by a context that owns a slot may do to the volume:
    keep the slot, hand it to the head of the queue, or give it back when
    the queue is empty. *)
Record slot_section (zv : zvol_state) (r : init_result) : Prop := {
  ss_ref : zv_suspend_ref (ir_zv r) = zv_suspend_ref zv;
  ss_rw : zv_suspend_lock (ir_zv r) = zv_suspend_lock zv;
  ss_mtx : zv_state_lock (ir_zv r) = zv_state_lock zv;
  ss_objset : zv_objset (ir_zv r) = zv_objset zv;
  ss_queued : ir_queued r = false;
  ss_active : zv_active (ir_zv r) = zv_active zv - 1 + ir_slots r;
  ss_fifo : ids (ir_dispatched r) ++ ids (zv_deferred (ir_zv r))
            = ids (zv_deferred zv);
  ss_keep : zv_deferred (ir_zv r) <> [] ->
            zv_active (ir_zv r) = zv_active zv;
  ss_le : zv_active (ir_zv r) <= zv_active zv;
  ss_retry : Forall (fun d => zds_retry d = true) (ir_dispatched r);
  ss_phase : ir_phase r <> Some PhDispatched
}.

(** The invariants of one volume under concurrent requests. *)
Record sys_inv (boot_ncpus : Z) (s : sys) : Prop := {
  inv_slots :
    zv_active (s_zv s) = Z.of_nat (List.length (s_inflight s));
  inv_bound : zv_active (s_zv s) <= boot_ncpus;
  inv_queue :
    zv_deferred (s_zv s) <> [] ->
    zv_active (s_zv s) = boot_ncpus \/ 1 < zv_active (s_zv s);
  inv_fifo :
    s_enq_log s = s_promoted s ++ ids (zv_deferred (s_zv s));
  inv_ref :
    Z.of_nat (List.length (zv_deferred (s_zv s)))
    + Z.of_nat (List.length (s_inflight s))
    + (if RW_WRITE_HELD (s_zv s) then 1 else 0)
    <= zv_suspend_ref (s_zv s);
  inv_retry :
    forall d, In (d, PhDispatched) (s_inflight s) -> zds_retry d = true
}.

(* ------------------------------------------------------------------ *)
(** ** Closed forms of suspend and resume

    The state and the events a run of [zvol_suspend] (after the lookup) and
    of [zvol_resume] ends with; the theorems below prove that the embedded
    functions compute them. *)

Definition shutdown_events (zv : zvol_state) : list event :=
  (if zv_written_to zv then [EvZilClose] else [])
  ++ [EvDnodeRele]
  ++ (if zv_written_to zv then [EvTxgWaitSynced] else [])
  ++ [EvEvictDbufs].

Definition zv_suspended (zv : zvol_state) : zvol_state :=
  let zv1 := zv_set_suspend_ref zv (zv_suspend_ref zv + 1) in
  zv_set_state_lock
    (if 0 <? zv_open_count zv then zv_set_dn (zv_set_zilog zv1 None) None
     else zv1) false.

Definition setup_error (o : setup_oracle) : Z :=
  if negb (so_prop_err o =? 0) then so_prop_err o
  else if negb (so_zap_err o =? 0) then so_zap_err o
  else so_dnode_err o.

Definition setup_events (o : setup_oracle) : list event :=
  if negb (so_prop_err o =? 0) then []
  else if negb (so_zap_err o =? 0) then []
  else
    EvDnodeHold (so_dnode_err o)
    :: (if negb (so_dnode_err o =? 0) then []
        else [EvSetCapacity (Z.shiftr (so_volsize o) 9);
              EvSetDiskRo (so_ro o || so_snapshot o
                           || negb (so_writeable o))]).

Definition zv_setup (o : setup_oracle) (zv : zvol_state) : zvol_state :=
  let zv1 := zv_set_written_to (zv_set_zilog zv None) false in
  if setup_error o =? 0 then
    zv_set_rdonly
      (zv_set_volsize (zv_set_dn zv1 (Some (so_dn o))) (so_volsize o))
      (so_ro o || so_snapshot o || negb (so_writeable o))
  else zv1.

Definition zv_resumed (o : setup_oracle) (zv : zvol_state) : zvol_state :=
  let body :=
    if 0 <? zv_open_count zv
    then zv_setup o (zv_set_objset (zv_set_state_lock zv true)
                       (Some (so_objset o)))
    else zv_set_state_lock zv true in
  zv_set_suspend_ref
    (zv_set_suspend_lock (zv_set_state_lock body false) RW_NONE)
    (zv_suspend_ref zv - 1).

Definition resume_events (o : setup_oracle) (zv : zvol_state)
  : list event :=
  [EvMutexEnter (L_state (zv_name zv))]
  ++ (if 0 <? zv_open_count zv
      then EvObjsetHold :: EvObjsetRele :: setup_events o else [])
  ++ [EvMutexExit (L_state (zv_name zv));
      EvRwExit (L_suspend (zv_name zv))].

Definition is_lock_event (e : event) : bool :=
  match e with
  | EvMutexEnter _ | EvMutexExit _ | EvRwEnter _ _ | EvRwTryEnter _ _ _
  | EvRwTryUpgrade _ _ | EvRwDowngrade _ | EvRwExit _ => true
  | _ => false
  end.

(** Bytes covered by a list of log records. *)
Definition itx_total (l : list itx) : Z :=
  fold_right (fun i a => lr_length i + a) 0 l.


(** Number of [zil_open] calls in a trace. *)
Definition is_zil_open (e : event) : bool :=
  match e with EvZilOpen => true | _ => false end.

Definition count_zil_open (tr : list event) : nat :=
  List.length (filter is_zil_open tr).

(* ------------------------------------------------------------------ *)
(** ** Block size check: [zvol_check_volblocksize] *)

(** Further error numbers (FreeBSD [sys/errno.h]; [ENOTSUP] is
    [EOPNOTSUPP] there). *)
Definition EBUSY : Z := 16.
Definition EDOM : Z := 33.
Definition ENOTSUP : Z := EOPNOTSUPP.

(** Limits of [sys/spa.h]: [1 << SPA_MINBLOCKSHIFT],
    [1 << SPA_OLD_MAXBLOCKSHIFT], [1 << SPA_MAXBLOCKSHIFT]. *)
Definition SPA_MINBLOCKSIZE : Z := Z.shiftl 1 9.
Definition SPA_OLD_MAXBLOCKSIZE : Z := Z.shiftl 1 17.
Definition SPA_MAXBLOCKSIZE : Z := Z.shiftl 1 24.

(** [ISP2(x)]: [((x) & ((x) - 1)) == 0] on [uint64_t]. *)
Definition ISP2 (x : Z) : bool := Z.land x (sub64 x 1) =? 0.

(** Calls on the pool handle. *)
Inductive spa_event :=
| EvSpaOpen (err : Z)
| EvSpaClose.

(** [zvol_check_volblocksize]; [open_err] is the result of [spa_open],
    [large_blocks] that of
    [spa_feature_is_enabled(spa, SPA_FEATURE_LARGE_BLOCKS)]. *)
Definition zvol_check_volblocksize (zfs_max_recordsize : Z)
    (open_err : Z) (large_blocks : bool) (volblocksize : Z)
  : Z * list spa_event :=
  let range_check :=
    if (volblocksize <? SPA_MINBLOCKSIZE)
       || (SPA_MAXBLOCKSIZE <? volblocksize)
       || negb (ISP2 volblocksize)
    then EDOM else 0 in
  if SPA_OLD_MAXBLOCKSIZE <? volblocksize then
    if negb (open_err =? 0) then (open_err, [EvSpaOpen open_err])
    else if negb large_blocks then (ENOTSUP, [EvSpaOpen 0; EvSpaClose])
    else if zfs_max_recordsize <? volblocksize then (EDOM, [EvSpaOpen 0])
    else (range_check, [EvSpaOpen 0; EvSpaClose])
  else (range_check, []).

(** Pool holds still open at the end of a trace. *)
Fixpoint spa_holds (tr : list spa_event) : Z :=
  match tr with
  | [] => 0
  | EvSpaOpen err :: tr' => (if err =? 0 then 1 else 0) + spa_holds tr'
  | EvSpaClose :: tr' => spa_holds tr' - 1
  end.
(* ------------------------------------------------------------------ *)
(** ** Layout of the records of one logged write *)

(** The offset reached when the records lie end to end from [start];
    [None] when one of them starts elsewhere. *)
Fixpoint itx_chain (start : Z) (l : list itx) : option Z :=
  match l with
  | [] => Some start
  | i :: l' =>
      if lr_offset i =? start then itx_chain (start + lr_length i) l'
      else None
  end.

(** The record lies inside one block of [blocksize] bytes. *)
Definition itx_in_block (blocksize : Z) (i : itx) : bool :=
  lr_offset i / blocksize =? (lr_offset i + lr_length i - 1) / blocksize.
(* ------------------------------------------------------------------ *)
(** ** Removal of one minor: [zvol_remove_minor_impl] *)

(** [zv->zv_open_count > 0 || atomic_read(&zv->zv_suspend_ref)]. *)
Definition zvol_in_use (zv : zvol_state) : bool :=
  (0 <? zv_open_count zv) || negb (zv_suspend_ref zv =? 0).

(** The loop of [zvol_remove_minor_impl] over [zvol_state_list]: it skips
    volumes with another name and volumes in use, and stops at the first
    idle volume called [name], which it unlinks.  The result is the list
    left and the volume handed to [zv_free], if any. *)
Fixpoint zvol_remove_minor_loop (name : string) (l : list zvol_state)
  : list zvol_state * option zvol_state :=
  match l with
  | [] => ([], None)
  | zv :: rest =>
      if String.eqb (zv_name zv) name then
        if zvol_in_use zv then
          let '(kept, freed) := zvol_remove_minor_loop name rest in
          (zv :: kept, freed)
        else (rest, Some zv)
      else
        let '(kept, freed) := zvol_remove_minor_loop name rest in
        (zv :: kept, freed)
  end.

Definition zvol_remove_minor_impl (zvol_inhibit_dev : bool) (name : string)
    (zvol_state_list : list zvol_state)
  : list zvol_state * option zvol_state :=
  if zvol_inhibit_dev then (zvol_state_list, None)
  else zvol_remove_minor_loop name zvol_state_list.
(* ------------------------------------------------------------------ *)
(** ** Replay of a logged write: [zvol_replay_write] *)

(** The fields of [lr_write_t] the replay reads; [lrw_blk_lsize] is
    [BP_GET_LSIZE(&lr->lr_blkptr)]. *)
Record lr_write := mk_lr_write {
  lrc_reclen : Z;
  lrw_offset : Z;
  lrw_length : Z;
  lrw_blk_lsize : Z
}.

(** [zvol_replay_write].  [sizeof_lr_write] is [sizeof (lr_write_t)],
    [byteswap_uint64_array] the in-place byte swap of the record and
    [assign_err] the result of [dmu_tx_assign]. *)
Definition zvol_replay_write (sizeof_lr_write : Z)
    (byteswap_uint64_array : lr_write -> lr_write) (assign_err : Z)
    (lr0 : lr_write) (byteswap : bool) : M Z :=
  zv <- get ;;
  match zv_objset zv with
  | None => fun _ => None
  | Some _ =>
      let lr := if byteswap then byteswap_uint64_array lr0 else lr0 in
      let blocksize := lrw_blk_lsize lr in
      let widen :=
        (lrc_reclen lr =? sizeof_lr_write) && (lrw_length lr <? blocksize) in
      let offset :=
        if widen
        then sub64 (lrw_offset lr) (lrw_offset lr mod blocksize)
        else lrw_offset lr in
      let length := if widen then blocksize else lrw_length lr in
      emit EvTxCreate ;;
      emit (EvTxAssign assign_err) ;;
      if negb (assign_err =? 0) then emit EvTxAbort ;; ret assign_err
      else
        emit (EvDmuWrite offset length) ;;
        emit EvTxCommit ;;
        ret assign_err
  end.

(* ------------------------------------------------------------------ *)
(** ** Calls beyond those of the pipeline *)

(** Events of the front end and of the administrative paths; [XEv] embeds
    the events above. *)
Inductive xevent :=
| XEv (e : event)
| XDmuRead (off len err : Z)      (* dmu_read_uio_dnode, dmu_read_by_dnode *)
| XSetBlocksize (bs err : Z)      (* dmu_object_set_blocksize *)
| XOffsetNext (hole : bool) (off err : Z)   (* dmu_offset_next *)
| XDbufHold (off err : Z)         (* dmu_buf_hold_by_dnode *)
| XDbufRele                       (* dmu_buf_rele *)
| XDmuSync (err : Z)              (* dmu_sync *)
| XNsTryEnter (ok : bool)         (* mutex_tryenter(&spa_namespace_lock) *)
| XNsEnter                        (* mutex_enter(&spa_namespace_lock) *)
| XNsExit                         (* mutex_exit(&spa_namespace_lock) *)
| XZilAsyncToSync                 (* zil_async_to_sync *)
| XTopologyLock                   (* g_topology_lock *)
| XTopologyUnlock
| XNewGeom (name : string)        (* g_new_geomf *)
| XNewProvider (name : string)    (* g_new_providerf *)
| XWitherProvider                 (* g_wither_provider *)
| XErrorProvider (err : Z)        (* g_error_provider *)
| XResizeProvider (size : Z)      (* g_resize_provider *)
| XMakeDev (name : string) (err : Z)   (* make_dev_s *)
| XDestroyDev                     (* destroy_dev *)
| XZilReplay                      (* zil_replay *)
| XZilDestroy                     (* zil_destroy *)
| XKstatsCreate                   (* dataset_kstats_create *)
| XZvolHold                       (* zvol_hold *)
| XZvolRele                       (* zvol_rele *)
| XKmemFree (id : Z)              (* kmem_free of a request state *)
| XObjsetOwn (ro : bool) (err : Z).   (* dmu_objset_own *)

(* ------------------------------------------------------------------ *)
(** ** Character device read: [zvol_cdev_read] *)



(** Range locks taken and not yet dropped at the end of a trace. *)
Fixpoint rangelocks_held (tr : list xevent) : Z :=
  match tr with
  | [] => 0
  | XEv (EvRangelockEnter _ _ _) :: tr' => rangelocks_held tr' + 1
  | XEv EvRangelockExit :: tr' => rangelocks_held tr' - 1
  | _ :: tr' => rangelocks_held tr'
  end.


(* ------------------------------------------------------------------ *)
(** ** Character device ioctl: [zvol_cdev_ioctl] *)

(** [ENOIOCTL] of FreeBSD's [sys/errno.h]. *)
Definition ENOIOCTL : Z := -3.

(** The commands the switch names, with the argument read from [data]. *)
Inductive ioctl_cmd :=
| DIOCGSECTORSIZE
| DIOCGMEDIASIZE
| DIOCGFLUSH
| DIOCGDELETE (offset length : Z)
| DIOCGSTRIPESIZE
| DIOCGSTRIPEOFFSET
| DIOCGATTR (name : string)
| FIOSEEKHOLE (off : Z)
| FIOSEEKDATA (off : Z)
| IOC_OTHER.

(** What the call stores through [data]. *)
Inductive ioctl_data :=
| DataNone
| DataU32 (v : Z)          (* stored as [uint32_t] *)
| DataOff (v : Z)          (* stored as [off_t] *)
| DataAttrInt (v : Z)      (* arg->value.i *)
| DataAttrOff (v : Z).     (* arg->value.off *)

(** Answers of the space accounting and of [dmu_offset_next]. *)
Record attr_oracle := mk_ao {
  ao_refd : Z;                       (* dmu_objset_space: refdbytes *)
  ao_avail : Z;                      (* dmu_objset_space: availbytes *)
  ao_class_space : Z;                (* metaslab_class_get_space *)
  ao_class_alloc : Z;                (* metaslab_class_get_alloc *)
  ao_offset_next : bool -> Z -> Z * Z   (* dmu_offset_next: error, offset *)
}.

Definition m_objset : M objset :=
  fun zv => match zv_objset zv with
            | Some os => Some (os, zv, [])
            | None => None
            end.

(** [zvol_cdev_ioctl]: the error and what was stored through [data]. *)
Definition zvol_cdev_ioctl (unmap_enabled : bool) (o : sync_oracle)
    (a : attr_oracle) (cmd : ioctl_cmd) : M (Z * ioctl_data) :=
  assert_ (fun zv => 0 <? zv_open_count zv) ;;
  zv <- get ;;
  match cmd with
  | DIOCGSECTORSIZE => ret (0, DataU32 DEV_BSIZE)
  | DIOCGMEDIASIZE => ret (0, DataOff (zv_volsize zv))
  | DIOCGFLUSH =>
      m_rw_enter RW_READER ;;
      zv <- get ;;
      when_ (match zv_zilog zv with Some _ => true | None => false end)
        (emit EvZilCommit) ;;
      m_rw_exit ;;
      ret (0, DataNone)
  | DIOCGDELETE offset length =>
      error <- zvol_cdev_ioctl_DIOCGDELETE unmap_enabled o offset length ;;
      ret (error, DataNone)
  | DIOCGSTRIPESIZE => ret (0, DataOff (zv_volblocksize zv))
  | DIOCGSTRIPEOFFSET => ret (0, DataOff 0)
  | DIOCGATTR name =>
      m_objset ;;
      if String.eqb name "GEOM::candelete" then ret (0, DataAttrInt 1)
      else if String.eqb name "blocksavail" then
        ret (0, DataAttrOff (ao_avail a / DEV_BSIZE))
      else if String.eqb name "blocksused" then
        ret (0, DataAttrOff (ao_refd a / DEV_BSIZE))
      else if String.eqb name "poolblocksavail" then
        ret (0, DataAttrOff
                  (sub64 (ao_class_space a) (ao_class_alloc a) / DEV_BSIZE))
      else if String.eqb name "poolblocksused" then
        ret (0, DataAttrOff (ao_class_alloc a / DEV_BSIZE))
      else ret (ENOIOCTL, DataNone)
  | FIOSEEKHOLE off =>
      m_objset ;;
      ret (fst (ao_offset_next a true off),
           DataOff (snd (ao_offset_next a true off)))
  | FIOSEEKDATA off =>
      m_objset ;;
      ret (fst (ao_offset_next a false off),
           DataOff (snd (ao_offset_next a false off)))
  | IOC_OTHER => ret (ENOIOCTL, DataNone)
  end.

(** Other threads leave the objset, the size and the name of the volume
    alone while the caller is blocked. *)
Definition env_keeps_geometry (env : zvol_state -> zvol_state) : Prop :=
  forall z,
    zv_objset (env z) = zv_objset z /\ zv_volsize (env z) = zv_volsize z /\
    zv_name (env z) = zv_name z /\ zv_open_count (env z) = zv_open_count z.
(* ------------------------------------------------------------------ *)
(** ** Counting calls in a trace *)


(* ------------------------------------------------------------------ *)
(** ** Entering the pipeline from a bio: [zvol_geom_bio_dmu_ctx_init] *)

(** [zvol_strategy_done(zss, err)]: drop the hold, complete the bio, free
    the request state. *)
Definition zvol_strategy_done (id err : Z) : list xevent :=
  [XZvolRele; XEv (EvDone err); XKmemFree id].

(** The error callback [zvol_geom_bio_async] installs in the context,
    [zvol_strategy_dmu_err]. *)
Definition zvol_strategy_dmu_err (id : Z) : list xevent :=
  zvol_strategy_done id ENXIO.

(** A pipeline trace with every call of the error callback followed by
    what [zvol_strategy_dmu_err] does. *)
Definition with_err_cb (tr : list event) : list xevent :=
  flat_map (fun e => match e with
                     | EvErrCb id _ => XEv e :: zvol_strategy_dmu_err id
                     | _ => [XEv e]
                     end) tr.

(** [zvol_geom_bio_dmu_ctx_init]: the outcome of the pipeline and the
    calls made, those of the error callback included. *)
Definition zvol_geom_bio_dmu_ctx_init (boot_ncpus : Z) (o : dmu_oracle)
    (zv : zvol_state) (zds : zvol_dmu_state)
  : option (init_result * list xevent) :=
  match zvol_dmu_ctx_init boot_ncpus o zv zds with
  | None => None
  | Some r =>
      let tr := with_err_cb (ir_trace r) in
      if ir_ret r =? EINPROGRESS then Some (r, tr)
      else if negb (ir_ret r =? 0) then
        Some (r, tr ++ zvol_strategy_done (zds_id zds) ENXIO)
      else
        let r' :=
          ir_released 0 (ir_zds r)
            (zvol_dmu_issue (ir_zv r) (ir_zds r)) [] in
        Some (mk_ir (ir_zv r') (ir_zds r') 0 None false
                (ir_dispatched r ++ ir_dispatched r')
                (ir_trace r ++ ir_trace r'),
              tr ++ with_err_cb (ir_trace r'))
  end.

Definition is_err_cb (e : event) : bool :=
  match e with EvErrCb _ _ => true | _ => false end.

(** Completions of the bio in a front-end trace, with their errors. *)
Fixpoint dones (tr : list xevent) : list Z :=
  match tr with
  | [] => []
  | XEv (EvDone err) :: tr' => err :: dones tr'
  | _ :: tr' => dones tr'
  end.

(** Times the request state [id] is freed in a trace. *)
Fixpoint frees (id : Z) (tr : list xevent) : nat :=
  match tr with
  | [] => O
  | XKmemFree i :: tr' =>
      ((if (i =? id)%Z then 1 else 0) + frees id tr')%nat
  | _ :: tr' => frees id tr'
  end.

(* ------------------------------------------------------------------ *)
(** ** The monad over any state, with the calls of the front end *)

Definition XM (S A : Type) : Type := S -> option (A * S * list xevent).

Definition xret {S A} (a : A) : XM S A := fun s => Some (a, s, []).

Definition xbind {S A B} (c : XM S A) (k : A -> XM S B) : XM S B :=
  fun s =>
    match c s with
    | None => None
    | Some (a, s1, t1) =>
        match k a s1 with
        | None => None
        | Some (b, s2, t2) => Some (b, s2, t1 ++ t2)
        end
    end.

Declare Scope xzvol_scope.
Delimit Scope xzvol_scope with X.
Notation "x <- c ;; k" := (xbind c (fun x => k))
  (at level 61, c at next level, right associativity) : xzvol_scope.
Notation "c ;; k" := (xbind c (fun _ => k))
  (at level 61, right associativity) : xzvol_scope.

Definition xget {S} : XM S S := fun s => Some (s, s, []).
Definition xmodify {S} (f : S -> S) : XM S unit :=
  fun s => Some (tt, f s, []).
Definition xemit {S} (e : xevent) : XM S unit := fun s => Some (tt, s, [e]).
Definition xassert {S} (b : S -> bool) : XM S unit :=
  fun s => if b s then Some (tt, s, []) else None.
Definition xwhen {S} (b : bool) (c : XM S unit) : XM S unit :=
  if b then c else xret tt.

(** A computation on the volume, run on the volume inside a larger
    state. *)
Definition xlift {S A} (proj : S -> zvol_state)
    (upd : S -> zvol_state -> S) (c : M A) : XM S A :=
  fun s =>
    match c (proj s) with
    | None => None
    | Some (a, zv', tr) => Some (a, upd s zv', map XEv tr)
    end.

Definition vlift {A} (c : M A) : XM zvol_state A :=
  xlift (fun zv => zv) (fun _ zv => zv) c.

(* ------------------------------------------------------------------ *)
(** ** Changing the block size: [zvol_set_volblocksize] *)

Definition zv_set_volblocksize (v : zvol_state) (x : Z) :=
  mk_zv (zv_name v) (zv_hash v) (zv_volsize v) x (zv_open_count v)
    (zv_suspend_ref v) (zv_active v) (zv_rdonly v) (zv_written_to v)
    (zv_changed v) (zv_objset v) (zv_dn v) (zv_zilog v) (zv_deferred v)
    (zv_suspend_lock v) (zv_state_lock v).

(** [zvol_set_volblocksize] once the lookup has returned the volume;
    [assign_err] and [set_err] are the results of [dmu_tx_assign] and
    [dmu_object_set_blocksize]. *)
Definition zvol_set_volblocksize_found (assign_err set_err : Z)
    (volblocksize : Z) : XM zvol_state Z :=
  (vlift (assert_ MUTEX_HELD) ;;
   vlift (assert_ RW_READ_HELD) ;;
   zv <- xget ;;
   if zv_rdonly zv then
     vlift m_mutex_exit ;;
     vlift m_rw_exit ;;
     xret EROFS
   else
     xemit (XEv EvTxCreate) ;;
     xemit (XEv (EvTxAssign assign_err)) ;;
     error <- (if negb (assign_err =? 0) then
                 xemit (XEv EvTxAbort) ;; xret assign_err
               else
                 xemit (XSetBlocksize volblocksize set_err) ;;
                 let error := if set_err =? ENOTSUP then EBUSY else set_err in
                 xemit (XEv EvTxCommit) ;;
                 xwhen (error =? 0)
                   (xmodify (fun zv => zv_set_volblocksize zv volblocksize)) ;;
                 xret error) ;;
     vlift m_mutex_exit ;;
     vlift m_rw_exit ;;
     xret error)%X.

(** [zvol_set_volblocksize]: the error, the volume found (with its place
    in the chain) as the call leaves it, and the calls made. *)
Definition zvol_set_volblocksize (env : zvol_state -> zvol_state)
    (try_ok : bool) (table : Z -> Z) (ht : Z -> list zvol_state)
    (assign_err set_err : Z) (name : string) (volblocksize : Z)
  : option (Z * option (nat * zvol_state) * list xevent) :=
  match zvol_find_by_name env try_ok table ht name RW_READER with
  | None => None
  | Some (None, tr) => Some (ENXIO, None, map XEv tr)
  | Some (Some (i, zv), tr) =>
      match zvol_set_volblocksize_found assign_err set_err volblocksize zv
      with
      | None => None
      | Some (e, zv', tr') => Some (e, Some (i, zv'), map XEv tr ++ tr')
      end
  end.

(** Calls of [dmu_object_set_blocksize] in a trace, with their sizes. *)
Fixpoint set_blocksize_calls (tr : list xevent) : list Z :=
  match tr with
  | [] => []
  | XSetBlocksize bs _ :: tr' => bs :: set_blocksize_calls tr'
  | _ :: tr' => set_blocksize_calls tr'
  end.
(* ------------------------------------------------------------------ *)
(** ** Data for a logged write: [zvol_get_data] *)

(** [P2ALIGN_TYPED(x, align, uint64_t)]. *)
Definition P2ALIGN (x align : Z) : Z :=
  Z.land x ((- align) mod UINT64_MOD).

(** [zvol_get_done]; [has_db] says whether [zgd->zgd_db] is set. *)
Definition zvol_get_done (zgd : Z) (has_db : bool) : list xevent :=
  (if has_db then [XDbufRele] else [])
  ++ [XEv EvRangelockExit; XKmemFree zgd].

(** [zvol_get_data] for the record at [offset] of [size] bytes;
    [immediate] is [buf != NULL], [zgd] names the [zgd_t] allocated, and
    [read_err], [hold_err] and [sync_err] are the results of
    [dmu_read_by_dnode], [dmu_buf_hold_by_dnode] and [dmu_sync].  When
    [dmu_sync] returns 0 it calls [zvol_get_done] itself later. *)
Definition zvol_get_data (zgd read_err hold_err sync_err : Z)
    (zv : zvol_state) (offset size : Z) (immediate : bool)
  : option (Z * list xevent) :=
  if size =? 0 then None                 (* ASSERT3U(size, !=, 0) *)
  else if immediate then
    Some (read_err,
          [XEv (EvRangelockEnter offset size true);
           XDmuRead offset size read_err]
          ++ zvol_get_done zgd false)
  else
    let size := zv_volblocksize zv in
    let offset := P2ALIGN offset size in
    let pre := [XEv (EvRangelockEnter offset size true);
                XDbufHold offset hold_err] in
    if hold_err =? 0 then
      if sync_err =? 0 then Some (0, pre ++ [XDmuSync sync_err])
      else Some (sync_err,
                 pre ++ [XDmuSync sync_err] ++ zvol_get_done zgd true)
    else Some (hold_err, pre ++ zvol_get_done zgd false).

(** Buffers held and not yet released at the end of a trace. *)
Fixpoint dbufs_held (tr : list xevent) : Z :=
  match tr with
  | [] => 0
  | XDbufHold _ err :: tr' => (if err =? 0 then 1 else 0) + dbufs_held tr'
  | XDbufRele :: tr' => dbufs_held tr' - 1
  | _ :: tr' => dbufs_held tr'
  end.
(* ------------------------------------------------------------------ *)
(** ** Asynchronous minor tasks: [zvol_task_alloc] *)

(** [strlcpy(dst, src, n)] into a zeroed field: the first [n - 1]
    characters of [src], all of it when it is shorter. *)
Fixpoint strtake (n : nat) (s : string) : string :=
  match n, s with
  | S n', String c s' => String c (strtake n' s')
  | _, _ => EmptyString
  end.

Definition strlcpy (src : string) (n : nat) : string :=
  strtake (n - 1) src.

(** [strchr(s, c)]: the index of the first [c] in [s]. *)
Fixpoint strchr (s : string) (c : ascii) : option nat :=
  match s with
  | EmptyString => None
  | String x s' =>
      if Ascii.eqb x c then Some O else option_map S (strchr s' c)
  end.



(* ------------------------------------------------------------------ *)
(** ** Opening and closing a volume ([zvol.c], [zvol_os.c]) *)

(** What the front end keeps beside the fields of [zvol_state]: the
    [ZVOL_EXCL] bit of [zv_flags], [zsd_sync_cnt], the fields of the GEOM
    provider, and whether the calling thread owns
    [spa_namespace_lock]. *)
Record zvol_os := mk_zo {
  zo_zv : zvol_state;
  zo_excl : bool;
  zo_sync_cnt : Z;
  zo_mediasize : Z;
  zo_stripesize : Z;
  zo_namespace : bool
}.

Definition zo_set_zv (s : zvol_os) (x : zvol_state) :=
  mk_zo x (zo_excl s) (zo_sync_cnt s) (zo_mediasize s) (zo_stripesize s)
    (zo_namespace s).
Definition zo_set_excl (s : zvol_os) (x : bool) :=
  mk_zo (zo_zv s) x (zo_sync_cnt s) (zo_mediasize s) (zo_stripesize s)
    (zo_namespace s).
Definition zo_set_sync_cnt (s : zvol_os) (x : Z) :=
  mk_zo (zo_zv s) (zo_excl s) x (zo_mediasize s) (zo_stripesize s)
    (zo_namespace s).
Definition zo_set_provider (s : zvol_os) (mediasize stripesize : Z) :=
  mk_zo (zo_zv s) (zo_excl s) (zo_sync_cnt s) mediasize stripesize
    (zo_namespace s).
Definition zo_set_namespace (s : zvol_os) (x : bool) :=
  mk_zo (zo_zv s) (zo_excl s) (zo_sync_cnt s) (zo_mediasize s)
    (zo_stripesize s) x.

Definition zv_set_open_count (v : zvol_state) (x : Z) :=
  mk_zv (zv_name v) (zv_hash v) (zv_volsize v) (zv_volblocksize v) x
    (zv_suspend_ref v) (zv_active v) (zv_rdonly v) (zv_written_to v)
    (zv_changed v) (zv_objset v) (zv_dn v) (zv_zilog v) (zv_deferred v)
    (zv_suspend_lock v) (zv_state_lock v).

Definition olift {A} (c : M A) : XM zvol_os A := xlift zo_zv zo_set_zv c.

(** Results of the calls an open or a close makes.  [oo_env] is what the
    other threads do to the volume while the caller has dropped the state
    lock and waits for the suspend lock. *)
Record open_oracle := mk_oo {
  oo_try_ok : bool;            (* rw_tryenter(&zv->zv_suspend_lock) *)
  oo_env : zvol_os -> zvol_os;
  oo_ns_try_ok : bool;         (* mutex_tryenter(&spa_namespace_lock) *)
  oo_own_err : Z;              (* dmu_objset_own *)
  oo_setup : setup_oracle;     (* [so_objset] is the objset owned *)
  oo_incompatible : bool  (* dmu_objset_incompatible_encryption_version *)
}.

(** Other threads cannot alter what the caller itself holds. *)
Definition os_interfere (env : zvol_os -> zvol_os) (s : zvol_os)
  : zvol_os :=
  zo_set_namespace
    (zo_set_zv (env s)
       (zv_set_state_lock
          (zv_set_suspend_lock (zo_zv (env s)) (zv_suspend_lock (zo_zv s)))
          (zv_state_lock (zo_zv s))))
    (zo_namespace s).

Definition m_rw_tryenter (ok : bool) (mode : krw_t) : M bool :=
  fun zv =>
    let '(zv', b) := rw_tryenter ok zv mode in
    Some (b, zv', [EvRwTryEnter (L_suspend (zv_name zv)) mode b]).

(** [strchr(name, '@') != NULL]. *)
Definition is_snapshot_name (name : string) : bool :=
  match strchr name "@" with Some _ => true | None => false end.

(** [zvol_first_open] from [dmu_objset_own] on; [locked] says whether the
    function took [spa_namespace_lock] itself. *)
Definition zvol_first_open_own (o : open_oracle) (readonly locked : bool)
  : XM zvol_os Z :=
  (s <- xget ;;
   let ro := readonly || is_snapshot_name (zv_name (zo_zv s)) in
   xemit (XObjsetOwn ro (oo_own_err o)) ;;
   error <- (if negb (oo_own_err o =? 0) then xret (oo_own_err o)
             else
               olift (modify (fun zv =>
                 zv_set_objset zv (Some (so_objset (oo_setup o))))) ;;
               error <- olift (zvol_setup_zv (oo_setup o)) ;;
               xwhen (negb (error =? 0))
                 (xemit (XEv EvObjsetDisown) ;;
                  olift (modify (fun zv => zv_set_objset zv None))) ;;
               xret error) ;;
   xwhen locked
     (xemit XNsExit ;; xmodify (fun s => zo_set_namespace s false)) ;;
   xret error)%X.

Definition zvol_first_open (o : open_oracle) (readonly : bool)
  : XM zvol_os Z :=
  (olift (assert_ RW_READ_HELD) ;;
   olift (assert_ MUTEX_HELD) ;;
   s <- xget ;;
   if negb (zo_namespace s) then
     xemit (XNsTryEnter (oo_ns_try_ok o)) ;;
     if negb (oo_ns_try_ok o) then xret EINTR
     else
       xmodify (fun s => zo_set_namespace s true) ;;
       zvol_first_open_own o readonly true
   else zvol_first_open_own o readonly false)%X.

Definition zvol_last_close : XM zvol_os unit :=
  (olift (assert_ RW_READ_HELD) ;;
   olift (assert_ MUTEX_HELD) ;;
   olift zvol_shutdown_zv ;;
   xemit (XEv EvObjsetDisown) ;;
   olift (modify (fun zv => zv_set_objset zv None)))%X.

(** The calls [zvol_first_open] makes once it has the namespace lock. *)
Definition first_open_own_events (o : open_oracle) (ro locked : bool)
  : list xevent :=
  [XObjsetOwn ro (oo_own_err o)]
  ++ (if negb (oo_own_err o =? 0) then []
      else map XEv (setup_events (oo_setup o))
           ++ (if setup_error (oo_setup o) =? 0 then []
               else [XEv EvObjsetDisown]))
  ++ (if locked then [XNsExit] else []).

Definition first_open_error (o : open_oracle) : Z :=
  if negb (oo_own_err o =? 0) then oo_own_err o
  else setup_error (oo_setup o).

Definition first_open_zv (o : open_oracle) (zv : zvol_state) : zvol_state :=
  if negb (oo_own_err o =? 0) then zv
  else
    let zv1 :=
      zv_setup (oo_setup o)
        (zv_set_objset zv (Some (so_objset (oo_setup o)))) in
    if setup_error (oo_setup o) =? 0 then zv1 else zv_set_objset zv1 None.

(** The acquisition of the suspend lock the four entry points share:
    with the state lock held, when [test] holds try the suspend lock as
    reader; if that fails drop the state lock, take the suspend lock
    blocking, retake the state lock and give the suspend lock back when
    [recheck] says it is not needed after all.  The value is
    [drop_suspend]. *)
Definition enter_suspend_if (o : open_oracle)
    (test recheck : zvol_state -> bool) : XM zvol_os bool :=
  (s <- xget ;;
   if test (zo_zv s) then
     ok <- olift (m_rw_tryenter (oo_try_ok o) RW_READER) ;;
     if ok then xret true
     else
       olift m_mutex_exit ;;
       xmodify (os_interfere (oo_env o)) ;;
       olift (m_rw_enter RW_READER) ;;
       olift m_mutex_enter ;;
       s <- xget ;;
       if recheck (zo_zv s) then olift m_rw_exit ;; xret false
       else xret true
   else xret false)%X.

(** The [flags] of an open or a close that the driver looks at. *)
Record open_flags := mk_fl {
  fl_write : bool;            (* FWRITE *)
  fl_excl : bool;             (* FEXCL *)
  fl_sync : bool              (* FSYNC | FDSYNC *)
}.

(** The exits [out_locked] and [out_opened] of [zvol_cdev_open]
    ([out_mutex] and [out_open_count] of [zvol_geom_open], which also
    drops the namespace lock it took). *)
Definition zvol_open_out_locked (drop_namespace drop_suspend : bool)
    (err : Z) : XM zvol_os Z :=
  (xwhen drop_namespace
     (xemit XNsExit ;; xmodify (fun s => zo_set_namespace s false)) ;;
   olift m_mutex_exit ;;
   xwhen drop_suspend (olift m_rw_exit) ;;
   xret err)%X.

Definition zvol_open_out_opened (drop_namespace drop_suspend : bool)
    (err : Z) : XM zvol_os Z :=
  (s <- xget ;;
   xwhen (zv_open_count (zo_zv s) =? 0) zvol_last_close ;;
   zvol_open_out_locked drop_namespace drop_suspend err)%X.

(** [zvol_cdev_open] from the check of [FWRITE] on. *)
Definition zvol_cdev_open_checks (fl : open_flags) (drop_suspend : bool)
  : XM zvol_os Z :=
  (s <- xget ;;
   if fl_write fl && zv_rdonly (zo_zv s) then
     zvol_open_out_opened false drop_suspend EROFS
   else if zo_excl s then
     zvol_open_out_opened false drop_suspend EBUSY
   else if fl_excl fl && negb (zv_open_count (zo_zv s) =? 0) then
     zvol_open_out_opened false drop_suspend EBUSY
   else
     xwhen (fl_excl fl) (xmodify (fun s => zo_set_excl s true)) ;;
     olift (modify (fun zv =>
       zv_set_open_count zv (zv_open_count zv + 1))) ;;
     xwhen (fl_sync fl)
       (xmodify (fun s => zo_set_sync_cnt s (zo_sync_cnt s + 1)) ;;
        s <- xget ;;
        xwhen (zo_sync_cnt s =? 1) (xemit XZilAsyncToSync)) ;;
     olift m_mutex_exit ;;
     xwhen drop_suspend (olift m_rw_exit) ;;
     xret 0)%X.

(** [zvol_cdev_open] from [rw_exit(&zvol_state_lock)] on. *)
Definition zvol_cdev_open_locked (o : open_oracle) (fl : open_flags)
    (drop_suspend : bool) : XM zvol_os Z :=
  (xemit (XEv (EvRwExit L_zvol_state_lock)) ;;
   olift (assert_ MUTEX_HELD) ;;
   s <- xget ;;
   err <- (if zv_open_count (zo_zv s) =? 0 then
             olift (assert_ RW_READ_HELD) ;;
             zvol_first_open o (negb (fl_write fl))
           else xret 0) ;;
   if negb (err =? 0) then zvol_open_out_locked false drop_suspend err
   else zvol_cdev_open_checks fl drop_suspend)%X.

(** [zvol_cdev_open] on a device whose [si_drv2] is set. *)
Definition zvol_cdev_open_zv (o : open_oracle) (fl : open_flags)
  : XM zvol_os Z :=
  (xemit (XEv (EvRwEnter L_zvol_state_lock RW_READER)) ;;
   olift m_mutex_enter ;;
   drop_suspend <-
     enter_suspend_if o (fun zv => zv_open_count zv =? 0)
       (fun zv => negb (zv_open_count zv =? 0)) ;;
   zvol_cdev_open_locked o fl drop_suspend)%X.

(** [zvol_cdev_open]; [None] is a device whose [si_drv2] is [NULL]. *)
Definition zvol_cdev_open (o : open_oracle) (fl : open_flags)
    (dev : option zvol_os) : option (Z * option zvol_os * list xevent) :=
  match dev with
  | None =>
      Some (ENXIO, None,
            [XEv (EvRwEnter L_zvol_state_lock RW_READER);
             XEv (EvRwExit L_zvol_state_lock)])
  | Some s =>
      match zvol_cdev_open_zv o fl s with
      | None => None
      | Some (e, s', tr) => Some (e, Some s', tr)
      end
  end.

(** [zvol_cdev_close] from [rw_exit(&zvol_state_lock)] on. *)
Definition zvol_cdev_close_locked (fl : open_flags) (drop_suspend : bool)
  : XM zvol_os Z :=
  (xemit (XEv (EvRwExit L_zvol_state_lock)) ;;
   olift (assert_ MUTEX_HELD) ;;
   olift (modify (fun zv =>
     zv_set_open_count zv (zv_open_count zv - 1))) ;;
   xwhen (fl_sync fl)
     (xmodify (fun s => zo_set_sync_cnt s (zo_sync_cnt s - 1))) ;;
   s <- xget ;;
   xwhen (zv_open_count (zo_zv s) =? 0)
     (olift (assert_ RW_READ_HELD) ;; zvol_last_close) ;;
   olift m_mutex_exit ;;
   xwhen drop_suspend (olift m_rw_exit) ;;
   xret 0)%X.

(** [zvol_cdev_close] on a device whose [si_drv2] is set. *)
Definition zvol_cdev_close_zv (o : open_oracle) (fl : open_flags)
  : XM zvol_os Z :=
  (xemit (XEv (EvRwEnter L_zvol_state_lock RW_READER)) ;;
   olift m_mutex_enter ;;
   s <- xget ;;
   xwhen (zo_excl s)
     (xassert (fun s => zv_open_count (zo_zv s) =? 1) ;;
      xmodify (fun s => zo_set_excl s false)) ;;
   xassert (fun s => 0 <? zv_open_count (zo_zv s)) ;;
   drop_suspend <-
     enter_suspend_if o (fun zv => zv_open_count zv =? 1)
       (fun zv => negb (zv_open_count zv =? 1)) ;;
   zvol_cdev_close_locked fl drop_suspend)%X.

Definition zvol_cdev_close (o : open_oracle) (fl : open_flags)
    (dev : option zvol_os) : option (Z * option zvol_os * list xevent) :=
  match dev with
  | None =>
      Some (ENXIO, None,
            [XEv (EvRwEnter L_zvol_state_lock RW_READER);
             XEv (EvRwExit L_zvol_state_lock)])
  | Some s =>
      match zvol_cdev_close_zv o fl s with
      | None => None
      | Some (e, s', tr) => Some (e, Some s', tr)
      end
  end.

(** Datasets owned and not yet disowned at the end of a trace. *)
Fixpoint objsets_owned (tr : list xevent) : Z :=
  match tr with
  | [] => 0
  | XObjsetOwn _ err :: tr' =>
      (if err =? 0 then 1 else 0) + objsets_owned tr'
  | XEv EvObjsetDisown :: tr' => objsets_owned tr' - 1
  | _ :: tr' => objsets_owned tr'
  end.

(** A volume nobody has open, as [zvol_last_close] or the creation of the
    minor leaves it, with none of its locks held by the caller. *)
Definition zv_closed (zv : zvol_state) : Prop :=
  zv_open_count zv = 0 /\ zv_objset zv = None /\ zv_dn zv = None /\
  zv_zilog zv = None.

Definition zv_unlocked (zv : zvol_state) : Prop :=
  zv_state_lock zv = false /\ zv_suspend_lock zv = RW_NONE.

(** The state with the caller's hold on the two locks of the volume
    replaced. *)
Definition zo_locks (s : zvol_os) (state_lock : bool) (suspend : krw_t)
  : zvol_os :=
  zo_set_zv s
    (zv_set_state_lock (zv_set_suspend_lock (zo_zv s) suspend) state_lock).

(** Events of the locks of the volume and of the registry. *)
Definition is_lock_xevent (x : xevent) : bool :=
  match x with
  | XEv e => is_lock_event e
  | _ => false
  end.

(** The volume as [zvol_last_close] leaves it. *)
Definition zo_last_closed (s : zvol_os) : zvol_os :=
  zo_set_zv s
    (zv_set_objset (zv_set_dn (zv_set_zilog (zo_zv s) None) None) None).

(** The volume as an entry point sees it once it holds the locks it
    needs: as the caller passed it when the entry point did not have to
    wait for the suspend lock, as the other threads left it otherwise. *)
Definition open_view (o : open_oracle) (test : Z -> bool) (s : zvol_os)
  : zvol_os :=
  if test (zv_open_count (zo_zv s)) && negb (oo_try_ok o)
  then os_interfere (oo_env o) s else s.

(** The volume after an open of [count] references has succeeded. *)
Definition zo_opened (fl : open_flags) (count : Z) (s : zvol_os)
  : zvol_os :=
  zo_set_sync_cnt
    (zo_set_zv (if fl_excl fl then zo_set_excl s true else s)
       (zv_set_open_count (zo_zv s) (zv_open_count (zo_zv s) + count)))
    (zo_sync_cnt s + (if fl_sync fl then 1 else 0)).

(** The error of the checks an open makes once the volume is set up;
    [incompatible] is the result of
    [dmu_objset_incompatible_encryption_version], which only
    [zvol_geom_open] asks for. *)
Definition open_check_error (fl : open_flags) (incompatible : bool)
    (s : zvol_os) : Z :=
  if fl_write fl && (zv_rdonly (zo_zv s) || incompatible) then EROFS
  else if zo_excl s then EBUSY
  else if fl_excl fl && negb (zv_open_count (zo_zv s) =? 0) then EBUSY
  else 0.

(* ------------------------------------------------------------------ *)
(** ** The registry of minors ([zvol.c], [zvol_os.c]) *)

(** [zvol_state_list] and [zvol_htable] link the volumes through nodes
    embedded in them: the registry holds addresses, [reg_zv] is the
    volume at an address.  [zvol_state_lock] is the mode in which the
    calling thread holds the registry lock. *)
Record registry := mk_reg {
  reg_zv : Z -> zvol_state;
  zvol_state_list : list Z;
  zvol_htable : Z -> list Z;
  zvol_state_lock : krw_t;
  zvol_minors : Z
}.

Definition reg_set_zv (r : registry) (p : Z) (zv : zvol_state) : registry :=
  mk_reg (fun q => if q =? p then zv else reg_zv r q) (zvol_state_list r)
    (zvol_htable r) (zvol_state_lock r) (zvol_minors r).

Definition reg_set_htable (r : registry) (ht : Z -> list Z) : registry :=
  mk_reg (reg_zv r) (zvol_state_list r) ht (zvol_state_lock r)
    (zvol_minors r).

Definition reg_set_lock (r : registry) (m : krw_t) : registry :=
  mk_reg (reg_zv r) (zvol_state_list r) (zvol_htable r) m (zvol_minors r).


(** [hlist_add_head] and [hlist_del] on the table; a node is linked in
    one chain at most. *)
Definition hlist_add_head (ht : Z -> list Z) (head p : Z) : Z -> list Z :=
  fun i => if i =? head then p :: ht i else ht i.

Definition hlist_del (ht : Z -> list Z) (p : Z) : Z -> list Z :=
  fun i => remove Z.eq_dec p (ht i).

(** The chain [ZVOL_HT_HEAD(hash)] as [zvol_find_by_name_hash] walks it;
    [ht_head] maps a hash to the index of its head in [zvol_htable]. *)
Definition reg_ht (ht_head : Z -> Z) (r : registry) (hash : Z)
  : list zvol_state :=
  map (reg_zv r) (zvol_htable r (ht_head hash)).

(** [zvol_insert]. *)
Definition zvol_insert (ht_head : Z -> Z) (p : Z) : XM registry unit :=
  (xassert (fun r => krw_eqb (zvol_state_lock r) RW_WRITER) ;;
   xmodify (fun r =>
     mk_reg (reg_zv r) (p :: zvol_state_list r)
       (hlist_add_head (zvol_htable r) (ht_head (zv_hash (reg_zv r p))) p)
       (zvol_state_lock r) (zvol_minors r)))%X.

(** [zvol_remove]. *)
Definition zvol_remove (p : Z) : XM registry unit :=
  (xassert (fun r => krw_eqb (zvol_state_lock r) RW_WRITER) ;;
   xmodify (fun r =>
     mk_reg (reg_zv r) (remove Z.eq_dec p (zvol_state_list r))
       (hlist_del (zvol_htable r) p)
       (zvol_state_lock r) (zvol_minors r)))%X.

(** [rw_enter] and [rw_exit] on [zvol_state_lock]. *)
Definition reg_rw_enter (mode : krw_t) : XM registry unit :=
  fun r =>
    match mode, zvol_state_lock r with
    | RW_NONE, _ => None
    | _, RW_NONE =>
        Some (tt, reg_set_lock r mode,
              [XEv (EvRwEnter L_zvol_state_lock mode)])
    | _, _ => None
    end.

Definition reg_rw_exit : XM registry unit :=
  fun r =>
    match zvol_state_lock r with
    | RW_NONE => None
    | _ => Some (tt, reg_set_lock r RW_NONE,
                 [XEv (EvRwExit L_zvol_state_lock)])
    end.


Inductive volmode_t :=
| ZFS_VOLMODE_DEFAULT | ZFS_VOLMODE_GEOM | ZFS_VOLMODE_DEV
| ZFS_VOLMODE_NONE.

Definition volmode_eqb (a b : volmode_t) : bool :=
  match a, b with
  | ZFS_VOLMODE_DEFAULT, ZFS_VOLMODE_DEFAULT
  | ZFS_VOLMODE_GEOM, ZFS_VOLMODE_GEOM
  | ZFS_VOLMODE_DEV, ZFS_VOLMODE_DEV
  | ZFS_VOLMODE_NONE, ZFS_VOLMODE_NONE => true
  | _, _ => false
  end.


(** A [NULL] pointer is dereferenced. *)
Definition xfail {S A} : XM S A := fun _ => None.




(** A registry whose volumes the caller holds no lock of, in which the
    address [p] is not linked. *)
Definition reg_unlocked (r : registry) : Prop :=
  forall q, zv_state_lock (reg_zv r q) = false /\
            zv_suspend_lock (reg_zv r q) = RW_NONE.

Definition reg_fresh (r : registry) (p : Z) : Prop :=
  ~ In p (zvol_state_list r) /\ forall i, ~ In p (zvol_htable r i).

(* ------------------------------------------------------------------ *)
(** ** Renaming minors: [zvol_rename_minor], [zvol_rename_minors_impl] *)

Definition zv_set_name (v : zvol_state) (x : string) :=
  mk_zv x (zv_hash v) (zv_volsize v) (zv_volblocksize v) (zv_open_count v)
    (zv_suspend_ref v) (zv_active v) (zv_rdonly v) (zv_written_to v)
    (zv_changed v) (zv_objset v) (zv_dn v) (zv_zilog v) (zv_deferred v)
    (zv_suspend_lock v) (zv_state_lock v).

Definition zv_set_hash (v : zvol_state) (x : Z) :=
  mk_zv (zv_name v) x (zv_volsize v) (zv_volblocksize v) (zv_open_count v)
    (zv_suspend_ref v) (zv_active v) (zv_rdonly v) (zv_written_to v)
    (zv_changed v) (zv_objset v) (zv_dn v) (zv_zilog v) (zv_deferred v)
    (zv_suspend_lock v) (zv_state_lock v).

(** A GEOM provider, by the dataset name it was made for, and what a
    rename reads of the front end of a volume: the [ZVOL_EXCL] bit of
    [zv_flags], [zso_volmode], [zsg_provider] and [zsd_cdev] (the device,
    by the dataset name it was made for). *)
Record g_provider := mk_pp {
  pp_name : string;
  pp_mediasize : Z
}.

Record minor_os := mk_mo {
  mo_excl : bool;
  zso_volmode : volmode_t;
  zsg_provider : option g_provider;
  zsd_cdev : option string
}.

Definition mo_set_excl (m : minor_os) (x : bool) :=
  mk_mo x (zso_volmode m) (zsg_provider m) (zsd_cdev m).
Definition mo_set_provider (m : minor_os) (x : option g_provider) :=
  mk_mo (mo_excl m) (zso_volmode m) x (zsd_cdev m).
Definition mo_set_cdev (m : minor_os) (x : option string) :=
  mk_mo (mo_excl m) (zso_volmode m) (zsg_provider m) x.

(** The registry together with the front ends of its volumes. *)
Record rename_state := mk_rs {
  rs_reg : registry;
  rs_os : Z -> minor_os
}.

Definition rs_set_reg (s : rename_state) (r : registry) :=
  mk_rs r (rs_os s).
Definition rs_set_os (s : rename_state) (p : Z) (m : minor_os) :=
  mk_rs (rs_reg s) (fun q => if q =? p then m else rs_os s q).
Definition rs_set_zv (s : rename_state) (p : Z) (zv : zvol_state) :=
  rs_set_reg s (reg_set_zv (rs_reg s) p zv).

(** A computation on one volume, run on the volume at the address [p]. *)
Definition rlift {A} (p : Z) (c : M A) : XM rename_state A :=
  xlift (fun s => reg_zv (rs_reg s) p) (fun s zv => rs_set_zv s p zv) c.

(** [zvol_last_close] on the volume at the address [p]. *)
Definition zvol_last_close_at (p : Z) : XM rename_state unit :=
  (rlift p (assert_ RW_READ_HELD) ;;
   rlift p (assert_ MUTEX_HELD) ;;
   rlift p zvol_shutdown_zv ;;
   xemit (XEv EvObjsetDisown) ;;
   rlift p (modify (fun zv => zv_set_objset zv None)))%X.

(** [zvol_rename_minor] on the volume at the address [p];
    [zv_name_size] is [sizeof (zv->zv_name)], the structure being declared
    in [zvol_impl.h], and [make_dev_err] is the result of [make_dev_s].
    A provider made by [g_new_providerf] always has its [geom]. *)
Definition zvol_rename_minor (table : Z -> Z) (ht_head : Z -> Z)
    (zv_name_size : nat) (make_dev_err : Z) (p : Z) (newname : string)
  : XM rename_state unit :=
  (xassert (fun s => negb (krw_eqb (zvol_state_lock (rs_reg s)) RW_NONE)) ;;
   rlift p (assert_ MUTEX_HELD) ;;
   (* move to new hashtable entry *)
   xmodify (fun s =>
     let r := rs_reg s in
     let zv := reg_zv r p in
     let hash := zvol_name_hash table (zv_name zv) in
     rs_set_reg s
       (reg_set_htable (reg_set_zv r p (zv_set_hash zv hash))
          (hlist_add_head (hlist_del (zvol_htable r) p) (ht_head hash)
             p))) ;;
   s <- xget ;;
   let zso := rs_os s p in
   (if volmode_eqb (zso_volmode zso) ZFS_VOLMODE_GEOM then
      match zsg_provider zso with
      | None => xfail
      | Some _ =>
          xemit XTopologyLock ;;
          xmodify (fun s => rs_set_os s p
                              (mo_set_provider (rs_os s p) None)) ;;
          xemit XWitherProvider ;;
          xemit (XNewProvider newname) ;;
          xmodify (fun s =>
            rs_set_os s p
              (mo_set_provider (rs_os s p)
                 (Some (mk_pp newname
                          (zv_volsize (reg_zv (rs_reg s) p)))))) ;;
          xemit (XErrorProvider 0) ;;
          xemit XTopologyUnlock
      end
    else if volmode_eqb (zso_volmode zso) ZFS_VOLMODE_DEV then
      match zsd_cdev zso with
      | Some _ =>
          xemit XDestroyDev ;;
          xmodify (fun s => rs_set_os s p
                              (mo_set_cdev (rs_os s p) None)) ;;
          if 0 <? zv_open_count (reg_zv (rs_reg s) p) then
            xmodify (fun s => rs_set_os s p
                                (mo_set_excl (rs_os s p) false)) ;;
            rlift p (modify (fun zv => zv_set_open_count zv 0)) ;;
            (* XXX  need suspend lock but lock order *)
            zvol_last_close_at p
          else xret tt
      | None => xret tt
      end ;;
      xemit (XMakeDev newname make_dev_err) ;;
      xwhen (make_dev_err =? 0)
        (xmodify (fun s => rs_set_os s p
                             (mo_set_cdev (rs_os s p) (Some newname))))
    else xret tt) ;;
   rlift p (modify (fun zv =>
     zv_set_name zv (strlcpy newname zv_name_size))))%X.

(** [s + n] for a string [s]. *)
Fixpoint strdrop (n : nat) (s : string) : string :=
  match n, s with
  | S n', String _ s' => strdrop n' s'
  | _, _ => s
  end.

(** The body of the loop of [zvol_rename_minors_impl] for the volume at
    the address [p]; [make_dev_err] gives the result of [make_dev_s] for
    a name. *)
Definition zvol_rename_minors_body (table : Z -> Z) (ht_head : Z -> Z)
    (zv_name_size : nat) (make_dev_err : string -> Z)
    (oldname newname : string) (p : Z)
  : XM rename_state unit :=
  (rlift p m_mutex_enter ;;
   s <- xget ;;
   let zv_name := zv_name (reg_zv (rs_reg s) p) in
   let oldnamelen := String.length oldname in
   (if String.eqb zv_name oldname then
      zvol_rename_minor table ht_head zv_name_size (make_dev_err newname)
        p newname
    else if strncmp_eq zv_name oldname oldnamelen
            && match String.get oldnamelen zv_name with
               | Some c => Ascii.eqb c "/"%char || Ascii.eqb c "@"%char
               | None => false
               end then
      let name :=
        (newname
         ++ match String.get oldnamelen zv_name with
            | Some c => String c (strdrop (S oldnamelen) zv_name)
            | None => EmptyString
            end)%string in
      zvol_rename_minor table ht_head zv_name_size (make_dev_err name) p
        name
    else xret tt) ;;
   rlift p m_mutex_exit)%X.

(** The loop over [zvol_state_list]. *)
Fixpoint zvol_rename_minors_loop (table : Z -> Z) (ht_head : Z -> Z)
    (zv_name_size : nat) (make_dev_err : string -> Z)
    (oldname newname : string) (l : list Z)
  : XM rename_state unit :=
  match l with
  | [] => xret tt
  | p :: rest =>
      (zvol_rename_minors_body table ht_head zv_name_size make_dev_err
         oldname newname p ;;
       zvol_rename_minors_loop table ht_head zv_name_size make_dev_err
         oldname newname rest)%X
  end.

(** [rw_enter] and [rw_exit] on [zvol_state_lock] from a rename. *)
Definition rs_lift {A} (c : XM registry A) : XM rename_state A :=
  fun s =>
    match c (rs_reg s) with
    | None => None
    | Some (a, r', tr) => Some (a, rs_set_reg s r', tr)
    end.

(** [zvol_rename_minors_impl]. *)
Definition zvol_rename_minors_impl (zvol_inhibit_dev : bool)
    (table : Z -> Z) (ht_head : Z -> Z) (zv_name_size : nat)
    (make_dev_err : string -> Z) (oldname newname : string)
  : XM rename_state unit :=
  if zvol_inhibit_dev then xret tt
  else
    (rs_lift (reg_rw_enter RW_READER) ;;
     s <- xget ;;
     zvol_rename_minors_loop table ht_head zv_name_size make_dev_err
       oldname newname (zvol_state_list (rs_reg s)) ;;
     rs_lift reg_rw_exit)%X.

(** The name a rename of [oldname] to [newname] gives a volume called
    [zvname], when it renames it. *)
Definition rename_target (oldname newname zvname : string)
  : option string :=
  if String.eqb zvname oldname then Some newname
  else if name_selects (Some oldname) zvname
  then Some (newname ++ strdrop (String.length oldname) zvname)%string
  else None.

(** A volume a rename can handle with the state lock alone: its
    provider exists, and its device, if it has one, is not open. *)
Definition rename_simple (s : rename_state) (p : Z) : bool :=
  match zso_volmode (rs_os s p) with
  | ZFS_VOLMODE_GEOM =>
      match zsg_provider (rs_os s p) with Some _ => true | None => false end
  | ZFS_VOLMODE_DEV =>
      match zsd_cdev (rs_os s p) with
      | Some _ => negb (0 <? zv_open_count (reg_zv (rs_reg s) p))
      | None => true
      end
  | _ => true
  end.

(** The front end after [zvol_rename_minor] to [newname], for a volume
    of size [volsize] that satisfies [rename_simple]. *)
Definition renamed_os (make_dev_err : Z) (newname : string) (volsize : Z)
    (m : minor_os) : minor_os :=
  match zso_volmode m with
  | ZFS_VOLMODE_GEOM => mo_set_provider m (Some (mk_pp newname volsize))
  | ZFS_VOLMODE_DEV =>
      mo_set_cdev m (if make_dev_err =? 0 then Some newname else None)
  | _ => m
  end.

(** The volume a rename of [oldname] to [newname] makes of [zv]. *)
Definition rename_zv (table : Z -> Z) (zv_name_size : nat)
    (oldname newname : string) (zv : zvol_state) : zvol_state :=
  match rename_target oldname newname (zv_name zv) with
  | Some n =>
      zv_set_name (zv_set_hash zv (zvol_name_hash table (zv_name zv)))
        (strlcpy n zv_name_size)
  | None => zv
  end.

(* ------------------------------------------------------------------ *)
(** ** GEOM close: [zvol_geom_close] *)

(** [zvol_geom_close] from [rw_exit(&zvol_state_lock)] on. *)
Definition zvol_geom_close_locked (count : Z) (drop_suspend : bool)
  : XM zvol_os Z :=
  (xemit (XEv (EvRwExit L_zvol_state_lock)) ;;
   olift (assert_ MUTEX_HELD) ;;
   (* You may get multiple opens, but only one close. *)
   olift (modify (fun zv =>
     zv_set_open_count zv (zv_open_count zv - count))) ;;
   s <- xget ;;
   xwhen (zv_open_count (zo_zv s) =? 0)
     (olift (assert_ RW_READ_HELD) ;; zvol_last_close) ;;
   olift m_mutex_exit ;;
   xwhen drop_suspend (olift m_rw_exit) ;;
   xret 0)%X.

(** [zvol_geom_close] on a provider whose [private] is set; [volmode] is
    the [zso_volmode] of the volume. *)
Definition zvol_geom_close_zv (o : open_oracle) (volmode : volmode_t)
    (count : Z) : XM zvol_os Z :=
  (xemit (XEv (EvRwEnter L_zvol_state_lock RW_READER)) ;;
   olift m_mutex_enter ;;
   s <- xget ;;
   xwhen (zo_excl s)
     (xassert (fun s => zv_open_count (zo_zv s) =? 1) ;;
      xmodify (fun s => zo_set_excl s false)) ;;
   xassert (fun _ => volmode_eqb volmode ZFS_VOLMODE_GEOM) ;;
   xassert (fun s => 0 <? zv_open_count (zo_zv s)) ;;
   drop_suspend <-
     enter_suspend_if o (fun zv => zv_open_count zv - count =? 0)
       (fun zv => negb (zv_open_count zv =? 1)) ;;
   zvol_geom_close_locked count drop_suspend)%X.

(** [zvol_geom_close]; [None] is a provider whose [private] is
    [NULL]. *)
Definition zvol_geom_close (o : open_oracle) (volmode : volmode_t)
    (count : Z) (pp : option zvol_os)
  : option (Z * option zvol_os * list xevent) :=
  match pp with
  | None =>
      Some (ENXIO, None,
            [XEv (EvRwEnter L_zvol_state_lock RW_READER);
             XEv (EvRwExit L_zvol_state_lock)])
  | Some s =>
      match zvol_geom_close_zv o volmode count s with
      | None => None
      | Some (e, s', tr) => Some (e, Some s', tr)
      end
  end.

(* ------------------------------------------------------------------ *)
(** ** GEOM open: [zvol_geom_open] *)

(** [zvol_geom_open] from the check of [FWRITE] on. *)
Definition zvol_geom_open_checks (o : open_oracle) (fl : open_flags)
    (count : Z) (drop_namespace drop_suspend : bool) : XM zvol_os Z :=
  (s <- xget ;;
   if fl_write fl && (zv_rdonly (zo_zv s) || oo_incompatible o) then
     zvol_open_out_opened drop_namespace drop_suspend EROFS
   else if zo_excl s then
     zvol_open_out_opened drop_namespace drop_suspend EBUSY
   else if fl_excl fl && negb (zv_open_count (zo_zv s) =? 0) then
     zvol_open_out_opened drop_namespace drop_suspend EBUSY
   else
     xwhen (fl_excl fl) (xmodify (fun s => zo_set_excl s true)) ;;
     olift (modify (fun zv =>
       zv_set_open_count zv (zv_open_count zv + count))) ;;
     xwhen drop_namespace
       (xemit XNsExit ;; xmodify (fun s => zo_set_namespace s false)) ;;
     olift m_mutex_exit ;;
     xwhen drop_suspend (olift m_rw_exit) ;;
     xret 0)%X.

(** [zvol_geom_open] from [rw_exit(&zvol_state_lock)] on.  The provider
    has [stripeoffset] 0 throughout. *)
Definition zvol_geom_open_locked (o : open_oracle) (fl : open_flags)
    (count : Z) (drop_namespace drop_suspend : bool) : XM zvol_os Z :=
  (xemit (XEv (EvRwExit L_zvol_state_lock)) ;;
   olift (assert_ MUTEX_HELD) ;;
   s <- xget ;;
   if zv_open_count (zo_zv s) =? 0 then
     olift (assert_ RW_READ_HELD) ;;
     err <- zvol_first_open o (negb (fl_write fl)) ;;
     if negb (err =? 0) then
       zvol_open_out_locked drop_namespace drop_suspend err
     else
       xmodify (fun s =>
         zo_set_provider s (zv_volsize (zo_zv s))
           (zv_volblocksize (zo_zv s))) ;;
       zvol_geom_open_checks o fl count drop_namespace drop_suspend
   else zvol_geom_open_checks o fl count drop_namespace drop_suspend)%X.

(** [zvol_geom_open] from [mutex_enter(&zv->zv_state_lock)] on; [volmode]
    is the [zso_volmode] of the volume. *)
Definition zvol_geom_open_held (o : open_oracle) (volmode : volmode_t)
    (fl : open_flags) (count : Z) (drop_namespace : bool)
  : XM zvol_os Z :=
  (olift m_mutex_enter ;;
   xassert (fun _ => volmode_eqb volmode ZFS_VOLMODE_GEOM) ;;
   drop_suspend <-
     enter_suspend_if o (fun zv => zv_open_count zv =? 0)
       (fun zv => negb (zv_open_count zv =? 0)) ;;
   zvol_geom_open_locked o fl count drop_namespace drop_suspend)%X.

(** [zvol_geom_open] from the label [retry] on, for a provider whose
    [private] was set when the function was entered; [fuel] bounds the
    jumps back to [retry].  [gone] says whether the other threads have
    cleared [private] while the caller waited for [spa_namespace_lock],
    and [retried] whether the caller has waited. *)
Fixpoint zvol_geom_open_retry (fuel : nat) (o : open_oracle)
    (volmode : volmode_t) (fl : open_flags) (count : Z) (gone : bool)
    (drop_namespace retried : bool) : XM zvol_os Z :=
  match fuel with
  | O => xfail
  | S fuel' =>
      (xemit (XEv (EvRwEnter L_zvol_state_lock RW_READER)) ;;
       if retried && gone then
         xwhen drop_namespace
           (xemit XNsExit ;; xmodify (fun s => zo_set_namespace s false)) ;;
         xemit (XEv (EvRwExit L_zvol_state_lock)) ;;
         xret ENXIO
       else
         s <- xget ;;
         if (zv_open_count (zo_zv s) =? 0) && negb (zo_namespace s) then
           xemit (XNsTryEnter (oo_ns_try_ok o)) ;;
           if oo_ns_try_ok o then
             xmodify (fun s => zo_set_namespace s true) ;;
             zvol_geom_open_held o volmode fl count true
           else
             xemit (XEv (EvRwExit L_zvol_state_lock)) ;;
             xmodify (os_interfere (oo_env o)) ;;
             xemit XNsEnter ;;
             xmodify (fun s => zo_set_namespace s true) ;;
             zvol_geom_open_retry fuel' o volmode fl count gone true true
         else zvol_geom_open_held o volmode fl count drop_namespace)%X
  end.

(** [zvol_geom_open]; [probing] says that [zpool_on_zvol] is off and the
    thread is probing for a vdev, and [None] is a provider whose
    [private] is [NULL]. *)
Definition zvol_geom_open (fuel : nat) (o : open_oracle)
    (volmode : volmode_t) (fl : open_flags) (count : Z)
    (probing gone : bool) (pp : option zvol_os)
  : option (Z * option zvol_os * list xevent) :=
  if probing then Some (EOPNOTSUPP, pp, [])
  else
    match pp with
    | None =>
        Some (ENXIO, None,
              [XEv (EvRwEnter L_zvol_state_lock RW_READER);
               XEv (EvRwExit L_zvol_state_lock)])
    | Some s =>
        match zvol_geom_open_retry fuel o volmode fl count gone false
                false s with
        | None => None
        | Some (e, s', tr) => Some (e, Some s', tr)
        end
    end.

(** The volume after a GEOM open of [count] references has succeeded. *)
Definition zo_geom_opened (fl : open_flags) (count : Z) (s : zvol_os)
  : zvol_os :=
  zo_set_zv (if fl_excl fl then zo_set_excl s true else s)
    (zv_set_open_count (zo_zv s) (zv_open_count (zo_zv s) + count)).

(* ------------------------------------------------------------------ *)
(** ** Concrete volumes, requests and oracles used by the examples *)

Definition ex_os : objset := mk_objset 1 false.

Definition ex_zilog : zilog :=
  mk_zilog 7 ZFS_LOGBIAS_LATENCY true false 130880.

(** An open 1 GiB volume with 4 KiB blocks. *)
Definition ex_vol : zvol_state :=
  mk_zv "tank/vol" 11 1073741824 4096 1 0 0 false false 0
        (Some ex_os) (Some 5) None [] RW_NONE false.

Definition ex_other : zvol_state :=
  mk_zv "tank/other" 11 4096 4096 0 0 0 false false 0
        None None None [] RW_NONE false.

Definition ex_read (id off size : Z) : zvol_dmu_state :=
  mk_zds id off size true false false false 0.

Definition ex_write (id off size : Z) : zvol_dmu_state :=
  mk_zds id off size false false false false 0.

(** Every external call succeeds; the range lock is granted later. *)
Definition ex_oracle : dmu_oracle := mk_oracle 0 true 0 0 0.

Definition ex_sys (zv : zvol_state) : sys := mk_sys zv [] [] [] [].

(** A CRC table with the same entry in every slot: every name of eight or
    more characters hashes to 11, so both example volumes share a chain. *)
Definition ex_table (_ : Z) : Z := 11.

Definition ex_ht (_ : Z) : list zvol_state := [ex_other; ex_vol].

Definition ex_setup : setup_oracle :=
  mk_setup 0 ex_os 0 false 0 2147483648 0 9 false true.

(** Every external call succeeds, no other thread interferes. *)
Definition ex_sync_oracle : sync_oracle :=
  mk_so true (fun zv => zv) ex_zilog 0 0 0.


Definition ex_zilog_throughput : zilog :=
  mk_zilog 7 ZFS_LOGBIAS_THROUGHPUT true false 130880.

(** A writable dataset with 4 KiB blocks; every call of the resize path
    succeeds. *)
Definition ex_volsize_oracle : volsize_oracle :=
  mk_vo 0 0 0 ex_os 0 4096 0 0 0.

Definition ex_attr_oracle : attr_oracle :=
  mk_ao 4096 8192 1048576 65536 (fun _ off => (0, off)).

(** The example volume nobody has open, as the front end holds it, and an
    environment in which every call of an open succeeds at once. *)
Definition ex_closed : zvol_os := mk_zo ex_other false 0 0 0 false.

Definition ex_open_oracle : open_oracle :=
  mk_oo true (fun s => s) true 0 ex_setup false.

(** A registry holding the two example volumes in one chain, and a
    dataset for which every call of the creation of a minor succeeds. *)
Definition ex_registry : registry :=
  mk_reg (fun q => if q =? 1 then ex_other else ex_vol) [1; 2]
    (fun _ => [1; 2]) RW_NONE 2.

(** A table that separates the names of the examples, and the example
    registry with device front ends, no device made yet. *)
Definition ex_crc_table (i : Z) : Z := i.

Definition ex_rename_state : rename_state :=
  mk_rs ex_registry (fun _ => mk_mo false ZFS_VOLMODE_DEV None None).

(** The volume at the address 1 under rename: the registry lock and its
    state lock are held. *)
Definition ex_rename_locked : rename_state :=
  mk_rs (mk_reg (fun q => zv_set_state_lock
                            (if q =? 1 then ex_other else ex_vol) true)
           [1; 2] (fun _ => [1; 2]) RW_READER 2)
    (fun _ => mk_mo false ZFS_VOLMODE_DEV None None).

(** The same with the device of an open volume at the address 2. *)
Definition ex_rename_open : rename_state :=
  mk_rs (rs_reg ex_rename_locked)
    (fun _ => mk_mo false ZFS_VOLMODE_DEV None (Some "tank/vol"%string)).

(** A GEOM volume with one reference and one with two, and an oracle
    under which the suspend lock is found taken. *)
Definition ex_geom_open : zvol_os := mk_zo ex_vol false 0 0 0 false.

Definition ex_geom_open2 : zvol_os :=
  mk_zo (zv_set_open_count ex_vol 2) false 0 0 0 false.

Definition ex_busy_oracle : open_oracle :=
  mk_oo false (fun s => s) true 0 ex_setup false.
(** An oracle under which the namespace lock is found taken. *)
Definition ex_ns_busy_oracle : open_oracle :=
  mk_oo true (fun s => s) false 0 ex_setup false.

(* ================================================================== *)
(** * Theorems *)

Lemma zvol_check_volsize_lp64 volsize blocksize :
  0 < blocksize ->
  zvol_check_volsize None volsize blocksize =
  Some (if (negb (volsize =? 0)) && (volsize mod blocksize =? 0)
        then 0 else EINVAL).
Proof.
  intros Hb. unfold zvol_check_volsize.
  destruct (volsize =? 0) eqn:Hv; [reflexivity|].
  destruct (blocksize =? 0) eqn:Hb0; [apply Z.eqb_eq in Hb0; lia|].
  destruct (volsize mod blocksize =? 0); reflexivity.
Qed.

(* ------------------------------------------------------------------ *)
(** ** The pipeline sections and the admission slot *)

Lemma zvol_dmu_ctx_init_deferred_cases zv :
  (zv_deferred zv = [] /\
   zvol_dmu_ctx_init_deferred zv
   = (zv_set_active zv (zv_active zv - 1), [], []))
  \/ (exists h t, zv_deferred zv = h :: t /\
      zvol_dmu_ctx_init_deferred zv
      = (zv_set_deferred zv t, [zds_set_retry h true],
         [EvDispatch (zds_id h)])).
Proof.
  unfold zvol_dmu_ctx_init_deferred.
  destruct (zv_deferred zv) as [|h t]; [left|right]; eauto.
Qed.

Lemma slot_section_released zv zds ret pre x :
  (exists tr, x = (fst (fst (zvol_dmu_ctx_init_deferred zv)),
                   snd (fst (zvol_dmu_ctx_init_deferred zv)), tr)) ->
  slot_section zv (ir_released ret zds x pre).
Proof.
  intros [tr ->].
  destruct (zvol_dmu_ctx_init_deferred_cases zv) as [[Hd ->]|(h & t & Hd & ->)];
    unfold ir_released, ir_slots; cbn [fst snd];
    constructor; cbn; try rewrite Hd; cbn; try reflexivity; try lia;
    try congruence.
  - constructor.
  - repeat constructor.
Qed.

Lemma slot_section_err zv zds zds' ret pre :
  slot_section zv (ir_released ret zds' (zvol_dmu_err zv zds) pre).
Proof.
  apply slot_section_released. unfold zvol_dmu_err.
  destruct (zvol_dmu_ctx_init_deferred zv) as [[a b] c]. cbn. eauto.
Qed.

Lemma slot_section_issue zv zds zds' ret pre :
  slot_section zv (ir_released ret zds' (zvol_dmu_issue zv zds) pre).
Proof.
  apply slot_section_released. unfold zvol_dmu_issue.
  destruct (zvol_dmu_ctx_init_deferred zv) as [[a b] c]. cbn. eauto.
Qed.

Lemma slot_section_wait zv zds ret ph tr :
  ph <> PhDispatched ->
  slot_section zv (mk_ir zv zds ret (Some ph) false [] tr).
Proof.
  intros Hph.
  constructor; unfold ir_slots; cbn; try reflexivity; try lia;
    try congruence.
  constructor.
Qed.

Lemma slot_section_write_impl o done err zv zds :
  slot_section zv (zvol_dmu_ctx_init_write_impl o done err zv zds).
Proof.
  unfold zvol_dmu_ctx_init_write_impl.
  destruct (negb done && negb (o_prefault_count o =? 0));
    [apply slot_section_wait; discriminate|].
  destruct (negb (err =? 0)); [apply slot_section_err|].
  destruct (negb (o_tx_assign o =? 0)); [apply slot_section_err|].
  destruct (o_rangelock_wait o);
    [apply slot_section_wait; discriminate|apply slot_section_issue].
Qed.

Lemma slot_section_start o zv zds :
  slot_section zv (zvol_dmu_ctx_start o zv zds).
Proof.
  unfold zvol_dmu_ctx_start.
  destruct (negb (o_dmu_ctx_init o =? 0)); [apply slot_section_err|].
  destruct (zds_reader zds).
  - destruct (o_rangelock_wait o); apply slot_section_wait; discriminate.
  - pose proof (slot_section_write_impl o false 0 zv
                  (zds_set_io_size zds
                     (Z.min (zds_io_size zds)
                        (sub64 (zv_volsize zv) (zds_off zds))))) as H.
    unfold zvol_dmu_ctx_init_write.
    destruct H; constructor; auto.
Qed.

(** A dispatched context re-enters [zvol_dmu_ctx_init] with the slot it
    was handed. *)
Lemma zvol_dmu_ctx_init_retry ncpus o zv zds r :
  zds_retry zds = true ->
  zvol_dmu_ctx_init ncpus o zv zds = Some r ->
  slot_section zv r.
Proof.
  unfold zvol_dmu_ctx_init. intros Hr.
  destruct (zv_objset zv) as [os|]; [|discriminate].
  cbn [zds_retry zds_set_sync]. rewrite Hr.
  destruct (negb (_ =? 0)); intros [= <-].
  - apply slot_section_err.
  - apply slot_section_start.
Qed.

(** The three outcomes of [zvol_dmu_ctx_init] for a new context. *)
Lemma zvol_dmu_ctx_init_arrive ncpus o zv zds r :
  zds_retry zds = false ->
  zvol_dmu_ctx_init ncpus o zv zds = Some r ->
  let zv1 := zv_set_suspend_ref zv (zv_suspend_ref zv + 1) in
  (ir_zv r = zv1 /\ ir_phase r = None /\ ir_queued r = false /\
   ir_dispatched r = [] /\ ir_ret r = zvol_dmu_ctx_validate zv (ir_zds r) /\
   ir_ret r <> 0 /\ ir_trace r = [])
  \/ (ncpus <= zv_active zv /\
      ir_zv r = zv_set_deferred zv1 (zv_deferred zv ++ [ir_zds r]) /\
      ir_phase r = None /\ ir_queued r = true /\ ir_dispatched r = [] /\
      ir_ret r = EINPROGRESS /\ ir_trace r = [])
  \/ (zv_active zv < ncpus /\
      slot_section (zv_set_active zv1 (zv_active zv + 1)) r).
Proof.
  unfold zvol_dmu_ctx_init. intros Hr.
  destruct (zv_objset zv) as [os|]; [|discriminate].
  cbn [zds_retry zds_set_sync]. rewrite Hr.
  destruct (negb (_ =? 0)) eqn:Hv.
  - intros [= <-]. left. cbn. repeat split; auto.
    apply negb_true_iff, Z.eqb_neq in Hv. exact Hv.
  - unfold zvol_dmu_ctx_admit, zvol_dmu_max_active.
    cbn [zv_active zv_set_suspend_ref].
    destruct (ncpus <=? zv_active zv) eqn:Hm.
    + cbn. intros [= <-]. right; left. cbn.
      apply Z.leb_le in Hm. repeat split; auto.
    + cbn. intros [= <-]. right; right.
      apply Z.leb_gt in Hm. split; [exact Hm|].
      match goal with
      | |- slot_section ?a (zvol_dmu_ctx_start _ ?b _) =>
          replace a with b by (destruct zv; reflexivity)
      end.
      apply slot_section_start.
Qed.

(* ------------------------------------------------------------------ *)
(** ** Inversion of monadic runs *)

Section MonadInversion.
Context {A B : Type}.

Lemma bind_inv (c : M A) (k : A -> M B) zv b zv2 t :
  bind c k zv = Some (b, zv2, t) ->
  exists a zv1 t1 t2,
    c zv = Some (a, zv1, t1) /\ k a zv1 = Some (b, zv2, t2) /\ t = t1 ++ t2.
Proof.
  unfold bind. destruct (c zv) as [[[a zv1] t1]|] eqn:Hc; [|discriminate].
  destruct (k a zv1) as [[[b' zv2'] t2]|] eqn:Hk; [|discriminate].
  intros [= <- <- <-]. exists a, zv1, t1, t2. auto.
Qed.

Lemma ret_inv (a : A) zv a' zv' t :
  ret a zv = Some (a', zv', t) -> a' = a /\ zv' = zv /\ t = [].
Proof. unfold ret. intros [= <- <- <-]. auto. Qed.
End MonadInversion.

Lemma get_inv zv a zv' t :
  get zv = Some (a, zv', t) -> a = zv /\ zv' = zv /\ t = [].
Proof. unfold get. intros [= <- <- <-]. auto. Qed.

Lemma modify_inv f zv u zv' t :
  modify f zv = Some (u, zv', t) -> zv' = f zv /\ t = [].
Proof. unfold modify. intros [= <- <- <-]. auto. Qed.

Lemma emit_inv e zv u zv' t :
  emit e zv = Some (u, zv', t) -> zv' = zv /\ t = [e].
Proof. unfold emit. intros [= <- <- <-]. auto. Qed.

Lemma emit_all_inv tr zv u zv' t :
  emit_all tr zv = Some (u, zv', t) -> zv' = zv /\ t = tr.
Proof. unfold emit_all. intros [= <- <- <-]. auto. Qed.

Lemma assert_inv b zv u zv' t :
  assert_ b zv = Some (u, zv', t) -> b zv = true /\ zv' = zv /\ t = [].
Proof.
  unfold assert_. destruct (b zv); [|discriminate].
  intros [= <- <- <-]. auto.
Qed.

Lemma lock_op_inv f e zv u zv' t :
  lock_op f e zv = Some (u, zv', t) -> f zv = Some zv' /\ t = [e].
Proof.
  unfold lock_op. destruct (f zv); [|discriminate].
  intros [= <- <- <-]. auto.
Qed.

Lemma m_state_lock_inv zv l zv' t :
  m_state_lock zv = Some (l, zv', t) ->
  l = L_state (zv_name zv) /\ zv' = zv /\ t = [].
Proof. unfold m_state_lock. intros [= <- <- <-]. auto. Qed.

Lemma m_suspend_lock_inv zv l zv' t :
  m_suspend_lock zv = Some (l, zv', t) ->
  l = L_suspend (zv_name zv) /\ zv' = zv /\ t = [].
Proof. unfold m_suspend_lock. intros [= <- <- <-]. auto. Qed.

Lemma mutex_enter_inv zv zv' :
  mutex_enter zv = Some zv' ->
  zv_state_lock zv = false /\ zv' = zv_set_state_lock zv true.
Proof.
  unfold mutex_enter. destruct (zv_state_lock zv); [discriminate|].
  intros [= <-]. auto.
Qed.

Lemma mutex_exit_inv zv zv' :
  mutex_exit zv = Some zv' ->
  zv_state_lock zv = true /\ zv' = zv_set_state_lock zv false.
Proof.
  unfold mutex_exit. destruct (zv_state_lock zv); [|discriminate].
  intros [= <-]. auto.
Qed.

Lemma rw_enter_inv zv mode zv' :
  rw_enter zv mode = Some zv' ->
  mode <> RW_NONE /\ zv_suspend_lock zv = RW_NONE /\
  zv' = zv_set_suspend_lock zv mode.
Proof.
  unfold rw_enter.
  destruct mode, (zv_suspend_lock zv); try discriminate;
    intros [= <-]; repeat split; discriminate.
Qed.

Lemma rw_exit_inv zv zv' :
  rw_exit zv = Some zv' ->
  zv_suspend_lock zv <> RW_NONE /\ zv' = zv_set_suspend_lock zv RW_NONE.
Proof.
  unfold rw_exit.
  destruct (zv_suspend_lock zv); try discriminate;
    intros [= <-]; split; auto; discriminate.
Qed.

Lemma rw_downgrade_inv zv zv' :
  rw_downgrade zv = Some zv' ->
  zv_suspend_lock zv = RW_WRITER /\ zv' = zv_set_suspend_lock zv RW_READER.
Proof.
  unfold rw_downgrade.
  destruct (zv_suspend_lock zv); try discriminate; intros [= <-]; auto.
Qed.

Lemma m_rw_tryupgrade_inv ok zv b zv' t :
  m_rw_tryupgrade ok zv = Some (b, zv', t) ->
  zv_suspend_lock zv = RW_READER /\ b = ok /\
  zv' = (if ok then zv_set_suspend_lock zv RW_WRITER else zv) /\
  t = [EvRwTryUpgrade (L_suspend (zv_name zv)) ok].
Proof.
  unfold m_rw_tryupgrade, rw_tryupgrade.
  destruct (zv_suspend_lock zv); try discriminate.
  destruct ok; intros [= <- <- <-]; auto.
Qed.

Lemma krw_eqb_eq a b : krw_eqb a b = true <-> a = b.
Proof. destruct a, b; cbn; split; congruence. Qed.

Ltac minv1 :=
  match goal with
  | H : bind _ _ _ = Some _ |- _ =>
      apply bind_inv in H;
      let a := fresh "a" in let z := fresh "zv" in
      let t1 := fresh "t" in let t2 := fresh "t" in
      let H1 := fresh "H" in let H2 := fresh "H" in let H3 := fresh "H" in
      destruct H as (a & z & t1 & t2 & H1 & H2 & H3)
  | H : ret _ _ = Some _ |- _ => apply ret_inv in H; destruct H as (? & ? & ?)
  | H : get _ = Some _ |- _ => apply get_inv in H; destruct H as (? & ? & ?)
  | H : modify _ _ = Some _ |- _ => apply modify_inv in H; destruct H as (? & ?)
  | H : emit _ _ = Some _ |- _ => apply emit_inv in H; destruct H as (? & ?)
  | H : emit_all _ _ = Some _ |- _ =>
      apply emit_all_inv in H; destruct H as (? & ?)
  | H : assert_ _ _ = Some _ |- _ =>
      apply assert_inv in H; destruct H as (? & ? & ?)
  | H : lock_op _ _ _ = Some _ |- _ =>
      apply lock_op_inv in H; destruct H as (? & ?)
  | H : m_state_lock _ = Some _ |- _ =>
      apply m_state_lock_inv in H; destruct H as (? & ? & ?)
  | H : m_suspend_lock _ = Some _ |- _ =>
      apply m_suspend_lock_inv in H; destruct H as (? & ? & ?)
  | H : m_rw_tryupgrade _ _ = Some _ |- _ =>
      apply m_rw_tryupgrade_inv in H; destruct H as (? & ? & ? & ?)
  | H : mutex_enter _ = Some _ |- _ =>
      apply mutex_enter_inv in H; destruct H as (? & ?)
  | H : mutex_exit _ = Some _ |- _ =>
      apply mutex_exit_inv in H; destruct H as (? & ?)
  | H : rw_enter _ _ = Some _ |- _ =>
      apply rw_enter_inv in H; destruct H as (? & ? & ?)
  | H : rw_exit _ = Some _ |- _ =>
      apply rw_exit_inv in H; destruct H as (? & ?)
  | H : rw_downgrade _ = Some _ |- _ =>
      apply rw_downgrade_inv in H; destruct H as (? & ?)
  | H : when_ ?b _ _ = Some _ |- _ => unfold when_ in H; destruct b eqn:?
  | H : (if ?b then _ else _) _ = Some _ |- _ => destruct b eqn:?
  | H : (match ?x with _ => _ end) _ = Some _ |- _ => destruct x eqn:?
  end.

Ltac minv := repeat (minv1; subst).

(** [zvol_resume] needs the write lock, drops it and one reference, and
    leaves the admission state alone. *)
Lemma zvol_resume_effect o zv e zv' tr :
  zvol_resume o zv = Some (e, zv', tr) ->
  zv_suspend_lock zv = RW_WRITER /\ 0 < zv_suspend_ref zv /\
  zv_suspend_ref zv' = zv_suspend_ref zv - 1 /\
  zv_suspend_lock zv' = RW_NONE /\ zv_state_lock zv' = false /\
  zv_active zv' = zv_active zv /\ zv_deferred zv' = zv_deferred zv /\
  zv_open_count zv' = zv_open_count zv.
Proof.
  intros H.
  unfold zvol_resume, zvol_setup_zv, m_mutex_enter, m_mutex_exit,
    m_rw_exit in H.
  minv.
  all: unfold RW_WRITE_HELD in *; cbn in *.
  all: repeat match goal with
              | H : krw_eqb _ _ = true |- _ => apply krw_eqb_eq in H
              | H : (_ <? _) = true |- _ => apply Z.ltb_lt in H
              end.
  all: repeat split; try congruence; try lia.
Qed.

(** What a successful walk of the chain returns: the first volume whose
    hash and name match, with the locks asked for. *)
Lemma zvol_find_chain_found env try_ok chain name hash mode :
  forall i zv tr,
  zvol_find_chain env try_ok chain name hash mode = Some (Some (i, zv), tr) ->
  exists zv0,
    nth_error chain i = Some zv0 /\
    zv_state_lock zv0 = false /\
    name_hash_match zv0 name hash = true /\
    (forall j zj, (j < i)%nat -> nth_error chain j = Some zj ->
                  name_hash_match zj name hash = false) /\
    (mode = RW_NONE -> zv = zv_set_state_lock zv0 true) /\
    (mode <> RW_NONE ->
     zv_suspend_lock zv0 = RW_NONE /\
     exists zvx,
       ((try_ok = true /\ zvx = zv0) \/ (try_ok = false /\ zvx = env zv0)) /\
       zv = zv_set_state_lock (zv_set_suspend_lock zvx mode) true).
Proof.
  induction chain as [|z rest IH]; intros i zv tr H;
    cbn -[name_hash_match] in H; [discriminate|].
  unfold mutex_enter in H.
  destruct (zv_state_lock z) eqn:Hl; [discriminate|].
  assert (Hnm : forall b, name_hash_match (zv_set_state_lock z b) name hash
                = name_hash_match z name hash) by (intros; reflexivity).
  rewrite Hnm in H.
  destruct (name_hash_match z name hash) eqn:Hm.
  - assert (Hz : zv_set_state_lock (zv_set_state_lock z true) false = z)
      by (destruct z; cbn in Hl; subst; reflexivity).
    destruct mode; cbn -[name_hash_match] in H.
    + injection H as <- <- <-.
      exists z. repeat split; auto; try congruence. intros j zj Hj; lia.
    + unfold rw_tryenter in H. cbn -[name_hash_match] in H.
      destruct (zv_suspend_lock z) eqn:Hq; cbn -[name_hash_match] in H;
        try (exfalso; unfold rw_enter, interfere in H;
             cbn -[name_hash_match] in H; rewrite Hq in H; discriminate).
      destruct try_ok.
      * injection H as <- <- <-.
        exists z. repeat split; auto; try congruence.
        -- intros j zj Hj; lia.
        -- exists z. split; [left; split; reflexivity|].
           destruct z; reflexivity.
      * unfold mutex_exit, rw_enter, interfere, mutex_enter in H.
        cbn -[name_hash_match] in H. rewrite Hq in H.
        cbn -[name_hash_match] in H.
        rewrite Hz in H.
        match type of H with
        | (if ?c then _ else _) = _ => destruct c; [|discriminate]
        end.
        injection H as <- <- <-.
        exists z. repeat split; auto; try congruence.
        -- intros j zj Hj; lia.
        -- exists (env z). split; [right; split; reflexivity|].
           reflexivity.
    + unfold rw_tryenter in H. cbn -[name_hash_match] in H.
      destruct (zv_suspend_lock z) eqn:Hq; cbn -[name_hash_match] in H;
        try (exfalso; unfold rw_enter, interfere in H;
             cbn -[name_hash_match] in H; rewrite Hq in H; discriminate).
      destruct try_ok.
      * injection H as <- <- <-.
        exists z. repeat split; auto; try congruence.
        -- intros j zj Hj; lia.
        -- exists z. split; [left; split; reflexivity|].
           destruct z; reflexivity.
      * unfold mutex_exit, rw_enter, interfere, mutex_enter in H.
        cbn -[name_hash_match] in H. rewrite Hq in H.
        cbn -[name_hash_match] in H.
        rewrite Hz in H.
        match type of H with
        | (if ?c then _ else _) = _ => destruct c; [|discriminate]
        end.
        injection H as <- <- <-.
        exists z. repeat split; auto; try congruence.
        -- intros j zj Hj; lia.
        -- exists (env z). split; [right; split; reflexivity|].
           reflexivity.
  - unfold mutex_exit in H. cbn -[name_hash_match] in H.
    destruct (zvol_find_chain env try_ok rest name hash mode)
      as [[r tr0]|] eqn:Hr; [|discriminate].
    destruct r as [[i0 z0]|]; cbn in H; [|discriminate].
    injection H as <- <- <-.
    destruct (IH _ _ _ eq_refl)
      as (zv0 & Hn & Hs & Hmm & Hfirst & Hnone & Hmode).
    exists zv0. repeat split; auto.
    + intros j zj Hj Hnth. destruct j; cbn in Hnth.
      * injection Hnth as <-. exact Hm.
      * apply (Hfirst j); auto. lia.
    + apply Hmode; auto.
    + apply Hmode; auto.
Qed.

Lemma zvol_find_chain_none env try_ok chain name hash mode tr :
  zvol_find_chain env try_ok chain name hash mode = Some (None, tr) ->
  forall zv, In zv chain -> name_hash_match zv name hash = false.
Proof.
  revert tr. induction chain as [|z rest IH]; intros tr H zv Hin;
    [destruct Hin|].
  cbn -[name_hash_match] in H. unfold mutex_enter in H.
  destruct (zv_state_lock z) eqn:Hl; [discriminate|].
  assert (Hnm : name_hash_match (zv_set_state_lock z true) name hash
                = name_hash_match z name hash) by reflexivity.
  rewrite Hnm in H.
  destruct (name_hash_match z name hash) eqn:Hm.
  - exfalso. destruct (krw_eqb mode RW_NONE); [discriminate|].
    destruct (rw_tryenter try_ok (zv_set_state_lock z true) mode)
      as [zv2 []]; [discriminate|].
    repeat match type of H with
           | match ?x with _ => _ end = _ => destruct x; try discriminate
           end.
  - unfold mutex_exit in H. cbn -[name_hash_match] in H.
    destruct (zvol_find_chain env try_ok rest name hash mode)
      as [[r tr0]|] eqn:Hr; [|discriminate].
    destruct r as [[i0 z0]|]; cbn in H; [discriminate|].
    destruct Hin as [<-|Hin]; [exact Hm|].
    eapply IH; eauto.
Qed.

(** The walk returns whenever the caller holds none of the chain's locks
    and the matching volume keeps its name while the caller waits. *)
Lemma zvol_find_chain_total env try_ok chain name hash mode :
  (forall zv, In zv chain -> zv_state_lock zv = false) ->
  (forall zv, In zv chain -> name_hash_match zv name hash = true ->
              zv_suspend_lock zv = RW_NONE /\
              name_hash_match (env zv) name hash = true) ->
  exists r tr, zvol_find_chain env try_ok chain name hash mode = Some (r, tr).
Proof.
  induction chain as [|z rest IH]; intros Hl Hm; [cbn; eauto|].
  cbn -[name_hash_match]. unfold mutex_enter.
  rewrite (Hl z (or_introl eq_refl)).
  assert (Hnm : name_hash_match (zv_set_state_lock z true) name hash
                = name_hash_match z name hash) by reflexivity.
  rewrite Hnm.
  destruct (name_hash_match z name hash) eqn:Hz.
  - destruct (Hm z (or_introl eq_refl) Hz) as [Hq He].
    destruct (krw_eqb mode RW_NONE) eqn:Hmode; [eauto|].
    unfold rw_tryenter. cbn [zv_suspend_lock zv_set_state_lock].
    rewrite Hq.
    assert (Hz' : zv_set_state_lock (zv_set_state_lock z true) false = z).
    { pose proof (Hl z (or_introl eq_refl)) as Hlz.
      destruct z; cbn in Hlz |- *. rewrite Hlz. reflexivity. }
    destruct mode; [discriminate| |]; destruct try_ok; eauto;
      unfold mutex_exit, rw_enter, interfere, mutex_enter;
      cbn -[name_hash_match]; rewrite Hz', Hq; cbn -[name_hash_match];
      match goal with
      | |- context [name_hash_match ?a name hash] =>
          change (name_hash_match a name hash)
            with (name_hash_match (env z) name hash)
      end; rewrite He; eauto.
  - unfold mutex_exit. cbn -[name_hash_match].
    destruct IH as (r & tr & ->).
    + intros; apply Hl; right; auto.
    + intros; apply Hm; auto. right; auto.
    + eauto.
Qed.

Lemma lock_id_eqb_refl l : lock_id_eqb l l = true.
Proof. destruct l; cbn; auto using String.eqb_refl. Qed.

Lemma holds_state_suspend n m held :
  holds ((L_suspend n, m) :: held) (L_state n) = holds held (L_state n).
Proof. reflexivity. Qed.

Lemma held_after_app t1 : forall held t2,
  held_after held (t1 ++ t2) = held_after (held_after held t1) t2.
Proof.
  induction t1 as [|e t1 IH]; intros held t2; [reflexivity|].
  destruct e; cbn; try apply IH; try (destruct ok; apply IH).
Qed.

Lemma lock_order_ok_app t1 : forall held t2,
  lock_order_ok held (t1 ++ t2)
  = lock_order_ok held t1 && lock_order_ok (held_after held t1) t2.
Proof.
  induction t1 as [|e t1 IH]; intros held t2; [reflexivity|].
  cbn [app lock_order_ok]. rewrite IH, <- andb_assoc.
  f_equal. f_equal. destruct e; try reflexivity; destruct ok; reflexivity.
Qed.

(** Lock events of the walk: volumes that do not match are locked and
    unlocked in turn, then the matching one is acquired; the order is
    respected throughout. *)
Lemma zvol_find_chain_trace env try_ok chain name hash mode :
  forall r tr held,
  zvol_find_chain env try_ok chain name hash mode = Some (r, tr) ->
  (forall n, holds held (L_state n) = false) ->
  lock_order_ok held tr = true /\
  match r with
  | None => held_after held tr = held
  | Some (i, _) =>
      exists zv0 pre, nth_error chain i = Some zv0 /\
        tr = pre ++ find_acquire_events (zv_name zv0) mode try_ok /\
        held_after held pre = held
  end.
Proof.
  induction chain as [|z rest IH]; intros r tr held H Hh.
  - cbn in H. injection H as <- <-. cbn. auto.
  - cbn -[name_hash_match mutex_enter mutex_exit rw_enter rw_tryenter
          interfere] in H.
    destruct (mutex_enter z) as [z1|]; [|discriminate].
    destruct (name_hash_match z1 name hash) eqn:Hm.
    + destruct mode; cbn -[name_hash_match mutex_enter mutex_exit rw_enter
                           rw_tryenter interfere] in H.
      * injection H as <- <-. cbn. split; [reflexivity|].
        exists z, []. auto.
      * destruct (rw_tryenter try_ok z1 RW_READER) as [z2 []] eqn:Ht.
        -- assert (try_ok = true) as ->.
           { unfold rw_tryenter in Ht.
             destruct (zv_suspend_lock z1), try_ok; congruence. }
           injection H as <- <-. cbn. split; [reflexivity|].
           exists z, []. auto.
        -- repeat match type of H with
                  | match ?x with _ => _ end = _ =>
                      destruct x eqn:?; try discriminate
                  end.
           injection H as <- <-.
           assert (try_ok = false) as ->.
           { unfold rw_tryenter in Ht.
             destruct (zv_suspend_lock z1) eqn:Hq, try_ok; try congruence.
             - injection Ht as <-. unfold mutex_exit in *.
               destruct (zv_state_lock z1); [|discriminate].
               match goal with
               | Hx : Some _ = Some _ |- _ => injection Hx as <-
               end.
               match goal with
               | Hx : rw_enter _ _ = Some _ |- _ =>
                   apply rw_enter_inv in Hx; destruct Hx as (_ & Hx & _);
                   unfold interfere in Hx; cbn in Hx; congruence
               end.
             - injection Ht as <-. unfold mutex_exit in *.
               destruct (zv_state_lock z1); [|discriminate].
               match goal with
               | Hx : Some _ = Some _ |- _ => injection Hx as <-
               end.
               match goal with
               | Hx : rw_enter _ _ = Some _ |- _ =>
                   apply rw_enter_inv in Hx; destruct Hx as (_ & Hx & _);
                   unfold interfere in Hx; cbn in Hx; congruence
               end. }
           cbn -[holds]. rewrite String.eqb_refl. cbn -[holds].
           rewrite Hh. cbn.
           split; [reflexivity|]. exists z, []. auto.
      * destruct (rw_tryenter try_ok z1 RW_WRITER) as [z2 []] eqn:Ht.
        -- assert (try_ok = true) as ->.
           { unfold rw_tryenter in Ht.
             destruct (zv_suspend_lock z1), try_ok; congruence. }
           injection H as <- <-. cbn. split; [reflexivity|].
           exists z, []. auto.
        -- repeat match type of H with
                  | match ?x with _ => _ end = _ =>
                      destruct x eqn:?; try discriminate
                  end.
           injection H as <- <-.
           assert (try_ok = false) as ->.
           { unfold rw_tryenter in Ht.
             destruct (zv_suspend_lock z1) eqn:Hq, try_ok; try congruence.
             - injection Ht as <-. unfold mutex_exit in *.
               destruct (zv_state_lock z1); [|discriminate].
               match goal with
               | Hx : Some _ = Some _ |- _ => injection Hx as <-
               end.
               match goal with
               | Hx : rw_enter _ _ = Some _ |- _ =>
                   apply rw_enter_inv in Hx; destruct Hx as (_ & Hx & _);
                   unfold interfere in Hx; cbn in Hx; congruence
               end.
             - injection Ht as <-. unfold mutex_exit in *.
               destruct (zv_state_lock z1); [|discriminate].
               match goal with
               | Hx : Some _ = Some _ |- _ => injection Hx as <-
               end.
               match goal with
               | Hx : rw_enter _ _ = Some _ |- _ =>
                   apply rw_enter_inv in Hx; destruct Hx as (_ & Hx & _);
                   unfold interfere in Hx; cbn in Hx; congruence
               end. }
           cbn -[holds]. rewrite String.eqb_refl. cbn -[holds].
           rewrite Hh. cbn.
           split; [reflexivity|]. exists z, []. auto.
    + destruct (mutex_exit z1); [|discriminate].
      destruct (zvol_find_chain env try_ok rest name hash mode)
        as [[r0 tr0]|] eqn:Hr; [|discriminate].
      injection H as <- <-.
      destruct (IH _ _ held eq_refl Hh) as [Ho Hheld].
      assert (Hd : forall h,
                 drop_lock (L_state (zv_name z))
                   ((L_state (zv_name z), RW_WRITER) :: h) = h).
      { intros h. cbn. rewrite String.eqb_refl. reflexivity. }
      change (EvMutexEnter (L_state (zv_name z))
                :: EvMutexExit (L_state (zv_name z)) :: tr0)
        with ([EvMutexEnter (L_state (zv_name z));
               EvMutexExit (L_state (zv_name z))] ++ tr0).
      rewrite lock_order_ok_app, held_after_app.
      change (held_after held
                [EvMutexEnter (L_state (zv_name z));
                 EvMutexExit (L_state (zv_name z))])
        with (drop_lock (L_state (zv_name z))
                ((L_state (zv_name z), RW_WRITER) :: held)).
      rewrite Hd. split; [exact Ho|].
      destruct r0 as [[i0 zf]|]; cbn [option_map].
      * destruct Hheld as (zv0 & pre & Hn & -> & Hp).
        exists zv0,
          ([EvMutexEnter (L_state (zv_name z));
            EvMutexExit (L_state (zv_name z))] ++ pre).
        split; [exact Hn|]. split; [rewrite app_assoc; reflexivity|].
        rewrite held_after_app.
        change (held_after held
                  [EvMutexEnter (L_state (zv_name z));
                   EvMutexExit (L_state (zv_name z))])
          with (drop_lock (L_state (zv_name z))
                  ((L_state (zv_name z), RW_WRITER) :: held)).
        rewrite Hd. exact Hp.
      * exact Hheld.
Qed.

(* ------------------------------------------------------------------ *)
(** ** Registry lookup lock contract *)

(** C4.  For every name, hash and lock mode (none, read, write), and
    whether or not the try-acquire of the suspend lock succeeds:
    [zvol_find_by_name_hash] returns.  When some volume of the chain
    matches, it returns the first matching volume with its state lock held
    and its suspend lock held in the requested mode; no blocking
    acquisition of a suspend lock is made while the volume's state lock is
    held, and when the try-acquire fails the events on the returned volume
    are: take the state lock, fail the try, drop the state lock, take the
    suspend lock blocking, take the state lock again.  When no volume
    matches it returns NULL and the caller holds no lock at all.  The
    registry lock is released in both cases. *)
Theorem C4_find_by_name_hash_lock_contract
    env try_ok chain name hash mode :
  (forall zv, In zv chain -> zv_state_lock zv = false) ->
  (forall zv, In zv chain -> name_hash_match zv name hash = true ->
              zv_suspend_lock zv = RW_NONE /\
              name_hash_match (env zv) name hash = true) ->
  exists r tr,
    zvol_find_by_name_hash env try_ok chain name hash mode = Some (r, tr) /\
    lock_order_ok [] tr = true /\
    match r with
    | Some (i, zv) =>
        exists zv0 pre,
          nth_error chain i = Some zv0 /\
          name_hash_match zv0 name hash = true /\
          (forall j zj, (j < i)%nat -> nth_error chain j = Some zj ->
                        name_hash_match zj name hash = false) /\
          zv_state_lock zv = true /\
          zv_suspend_lock zv = mode /\
          tr = EvRwEnter L_zvol_state_lock RW_READER
               :: pre ++ find_acquire_events (zv_name zv0) mode try_ok
               ++ [EvRwExit L_zvol_state_lock] /\
          held_after [] (EvRwEnter L_zvol_state_lock RW_READER :: pre)
          = [(L_zvol_state_lock, RW_READER)] /\
          holds (held_after [] tr) (L_state (zv_name zv0)) = true /\
          holds (held_after [] tr) (L_suspend (zv_name zv0))
          = negb (krw_eqb mode RW_NONE) /\
          holds (held_after [] tr) L_zvol_state_lock = false
    | None =>
        (forall zv, In zv chain -> name_hash_match zv name hash = false) /\
        held_after [] tr = []
    end.
Proof.
  intros Hl Hm.
  destruct (zvol_find_chain_total env try_ok chain name hash mode Hl Hm)
    as (r & tr & Hf).
  unfold zvol_find_by_name_hash. rewrite Hf.
  eexists _, _. split; [reflexivity|].
  assert (Hh : forall n,
             holds [(L_zvol_state_lock, RW_READER)] (L_state n) = false)
    by reflexivity.
  destruct (zvol_find_chain_trace _ _ _ _ _ _ _ _
              [(L_zvol_state_lock, RW_READER)] Hf Hh) as [Ho Hheld].
  split.
  - change (EvRwEnter L_zvol_state_lock RW_READER
              :: tr ++ [EvRwExit L_zvol_state_lock])
      with ([EvRwEnter L_zvol_state_lock RW_READER]
              ++ tr ++ [EvRwExit L_zvol_state_lock]).
    rewrite lock_order_ok_app, lock_order_ok_app.
    change (held_after [] [EvRwEnter L_zvol_state_lock RW_READER])
      with [(L_zvol_state_lock, RW_READER)].
    rewrite Ho. reflexivity.
  - destruct r as [[i zv]|].
    + destruct Hheld as (zv0 & pre & Hn & -> & Hp).
      destruct (zvol_find_chain_found _ _ _ _ _ _ _ _ _ Hf)
        as (zv0' & Hn' & Hs & Hmm & Hfirst & Hnone & Hmode).
      rewrite Hn in Hn'. injection Hn' as <-.
      exists zv0, pre. repeat split; auto.
      * destruct mode.
        -- rewrite (Hnone eq_refl). reflexivity.
        -- destruct Hmode as (_ & zvx & _ & ->); [discriminate|reflexivity].
        -- destruct Hmode as (_ & zvx & _ & ->); [discriminate|reflexivity].
      * destruct mode.
        -- rewrite (Hnone eq_refl). apply (Hm zv0); auto.
           eapply nth_error_In; eauto.
        -- destruct Hmode as (_ & zvx & _ & ->); [discriminate|reflexivity].
        -- destruct Hmode as (_ & zvx & _ & ->); [discriminate|reflexivity].
      * rewrite <- app_assoc. reflexivity.
      * change (EvRwEnter L_zvol_state_lock RW_READER
                  :: (pre ++ find_acquire_events (zv_name zv0) mode try_ok)
                  ++ [EvRwExit L_zvol_state_lock])
          with ([EvRwEnter L_zvol_state_lock RW_READER]
                  ++ (pre ++ find_acquire_events (zv_name zv0) mode try_ok)
                  ++ [EvRwExit L_zvol_state_lock]).
        rewrite !held_after_app.
        change (held_after [] [EvRwEnter L_zvol_state_lock RW_READER])
          with [(L_zvol_state_lock, RW_READER)].
        rewrite Hp.
        destruct mode, try_ok; cbn; rewrite ?String.eqb_refl; reflexivity.
      * change (EvRwEnter L_zvol_state_lock RW_READER
                  :: (pre ++ find_acquire_events (zv_name zv0) mode try_ok)
                  ++ [EvRwExit L_zvol_state_lock])
          with ([EvRwEnter L_zvol_state_lock RW_READER]
                  ++ (pre ++ find_acquire_events (zv_name zv0) mode try_ok)
                  ++ [EvRwExit L_zvol_state_lock]).
        rewrite !held_after_app.
        change (held_after [] [EvRwEnter L_zvol_state_lock RW_READER])
          with [(L_zvol_state_lock, RW_READER)].
        rewrite Hp.
        destruct mode, try_ok; cbn; rewrite ?String.eqb_refl; reflexivity.
      * change (EvRwEnter L_zvol_state_lock RW_READER
                  :: (pre ++ find_acquire_events (zv_name zv0) mode try_ok)
                  ++ [EvRwExit L_zvol_state_lock])
          with ([EvRwEnter L_zvol_state_lock RW_READER]
                  ++ (pre ++ find_acquire_events (zv_name zv0) mode try_ok)
                  ++ [EvRwExit L_zvol_state_lock]).
        rewrite !held_after_app.
        change (held_after [] [EvRwEnter L_zvol_state_lock RW_READER])
          with [(L_zvol_state_lock, RW_READER)].
        rewrite Hp.
        destruct mode, try_ok; cbn; rewrite ?String.eqb_refl; reflexivity.
    + split.
      * eapply zvol_find_chain_none; eauto.
      * change (EvRwEnter L_zvol_state_lock RW_READER
                  :: tr ++ [EvRwExit L_zvol_state_lock])
          with ([EvRwEnter L_zvol_state_lock RW_READER]
                  ++ tr ++ [EvRwExit L_zvol_state_lock]).
        rewrite !held_after_app.
        change (held_after [] [EvRwEnter L_zvol_state_lock RW_READER])
          with [(L_zvol_state_lock, RW_READER)].
        rewrite Hheld. reflexivity.
Qed.

(* ------------------------------------------------------------------ *)
(** ** Suspend and resume *)

Lemma zvol_suspend_found_run zv :
  zv_state_lock zv = true ->
  zv_suspend_lock zv = RW_WRITER ->
  0 <= zv_suspend_ref zv ->
  (0 < zv_open_count zv -> zv_written_to zv = true -> zv_zilog zv <> None) ->
  zvol_suspend_found zv
  = Some (tt, zv_suspended zv,
          (if 0 <? zv_open_count zv then shutdown_events zv else [])
          ++ [EvMutexExit (L_state (zv_name zv))]).
Proof.
  intros Hs Hq Hr Hz.
  unfold zvol_suspend_found, zvol_shutdown_zv, zv_suspended, shutdown_events,
    m_mutex_exit, m_state_lock, lock_op, when_, bind, assert_, modify, emit,
    get, ret, mutex_exit, MUTEX_HELD, RW_WRITE_HELD, RW_LOCK_HELD.
  apply Z.leb_le in Hr.
  repeat (cbn; rewrite ?Hs, ?Hq, ?Hr).
  destruct (0 <? zv_open_count zv) eqn:Ho;
    repeat (cbn; rewrite ?Hs, ?Hq, ?Hr); [|reflexivity].
  apply Z.ltb_lt in Ho.
  destruct (zv_written_to zv) eqn:Hw;
    repeat (cbn; rewrite ?Hs, ?Hq, ?Hr); [|reflexivity].
  destruct (zv_zilog zv) eqn:Hzl; [|exfalso; apply Hz; auto].
  repeat (cbn; rewrite ?Hs, ?Hq, ?Hr). reflexivity.
Qed.

Lemma zvol_setup_zv_run o zv :
  zv_state_lock zv = true ->
  zv_suspend_lock zv <> RW_NONE ->
  zvol_setup_zv o zv = Some (setup_error o, zv_setup o zv, setup_events o).
Proof.
  intros Hs Hq.
  assert (Hq' : negb (krw_eqb (zv_suspend_lock zv) RW_NONE) = true)
    by (destruct (zv_suspend_lock zv); [congruence|reflexivity..]).
  unfold zvol_setup_zv, zv_setup, setup_error, setup_events, bind, assert_,
    modify, emit, ret, MUTEX_HELD, RW_LOCK_HELD.
  rewrite Hs, Hq'.
  destruct (so_prop_err o =? 0) eqn:H1; cbn -[Z.shiftr]; rewrite ?H1;
    [|reflexivity].
  destruct (so_zap_err o =? 0) eqn:H2; cbn -[Z.shiftr]; rewrite ?H2;
    [|reflexivity].
  destruct (so_dnode_err o =? 0) eqn:H3; cbn -[Z.shiftr]; rewrite ?H3;
    [|reflexivity].
  apply Z.eqb_eq in H3. rewrite H3.
  destruct (so_ro o || so_snapshot o || negb (so_writeable o));
    reflexivity.
Qed.

Lemma zvol_resume_run o zv :
  zv_suspend_lock zv = RW_WRITER ->
  zv_state_lock zv = false ->
  0 < zv_suspend_ref zv ->
  (0 < zv_open_count zv -> so_hold_err o = 0) ->
  zvol_resume o zv
  = Some (if 0 <? zv_open_count zv then setup_error o else 0,
          zv_resumed o zv, resume_events o zv).
Proof.
  intros Hq Hs Hr Hh.
  unfold zvol_resume.
  unfold bind at 1. unfold assert_ at 1. unfold RW_WRITE_HELD.
  rewrite Hq. cbn [krw_eqb].
  unfold bind at 1. unfold m_mutex_enter at 1, bind at 1, m_state_lock at 1,
    lock_op at 1, mutex_enter at 1. rewrite Hs.
  unfold bind at 1, get at 1.
  cbn [zv_open_count zv_set_state_lock].
  unfold zv_resumed, resume_events.
  apply Z.ltb_lt in Hr.
  destruct (0 <? zv_open_count zv) eqn:Ho.
  - apply Z.ltb_lt in Ho. specialize (Hh Ho).
    unfold bind at 1. unfold bind at 1. unfold emit at 1.
    unfold bind at 1. unfold assert_ at 1. rewrite Hh. cbn [Z.eqb].
    unfold bind at 1, modify at 1. unfold bind at 1, emit at 1.
    rewrite zvol_setup_zv_run by (cbn; congruence).
    unfold m_mutex_exit, m_rw_exit, m_state_lock, m_suspend_lock,
      lock_op, assert_, modify, ret, mutex_exit, rw_exit.
    unfold bind.
    assert (Hss : forall z, zv_state_lock z = true ->
                  zv_state_lock (zv_setup o z) = true).
    { intros z Hz. unfold zv_setup. destruct (setup_error o =? 0); exact Hz. }
    assert (Hsq : forall z, zv_suspend_lock (zv_setup o z) = zv_suspend_lock z).
    { intros z. unfold zv_setup. destruct (setup_error o =? 0); reflexivity. }
    assert (Hsr : forall z, zv_suspend_ref (zv_setup o z) = zv_suspend_ref z).
    { intros z. unfold zv_setup. destruct (setup_error o =? 0); reflexivity. }
    assert (Hsn : forall z, zv_name (zv_setup o z) = zv_name z).
    { intros z. unfold zv_setup. destruct (setup_error o =? 0); reflexivity. }
    repeat first
      [ rewrite Hss by reflexivity
      | rewrite Hsq | rewrite Hsr | rewrite Hsn | rewrite Hq | rewrite Hr
      | progress cbn [zv_suspend_lock zv_set_state_lock zv_name
                      zv_suspend_ref zv_set_suspend_lock zv_set_objset
                      zv_state_lock app] ].
    rewrite ?app_nil_r. reflexivity.
  - unfold ret, m_mutex_exit, m_rw_exit, m_state_lock, m_suspend_lock,
      lock_op, assert_, modify, mutex_exit, rw_exit.
    unfold bind.
    repeat first
      [ rewrite Hq | rewrite Hr
      | progress cbn [zv_suspend_lock zv_set_state_lock zv_name
                      zv_suspend_ref zv_set_suspend_lock zv_set_objset
                      zv_state_lock app] ].
    reflexivity.
Qed.

Lemma zvol_find_chain_run env try_ok chain name hash mode i zv0 :
  (forall zv, In zv chain -> zv_state_lock zv = false) ->
  (forall zv, In zv chain -> name_hash_match zv name hash = true ->
              zv_suspend_lock zv = RW_NONE /\
              name_hash_match (env zv) name hash = true) ->
  nth_error chain i = Some zv0 ->
  name_hash_match zv0 name hash = true ->
  (forall j zj, (j < i)%nat -> nth_error chain j = Some zj ->
                name_hash_match zj name hash = false) ->
  mode <> RW_NONE ->
  exists tr,
    zvol_find_chain env try_ok chain name hash mode
    = Some (Some (i, zv_set_state_lock
                       (zv_set_suspend_lock
                          (if try_ok then zv0 else env zv0) mode) true),
            tr).
Proof.
  intros Hl Hm Hn Hz Hfirst Hmode.
  destruct (zvol_find_chain_total env try_ok chain name hash mode Hl Hm)
    as (r & tr & Hf).
  destruct r as [[i' zv]|].
  - destruct (zvol_find_chain_found _ _ _ _ _ _ _ _ _ Hf)
      as (zv0' & Hn' & _ & Hz' & Hfirst' & _ & Hq).
    assert (i' = i) as ->.
    { destruct (Nat.lt_trichotomy i' i) as [Hlt|[->|Hlt]]; auto.
      - rewrite (Hfirst _ _ Hlt Hn') in Hz'. discriminate.
      - rewrite (Hfirst' _ _ Hlt Hn) in Hz. discriminate. }
    rewrite Hn in Hn'. injection Hn' as <-.
    destruct (Hq Hmode) as (_ & zvx & [[-> ->]|[-> ->]] & ->); eauto.
  - exfalso.
    rewrite (zvol_find_chain_none _ _ _ _ _ _ _ Hf zv0) in Hz;
      [discriminate|]. eapply nth_error_In; eauto.
Qed.

Lemma drop_lock_head l m held : drop_lock l ((l, m) :: held) = held.
Proof. cbn. rewrite lock_id_eqb_refl. reflexivity. Qed.

Lemma held_after_shutdown_events held zv :
  held_after held (shutdown_events zv) = held.
Proof. unfold shutdown_events. destruct (zv_written_to zv); reflexivity. Qed.

Lemma held_after_setup_events held o :
  held_after held (setup_events o) = held.
Proof.
  unfold setup_events.
  destruct (negb (so_prop_err o =? 0)); [reflexivity|].
  destruct (negb (so_zap_err o =? 0)); [reflexivity|].
  destruct (negb (so_dnode_err o =? 0)); reflexivity.
Qed.

Lemma In_setup_events_hold o : ~ In EvObjsetHold (setup_events o).
Proof.
  unfold setup_events.
  destruct (negb (so_prop_err o =? 0)); [intros []|].
  destruct (negb (so_zap_err o =? 0)); [intros []|].
  destruct (negb (so_dnode_err o =? 0)); cbn; intuition discriminate.
Qed.

Lemma zvol_resume_not_held o zv :
  zv_suspend_lock zv <> RW_WRITER -> zvol_resume o zv = None.
Proof.
  intros H. unfold zvol_resume. unfold bind at 1, assert_ at 1.
  unfold RW_WRITE_HELD. destruct (zv_suspend_lock zv); try reflexivity.
  congruence.
Qed.

(** C3.  [zvol_suspend(name)] on a registered volume returns it with the
    suspend lock held in write mode and the state lock released, one more
    suspend reference, the same open count, and, when the open count is
    positive, the dnode hold and the ZIL handle torn down (untouched
    otherwise).  The matching [zvol_resume] re-binds the objset and
    re-derives size and read-only flag if and only if the open count is
    positive, releases the write lock, and brings the reference count back;
    after it the caller holds no lock, and a second [zvol_resume] has no
    lock to release. *)
Theorem C3_suspend_resume_protocol
    (env : zvol_state -> zvol_state) (try_ok : bool) (table : Z -> Z)
    (ht : Z -> list zvol_state) (name : string) (i : nat)
    (zv0 : zvol_state) :
  let hash := zvol_name_hash table name in
  let chain := ht hash in
  let zvx := if try_ok then zv0 else env zv0 in
  (forall zv, In zv chain -> zv_state_lock zv = false) ->
  (forall zv, In zv chain -> name_hash_match zv name hash = true ->
              zv_suspend_lock zv = RW_NONE /\
              name_hash_match (env zv) name hash = true) ->
  zv_name (env zv0) = zv_name zv0 ->
  nth_error chain i = Some zv0 ->
  name_hash_match zv0 name hash = true ->
  (forall j zj, (j < i)%nat -> nth_error chain j = Some zj ->
                name_hash_match zj name hash = false) ->
  0 <= zv_suspend_ref zvx ->
  (0 < zv_open_count zvx -> zv_written_to zvx = true ->
   zv_zilog zvx <> None) ->
  exists zv1 tr,
    zvol_suspend env try_ok table ht name = Some (Some (i, zv1), tr) /\
    zv_suspend_lock zv1 = RW_WRITER /\
    zv_state_lock zv1 = false /\
    zv_suspend_ref zv1 = zv_suspend_ref zvx + 1 /\
    zv_open_count zv1 = zv_open_count zvx /\
    zv_objset zv1 = zv_objset zvx /\
    (0 < zv_open_count zvx ->
     zv_dn zv1 = None /\ zv_zilog zv1 = None /\ In EvDnodeRele tr /\
     (zv_written_to zvx = true -> In EvZilClose tr)) /\
    (zv_open_count zvx <= 0 ->
     zv_dn zv1 = zv_dn zvx /\ zv_zilog zv1 = zv_zilog zvx) /\
    held_after [] tr = [(L_suspend (zv_name zv0), RW_WRITER)] /\
    forall o, (0 < zv_open_count zvx -> so_hold_err o = 0) ->
      exists e zv2 tr2,
        zvol_resume o zv1 = Some (e, zv2, tr2) /\
        zv_suspend_lock zv2 = RW_NONE /\
        zv_state_lock zv2 = false /\
        zv_suspend_ref zv2 = zv_suspend_ref zvx /\
        zv_open_count zv2 = zv_open_count zvx /\
        (In EvObjsetHold tr2 <-> 0 < zv_open_count zvx) /\
        (0 < zv_open_count zvx ->
         zv_objset zv2 = Some (so_objset o) /\ e = setup_error o /\
         (e = 0 ->
          zv_dn zv2 = Some (so_dn o) /\ zv_volsize zv2 = so_volsize o /\
          zv_rdonly zv2
          = (so_ro o || so_snapshot o || negb (so_writeable o)))) /\
        (zv_open_count zvx <= 0 ->
         e = 0 /\ zv_objset zv2 = zv_objset zvx /\
         zv_dn zv2 = zv_dn zvx /\ zv_volsize zv2 = zv_volsize zvx /\
         zv_rdonly zv2 = zv_rdonly zvx) /\
        held_after [] (tr ++ tr2) = [] /\
        forall o', zvol_resume o' zv2 = None.
Proof.
  intros hash chain zvx Hl Hm Hname Hn Hz Hfirst Hr Hzl.
  assert (Hnx : zv_name zvx = zv_name zv0)
    by (unfold zvx; destruct try_ok; auto).
  destruct (zvol_find_chain_run env try_ok chain name hash RW_WRITER i zv0
              Hl Hm Hn Hz Hfirst) as (trf & Hf); [discriminate|].
  fold zvx in Hf.
  set (zvl := zv_set_state_lock (zv_set_suspend_lock zvx RW_WRITER) true)
    in *.
  assert (Hrun := zvol_suspend_found_run zvl eq_refl eq_refl Hr Hzl).
  unfold zvol_suspend, zvol_find_by_name, zvol_find_by_name_hash.
  fold hash. fold chain. rewrite Hf, Hrun.
  eexists _, _. split; [reflexivity|].
  assert (Hh : forall n,
             holds [(L_zvol_state_lock, RW_READER)] (L_state n) = false)
    by reflexivity.
  destruct (zvol_find_chain_trace _ _ _ _ _ _ _ _
              [(L_zvol_state_lock, RW_READER)] Hf Hh)
    as [_ (zv0' & pre & Hn' & Htr & Hp)].
  fold chain in Hn'. rewrite Hn in Hn'. injection Hn' as <-.
  assert (Hheld :
    held_after []
      ((EvRwEnter L_zvol_state_lock RW_READER
          :: trf ++ [EvRwExit L_zvol_state_lock])
       ++ (if 0 <? zv_open_count zvl then shutdown_events zvl else [])
       ++ [EvMutexExit (L_state (zv_name zvl))])
    = [(L_suspend (zv_name zv0), RW_WRITER)]).
  { change (EvRwEnter L_zvol_state_lock RW_READER
              :: trf ++ [EvRwExit L_zvol_state_lock])
      with ([EvRwEnter L_zvol_state_lock RW_READER]
              ++ trf ++ [EvRwExit L_zvol_state_lock]).
    rewrite Htr, !held_after_app.
    change (held_after [] [EvRwEnter L_zvol_state_lock RW_READER])
      with [(L_zvol_state_lock, RW_READER)].
    rewrite Hp.
    assert (Hs : forall h,
               held_after h
                 (if 0 <? zv_open_count zvl then shutdown_events zvl
                  else []) = h).
    { intros h. destruct (0 <? zv_open_count zvl);
        [apply held_after_shutdown_events|reflexivity]. }
    rewrite Hs.
    change (zv_name zvl) with (zv_name zvx). rewrite Hnx.
    destruct try_ok; cbn; rewrite ?String.eqb_refl; reflexivity. }
  unfold zv_suspended.
  change (zv_open_count zvl) with (zv_open_count zvx) in *.
  change (zv_suspend_ref zvl) with (zv_suspend_ref zvx) in *.
  change (zv_written_to zvl) with (zv_written_to zvx) in *.
  split; [destruct (0 <? zv_open_count zvx); reflexivity|].
  split; [destruct (0 <? zv_open_count zvx); reflexivity|].
  split; [destruct (0 <? zv_open_count zvx); reflexivity|].
  split; [destruct (0 <? zv_open_count zvx); reflexivity|].
  split; [destruct (0 <? zv_open_count zvx); reflexivity|].
  split.
  { intros Ho. apply Z.ltb_lt in Ho. rewrite Ho.
    split; [reflexivity|]. split; [reflexivity|]. split.
    - apply in_or_app. right. apply in_or_app. left.
      unfold shutdown_events. apply in_or_app. right. left. reflexivity.
    - intros Hw. apply in_or_app. right. apply in_or_app. left.
      unfold shutdown_events.
      change (zv_written_to zvl) with (zv_written_to zvx).
      rewrite Hw. left. reflexivity. }
  split.
  { intros Ho. apply Z.ltb_ge in Ho. rewrite Ho. split; reflexivity. }
  split; [exact Hheld|].
  intros o Hho.
  set (zv1 := zv_set_state_lock
                (if 0 <? zv_open_count zvx
                 then zv_set_dn
                        (zv_set_zilog
                           (zv_set_suspend_ref zvl (zv_suspend_ref zvx + 1))
                           None) None
                 else zv_set_suspend_ref zvl (zv_suspend_ref zvx + 1))
                false).
  assert (H1q : zv_suspend_lock zv1 = RW_WRITER)
    by (unfold zv1; destruct (0 <? zv_open_count zvx); reflexivity).
  assert (H1s : zv_state_lock zv1 = false) by reflexivity.
  assert (H1r : zv_suspend_ref zv1 = zv_suspend_ref zvx + 1)
    by (unfold zv1; destruct (0 <? zv_open_count zvx); reflexivity).
  assert (H1o : zv_open_count zv1 = zv_open_count zvx)
    by (unfold zv1; destruct (0 <? zv_open_count zvx); reflexivity).
  assert (H1n : zv_name zv1 = zv_name zv0)
    by (unfold zv1; destruct (0 <? zv_open_count zvx); exact Hnx).
  assert (H1b : zv_objset zv1 = zv_objset zvx)
    by (unfold zv1; destruct (0 <? zv_open_count zvx); reflexivity).
  assert (H1v : zv_volsize zv1 = zv_volsize zvx)
    by (unfold zv1; destruct (0 <? zv_open_count zvx); reflexivity).
  assert (H1ro : zv_rdonly zv1 = zv_rdonly zvx)
    by (unfold zv1; destruct (0 <? zv_open_count zvx); reflexivity).
  assert (H1d : zv_open_count zvx <= 0 -> zv_dn zv1 = zv_dn zvx).
  { intros Ho. apply Z.ltb_ge in Ho. unfold zv1. rewrite Ho. reflexivity. }
  clearbody zv1.
  eexists _, _, _. split.
  { apply zvol_resume_run; auto; try lia; rewrite H1o; exact Hho. }
  unfold zv_resumed, resume_events. rewrite H1o, H1n, H1r.
  destruct (0 <? zv_open_count zvx) eqn:Ho.
  - apply Z.ltb_lt in Ho. unfold zv_setup.
    split; [destruct (setup_error o =? 0); reflexivity|].
    split; [destruct (setup_error o =? 0); reflexivity|].
    split; [destruct (setup_error o =? 0); cbn; lia|].
    split; [destruct (setup_error o =? 0); exact H1o|].
    split; [split; [intros _; exact Ho|intros _; right; left; reflexivity]|].
    split.
    { intros _. split; [destruct (setup_error o =? 0); reflexivity|].
      split; [reflexivity|].
      intros He. rewrite He. cbn. auto. }
    split; [intros; lia|].
    split.
    { rewrite held_after_app, Hheld. cbn [app held_after].
      rewrite held_after_app, held_after_setup_events.
      cbn [held_after]. rewrite !drop_lock_head. reflexivity. }
    intros o'. apply zvol_resume_not_held.
    destruct (setup_error o =? 0); cbn; discriminate.
  - apply Z.ltb_ge in Ho.
    split; [reflexivity|]. split; [reflexivity|].
    split; [cbn; lia|]. split; [exact H1o|].
    split.
    { split; [|intros; lia].
      cbn. intros [H|[H|[H|[]]]]; discriminate. }
    split; [intros; lia|].
    split.
    { intros _. split; [reflexivity|]. cbn. auto. }
    split.
    { rewrite held_after_app, Hheld. cbn [app held_after].
      rewrite !drop_lock_head. reflexivity. }
    intros o'. apply zvol_resume_not_held. cbn. discriminate.
Qed.

(* ------------------------------------------------------------------ *)
(** ** Invariants of a volume under concurrent requests *)

Lemma zvol_suspend_found_effect zv u zv' tr :
  zvol_suspend_found zv = Some (u, zv', tr) ->
  zv_suspend_lock zv = RW_WRITER /\
  zv_suspend_lock zv' = RW_WRITER /\
  zv_state_lock zv' = false /\
  zv_suspend_ref zv' = zv_suspend_ref zv + 1 /\
  zv_active zv' = zv_active zv /\ zv_deferred zv' = zv_deferred zv.
Proof.
  intros H.
  unfold zvol_suspend_found, zvol_shutdown_zv, m_mutex_exit in H.
  minv.
  all: unfold RW_WRITE_HELD in *.
  all: repeat match goal with
              | H : krw_eqb _ _ = true |- _ => apply krw_eqb_eq in H
              end.
  all: cbn in *; repeat split; congruence.
Qed.

Lemma zvol_suspend_effect try_ok table ht name i zv0 zv' tr :
  nth_error (ht (zvol_name_hash table name)) i = Some zv0 ->
  zvol_suspend (fun zv => zv) try_ok table ht name
  = Some (Some (i, zv'), tr) ->
  zv_suspend_lock zv0 = RW_NONE /\
  zv_suspend_lock zv' = RW_WRITER /\
  zv_state_lock zv' = false /\
  zv_suspend_ref zv' = zv_suspend_ref zv0 + 1 /\
  zv_active zv' = zv_active zv0 /\ zv_deferred zv' = zv_deferred zv0.
Proof.
  intros Hn H.
  unfold zvol_suspend, zvol_find_by_name, zvol_find_by_name_hash in H.
  destruct (zvol_find_chain _ _ _ _ _ _) as [[[[j zv1]|] trf]|] eqn:Hf;
    try discriminate.
  destruct (zvol_suspend_found zv1) as [[[u zv2] tr2]|] eqn:Hs;
    [|discriminate].
  injection H as -> -> <-.
  destruct (zvol_find_chain_found _ _ _ _ _ _ _ _ _ Hf)
    as (z & Hn' & _ & _ & _ & _ & Hq).
  rewrite Hn in Hn'. injection Hn' as <-.
  destruct Hq as (Hq & zvx & Hx & ->); [discriminate|].
  assert (zvx = zv0) as -> by (destruct Hx as [[_ ->]|[_ ->]]; reflexivity).
  apply zvol_suspend_found_effect in Hs.
  cbn in Hs. intuition.
Qed.

Lemma ids_length l : List.length (ids l) = List.length l.
Proof. apply length_map. Qed.

Lemma slot_section_lengths zv r :
  slot_section zv r ->
  (List.length (ir_dispatched r) + List.length (zv_deferred (ir_zv r))
   = List.length (zv_deferred zv))%nat.
Proof.
  intros H. rewrite <- (ids_length (zv_deferred zv)), <- (ss_fifo _ _ H).
  rewrite length_app, !ids_length. reflexivity.
Qed.

Lemma slot_section_nonempty zv r :
  slot_section zv r -> zv_deferred (ir_zv r) <> [] -> zv_deferred zv <> [].
Proof.
  intros H Hne Heq. pose proof (ss_fifo _ _ H) as Hf.
  rewrite Heq in Hf. apply app_eq_nil in Hf. destruct Hf as [_ Hf].
  apply map_eq_nil in Hf. auto.
Qed.

(** A section run by a context that owns a slot keeps the invariants. *)
Lemma sys_inv_slot ncpus s l1 l2 zds ph r :
  sys_inv ncpus s ->
  s_inflight s = l1 ++ (zds, ph) :: l2 ->
  slot_section (s_zv s) r ->
  sys_inv ncpus (sys_apply s (l1 ++ l2) r).
Proof.
  intros I Hin S.
  pose proof (slot_section_lengths _ _ S) as Hlen.
  pose proof (inv_slots _ _ I) as Is. pose proof (inv_ref _ _ I) as Ir.
  rewrite Hin in Is, Ir. rewrite length_app in Is, Ir. cbn in Is, Ir.
  assert (Hph : Z.of_nat
                  (List.length
                     (match ir_phase r with
                      | Some ph0 => [(ir_zds r, ph0)]
                      | None => []
                      end))
                = match ir_phase r with Some _ => 1 | None => 0 end)
    by (destruct (ir_phase r); reflexivity).
  constructor; unfold sys_apply; cbn [s_zv s_inflight s_enq_log s_promoted].
  - rewrite (ss_active _ _ S). unfold ir_slots.
    rewrite !length_app, length_map, !Nat2Z.inj_add, Hph. lia.
  - pose proof (ss_le _ _ S). pose proof (inv_bound _ _ I). lia.
  - intros Hne. rewrite (ss_keep _ _ S Hne).
    apply (inv_queue _ _ I). eapply slot_section_nonempty; eauto.
  - rewrite (ss_queued _ _ S), app_nil_r, (inv_fifo _ _ I).
    rewrite <- (ss_fifo _ _ S). unfold ids. rewrite app_assoc. reflexivity.
  - rewrite (ss_ref _ _ S). unfold RW_WRITE_HELD in *.
    rewrite (ss_rw _ _ S).
    rewrite !length_app, length_map, !Nat2Z.inj_add, Hph.
    destruct (ir_phase r); lia.
  - intros d Hd. apply in_app_or in Hd. destruct Hd as [Hd|Hd].
    + apply (inv_retry _ _ I). rewrite Hin.
      apply in_app_or in Hd. apply in_or_app.
      destruct Hd; [left|right; right]; auto.
    + apply in_app_or in Hd. destruct Hd as [Hd|Hd].
      * exfalso. destruct (ir_phase r) as [ph0|] eqn:Hp; [|destruct Hd].
        destruct Hd as [Hd|[]]. injection Hd as _ ->.
        apply (ss_phase _ _ S). exact Hp.
      * apply in_map_iff in Hd. destruct Hd as (d' & Hd' & Hi).
        injection Hd' as ->.
        pose proof (ss_retry _ _ S) as Hr.
        rewrite Forall_forall in Hr. auto.
Qed.

(** The arrival of a new context keeps the invariants. *)
Lemma sys_inv_arrive ncpus s o zds r :
  sys_inv ncpus s ->
  zds_retry zds = false ->
  zvol_dmu_ctx_init ncpus o (s_zv s) zds = Some r ->
  sys_inv ncpus (sys_apply s (s_inflight s) r).
Proof.
  intros I Hr H.
  destruct (zvol_dmu_ctx_init_arrive _ _ _ _ _ Hr H)
    as [(Hz & Hp & Hq & Hd & _)|[(Hm & Hz & Hp & Hq & Hd & _)|(Hm & S)]].
  - destruct I as [Is Ib Iq If Ir It].
    constructor; unfold sys_apply;
      cbn [s_zv s_inflight s_enq_log s_promoted];
      rewrite ?Hz, ?Hp, ?Hq, ?Hd; cbn; rewrite ?app_nil_r; auto.
    unfold RW_WRITE_HELD in *. cbn. lia.
  - destruct I as [Is Ib Iq If Ir It].
    constructor; unfold sys_apply;
      cbn [s_zv s_inflight s_enq_log s_promoted];
      rewrite ?Hz, ?Hp, ?Hq, ?Hd; cbn; rewrite ?app_nil_r; auto.
    + intros _. left. lia.
    + rewrite If. unfold ids. rewrite map_app, app_assoc. reflexivity.
    + unfold RW_WRITE_HELD in *. cbn. rewrite length_app. cbn. lia.
  - set (zv2 := zv_set_active
                  (zv_set_suspend_ref (s_zv s) (zv_suspend_ref (s_zv s) + 1))
                  (zv_active (s_zv s) + 1)) in *.
    set (s2 := mk_sys zv2 (s_inflight s ++ [(zds, PhLocked)])
                 (s_prechecked s) (s_enq_log s) (s_promoted s)).
    assert (I2 : sys_inv ncpus s2).
    { destruct I as [Is Ib Iq If Ir It].
      constructor; unfold s2, zv2; cbn.
      - rewrite length_app. cbn. lia.
      - lia.
      - intros Hne. destruct (Iq Hne); [lia|right; lia].
      - exact If.
      - unfold RW_WRITE_HELD in *. cbn. rewrite length_app. cbn. lia.
      - intros d Hd. apply in_app_or in Hd.
        destruct Hd as [Hd|[Hd|[]]]; [auto|discriminate]. }
    pose proof (sys_inv_slot ncpus s2 (s_inflight s) [] zds PhLocked r I2
                  eq_refl S) as I3.
    rewrite app_nil_r in I3. exact I3.
Qed.

Lemma sys_inv_init ncpus s : 0 <= ncpus -> sys_initial s -> sys_inv ncpus s.
Proof.
  intros Hn (Ha & Hd & Hr & Hq & _ & Hi & _ & He & Hp).
  constructor; unfold RW_WRITE_HELD; rewrite ?Ha, ?Hd, ?Hr, ?Hq, ?Hi, ?He, ?Hp;
    cbn; try lia; try reflexivity; try congruence; try tauto.
Qed.

Lemma sys_inv_step ncpus s s' :
  sys_inv ncpus s -> sys_step ncpus s s' -> sys_inv ncpus s'.
Proof.
  intros I St. destruct St.
  - eapply sys_inv_arrive; eauto.
  - eapply sys_inv_slot; eauto.
    eapply zvol_dmu_ctx_init_retry; eauto.
    apply (inv_retry _ _ I). rewrite H. apply in_or_app. right. left.
    reflexivity.
  - eapply sys_inv_slot; eauto. apply slot_section_write_impl.
  - eapply sys_inv_slot; eauto. apply slot_section_issue.
  - eapply sys_inv_slot; eauto. apply slot_section_issue.
  - destruct I; constructor; auto.
  - destruct I as [Is Ib Iq If Ir It].
    unfold zvol_geom_bio_async_locked, zvol_dmu_ctx_init_enqueue.
    destruct (1 <? zv_active (s_zv s)) eqn:Ha.
    + apply Z.ltb_lt in Ha.
      constructor; cbn; auto.
      * rewrite If. unfold ids. rewrite map_app, app_assoc. reflexivity.
      * unfold RW_WRITE_HELD in *. cbn. rewrite length_app. cbn. lia.
    + constructor; cbn; rewrite ?app_nil_r; auto.
  - destruct (zvol_suspend_effect _ _ _ _ _ _ _ _ H H0)
      as (Hq & Hq' & _ & Hr & Ha & Hd).
    destruct I as [Is Ib Iq If Ir It].
    constructor; unfold sys_with_zv; cbn; rewrite ?Ha, ?Hd; auto.
    clear H H0.
    unfold RW_WRITE_HELD in *. rewrite Hq in Ir. rewrite Hq', Hr.
    cbn in Ir |- *. lia.
  - destruct (zvol_resume_effect _ _ _ _ _ H)
      as (Hq & _ & Hr & Hq' & _ & Ha & Hd & _).
    destruct I as [Is Ib Iq If Ir It].
    constructor; unfold sys_with_zv; cbn; rewrite ?Ha, ?Hd; auto.
    clear H.
    unfold RW_WRITE_HELD in *. rewrite Hq in Ir. rewrite Hq', Hr.
    cbn in Ir |- *. lia.
Qed.

Lemma reachable_inv ncpus s :
  0 <= ncpus -> reachable ncpus s -> sys_inv ncpus s.
Proof.
  intros Hn R. induction R.
  - apply sys_inv_init; auto.
  - eapply sys_inv_step; eauto.
Qed.

(* ------------------------------------------------------------------ *)
(** ** Admission control on completion *)

Lemma zvol_dmu_ctx_validate_frame zv zds r b :
  zvol_dmu_ctx_validate (zv_set_suspend_ref zv r) (zds_set_sync zds b)
  = zvol_dmu_ctx_validate zv zds.
Proof. reflexivity. Qed.


(* ------------------------------------------------------------------ *)
(** ** Suspend references and minor removal *)




(* ------------------------------------------------------------------ *)
(** ** Admission control on arrival *)

Lemma zvol_dmu_ctx_start_trace o zv zds :
  exists tr,
    ir_trace (zvol_dmu_ctx_start o zv zds)
    = EvDmuCtxInit (zds_id zds) (zds_off zds)
        (Z.min (zds_io_size zds) (sub64 (zv_volsize zv) (zds_off zds)))
      :: tr.
Proof.
  unfold zvol_dmu_ctx_start.
  destruct (negb (o_dmu_ctx_init o =? 0)).
  - unfold ir_released, zvol_dmu_err.
    destruct (zvol_dmu_ctx_init_deferred zv) as [[a b] c]. cbn. eauto.
  - destruct (zds_reader zds); [destruct (o_rangelock_wait o)|]; cbn; eauto.
Qed.

(** The claim of the specification fails on the code: with three CPUs, three
    reads are admitted; a fourth request reads [zvol_dmu_max_active] as true
    in [zvol_geom_bio_async]; one read completes; the fourth request then
    wins [mutex_tryenter], finds [zv_active > 1] and is appended to the
    deferred queue while only two contexts are active. *)
Lemma C1_counterexample :
  exists s,
    reachable 3 s /\
    zv_deferred (s_zv s) <> [] /\ zv_active (s_zv s) = 2 /\
    zv_active (s_zv s) < 3.
Proof.
  assert (R0 : reachable 3 (ex_sys ex_vol))
    by (apply reach_init; repeat split; reflexivity).
  match type of R0 with
  | reachable _ ?s =>
      pose proof (reach_step _ _ _ R0
                    (step_arrive 3 s (ex_read 1 0 4096) ex_oracle _
                       eq_refl eq_refl)) as R1
  end.
  vm_compute in R1.
  match type of R1 with
  | reachable _ ?s =>
      pose proof (reach_step _ _ _ R1
                    (step_arrive 3 s (ex_read 2 8192 4096) ex_oracle _
                       eq_refl eq_refl)) as R2
  end.
  vm_compute in R2.
  match type of R2 with
  | reachable _ ?s =>
      pose proof (reach_step _ _ _ R2
                    (step_arrive 3 s (ex_read 3 16384 4096) ex_oracle _
                       eq_refl eq_refl)) as R3
  end.
  vm_compute in R3.
  match type of R3 with
  | reachable _ ?s =>
      pose proof (reach_step _ _ _ R3
                    (step_precheck 3 s (ex_write 4 32768 4096) eq_refl))
        as R4
  end.
  vm_compute in R4.
  match type of R4 with
  | reachable _ ?s =>
      pose proof (reach_step _ _ _ R4
                    (step_lock_granted 3 s [] _ _ eq_refl)) as R5
  end.
  vm_compute in R5.
  match type of R5 with
  | reachable _ ?s =>
      pose proof (reach_step _ _ _ R5
                    (step_bio_locked 3 s [] [] _ eq_refl)) as R6
  end.
  vm_compute in R6.
  eexists. split; [exact R6|].
  cbn. repeat split; try lia. discriminate.
Qed.

(** C1, as the code has it.  A new context that passes the read-only and
    bounds checks is admitted at once when [zv_active < boot_ncpus]: the
    count is incremented and the pipeline starts in the same call, with
    [dmu_ctx_init] as its first step; otherwise it is appended to the tail
    of the deferred queue and [EINPROGRESS] is returned, with no further
    call made.  In every reachable state [0 <= zv_active <= boot_ncpus], and
    the deferred queue is non-empty only if [zv_active] equals [boot_ncpus]
    or exceeds 1. *)
Theorem C1_admission_on_arrival ncpus :
  0 <= ncpus ->
  (forall o zv zds os,
     zv_objset zv = Some os ->
     zds_retry zds = false ->
     zvol_dmu_ctx_validate zv zds = 0 ->
     let zds1 :=
       zds_set_sync zds
         (zds_sync zds || (negb (zds_reader zds) && os_sync_always os)) in
     let zv1 := zv_set_suspend_ref zv (zv_suspend_ref zv + 1) in
     (zv_active zv < ncpus ->
      zvol_dmu_ctx_init ncpus o zv zds
      = Some (zvol_dmu_ctx_start o
                (zv_set_active zv1 (zv_active zv + 1)) zds1) /\
      exists tr,
        ir_trace (zvol_dmu_ctx_start o
                    (zv_set_active zv1 (zv_active zv + 1)) zds1)
        = EvDmuCtxInit (zds_id zds) (zds_off zds)
            (Z.min (zds_io_size zds)
               (sub64 (zv_volsize zv) (zds_off zds))) :: tr) /\
     (ncpus <= zv_active zv ->
      zvol_dmu_ctx_init ncpus o zv zds
      = Some (mk_ir
                (zv_set_deferred zv1
                   (zv_deferred zv ++ [zds_set_async zds1 true]))
                (zds_set_async zds1 true) EINPROGRESS None true [] []))) /\
  (forall s, reachable ncpus s ->
     0 <= zv_active (s_zv s) <= ncpus /\
     (zv_deferred (s_zv s) <> [] ->
      zv_active (s_zv s) = ncpus \/ 1 < zv_active (s_zv s))).
Proof.
  intros Hn. split.
  - intros o zv zds os Hos Hr Hv zds1 zv1.
    assert (Hinit : zvol_dmu_ctx_init ncpus o zv zds
                    = let '(zv2, zds2, e) :=
                        zvol_dmu_ctx_admit ncpus zv1 zds1 in
                      if e =? EINPROGRESS
                      then Some (mk_ir zv2 zds2 e None true [] [])
                      else Some (zvol_dmu_ctx_start o zv2 zds2)).
    { unfold zvol_dmu_ctx_init. rewrite Hos.
      cbn [zds_retry zds_set_sync]. rewrite Hr.
      fold zds1. fold zv1.
      change (zvol_dmu_ctx_validate zv1 zds1)
        with (zvol_dmu_ctx_validate zv zds).
      rewrite Hv. reflexivity. }
    rewrite Hinit. unfold zvol_dmu_ctx_admit, zvol_dmu_max_active.
    change (zv_active zv1) with (zv_active zv).
    split.
    + intros Hlt. apply Z.leb_gt in Hlt. rewrite Hlt. cbn [Z.eqb].
      split.
      * reflexivity.
      * destruct (zvol_dmu_ctx_start_trace o
                    (zv_set_active zv1 (zv_active zv + 1)) zds1) as [tr Ht].
        exists tr. exact Ht.
    + intros Hge. apply Z.leb_le in Hge. rewrite Hge. reflexivity.
  - intros s R. pose proof (reachable_inv _ _ Hn R) as I.
    pose proof (inv_slots _ _ I). pose proof (inv_bound _ _ I).
    split; [lia|]. apply (inv_queue _ _ I).
Qed.

(* ------------------------------------------------------------------ *)
(** ** Lazy creation of the ZIL handle *)

Ltac run_m Hq :=
  unfold when_;
  unfold m_rw_tryupgrade, m_rw_exit, m_rw_enter, m_rw_downgrade,
    m_suspend_lock, lock_op, assert_, modify, emit, get, ret, when_,
    rw_tryupgrade, rw_exit, rw_enter, rw_downgrade, interfere,
    RW_READ_HELD;
  unfold bind;
  repeat (cbn [zv_suspend_lock zv_set_suspend_lock zv_set_state_lock
               zv_zilog zv_set_zilog zv_set_written_to zv_name negb
               krw_eqb app];
          rewrite ?Hq).

Ltac fin :=
  intros;
  repeat match goal with
         | H : In _ [] |- _ => destruct H
         | H : _ /\ _ |- _ => destruct H
         | H : Some _ = None |- _ => discriminate H
         | H : None = Some _ |- _ => discriminate H
         end;
  try congruence; try (cbn; lia); try discriminate.

Lemma zvol_ensure_zilog_spec ok env zl zv :
  zv_suspend_lock zv = RW_READER ->
  let lq := L_suspend (zv_name zv) in
  let zvu := env (zv_set_suspend_lock zv RW_NONE) in
  exists zv' tr,
    zvol_ensure_zilog ok env zl zv = Some (tt, zv', tr) /\
    zv_zilog zv' <> None /\
    zv_suspend_lock zv' = RW_READER /\
    zv_state_lock zv' = zv_state_lock zv /\
    (count_zil_open tr <= 1)%nat /\
    (In EvZilOpen tr <->
     zv_zilog zv = None /\ (ok = true \/ zv_zilog zvu = None)) /\
    (In EvZilOpen tr ->
     zv_zilog zv' = Some zl /\ zv_written_to zv' = true) /\
    (zv_zilog zv <> None -> zv' = zv /\ tr = []) /\
    (zv_zilog zv = None -> ok = true ->
     tr = [EvRwTryUpgrade lq true; EvZilOpen; EvRwDowngrade lq]) /\
    (zv_zilog zv = None -> ok = false ->
     zv_name zvu = zv_name zv ->
     zv_zilog zv' = (match zv_zilog zvu with
                     | Some h => Some h
                     | None => Some zl
                     end) /\
     tr = [EvRwTryUpgrade lq false; EvRwExit lq; EvRwEnter lq RW_WRITER]
          ++ (match zv_zilog zvu with
              | Some _ => []
              | None => [EvZilOpen]
              end)
          ++ [EvRwDowngrade lq]) /\
    forall ok' env' zl',
      zvol_ensure_zilog ok' env' zl' zv' = Some (tt, zv', []).
Proof.
  intros Hq lq zvu.
  assert (Hidem : forall z, zv_suspend_lock z = RW_READER ->
                  zv_zilog z <> None ->
                  forall ok' env' zl',
                    zvol_ensure_zilog ok' env' zl' z = Some (tt, z, [])).
  { intros z Hz Hl ok' env' zl'. unfold zvol_ensure_zilog.
    unfold bind at 1, assert_ at 1. unfold RW_READ_HELD. rewrite Hz.
    cbn [krw_eqb]. unfold bind at 1, get at 1.
    destruct (zv_zilog z); [reflexivity|congruence]. }
  destruct (zv_zilog zv) as [h|] eqn:Hzl.
  - exists zv, []. split; [apply Hidem; congruence|].
    rewrite Hzl.
    repeat split; fin.
    intros; apply Hidem; congruence.
  - unfold zvol_ensure_zilog.
    unfold bind at 1, assert_ at 1. unfold RW_READ_HELD. rewrite Hq.
    cbn [krw_eqb]. unfold bind at 1, get at 1. rewrite Hzl.
    destruct ok.
    + run_m Hq. rewrite Hzl.
      repeat (cbn [zv_suspend_lock zv_set_suspend_lock zv_set_state_lock
                   zv_zilog zv_set_zilog zv_set_written_to zv_name negb
                   krw_eqb app]).
      eexists _, _. split; [reflexivity|].
      repeat split; fin; try (cbn; auto; fail);
        try (apply Hidem; cbn; congruence).
    + run_m Hq. fold zvu.
      destruct (zv_zilog zvu) as [h|] eqn:Hzu.
      * repeat (cbn [zv_suspend_lock zv_set_suspend_lock zv_set_state_lock
                     zv_zilog zv_set_zilog zv_set_written_to zv_name negb
                     krw_eqb app]).
        eexists _, _. split; [reflexivity|].
        repeat split; fin;
          try match goal with
              | H : In EvZilOpen _ |- _ =>
                  cbn in H; intuition discriminate
              end;
          try (apply Hidem; cbn; congruence);
          try (match goal with
               | H : _ \/ _ |- _ => destruct H; congruence
               end);
          try (match goal with
               | H : zv_name _ = _ |- _ => cbn; rewrite H; reflexivity
               end);
          try (cbn; rewrite Hzu; congruence).
      * repeat (cbn [zv_suspend_lock zv_set_suspend_lock zv_set_state_lock
                     zv_zilog zv_set_zilog zv_set_written_to zv_name negb
                     krw_eqb app]).
        eexists _, _. split; [reflexivity|].
        repeat split; fin; try (cbn; auto 8; fail);
          try (apply Hidem; cbn; congruence);
          try (match goal with
               | H : zv_name _ = _ |- _ => cbn; rewrite H; reflexivity
               end).
Qed.

(** C8.  Called with the suspend lock held as reader, [zvol_ensure_zilog]
    returns with the lock held as reader and a ZIL handle present.  If the
    handle was there on entry nothing happens.  Otherwise the lock is
    upgraded, or, when the upgrade is refused, dropped and taken again as
    writer; the handle is tested again under the writer lock and
    [zil_open] is called only if it is still absent, so a handle another
    thread installed while the lock was dropped is kept; then the lock is
    downgraded.  [zil_open] is called at most once, and a second call of
    the function changes nothing. *)
Theorem C8_ensure_zilog_lazy_once ok env zl zv :
  zv_suspend_lock zv = RW_READER ->
  let lq := L_suspend (zv_name zv) in
  let zvu := env (zv_set_suspend_lock zv RW_NONE) in
  exists zv' tr,
    zvol_ensure_zilog ok env zl zv = Some (tt, zv', tr) /\
    zv_zilog zv' <> None /\
    zv_suspend_lock zv' = RW_READER /\
    zv_state_lock zv' = zv_state_lock zv /\
    (count_zil_open tr <= 1)%nat /\
    (In EvZilOpen tr <->
     zv_zilog zv = None /\ (ok = true \/ zv_zilog zvu = None)) /\
    (In EvZilOpen tr ->
     zv_zilog zv' = Some zl /\ zv_written_to zv' = true) /\
    (zv_zilog zv <> None -> zv' = zv /\ tr = []) /\
    (zv_zilog zv = None -> ok = true ->
     tr = [EvRwTryUpgrade lq true; EvZilOpen; EvRwDowngrade lq]) /\
    (zv_zilog zv = None -> ok = false ->
     zv_name zvu = zv_name zv ->
     zv_zilog zv' = (match zv_zilog zvu with
                     | Some h => Some h
                     | None => Some zl
                     end) /\
     tr = [EvRwTryUpgrade lq false; EvRwExit lq; EvRwEnter lq RW_WRITER]
          ++ (match zv_zilog zvu with
              | Some _ => []
              | None => [EvZilOpen]
              end)
          ++ [EvRwDowngrade lq]) /\
    forall ok' env' zl',
      zvol_ensure_zilog ok' env' zl' zv' = Some (tt, zv', []).
Proof. apply zvol_ensure_zilog_spec. Qed.


(* ------------------------------------------------------------------ *)
(** ** Geometry validation *)

Lemma zvol_find_chain_lock_events env try_ok chain name hash mode :
  forall r tr,
  zvol_find_chain env try_ok chain name hash mode = Some (r, tr) ->
  forall e, In e tr -> is_lock_event e = true.
Proof.
  induction chain as [|z rest IH]; intros r tr H e He.
  - cbn in H. injection H as <- <-. destruct He.
  - cbn -[name_hash_match mutex_enter mutex_exit rw_enter rw_tryenter
          interfere] in H.
    destruct (mutex_enter z) as [z1|]; [|discriminate].
    destruct (name_hash_match z1 name hash).
    + destruct (krw_eqb mode RW_NONE).
      * injection H as <- <-. cbn in He. intuition (subst; reflexivity).
      * destruct (rw_tryenter try_ok z1 mode) as [z2 []].
        -- injection H as <- <-. cbn in He. intuition (subst; reflexivity).
        -- repeat match type of H with
                  | match ?x with _ => _ end = _ =>
                      destruct x; try discriminate
                  end.
           injection H as <- <-. cbn in He. intuition (subst; reflexivity).
    + destruct (mutex_exit z1); [|discriminate].
      destruct (zvol_find_chain env try_ok rest name hash mode)
        as [[r0 tr0]|] eqn:Hr; [|discriminate].
      injection H as <- <-.
      destruct He as [<-|[<-|He]]; try reflexivity.
      eapply IH; eauto.
Qed.

Lemma zvol_find_by_name_lock_events env try_ok table ht name mode r tr :
  zvol_find_by_name env try_ok table ht name mode = Some (r, tr) ->
  forall e, In e tr -> is_lock_event e = true.
Proof.
  unfold zvol_find_by_name, zvol_find_by_name_hash.
  destruct (zvol_find_chain _ _ _ _ _ _) as [[r0 tr0]|] eqn:Hf;
    [|discriminate].
  intros [= <- <-] e [<-|He]; [reflexivity|].
  apply in_app_or in He. destruct He as [He|[<-|[]]]; [|reflexivity].
  eapply zvol_find_chain_lock_events; eauto.
Qed.

Lemma zvol_check_volsize_ok volsize blocksize :
  zvol_check_volsize None volsize blocksize = Some 0 ->
  volsize <> 0 /\ blocksize <> 0 /\ volsize mod blocksize = 0.
Proof.
  unfold zvol_check_volsize.
  destruct (volsize =? 0) eqn:Hv; [discriminate|].
  destruct (blocksize =? 0) eqn:Hb; [discriminate|].
  destruct (volsize mod blocksize =? 0) eqn:Hm; [|discriminate].
  intros _. apply Z.eqb_neq in Hv, Hb. apply Z.eqb_eq in Hm. auto.
Qed.

Lemma zvol_set_volsize_checked_spec o volsize e tr :
  zvol_set_volsize_checked o None volsize = Some (e, tr) ->
  (e = 0 -> zvol_check_volsize None volsize (vo_blocksize o) = Some 0) /\
  (forall v ze, In (EvZapUpdateSize v ze) tr ->
     v = volsize /\
     zvol_check_volsize None volsize (vo_blocksize o) = Some 0).
Proof.
  unfold zvol_set_volsize_checked, zvol_update_volsize.
  destruct (vo_info_err o =? 0) eqn:Hi; cbn [negb].
  - destruct (zvol_check_volsize None volsize (vo_blocksize o))
      as [c|] eqn:Hc; [|discriminate].
    destruct (c =? 0) eqn:Hc0; cbn [negb].
    + apply Z.eqb_eq in Hc0. subst c.
      destruct (vo_assign_err o =? 0); cbn [negb].
      * destruct (vo_zap_err o =? 0); intros [= <- <-]; split; auto;
          intros v ze He; cbn in He;
          intuition (try discriminate; try congruence).
      * intros [= <- <-]. split; auto.
        intros v ze He; cbn in He; intuition discriminate.
    + intros [= <- <-]. apply Z.eqb_neq in Hc0.
      split; [congruence|intros v ze []].
  - intros [= <- <-]. apply Z.eqb_neq in Hi.
    split; [congruence|intros v ze []].
Qed.

Lemma lift_checked_inv x zv e zv' t :
  lift_checked x zv = Some (e, zv', t) -> x = Some (e, t) /\ zv' = zv.
Proof.
  unfold lift_checked. destruct x as [[e0 t0]|]; [|discriminate].
  intros [= <- <- <-]. auto.
Qed.

Ltac in_trace He :=
  repeat first
    [ apply in_app_or in He; destruct He as [He|He]
    | destruct He as [He|He]; [try discriminate He|]
    | destruct He ].

Lemma zvol_set_volsize_found_spec o volsize zv e zv' tr :
  zvol_set_volsize_found o None volsize zv = Some (e, zv', tr) ->
  (e = 0 -> zvol_check_volsize None volsize (vo_blocksize o) = Some 0) /\
  (forall v ze, In (EvZapUpdateSize v ze) tr ->
     v = volsize /\
     zvol_check_volsize None volsize (vo_blocksize o) = Some 0) /\
  (zv_volsize zv' = zv_volsize zv \/
   (zv_volsize zv' = volsize /\
    zvol_check_volsize None volsize (vo_blocksize o) = Some 0)) /\
  zv_state_lock zv' = false /\ zv_suspend_lock zv' = RW_NONE.
Proof.
  intros H.
  unfold zvol_set_volsize_found, m_mutex_exit, m_rw_exit in H.
  minv;
    repeat match goal with
           | H : lift_checked _ _ = Some _ |- _ =>
               apply lift_checked_inv in H; destruct H as [H ->];
               apply zvol_set_volsize_checked_spec in H; destruct H
           | H : (_ =? _) = true |- _ => apply Z.eqb_eq in H
           | H : (_ =? _) = false |- _ => apply Z.eqb_neq in H
           | H : negb _ = true |- _ => apply negb_true_iff in H
           | H : negb _ = false |- _ => apply negb_false_iff in H
           end;
    subst; cbn [zv_volsize zv_set_volsize zv_set_changed zv_set_objset
                zv_set_state_lock zv_set_suspend_lock zv_state_lock
                zv_suspend_lock];
    (split; [intros; auto; try congruence|]);
    (split; [intros v ze He; in_trace He; eauto|]);
    (split; [auto|]); auto.
  all: try discriminate; try congruence; try (exfalso; congruence).
  all: right; split; auto.
Qed.

(** C10.  On a build without [_ILP32], [zvol_check_volsize] returns 0 if
    and only if the volume size is non-zero and a multiple of the block
    size, and [EINVAL] otherwise.  [zvol_set_volsize] calls it with the
    block size of the backing object before [zvol_update_volsize]: in any
    run, the size written to the ZAP and the size recorded in the volume
    state are the requested one only if it passed the check, and a run that
    returns 0 was given a non-zero, block-aligned size. *)
Theorem C10_volsize_validated
    env try_ok table ht o name volsize blocksize :
  0 < blocksize ->
  (zvol_check_volsize None volsize blocksize = Some 0 <->
   volsize <> 0 /\ volsize mod blocksize = 0) /\
  (zvol_check_volsize None volsize blocksize <> Some 0 ->
   zvol_check_volsize None volsize blocksize = Some EINVAL) /\
  forall e r tr,
    zvol_set_volsize env try_ok table ht o None name volsize
    = Some (e, r, tr) ->
    (e = 0 -> volsize <> 0 /\ volsize mod vo_blocksize o = 0) /\
    (forall v ze, In (EvZapUpdateSize v ze) tr ->
       v = volsize /\ volsize <> 0 /\ volsize mod vo_blocksize o = 0) /\
    (forall i zv', r = Some (i, zv') ->
       exists zv0,
         nth_error (ht (zvol_name_hash table name)) i = Some zv0 /\
         (zv_volsize zv' = zv_volsize zv0 \/
          zv_volsize zv' = zv_volsize (env zv0) \/
          (zv_volsize zv' = volsize /\
           volsize <> 0 /\ volsize mod vo_blocksize o = 0))).
Proof.
  intros Hb. rewrite zvol_check_volsize_lp64 by exact Hb.
  split; [|split].
  - destruct (volsize =? 0) eqn:Hv; cbn.
    + apply Z.eqb_eq in Hv. split; [discriminate|tauto].
    + apply Z.eqb_neq in Hv.
      destruct (volsize mod blocksize =? 0) eqn:Hm.
      * apply Z.eqb_eq in Hm. tauto.
      * apply Z.eqb_neq in Hm. split; [discriminate|tauto].
  - destruct (negb (volsize =? 0) && (volsize mod blocksize =? 0));
      congruence.
  - intros e r tr H. unfold zvol_set_volsize in H.
    destruct (vo_prop_err o =? 0) eqn:Hp; cbn [negb] in H.
    2:{ injection H as <- <- <-. apply Z.eqb_neq in Hp.
        split; [congruence|]. split; [intros v ze []|discriminate]. }
    destruct (vo_readonly o =? 0) eqn:Hro; cbn [negb] in H.
    2:{ injection H as <- <- <-.
        split; [discriminate|]. split; [intros v ze []|discriminate]. }
    destruct (zvol_find_by_name env try_ok table ht name RW_READER)
      as [[[[i zv]|] trf]|] eqn:Hf; try discriminate.
    + destruct (zvol_set_volsize_found o None volsize zv)
        as [[[e0 zv1] tr1]|] eqn:Hs; [|discriminate].
      injection H as <- <- <-.
      apply zvol_set_volsize_found_spec in Hs.
      destruct Hs as (He & Hz & Hv & _).
      split; [|split].
      * intros E. destruct (zvol_check_volsize_ok _ _ (He E)); tauto.
      * intros v ze Hin. apply in_app_or in Hin. destruct Hin as [Hin|Hin].
        -- pose proof (zvol_find_by_name_lock_events _ _ _ _ _ _ _ _ Hf _ Hin)
             as Hlk. discriminate.
        -- destruct (Hz _ _ Hin) as [-> Hc].
           destruct (zvol_check_volsize_ok _ _ Hc); tauto.
      * intros i' zv' [= <- <-].
        unfold zvol_find_by_name, zvol_find_by_name_hash in Hf.
        destruct (zvol_find_chain _ _ _ _ _ _) as [[r0 tr0]|] eqn:Hc;
          [|discriminate].
        injection Hf as -> _.
        destruct (zvol_find_chain_found _ _ _ _ _ _ _ _ _ Hc)
          as (zv0 & Hn & _ & _ & _ & _ & Hq).
        exists zv0. split; [exact Hn|].
        destruct Hq as (_ & zvx & Hx & ->); [discriminate|].
        cbn [zv_volsize zv_set_state_lock zv_set_suspend_lock] in Hv.
        destruct Hv as [Hv|[Hv Hck]].
        -- destruct Hx as [[_ ->]|[_ ->]]; auto.
        -- right. right. destruct (zvol_check_volsize_ok _ _ Hck); tauto.
    + destruct (zvol_set_volsize_absent o None volsize)
        as [[e0 tr1]|] eqn:Hs; [|discriminate].
      injection H as <- <- <-.
      unfold zvol_set_volsize_absent in Hs.
      destruct (vo_own_err o =? 0) eqn:Ho; cbn [negb] in Hs.
      * destruct (zvol_set_volsize_checked o None volsize)
          as [[e1 tr2]|] eqn:Hck; [|discriminate].
        injection Hs as <- <-.
        apply zvol_set_volsize_checked_spec in Hck.
        destruct Hck as [He Hz].
        split; [|split].
        -- intros E. destruct (zvol_check_volsize_ok _ _ (He E)); tauto.
        -- intros v ze Hin. apply in_app_or in Hin.
           destruct Hin as [Hin|Hin].
           ++ pose proof (zvol_find_by_name_lock_events _ _ _ _ _ _ _ _ Hf
                            _ Hin) as Hlk. discriminate.
           ++ destruct Hin as [Hin|Hin]; [discriminate|].
              apply in_app_or in Hin. destruct Hin as [Hin|Hin].
              ** destruct (Hz _ _ Hin) as [-> Hc].
                 destruct (zvol_check_volsize_ok _ _ Hc); tauto.
              ** destruct Hin as [Hin|[]]. discriminate.
        -- discriminate.
      * injection Hs as <- <-. apply Z.eqb_neq in Ho.
        split; [congruence|]. split; [|discriminate].
        intros v ze Hin. apply in_app_or in Hin. destruct Hin as [Hin|Hin].
        -- pose proof (zvol_find_by_name_lock_events _ _ _ _ _ _ _ _ Hf
                         _ Hin) as Hlk. discriminate.
        -- destruct Hin as [Hin|[]]. discriminate.
Qed.

(* ------------------------------------------------------------------ *)
(** ** Intent-log record forms *)

Lemma land_le_r a b : 0 <= a -> 0 <= b -> Z.land a b <= b.
Proof.
  intros Ha Hb.
  assert (Hd : Z.ldiff (Z.land a b) b = 0).
  { apply Z.bits_inj'. intros n Hn.
    rewrite Z.ldiff_spec, Z.land_spec, Z.bits_0.
    destruct (Z.testbit a n), (Z.testbit b n); reflexivity. }
  pose proof (Z.sub_nocarry_ldiff b (Z.land a b) Hd) as Hs.
  assert (0 <= Z.ldiff b (Z.land a b)) by (apply Z.ldiff_nonneg; auto).
  lia.
Qed.

Lemma P2PHASE_bound off bs :
  0 <= off -> 0 < bs < 2 ^ 32 -> 0 <= P2PHASE off bs <= bs - 1.
Proof.
  intros Ho Hb. unfold P2PHASE.
  rewrite (Z.mod_small (bs - 1)) by lia.
  split; [apply Z.land_nonneg; auto|apply land_le_r; lia].
Qed.

Lemma zvol_log_write_loop_indirect zl rf bs sync :
  0 < bs < 2 ^ 32 ->
  forall fuel off size,
    0 <= off -> 0 <= size -> (Z.to_nat size <= fuel)%nat ->
    let l := zvol_log_write_loop fuel zl rf WR_INDIRECT bs off size sync in
    Forall (fun i => itx_wr_state i = WR_INDIRECT /\
                     0 < lr_length i <= bs /\ itx_sync i = sync) l /\
    itx_total l = size.
Proof.
  intros Hb. induction fuel as [|fuel IH]; intros off size Ho Hs Hf.
  - cbn. split; [constructor|]. cbn. lia.
  - cbn [zvol_log_write_loop wr_state_eqb andb negb].
    destruct (size =? 0) eqn:Hz.
    + apply Z.eqb_eq in Hz. split; [constructor|]. cbn. lia.
    + apply Z.eqb_neq in Hz.
      pose proof (P2PHASE_bound off bs Ho Hb) as Hp.
      assert (Hsub : sub64 bs (P2PHASE off bs) = bs - P2PHASE off bs).
      { unfold sub64, UINT64_MOD. apply Z.mod_small.
        assert (2 ^ 32 < 2 ^ 64) by (vm_compute; reflexivity). lia. }
      rewrite Hsub.
      set (len := Z.min (bs - P2PHASE off bs) size).
      assert (Hlen : 0 < len <= bs) by (unfold len; lia).
      assert (Hlen' : len <= size) by (unfold len; lia).
      destruct (IH ((off + len) mod UINT64_MOD) (size - len)) as [Hall Htot].
      * apply Z.mod_pos_bound. vm_compute. reflexivity.
      * lia.
      * lia.
      * split.
        -- constructor; [cbn; auto|exact Hall].
        -- cbn [itx_total fold_right lr_length].
           unfold itx_total in Htot. rewrite Htot. lia.
Qed.

Lemma zvol_log_write_loop_direct zl rf ws bs off size sync :
  ws <> WR_INDIRECT -> 0 < size ->
  zvol_log_write_loop (Z.to_nat size) zl rf ws bs off size sync
  = [mk_itx
       (if wr_state_eqb ws WR_COPIED
           && (size <=? zl_max_copied_data zl) && negb (rf off size)
        then WR_COPIED else WR_NEED_COPY) off size sync].
Proof.
  intros Hws Hs.
  destruct (Z.to_nat size) as [|fuel] eqn:Hf; [lia|].
  cbn [zvol_log_write_loop].
  assert ((size =? 0) = false) as -> by (apply Z.eqb_neq; lia).
  assert (wr_state_eqb ws WR_INDIRECT = false) as ->
    by (destruct ws; try reflexivity; congruence).
  rewrite andb_false_r. rewrite Z.sub_diag.
  assert (Hnil : forall o, zvol_log_write_loop fuel zl rf ws bs o 0 sync = [])
    by (intros o; destruct fuel; reflexivity).
  rewrite Hnil. f_equal. f_equal.
  destruct ws; [congruence| |]; cbn [wr_state_eqb andb].
  - rewrite Z.leb_antisym.
    destruct (zl_max_copied_data zl <? size); cbn; [reflexivity|].
    destruct (rf off size); reflexivity.
  - reflexivity.
Qed.

(** The selection rule of the specification fails on the code.  A 64 KiB
    synchronous write, above the immediate-write threshold and with a
    separate log device, is logged with an inline copy; a 512-byte write on
    a dataset with [logbias=throughput] is logged by reference; and a failed
    read-back leaves a [WR_NEED_COPY] record, not a [WR_INDIRECT] one. *)
Lemma C7_counterexample :
  (zvol_log_write zvol_immediate_write_sz ex_zilog (fun _ _ => false)
     8192 0 65536 true = [mk_itx WR_COPIED 0 65536 true] /\
   spec_record_form zvol_immediate_write_sz true 8192 65536 false
   = ByReference) /\
  (zvol_log_write zvol_immediate_write_sz ex_zilog_throughput
     (fun _ _ => false) 8192 0 512 true = [mk_itx WR_INDIRECT 0 512 true] /\
   spec_record_form zvol_immediate_write_sz true 8192 512 false
   = InlineCopy) /\
  zvol_log_write zvol_immediate_write_sz ex_zilog (fun _ _ => true)
    8192 0 512 true = [mk_itx WR_NEED_COPY 0 512 true].
Proof. vm_compute. repeat split. Qed.

(** C7, as the code has it.  [zvol_log_write] logs by reference
    ([WR_INDIRECT], one record per block touched) exactly when the log bias
    is throughput, or when there is no separate log device, the write covers
    at least one block and the block size exceeds the immediate-write
    threshold.  Otherwise it logs one record for the whole write: with an
    inline copy ([WR_COPIED]) when the write is synchronous, fits
    [zil_max_copied_data] and its data can be read back, and as
    [WR_NEED_COPY] (data copied when the log is written) in every other
    case, in particular when the read-back fails.  Every byte of the write
    is covered by the records. *)
Theorem C7_log_write_record_form imm_sz zl rf bs off size sync :
  0 < bs < 2 ^ 32 -> 0 <= off -> 0 < size ->
  zl_replaying zl = false ->
  let ws := zvol_log_write_state imm_sz zl bs size sync in
  let l := zvol_log_write imm_sz zl rf bs off size sync in
  (ws = WR_INDIRECT <->
   zl_logbias zl = ZFS_LOGBIAS_THROUGHPUT \/
   (zl_has_slogs zl = false /\ bs <= size /\ imm_sz < bs)) /\
  (ws = WR_INDIRECT ->
   Forall (fun i => itx_wr_state i = WR_INDIRECT /\
                    0 < lr_length i <= bs /\ itx_sync i = sync) l) /\
  (ws <> WR_INDIRECT ->
   l = [mk_itx
          (if sync && (size <=? zl_max_copied_data zl) && negb (rf off size)
           then WR_COPIED else WR_NEED_COPY) off size sync]) /\
  itx_total l = size.
Proof.
  intros Hb Ho Hs Hr ws l.
  assert (Hws : ws = WR_INDIRECT <->
                zl_logbias zl = ZFS_LOGBIAS_THROUGHPUT \/
                (zl_has_slogs zl = false /\ bs <= size /\ imm_sz < bs)).
  { unfold ws, zvol_log_write_state.
    destruct (zl_logbias zl); [|split; auto].
    destruct (zl_has_slogs zl); cbn [negb andb].
    - split; [destruct sync; discriminate|].
      intros [H|[H _]]; discriminate.
    - destruct (bs <=? size) eqn:H1; cbn [andb].
      + destruct (imm_sz <? bs) eqn:H2.
        * apply Z.leb_le in H1. apply Z.ltb_lt in H2. split; auto.
        * apply Z.ltb_ge in H2.
          split; [destruct sync; discriminate|].
          intros [H|(_ & _ & H)]; [discriminate|lia].
      + apply Z.leb_gt in H1.
        split; [destruct sync; discriminate|].
        intros [H|(_ & H & _)]; [discriminate|lia]. }
  split; [exact Hws|].
  unfold l, zvol_log_write. rewrite Hr. fold ws.
  destruct (zvol_log_write_loop_indirect zl rf bs sync Hb
              (Z.to_nat size) off size Ho) as [Hall Htot]; try lia.
  split; [|split].
  - intros E. rewrite E. exact Hall.
  - intros E. rewrite zvol_log_write_loop_direct by (auto; lia).
    f_equal. f_equal.
    assert (wr_state_eqb ws WR_COPIED = sync) as ->; [|reflexivity].
    unfold ws, zvol_log_write_state in *.
    destruct (zl_logbias zl); [|congruence].
    destruct (negb (zl_has_slogs zl) && (bs <=? size) && (imm_sz <? bs));
      [congruence|]. destruct sync; reflexivity.
  - destruct ws eqn:E.
    + exact Htot.
    + rewrite zvol_log_write_loop_direct by (try discriminate; lia).
      cbn. lia.
    + rewrite zvol_log_write_loop_direct by (try discriminate; lia).
      cbn. lia.
Qed.

(* ------------------------------------------------------------------ *)
(** ** Freeing a range beyond the end of the volume *)

(** The ioctl path checks the range first: a [DIOCGDELETE] that starts at or
    beyond the end of the volume returns [EINVAL] and does nothing. *)
Lemma zvol_cdev_ioctl_DIOCGDELETE_out_of_range o offset length zv :
  0 < zv_open_count zv ->
  0 <= offset < UINT64_MOD ->
  zv_volsize zv <= offset ->
  zvol_cdev_ioctl_DIOCGDELETE true o offset length zv
  = Some (EINVAL, zv, []).
Proof.
  intros Ho Hoff Hv. unfold zvol_cdev_ioctl_DIOCGDELETE.
  unfold bind at 1, assert_ at 1.
  apply Z.ltb_lt in Ho. rewrite Ho. cbn [negb].
  unfold bind at 1, get at 1.
  rewrite (Z.mod_small offset) by lia.
  apply Z.leb_le in Hv. rewrite Hv.
  rewrite !orb_true_r. cbn. reflexivity.
Qed.

(** C6 fails on the GEOM path.  A [BIO_DELETE] of 4096 bytes at offset
    2 GiB on a 1 GiB volume is not refused: [zvol_geom_bio_sync] logs the
    truncate, calls [dmu_free_long_range] on the range and completes the bio
    with error 0 and all 4096 bytes reported done. *)
Theorem C6_bio_delete_beyond_end_is_executed :
  zv_volsize ex_vol < 2147483648 /\
  exists zv' tr,
    zvol_geom_bio_sync ex_sync_oracle (mk_bio BIO_DELETE 2147483648 4096)
      ex_vol = Some ((0, 4096), zv', tr) /\
    In (EvLogTruncate 2147483648 4096 false) tr /\
    In (EvFreeLongRange 2147483648 4096) tr /\
    In (EvDone 0) tr /\
    ~ In (EvDone EINVAL) tr.
Proof.
  split; [vm_compute; reflexivity|].
  eexists _, _. split; [vm_compute; reflexivity|].
  cbn. repeat split; auto 20.
  intros H.
  repeat (destruct H as [H|H]; [discriminate H|]). destruct H.
Qed.

(* ------------------------------------------------------------------ *)
(** ** Bounds checking *)

Lemma zvol_ensure_zilog_events ok env zl zv u zv' tr :
  zvol_ensure_zilog ok env zl zv = Some (u, zv', tr) ->
  Forall (fun e => is_lock_event e || is_zil_open e = true) tr /\
  zv_suspend_lock zv' = RW_READER.
Proof.
  intros H.
  unfold zvol_ensure_zilog, m_rw_exit, m_rw_enter, m_rw_downgrade in H.
  minv; unfold RW_READ_HELD in *;
    repeat match goal with
           | H : krw_eqb _ _ = true |- _ => apply krw_eqb_eq in H
           end;
    (split; [repeat (apply Forall_app; split); repeat constructor
            |cbn; auto]).
Qed.

Lemma bind_run {A B} (c : M A) (k : A -> M B) zv a zv1 t1 :
  c zv = Some (a, zv1, t1) ->
  bind c k zv = match k a zv1 with
                | Some (b, zv2, t2) => Some (b, zv2, t1 ++ t2)
                | None => None
                end.
Proof. intros H. unfold bind. rewrite H. reflexivity. Qed.



Lemma sub64_small a b :
  0 <= b <= a -> a < UINT64_MOD -> sub64 a b = a - b.
Proof. intros H1 H2. unfold sub64. apply Z.mod_small. lia. Qed.













(* ------------------------------------------------------------------ *)
(** ** The theorems at the example volume *)

(** C1 with three CPUs: the first read on the idle example volume is
    admitted, and the initial state satisfies the bound. *)
Lemma C1_admission_on_arrival_witness :
  (0 <= 3) /\ (zv_active ex_vol < 3) /\
  zvol_dmu_ctx_init 3 ex_oracle ex_vol (ex_read 1 0 4096)
  = Some (zvol_dmu_ctx_start ex_oracle
            (zv_set_active (zv_set_suspend_ref ex_vol 1) 1)
            (ex_read 1 0 4096)) /\
  (0 <= zv_active (s_zv (ex_sys ex_vol)) <= 3).
Proof.
  assert (H3 : 0 <= 3) by lia.
  destruct (C1_admission_on_arrival 3 H3) as [Harr Hinv].
  split; [exact H3|]. split; [reflexivity|]. split.
  - destruct (Harr ex_oracle ex_vol (ex_read 1 0 4096) ex_os
                eq_refl eq_refl eq_refl) as [Hadm _].
    destruct (Hadm eq_refl) as [Heq _]. exact Heq.
  - apply (Hinv (ex_sys ex_vol)). apply reach_init.
    repeat split; reflexivity.
Defined.



Lemma ex_ht_chain_unlocked zv :
  In zv (ex_ht 11) -> zv_state_lock zv = false.
Proof. intros [<-|[<-|[]]]; reflexivity. Qed.

Lemma ex_ht_chain_match zv :
  In zv (ex_ht 11) -> name_hash_match zv "tank/vol" 11 = true ->
  zv_suspend_lock zv = RW_NONE /\
  name_hash_match ((fun z : zvol_state => z) zv) "tank/vol" 11 = true.
Proof. intros [<-|[<-|[]]] H; split; solve [reflexivity | exact H]. Qed.

(** C4 on the chain of the example volumes, with the try-acquire of the
    suspend lock failing: the lookup of [tank/vol] as reader succeeds. *)
Lemma C4_find_by_name_hash_lock_contract_witness :
  exists r tr,
    zvol_find_by_name_hash (fun z => z) false (ex_ht 11) "tank/vol" 11
      RW_READER = Some (r, tr) /\
    lock_order_ok [] tr = true /\
    exists zv, r = Some (1%nat, zv) /\
               zv_state_lock zv = true /\ zv_suspend_lock zv = RW_READER.
Proof.
  destruct (C4_find_by_name_hash_lock_contract (fun z => z) false
              (ex_ht 11) "tank/vol" 11 RW_READER
              ex_ht_chain_unlocked ex_ht_chain_match)
    as (r & tr & Hrun & Hord & Hr).
  exists r, tr. split; [exact Hrun|]. split; [exact Hord|].
  assert (Hc : zvol_find_by_name_hash (fun z => z) false (ex_ht 11)
                 "tank/vol" 11 RW_READER
               = Some (Some (1%nat,
                             zv_set_state_lock
                               (zv_set_suspend_lock ex_vol RW_READER) true),
                       [EvRwEnter L_zvol_state_lock RW_READER;
                        EvMutexEnter (L_state "tank/other");
                        EvMutexExit (L_state "tank/other");
                        EvMutexEnter (L_state "tank/vol");
                        EvRwTryEnter (L_suspend "tank/vol") RW_READER false;
                        EvMutexExit (L_state "tank/vol");
                        EvRwEnter (L_suspend "tank/vol") RW_READER;
                        EvMutexEnter (L_state "tank/vol");
                        EvRwExit L_zvol_state_lock]))
    by (vm_compute; reflexivity).
  rewrite Hc in Hrun. injection Hrun as <- <-.
  eexists. split; [reflexivity|]. split; reflexivity.
Defined.

Lemma ex_vol_hash : zvol_name_hash ex_table "tank/vol" = 11.
Proof. vm_compute. reflexivity. Qed.

(** C3 on the example registry: [tank/vol], open once, is suspended and
    resumed. *)
Lemma C3_suspend_resume_protocol_witness :
  exists zv1 tr,
    zvol_suspend (fun z => z) true ex_table ex_ht "tank/vol"
    = Some (Some (1%nat, zv1), tr) /\
    zv_suspend_lock zv1 = RW_WRITER /\ zv_state_lock zv1 = false /\
    zv_suspend_ref zv1 = 1 /\ zv_open_count zv1 = 1 /\
    zv_dn zv1 = None /\ zv_zilog zv1 = None /\
    exists e zv2 tr2,
      zvol_resume ex_setup zv1 = Some (e, zv2, tr2) /\
      zv_suspend_lock zv2 = RW_NONE /\ zv_suspend_ref zv2 = 0 /\
      zv_objset zv2 = Some ex_os /\
      held_after [] (tr ++ tr2) = [].
Proof.
  pose proof (C3_suspend_resume_protocol (fun z => z) true ex_table ex_ht
                "tank/vol" 1%nat ex_vol) as H.
  cbv zeta in H. rewrite ex_vol_hash in H.
  destruct H as (zv1 & tr & Hrun & Hl & Hs & Href & Hoc & _ & Hopen & _
                 & _ & Hres).
  - exact ex_ht_chain_unlocked.
  - exact ex_ht_chain_match.
  - reflexivity.
  - reflexivity.
  - reflexivity.
  - intros j zj Hj Hn. destruct j as [|[|j]]; [|lia|lia].
    injection Hn as <-. reflexivity.
  - discriminate.
  - intros _ Hw. discriminate Hw.
  - exists zv1, tr.
    destruct (Hopen eq_refl) as (Hdn & Hzl & _).
    destruct (Hres ex_setup (fun _ => eq_refl))
      as (e & zv2 & tr2 & Hr2 & Hl2 & _ & Href2 & _ & _ & Hbind & _
          & Hheld & _).
    destruct (Hbind eq_refl) as (Hos & _).
    split; [exact Hrun|]. split; [exact Hl|]. split; [exact Hs|].
    split; [exact Href|]. split; [exact Hoc|]. split; [exact Hdn|].
    split; [exact Hzl|].
    exists e, zv2, tr2.
    split; [exact Hr2|]. split; [exact Hl2|]. split; [exact Href2|].
    split; [exact Hos|]. exact Hheld.
Defined.

(** C7 on a synchronous 64 KiB write to the example volume, whose pool has
    a separate log device: one record with an inline copy. *)
Lemma C7_log_write_record_form_witness :
  (0 < 8192 < 2 ^ 32) /\ (0 <= 0) /\ (0 < 65536) /\
  zl_replaying ex_zilog = false /\
  zvol_log_write zvol_immediate_write_sz ex_zilog (fun _ _ => false)
    8192 0 65536 true = [mk_itx WR_COPIED 0 65536 true] /\
  itx_total (zvol_log_write zvol_immediate_write_sz ex_zilog
               (fun _ _ => false) 8192 0 65536 true) = 65536.
Proof.
  assert (Hb : 0 < 8192 < 2 ^ 32) by (split; reflexivity).
  assert (Ho : 0 <= 0) by lia.
  assert (Hs : 0 < 65536) by reflexivity.
  destruct (C7_log_write_record_form zvol_immediate_write_sz ex_zilog
              (fun _ _ => false) 8192 0 65536 true Hb Ho Hs eq_refl)
    as (_ & _ & Hone & Htot).
  split; [exact Hb|]. split; [exact Ho|]. split; [exact Hs|].
  split; [reflexivity|]. split; [|exact Htot].
  apply Hone. discriminate.
Defined.

(** C8 on the example volume, whose ZIL handle is absent, with the upgrade
    refused: the handle is opened once and the lock is held as reader on
    return. *)
Lemma C8_ensure_zilog_lazy_once_witness :
  zv_suspend_lock (zv_set_suspend_lock ex_vol RW_READER) = RW_READER /\
  exists zv' tr,
    zvol_ensure_zilog false (fun z => z) ex_zilog
      (zv_set_suspend_lock ex_vol RW_READER) = Some (tt, zv', tr) /\
    zv_zilog zv' <> None /\ zv_suspend_lock zv' = RW_READER /\
    (count_zil_open tr <= 1)%nat.
Proof.
  split; [reflexivity|].
  destruct (C8_ensure_zilog_lazy_once false (fun z => z) ex_zilog
              (zv_set_suspend_lock ex_vol RW_READER) eq_refl)
    as (zv' & tr & Hrun & Hzl & Hl & _ & Hc & _).
  exists zv', tr. auto.
Defined.

(** C10 on the example registry: growing [tank/vol] to 2 GiB passes the
    check, and a run that returns 0 was given an aligned size. *)
Lemma C10_volsize_validated_witness :
  (0 < 4096) /\
  zvol_check_volsize None 2147483648 4096 = Some 0 /\
  zvol_check_volsize None 2147483649 4096 = Some EINVAL /\
  forall e r tr,
    zvol_set_volsize (fun z => z) true ex_table ex_ht ex_volsize_oracle None
      "tank/vol" 2147483648 = Some (e, r, tr) ->
    e = 0 -> 2147483648 mod vo_blocksize ex_volsize_oracle = 0.
Proof.
  assert (Hb : 0 < 4096) by reflexivity.
  split; [exact Hb|]. split; [|split].
  - apply (proj1 (C10_volsize_validated (fun z => z) true ex_table ex_ht
                    ex_volsize_oracle "tank/vol" 2147483648 4096 Hb)).
    split; [discriminate|reflexivity].
  - apply (proj1 (proj2 (C10_volsize_validated (fun z => z) true ex_table
                           ex_ht ex_volsize_oracle "tank/vol" 2147483649
                           4096 Hb))).
    vm_compute. discriminate.
  - intros e r tr Hrun He.
    apply (proj2 (proj2 (C10_volsize_validated (fun z => z) true ex_table
                           ex_ht ex_volsize_oracle "tank/vol" 2147483648
                           4096 Hb)) e r tr Hrun).
    exact He.
Defined.

(* ------------------------------------------------------------------ *)
(** ** Block size check *)

Lemma ISP2_pow2 k : 0 <= k -> Z.land (2 ^ k) (2 ^ k - 1) = 0.
Proof.
  intros Hk.
  replace (2 ^ k - 1) with (Z.ones k) by (rewrite Z.ones_equiv; lia).
  rewrite Z.land_ones by exact Hk.
  apply Z.mod_same. apply Z.pow_nonzero; lia.
Qed.

Lemma ISP2_inv x :
  0 < x -> Z.land x (x - 1) = 0 -> x = 2 ^ Z.log2 x.
Proof.
  intros Hx Hl.
  destruct (Z.log2_spec x Hx) as [Hlo Hhi].
  destruct (Z.eq_dec x (2 ^ Z.log2 x)) as [E|N]; [exact E|exfalso].
  assert (Hk : 0 <= Z.log2 x) by apply Z.log2_nonneg.
  assert (Hx1 : 0 < x - 1) by (pose proof (Z.pow_pos_nonneg 2 (Z.log2 x)); lia).
  assert (Hlog : Z.log2 (x - 1) = Z.log2 x).
  { apply Z.log2_unique; [exact Hk|].
    rewrite Z.pow_succ_r in Hhi by exact Hk.
    rewrite Z.pow_succ_r by exact Hk. lia. }
  assert (B1 : Z.testbit x (Z.log2 x) = true) by (apply Z.bit_log2; lia).
  assert (B2 : Z.testbit (x - 1) (Z.log2 x) = true)
    by (rewrite <- Hlog; apply Z.bit_log2; lia).
  assert (B : Z.testbit (Z.land x (x - 1)) (Z.log2 x) = true)
    by (rewrite Z.land_spec, B1, B2; reflexivity).
  rewrite Hl, Z.bits_0 in B. discriminate.
Qed.

Lemma ISP2_spec x :
  0 < x < UINT64_MOD ->
  ISP2 x = true <-> exists k, 0 <= k /\ x = 2 ^ k.
Proof.
  intros Hx. unfold ISP2. rewrite sub64_small by lia.
  rewrite Z.eqb_eq. split.
  - intros H. exists (Z.log2 x). split; [apply Z.log2_nonneg|].
    apply ISP2_inv; [lia|exact H].
  - intros (k & Hk & ->). apply ISP2_pow2. exact Hk.
Qed.

(** [zvol_check_volblocksize] accepts exactly the powers of two from
    [SPA_MINBLOCKSIZE] to [SPA_MAXBLOCKSIZE]; above
    [SPA_OLD_MAXBLOCKSIZE] it also needs the pool to open, the
    [large_blocks] feature, and a size within [zfs_max_recordsize]. *)
Theorem zvol_check_volblocksize_accepts max_rs open_err large_blocks v :
  0 <= v < UINT64_MOD ->
  fst (zvol_check_volblocksize max_rs open_err large_blocks v) = 0 <->
  (exists k, 9 <= k <= 24 /\ v = 2 ^ k) /\
  (v <= SPA_OLD_MAXBLOCKSIZE \/
   (open_err = 0 /\ large_blocks = true /\ v <= max_rs)).
Proof.
  intros Hv.
  assert (Hrange :
            (if (v <? SPA_MINBLOCKSIZE) || (SPA_MAXBLOCKSIZE <? v)
                || negb (ISP2 v) then EDOM else 0) = 0
            <-> exists k, 9 <= k <= 24 /\ v = 2 ^ k).
  { change SPA_MINBLOCKSIZE with (2 ^ 9).
    change SPA_MAXBLOCKSIZE with (2 ^ 24).
    destruct (v <? 2 ^ 9) eqn:H1; cbn [orb].
    { apply Z.ltb_lt in H1. split; [discriminate|].
      intros (k & Hk & ->).
      assert (2 ^ 9 <= 2 ^ k) by (apply Z.pow_le_mono_r; lia). lia. }
    apply Z.ltb_ge in H1.
    destruct (2 ^ 24 <? v) eqn:H2; cbn [orb].
    { apply Z.ltb_lt in H2. split; [discriminate|].
      intros (k & Hk & ->).
      assert (2 ^ k <= 2 ^ 24) by (apply Z.pow_le_mono_r; lia). lia. }
    apply Z.ltb_ge in H2.
    assert (Hpos : 0 < v < UINT64_MOD)
      by (assert (0 < 2 ^ 9) by reflexivity; lia).
    destruct (ISP2 v) eqn:H3; cbn [negb].
    - apply (ISP2_spec v Hpos) in H3. destruct H3 as (k & Hk & ->).
      split; [intros _|reflexivity].
      exists k. split; [|reflexivity]. split.
      + apply (Z.pow_le_mono_r_iff 2); lia.
      + apply (Z.pow_le_mono_r_iff 2); lia.
    - split; [discriminate|].
      intros (k & Hk & E).
      assert (ISP2 v = true)
        by (apply (ISP2_spec v Hpos); exists k; split; [lia|exact E]).
      congruence. }
  unfold zvol_check_volblocksize.
  destruct (SPA_OLD_MAXBLOCKSIZE <? v) eqn:Hold.
  - apply Z.ltb_lt in Hold.
    destruct (open_err =? 0) eqn:Ho; cbn [negb].
    2:{ apply Z.eqb_neq in Ho. cbn [fst]. split; [intros; contradiction|].
        intros (_ & [H|(H & _)]); [lia|contradiction]. }
    apply Z.eqb_eq in Ho.
    destruct large_blocks; cbn [negb].
    2:{ cbn [fst]. split; [discriminate|].
        intros (_ & [H|(_ & H & _)]); [lia|discriminate]. }
    destruct (max_rs <? v) eqn:Hm.
    { apply Z.ltb_lt in Hm. cbn [fst]. split; [discriminate|].
      intros (_ & [H|(_ & _ & H)]); lia. }
    apply Z.ltb_ge in Hm. cbn [fst]. rewrite Hrange.
    split; [intros H; split; [exact H|right; auto]|intros [H _]; exact H].
  - apply Z.ltb_ge in Hold. cbn [fst]. rewrite Hrange.
    split; [intros H; split; [exact H|left; exact Hold]
           |intros [H _]; exact H].
Qed.

(** Every return of [zvol_check_volblocksize] has released the pool it
    opened, except the one that refuses a size above [zfs_max_recordsize]:
    that path returns [EDOM] with the hold still open.  The pool is opened
    only for sizes above [SPA_OLD_MAXBLOCKSIZE]. *)
Theorem zvol_check_volblocksize_pool_hold max_rs open_err large_blocks v :
  let r := zvol_check_volblocksize max_rs open_err large_blocks v in
  (v <= SPA_OLD_MAXBLOCKSIZE -> snd r = []) /\
  (spa_holds (snd r) = 0 \/ spa_holds (snd r) = 1) /\
  (spa_holds (snd r) = 1 <->
   SPA_OLD_MAXBLOCKSIZE < v /\ open_err = 0 /\ large_blocks = true /\
   max_rs < v) /\
  (spa_holds (snd r) = 1 -> fst r = EDOM).
Proof.
  unfold zvol_check_volblocksize.
  assert (Hfin : forall e tr h,
             spa_holds tr = h -> (h = 0 \/ (h = 1 /\ e = EDOM)) ->
             (h = 1 <-> SPA_OLD_MAXBLOCKSIZE < v /\ open_err = 0 /\
                        large_blocks = true /\ max_rs < v) ->
             (v <= SPA_OLD_MAXBLOCKSIZE -> tr = []) ->
             (v <= SPA_OLD_MAXBLOCKSIZE -> snd (e, tr) = []) /\
             (spa_holds (snd (e, tr)) = 0 \/ spa_holds (snd (e, tr)) = 1) /\
             (spa_holds (snd (e, tr)) = 1 <->
              SPA_OLD_MAXBLOCKSIZE < v /\ open_err = 0 /\
              large_blocks = true /\ max_rs < v) /\
             (spa_holds (snd (e, tr)) = 1 -> fst (e, tr) = EDOM)).
  { intros e tr h <- Hh Hiff Hnil. cbn [fst snd].
    split; [exact Hnil|]. split; [tauto|]. split; [exact Hiff|].
    intros H1. destruct Hh as [H0|[_ He]]; [congruence|exact He]. }
  destruct (SPA_OLD_MAXBLOCKSIZE <? v) eqn:Hold.
  - apply Z.ltb_lt in Hold.
    destruct (open_err =? 0) eqn:Ho; cbn [negb].
    + apply Z.eqb_eq in Ho. destruct large_blocks; cbn [negb].
      * destruct (max_rs <? v) eqn:Hm.
        -- apply Z.ltb_lt in Hm.
           apply (Hfin _ _ 1); [reflexivity|auto| |lia]. tauto.
        -- apply Z.ltb_ge in Hm.
           apply (Hfin _ _ 0); [reflexivity|auto| |lia].
           split; [discriminate|lia].
      * apply (Hfin _ _ 0); [reflexivity|auto| |lia].
        split; [discriminate|]. intros (_ & _ & H & _). discriminate.
    + apply (Hfin _ _ 0); [cbn; rewrite Ho; reflexivity|auto| |lia].
      apply Z.eqb_neq in Ho. split; [discriminate|tauto].
  - apply Z.ltb_ge in Hold.
    apply (Hfin _ _ 0); [reflexivity|auto| |reflexivity].
    split; [discriminate|lia].
Qed.

(** The block-size check at 8 KiB and at 1 MiB with the feature enabled. *)
Lemma zvol_check_volblocksize_accepts_witness :
  fst (zvol_check_volblocksize 1048576 0 true 8192) = 0 /\
  fst (zvol_check_volblocksize 1048576 0 true 1048576) = 0.
Proof.
  split.
  - apply (proj2 (zvol_check_volblocksize_accepts 1048576 0 true 8192
                    ltac:(split; [discriminate|reflexivity]))).
    split; [exists 13; split; [lia|reflexivity]|left; discriminate].
  - apply (proj2 (zvol_check_volblocksize_accepts 1048576 0 true 1048576
                    ltac:(split; [discriminate|reflexivity]))).
    split; [exists 20; split; [lia|reflexivity]|right].
    repeat split. discriminate.
Defined.
(* ------------------------------------------------------------------ *)
(** ** Layout of the records of one logged write *)

Lemma P2PHASE_pow2 off k :
  0 <= k < 32 -> P2PHASE off (2 ^ k) = off mod 2 ^ k.
Proof.
  intros Hk. unfold P2PHASE.
  assert (0 < 2 ^ k) by (apply Z.pow_pos_nonneg; lia).
  assert (2 ^ k <= 2 ^ 31) by (apply Z.pow_le_mono_r; lia).
  assert (2 ^ 31 < 2 ^ 32) by reflexivity.
  rewrite Z.mod_small by lia.
  replace (2 ^ k - 1) with (Z.ones k) by (rewrite Z.ones_equiv; lia).
  apply Z.land_ones. lia.
Qed.

Lemma itx_in_block_intro bs off len :
  0 < bs -> 0 <= off -> 0 < len -> len <= bs - off mod bs ->
  off / bs = (off + len - 1) / bs.
Proof.
  intros Hb Ho Hl Hle.
  pose proof (Z.div_mod off bs ltac:(lia)) as Hdm.
  pose proof (Z.mod_pos_bound off bs Hb) as Hm.
  apply Z.div_unique with (r := off mod bs + len - 1); lia.
Qed.

Lemma zvol_log_write_loop_indirect_layout zl rf k sync :
  0 <= k < 32 ->
  forall fuel off size,
    0 <= off -> 0 <= size -> off + size <= UINT64_MOD ->
    (Z.to_nat size <= fuel)%nat ->
    let l :=
      zvol_log_write_loop fuel zl rf WR_INDIRECT (2 ^ k) off size sync in
    itx_chain off l = Some (off + size) /\
    forallb (itx_in_block (2 ^ k)) l = true.
Proof.
  intros Hk.
  assert (Hb : 0 < 2 ^ k < 2 ^ 32).
  { split; [apply Z.pow_pos_nonneg; lia|].
    apply Z.pow_lt_mono_r; lia. }
  induction fuel as [|fuel IH]; intros off size Ho Hs Hw Hf.
  - cbn. assert (size = 0) by lia. subst size.
    split; [f_equal; lia|reflexivity].
  - cbn [zvol_log_write_loop wr_state_eqb andb negb].
    destruct (size =? 0) eqn:Hz.
    + apply Z.eqb_eq in Hz. subst size. cbn.
      split; [f_equal; lia|reflexivity].
    + apply Z.eqb_neq in Hz.
      pose proof (P2PHASE_bound off (2 ^ k) Ho Hb) as Hp.
      assert (Hsub : sub64 (2 ^ k) (P2PHASE off (2 ^ k))
                     = 2 ^ k - P2PHASE off (2 ^ k)).
      { unfold sub64, UINT64_MOD. apply Z.mod_small.
        assert (2 ^ 32 < 2 ^ 64) by (vm_compute; reflexivity). lia. }
      rewrite Hsub.
      set (len := Z.min (2 ^ k - P2PHASE off (2 ^ k)) size).
      assert (Hlen : 0 < len <= 2 ^ k) by (unfold len; lia).
      assert (Hlen' : len <= size) by (unfold len; lia).
      assert (Hlen2 : len <= 2 ^ k - off mod 2 ^ k)
        by (rewrite <- P2PHASE_pow2 by exact Hk; unfold len; lia).
      cbn [itx_chain forallb lr_offset lr_length].
      rewrite Z.eqb_refl.
      destruct (Z.eq_dec (size - len) 0) as [E|N].
      * assert (Hnil : forall o,
                   zvol_log_write_loop fuel zl rf WR_INDIRECT (2 ^ k) o
                     (size - len) sync = [])
          by (intros o; rewrite E; destruct fuel; reflexivity).
        rewrite Hnil. cbn [itx_chain forallb]. split.
        -- f_equal. lia.
        -- rewrite andb_true_r. unfold itx_in_block. cbn [lr_offset lr_length].
           apply Z.eqb_eq. apply itx_in_block_intro; lia.
      * rewrite (Z.mod_small (off + len)) by (unfold UINT64_MOD in *; lia).
        destruct (IH (off + len) (size - len)) as [Hc Hall];
          [lia|lia|lia|lia|].
        rewrite Hc, Hall. split.
        -- f_equal. lia.
        -- rewrite andb_true_r. unfold itx_in_block. cbn [lr_offset lr_length].
           apply Z.eqb_eq. apply itx_in_block_intro; lia.
Qed.

(** The records [zvol_log_write] assigns for one write lie end to end: the
    first starts at the offset of the write, each next one where the
    previous ended, and the last ends where the write ends.  When the write
    is logged by reference and the block size is a power of two, no record
    crosses a block boundary. *)
Theorem zvol_log_write_layout imm_sz zl rf k off size sync :
  0 <= k < 32 -> 0 <= off -> 0 < size -> off + size <= UINT64_MOD ->
  zl_replaying zl = false ->
  let l := zvol_log_write imm_sz zl rf (2 ^ k) off size sync in
  itx_chain off l = Some (off + size) /\
  (zvol_log_write_state imm_sz zl (2 ^ k) size sync = WR_INDIRECT ->
   forallb (itx_in_block (2 ^ k)) l = true).
Proof.
  intros Hk Ho Hs Hw Hr l. unfold l, zvol_log_write. rewrite Hr.
  destruct (zvol_log_write_state imm_sz zl (2 ^ k) size sync) eqn:Hws.
  - destruct (zvol_log_write_loop_indirect_layout zl rf k sync Hk
                (Z.to_nat size) off size) as [Hc Ha]; try lia.
    split; [exact Hc|intros _; exact Ha].
  - rewrite zvol_log_write_loop_direct by (try discriminate; lia).
    cbn. rewrite Z.eqb_refl. split; [reflexivity|discriminate].
  - rewrite zvol_log_write_loop_direct by (try discriminate; lia).
    cbn. rewrite Z.eqb_refl. split; [reflexivity|discriminate].
Qed.

(** A 10000-byte write at offset 6000 under [logbias=throughput] with
    4 KiB blocks: four records, cut at the block boundaries. *)
Lemma zvol_log_write_layout_witness :
  zvol_log_write zvol_immediate_write_sz ex_zilog_throughput
    (fun _ _ => false) (2 ^ 12) 6000 10000 true
  = [mk_itx WR_INDIRECT 6000 2192 true; mk_itx WR_INDIRECT 8192 4096 true;
     mk_itx WR_INDIRECT 12288 3712 true] /\
  itx_chain 6000
    (zvol_log_write zvol_immediate_write_sz ex_zilog_throughput
       (fun _ _ => false) (2 ^ 12) 6000 10000 true) = Some (6000 + 10000).
Proof.
  split; [vm_compute; reflexivity|].
  apply (zvol_log_write_layout zvol_immediate_write_sz ex_zilog_throughput
           (fun _ _ => false) 12 6000 10000 true);
    try reflexivity; try lia; vm_compute; discriminate.
Defined.
(* ------------------------------------------------------------------ *)
(** ** Which minors a removal selects *)

Lemma string_prefix_app n z :
  String.prefix n z = true <-> exists r, z = (n ++ r)%string.
Proof.
  revert z. induction n as [|c n IH]; intros z; cbn.
  - split; [intros _; exists z; reflexivity|intros _; destruct z; reflexivity].
  - destruct z as [|d z].
    + split; [discriminate|intros (r & H); discriminate].
    + cbn. destruct (ascii_dec c d) as [E|N].
      * rewrite IH. split.
        -- intros (r & ->). exists r. rewrite E. reflexivity.
        -- intros (r & H). injection H as _ H. exists r. exact H.
      * split; [discriminate|].
        intros (r & H). injection H as H _. congruence.
Qed.

Lemma string_get_app n r :
  String.get (String.length n) (n ++ r)
  = match r with EmptyString => None | String c _ => Some c end.
Proof.
  induction n as [|c n IH]; cbn; [destruct r; reflexivity|exact IH].
Qed.

Lemma ascii_eqb_or_sep c :
  Ascii.eqb c "/"%char || Ascii.eqb c "@"%char = true <->
  c = "/"%char \/ c = "@"%char.
Proof.
  rewrite orb_true_iff, !Ascii.eqb_eq. reflexivity.
Qed.

(** The test of [zvol_remove_minors_impl] selects the dataset itself, its
    descendants ([name/...]) and its snapshots ([name@...]), and nothing
    else. *)
Lemma name_selects_spec n z :
  name_selects (Some n) z = true <->
  z = n \/
  exists c r, (c = "/"%char \/ c = "@"%char) /\ z = (n ++ String c r)%string.
Proof.
  unfold name_selects. rewrite orb_true_iff, andb_true_iff, String.eqb_eq.
  split.
  - intros [H|[Hp Hg]]; [left; exact H|right].
    apply string_prefix_app in Hp. destruct Hp as (r & ->).
    rewrite string_get_app in Hg. destruct r as [|c r]; [discriminate|].
    exists c, r. split; [apply ascii_eqb_or_sep; exact Hg|reflexivity].
  - intros [H|(c & r & Hc & ->)]; [left; exact H|right].
    split; [apply string_prefix_app; eauto|].
    rewrite string_get_app. apply ascii_eqb_or_sep. exact Hc.
Qed.

Lemma zvol_remove_minors_loop_split name l :
  let cond zv :=
    name_selects name (zv_name zv)
    && negb ((0 <? zv_open_count zv) || negb (zv_suspend_ref zv =? 0)) in
  zvol_remove_minors_loop name l
  = (filter (fun zv => negb (cond zv)) l, filter cond l).
Proof.
  intros cond. induction l as [|zv l IH]; [reflexivity|].
  cbn [zvol_remove_minors_loop filter]. rewrite IH. unfold cond.
  destruct (name_selects name (zv_name zv)); cbn [andb negb];
    [|reflexivity].
  destruct ((0 <? zv_open_count zv) || negb (zv_suspend_ref zv =? 0));
    reflexivity.
Qed.


(* ------------------------------------------------------------------ *)
(** ** Removal of one minor *)

Lemma zvol_remove_minor_loop_spec name l :
  match zvol_remove_minor_loop name l with
  | (kept, Some zv) =>
      exists l1 l2,
        l = l1 ++ zv :: l2 /\ kept = l1 ++ l2 /\
        zv_name zv = name /\ zvol_in_use zv = false /\
        forall z, In z l1 -> zv_name z = name -> zvol_in_use z = true
  | (kept, None) =>
      kept = l /\
      forall z, In z l -> zv_name z = name -> zvol_in_use z = true
  end.
Proof.
  induction l as [|zv l IH]; cbn [zvol_remove_minor_loop].
  - split; [reflexivity|intros z []].
  - destruct (String.eqb (zv_name zv) name) eqn:Hn.
    + apply String.eqb_eq in Hn.
      destruct (zvol_in_use zv) eqn:Hu.
      * destruct (zvol_remove_minor_loop name l) as [kept [f|]].
        -- destruct IH as (l1 & l2 & -> & -> & Hf & Hi & Hb).
           exists (zv :: l1), l2. repeat split; auto.
           intros z [<-|Hz] Hzn; auto.
        -- destruct IH as (-> & Hb). split; [reflexivity|].
           intros z [<-|Hz] Hzn; auto.
      * exists [], l. repeat split; auto; intros z [].
    + apply String.eqb_neq in Hn.
      destruct (zvol_remove_minor_loop name l) as [kept [f|]].
      * destruct IH as (l1 & l2 & -> & -> & Hf & Hi & Hb).
        exists (zv :: l1), l2. repeat split; auto.
        intros z [<-|Hz] Hzn; [congruence|auto].
      * destruct IH as (-> & Hb). split; [reflexivity|].
        intros z [<-|Hz] Hzn; [congruence|auto].
Qed.

(** [zvol_remove_minor_impl(name)] unlinks at most one volume: the first
    one in [zvol_state_list] that is called exactly [name] and is idle.
    Every other volume stays in place, in order; descendants and snapshots
    of [name] are never touched; if every volume of that name is in use,
    or removal is inhibited, nothing changes.  The volume it frees is one
    that [zvol_remove_minors_impl(name)] frees as well. *)
Theorem zvol_remove_minor_impl_first_idle inhibit name l :
  match zvol_remove_minor_impl inhibit name l with
  | (kept, Some zv) =>
      inhibit = false /\
      (exists l1 l2,
          l = l1 ++ zv :: l2 /\ kept = l1 ++ l2 /\
          forall z, In z l1 -> zv_name z = name -> zvol_in_use z = true) /\
      zv_name zv = name /\
      zv_open_count zv <= 0 /\ zv_suspend_ref zv = 0 /\
      In zv (snd (zvol_remove_minors_impl false (Some name) l))
  | (kept, None) =>
      kept = l /\
      (inhibit = false ->
       forall z, In z l -> zv_name z = name -> zvol_in_use z = true)
  end.
Proof.
  unfold zvol_remove_minor_impl. destruct inhibit.
  - split; [reflexivity|discriminate].
  - pose proof (zvol_remove_minor_loop_spec name l) as H.
    destruct (zvol_remove_minor_loop name l) as [kept [zv|]].
    + destruct H as (l1 & l2 & -> & -> & Hn & Hu & Hb).
      unfold zvol_in_use in Hu. apply orb_false_iff in Hu.
      destruct Hu as [Ho Hr]. apply Z.ltb_ge in Ho.
      apply negb_false_iff, Z.eqb_eq in Hr.
      split; [reflexivity|]. split; [exists l1, l2; auto|].
      split; [exact Hn|]. split; [exact Ho|]. split; [exact Hr|].
      unfold zvol_remove_minors_impl.
      rewrite zvol_remove_minors_loop_split. cbn [snd].
      apply filter_In. split; [apply in_elt|].
      apply andb_true_iff. split.
      * apply name_selects_spec. left. exact Hn.
      * apply negb_true_iff, orb_false_iff. split.
        -- apply Z.ltb_ge. exact Ho.
        -- apply negb_false_iff, Z.eqb_eq. exact Hr.
    + destruct H as (-> & Hb). split; [reflexivity|intros _; exact Hb].
Qed.
(* ------------------------------------------------------------------ *)
(** ** Replay of a logged write *)

(** [zvol_replay_write] replays a record as logged, except that a
    [dmu_sync] record (one without data after the header) shorter than its
    block is replayed as a write of the whole block that contains the
    logged offset; the logged range is then covered when it does not cross
    the end of that block.  When [dmu_tx_assign] fails the transaction is
    aborted, nothing is written and the error is returned. *)
Theorem zvol_replay_write_range sz bswap assign_err lr zv os :
  zv_objset zv = Some os ->
  0 <= lrw_offset lr < UINT64_MOD -> 0 <= lrw_length lr ->
  let bs := lrw_blk_lsize lr in
  let widen := (lrc_reclen lr =? sz) && (lrw_length lr <? bs) in
  let off' := if widen then lrw_offset lr - lrw_offset lr mod bs
              else lrw_offset lr in
  let len' := if widen then bs else lrw_length lr in
  zvol_replay_write sz bswap assign_err lr false zv
  = Some (assign_err, zv,
          if assign_err =? 0
          then [EvTxCreate; EvTxAssign 0; EvDmuWrite off' len'; EvTxCommit]
          else [EvTxCreate; EvTxAssign assign_err; EvTxAbort]) /\
  off' <= lrw_offset lr /\
  (0 < lrw_length lr -> lrw_offset lr < off' + len') /\
  (widen = true ->
   off' mod bs = 0 /\
   (lrw_offset lr + lrw_length lr <= off' + len' <->
    lrw_offset lr mod bs + lrw_length lr <= bs)).
Proof.
  intros Hos Ho Hl bs widen off' len'.
  assert (Hw : widen = true -> 0 < bs).
  { unfold widen. intros H. apply andb_true_iff in H. destruct H as [_ H].
    apply Z.ltb_lt in H. lia. }
  split; [|split; [|split]].
  - unfold zvol_replay_write, bind, get. rewrite Hos.
    fold bs. fold widen.
    assert (Hsub : (if widen
                    then sub64 (lrw_offset lr) (lrw_offset lr mod bs)
                    else lrw_offset lr) = off').
    { unfold off'. destruct widen eqn:E; [|reflexivity].
      pose proof (Z.mod_pos_bound (lrw_offset lr) bs (Hw eq_refl)).
      pose proof (Z.mod_le (lrw_offset lr) bs ltac:(lia) (Hw eq_refl)).
      apply sub64_small; lia. }
    rewrite Hsub. fold len'. unfold emit, ret.
    destruct (assign_err =? 0) eqn:Ha; cbn [negb app].
    + apply Z.eqb_eq in Ha. subst assign_err. reflexivity.
    + reflexivity.
  - unfold off'. destruct widen eqn:E; [|lia].
    pose proof (Z.mod_pos_bound (lrw_offset lr) bs (Hw eq_refl)). lia.
  - intros Hpos. unfold off', len'. destruct widen eqn:E; [|lia].
    pose proof (Z.mod_pos_bound (lrw_offset lr) bs (Hw eq_refl)). lia.
  - intros E. unfold off', len'. rewrite E.
    pose proof (Z.mod_pos_bound (lrw_offset lr) bs (Hw E)) as Hm.
    split; [|lia].
    rewrite Zminus_mod_idemp_r, Z.sub_diag. apply Z.mod_0_l. lia.
Qed.

(** Replay of a 512-byte [dmu_sync] record at offset 5000 of a volume with
    4 KiB blocks: the block at 4096 is written. *)
Lemma zvol_replay_write_range_witness :
  zvol_replay_write 192 (fun lr => lr) 0 (mk_lr_write 192 5000 512 4096)
    false ex_vol
  = Some (0, ex_vol,
          [EvTxCreate; EvTxAssign 0; EvDmuWrite 4096 4096; EvTxCommit]).
Proof.
  apply (zvol_replay_write_range 192 (fun lr => lr) 0
           (mk_lr_write 192 5000 512 4096) ex_vol ex_os eq_refl).
  - split; [discriminate|reflexivity].
  - discriminate.
Defined.

(* ------------------------------------------------------------------ *)
(** ** Character device read *)




(* ------------------------------------------------------------------ *)
(** ** Character device ioctl *)

Lemma zvol_ensure_zilog_frame ok env zl zv u zv' tr :
  zvol_ensure_zilog ok env zl zv = Some (u, zv', tr) ->
  ok = true \/ zv_zilog zv <> None \/ env_keeps_geometry env ->
  zv_objset zv' = zv_objset zv /\ zv_volsize zv' = zv_volsize zv /\
  zv_name zv' = zv_name zv /\ zv_open_count zv' = zv_open_count zv.
Proof.
  intros H Hq.
  unfold zvol_ensure_zilog, m_rw_exit, m_rw_enter, m_rw_downgrade in H.
  minv; unfold interfere in *; destruct ok; try discriminate;
    cbn [zv_objset zv_volsize zv_name zv_open_count zv_set_suspend_lock
         zv_set_state_lock zv_set_zilog zv_set_written_to];
    first
      [ solve [repeat split; reflexivity]
      | destruct Hq as [Hq|[Hq|Hq]];
        [discriminate Hq|congruence|
         match goal with
         | |- context [env ?z] =>
             destruct (Hq z) as (E1 & E2 & E3 & E4);
             rewrite E1, E2, E3, E4; repeat split; reflexivity
         end] ].
Qed.

(** Taking the suspend lock as reader and opening the log, followed by
    [k]. *)
Lemma locked_ensure_run {A} ok env zl (k : M A) zv :
  zv_suspend_lock zv = RW_NONE ->
  exists zve tre h,
    zvol_ensure_zilog ok env zl (zv_set_suspend_lock zv RW_READER)
    = Some (tt, zve, tre) /\
    (m_rw_enter RW_READER ;; zvol_ensure_zilog ok env zl ;; k) zv
    = match k zve with
      | Some (a, z, t) =>
          Some (a, z, EvRwEnter (L_suspend (zv_name zv)) RW_READER
                        :: tre ++ t)
      | None => None
      end /\
    zv_suspend_lock zve = RW_READER /\ zv_zilog zve = Some h /\
    zv_state_lock zve = zv_state_lock zv /\
    (forall e, In e tre -> is_lock_event e = true \/ e = EvZilOpen).
Proof.
  intros Hq.
  destruct (zvol_ensure_zilog_spec ok env zl
              (zv_set_suspend_lock zv RW_READER) eq_refl)
    as (zve & tre & Hens & Hzl & Hl & Hs & _).
  destruct (zvol_ensure_zilog_events _ _ _ _ _ _ _ Hens) as [Hev _].
  destruct (zv_zilog zve) as [h|] eqn:Hh; [|congruence].
  exists zve, tre, h. split; [exact Hens|]. split.
  - unfold m_rw_enter. unfold bind at 1. unfold bind at 1.
    unfold m_suspend_lock at 1, lock_op at 1, rw_enter at 1. rewrite Hq.
    cbn [app]. unfold bind at 1. rewrite Hens.
    destruct (k zve) as [[[a z] t]|]; reflexivity.
  - split; [exact Hl|]. split; [exact Hh|]. split; [exact Hs|].
    intros e He. rewrite Forall_forall in Hev. specialize (Hev _ He).
    apply orb_true_iff in Hev. destruct Hev as [Hev|Hev]; [left; exact Hev|].
    right. destruct e; try discriminate. reflexivity.
Qed.

Lemma rem_512_nonneg x : 0 <= x -> Z.rem x DEV_BSIZE = x mod DEV_BSIZE.
Proof. intros H. apply Z.rem_mod_nonneg; [exact H|reflexivity]. Qed.

(** [DIOCGDELETE] through [zvol_cdev_ioctl].  With unmap disabled the call
    returns 0 and does nothing.  Otherwise a request is refused with
    [EINVAL], before any lock is taken, unless offset and length are
    multiples of [DEV_BSIZE], the length is positive and the offset lies
    inside the volume.  An accepted request is carried out on the range as
    given, also where the range runs past the end of the volume: it is
    logged and freed when [dmu_tx_assign] succeeds, and neither when it
    fails; the range lock and the suspend lock are dropped on return. *)
Theorem zvol_cdev_ioctl_DIOCGDELETE_cases unmap o a offset length zv os :
  0 < zv_open_count zv -> zv_suspend_lock zv = RW_NONE ->
  zv_objset zv = Some os ->
  - 2 ^ 63 <= offset < 2 ^ 63 ->
  yo_upgrade_ok o = true \/ zv_zilog zv <> None
  \/ env_keeps_geometry (yo_env o) ->
  let run := zvol_cdev_ioctl unmap o a (DIOCGDELETE offset length) zv in
  let valid :=
    offset mod DEV_BSIZE = 0 /\ length mod DEV_BSIZE = 0 /\
    0 <= offset < zv_volsize zv /\ 0 < length in
  (unmap = false -> run = Some ((0, DataNone), zv, [])) /\
  (unmap = true -> ~ valid -> run = Some ((EINVAL, DataNone), zv, [])) /\
  (unmap = true -> valid ->
   exists e zv' tr,
     run = Some ((e, DataNone), zv', tr) /\
     zv_suspend_lock zv' = RW_NONE /\
     In (EvRangelockEnter offset length false) tr /\
     In EvRangelockExit tr /\
     (yo_assign_err o = 0 ->
      e = yo_free_err o /\ In (EvFreeLongRange offset length) tr /\
      In EvTxCommit tr) /\
     (yo_assign_err o <> 0 ->
      e = yo_assign_err o /\ In EvTxAbort tr /\
      forall x, In x tr ->
                match x with
                | EvFreeLongRange _ _ | EvLogTruncate _ _ _ | EvTxCommit
                | EvZilCommit => False
                | _ => True
                end)).
Proof.
  intros Hopen Hq Hos Hoff Henv run valid.
  assert (Hassert : (0 <? zv_open_count zv) = true) by (apply Z.ltb_lt; lia).
  assert (Hhead : forall k : Z -> M (Z * ioctl_data),
             (error <- zvol_cdev_ioctl_DIOCGDELETE unmap o offset length ;;
              k error) zv
             = match zvol_cdev_ioctl_DIOCGDELETE unmap o offset length zv
               with
               | Some (e, z, t) =>
                   match k e z with
                   | Some (b, z2, t2) => Some (b, z2, t ++ t2)
                   | None => None
                   end
               | None => None
               end).
  { intros k. unfold bind at 1.
    destruct (zvol_cdev_ioctl_DIOCGDELETE unmap o offset length zv)
      as [[[e z] t]|]; reflexivity. }
  assert (Hrun : run
                 = match zvol_cdev_ioctl_DIOCGDELETE unmap o offset length zv
                   with
                   | Some (e, z, t) => Some ((e, DataNone), z, t)
                   | None => None
                   end).
  { unfold run, zvol_cdev_ioctl. unfold bind at 1, assert_ at 1.
    rewrite Hassert. unfold bind at 1, get at 1. rewrite Hhead.
    destruct (zvol_cdev_ioctl_DIOCGDELETE unmap o offset length zv)
      as [[[e z] t]|]; [|reflexivity].
    unfold ret. cbn [app]. rewrite app_nil_r. reflexivity. }
  rewrite Hrun. clear Hrun Hhead.
  assert (Hass : assert_ (fun zv0 => 0 <? zv_open_count zv0) zv
                 = Some (tt, zv, []))
    by (unfold assert_; rewrite Hassert; reflexivity).
  assert (Hget : get zv = Some (zv, zv, [])) by reflexivity.
  unfold zvol_cdev_ioctl_DIOCGDELETE.
  rewrite (bind_run _ _ zv tt zv [] Hass).
  split; [intros ->; reflexivity|].
  split.
  - intros -> Hnv. cbn [negb].
    rewrite (bind_run _ _ zv zv zv [] Hget).
    assert (Hc : negb (Z.rem offset DEV_BSIZE =? 0)
                 || negb (Z.rem length DEV_BSIZE =? 0)
                 || (offset <? 0)
                 || (zv_volsize zv <=? offset mod UINT64_MOD)
                 || (length <=? 0) = true).
    { destruct (offset <? 0) eqn:H1; [rewrite !orb_true_r; reflexivity|].
      apply Z.ltb_ge in H1.
      destruct (length <=? 0) eqn:H2; [rewrite !orb_true_r; reflexivity|].
      apply Z.leb_gt in H2.
      rewrite (Z.mod_small offset)
        by (unfold UINT64_MOD;
            assert (2 ^ 63 < 2 ^ 64) by reflexivity; lia).
      destruct (zv_volsize zv <=? offset) eqn:H3;
        [rewrite !orb_true_r; reflexivity|].
      apply Z.leb_gt in H3.
      rewrite !rem_512_nonneg by lia.
      destruct (offset mod DEV_BSIZE =? 0) eqn:H4; [|reflexivity].
      destruct (length mod DEV_BSIZE =? 0) eqn:H5; [|reflexivity].
      apply Z.eqb_eq in H4. apply Z.eqb_eq in H5.
      exfalso. apply Hnv. unfold valid. lia. }
    rewrite Hc. reflexivity.
  - intros -> (Hv1 & Hv2 & Hv3 & Hv4). cbn [negb].
    rewrite (bind_run _ _ zv zv zv [] Hget).
    assert (Hc : negb (Z.rem offset DEV_BSIZE =? 0)
                 || negb (Z.rem length DEV_BSIZE =? 0)
                 || (offset <? 0)
                 || (zv_volsize zv <=? offset mod UINT64_MOD)
                 || (length <=? 0) = false).
    { rewrite !rem_512_nonneg by lia. rewrite Hv1, Hv2.
      rewrite (Z.mod_small offset)
        by (unfold UINT64_MOD;
            assert (2 ^ 63 < 2 ^ 64) by reflexivity; lia).
      cbn [Z.eqb negb orb].
      assert ((offset <? 0) = false) as -> by (apply Z.ltb_ge; lia).
      assert ((zv_volsize zv <=? offset) = false) as ->
          by (apply Z.leb_gt; lia).
      assert ((length <=? 0) = false) as -> by (apply Z.leb_gt; lia).
      reflexivity. }
    rewrite Hc.
    match goal with
    | |- context [(m_rw_enter RW_READER ;; zvol_ensure_zilog _ _ _ ;; ?k) zv]
      => destruct (locked_ensure_run (yo_upgrade_ok o) (yo_env o) (yo_zl o)
                     k zv Hq)
        as (zve & tre & h & Hens & Heq & Hl & Hzl & Hs & Hev)
    end.
    rewrite Heq. clear Heq.
    destruct (zvol_ensure_zilog_frame _ _ _ _ _ _ _ Hens Henv)
      as (Hos' & _).
    cbn [zv_objset zv_set_suspend_lock] in Hos'. rewrite Hos in Hos'.
    unfold zvol_log_truncate, m_os_sync_always, m_rw_exit, m_suspend_lock,
      lock_op, rw_exit, when_, emit, ret.
    unfold bind.
    assert (Hlock : forall x, In x tre ->
              match x with
              | EvFreeLongRange _ _ | EvLogTruncate _ _ _ | EvTxCommit
              | EvZilCommit | EvTxAbort | EvRangelockExit
              | EvRangelockEnter _ _ _ => False
              | _ => True
              end).
    { intros x Hx. destruct (Hev x Hx) as [H|H];
        [destruct x; try discriminate H; exact I|subst x; exact I]. }
    destruct (yo_assign_err o =? 0) eqn:Ha; cbn [negb].
    + apply Z.eqb_eq in Ha. rewrite Hos', Hzl.
      destruct (zl_replaying h), (os_sync_always os);
        cbn [fst snd app]; rewrite Hl;
        eexists _, _, _; (split; [reflexivity|]);
        (split; [reflexivity|]);
        (split; [right; apply in_or_app; right; cbn; auto 10|]);
        (split; [right; apply in_or_app; right; cbn; auto 20|]);
        (split; [intros _; split; [reflexivity|];
                 split; right; apply in_or_app; right; cbn; auto 20
                |intros Hne; congruence]).
    + apply Z.eqb_neq in Ha. cbn [fst snd app]. rewrite Hl.
      eexists _, _, _. split; [reflexivity|]. split; [reflexivity|].
      split; [right; apply in_or_app; right; cbn; auto 10|].
      split; [right; apply in_or_app; right; cbn; auto 20|].
      split; [intros E; congruence|]. intros _.
      split; [reflexivity|].
      split; [right; apply in_or_app; right; cbn; auto 20|].
      intros x [<-|Hx]; [exact I|].
      apply in_app_or in Hx. destruct Hx as [Hx|Hx].
      * specialize (Hlock x Hx). destruct x; try exact I; contradiction.
      * cbn in Hx.
        repeat (destruct Hx as [<-|Hx]; [exact I|]). destruct Hx.
Qed.

(** A [DIOCGDELETE] of 4096 bytes that starts 512 bytes before the end of
    the example volume is accepted and freed as given. *)
Lemma zvol_cdev_ioctl_DIOCGDELETE_cases_witness :
  exists zv' tr,
    zvol_cdev_ioctl true ex_sync_oracle ex_attr_oracle
      (DIOCGDELETE 1073741312 4096) ex_vol = Some ((0, DataNone), zv', tr) /\
    In (EvFreeLongRange 1073741312 4096) tr.
Proof.
  destruct (zvol_cdev_ioctl_DIOCGDELETE_cases true ex_sync_oracle
              ex_attr_oracle 1073741312 4096 ex_vol ex_os)
    as (_ & _ & H); try reflexivity.
  - split; [discriminate|reflexivity].
  - left. reflexivity.
  - destruct (H eq_refl) as (e & zv' & tr & Hrun & _ & _ & _ & Hok & _).
    + repeat split; try reflexivity; discriminate.
    + destruct (Hok eq_refl) as (-> & Hin & _).
      exists zv', tr. split; [exact Hrun|exact Hin].
Defined.


(* ------------------------------------------------------------------ *)
(** ** Synchronous bios *)





(* ------------------------------------------------------------------ *)
(** ** Entering the pipeline from a bio *)

Lemma dones_app t1 t2 : dones (t1 ++ t2) = dones t1 ++ dones t2.
Proof.
  induction t1 as [|e t1 IH]; [reflexivity|].
  destruct e; cbn [app dones]; try exact IH.
  match goal with
  | e : event |- _ => destruct e; cbn [app dones]; rewrite ?IH; reflexivity
  end.
Qed.

Lemma frees_app id t1 t2 :
  frees id (t1 ++ t2) = (frees id t1 + frees id t2)%nat.
Proof.
  induction t1 as [|e t1 IH]; [reflexivity|].
  destruct e; cbn [app frees]; rewrite ?IH; lia.
Qed.

(** What [zvol_dmu_ctx_start] returns and whether it called the error
    callback. *)
Lemma zvol_dmu_ctx_start_outcome o zv zds :
  let r := zvol_dmu_ctx_start o zv zds in
  let failed :=
    negb (o_dmu_ctx_init o =? 0)
    || (negb (zds_reader zds) && (o_prefault_count o =? 0)
        && negb (o_tx_assign o =? 0)) in
  ir_ret r
  = (if negb (o_dmu_ctx_init o =? 0) then o_dmu_ctx_init o
     else if zds_reader zds
          then (if o_rangelock_wait o then EINPROGRESS else 0)
          else EINPROGRESS) /\
  zds_id (ir_zds r) = zds_id zds /\
  dones (with_err_cb (ir_trace r)) = (if failed then [ENXIO] else []) /\
  frees (zds_id zds) (with_err_cb (ir_trace r))
  = (if failed then 1 else 0)%nat /\
  (ir_ret r = 0 -> ir_phase r = Some PhLocked).
Proof.
  unfold zvol_dmu_ctx_start, zvol_dmu_ctx_init_write,
    zvol_dmu_ctx_init_write_impl, ir_released, zvol_dmu_err, zvol_dmu_issue.
  destruct (zvol_dmu_ctx_init_deferred_cases zv)
    as [[Hd ->]|(h & t & Hd & ->)];
    (destruct (o_dmu_ctx_init o =? 0) eqn:Hc; cbn [negb orb andb];
     [destruct (zds_reader zds); cbn [negb andb];
      [destruct (o_rangelock_wait o)
      |destruct (o_prefault_count o =? 0) eqn:Hp; cbn [negb andb];
       [destruct (o_tx_assign o =? 0) eqn:Ha; cbn [negb andb Z.eqb];
        [destruct (o_rangelock_wait o)|]|]]|]);
    cbn; rewrite ?Z.eqb_refl; repeat split; try reflexivity;
    try discriminate; intros E; try discriminate E;
    try (apply Z.eqb_neq in Hc; congruence).
Qed.

Lemma zvol_dmu_ctx_validate_values zv zds :
  zvol_dmu_ctx_validate zv zds = 0 \/ zvol_dmu_ctx_validate zv zds = EIO.
Proof.
  unfold zvol_dmu_ctx_validate.
  destruct ((0 <? zds_io_size zds) && (zv_volsize zv <=? zds_off zds));
    [right; reflexivity|].
  destruct (zds_reader zds); [left; reflexivity|].
  destruct (zv_rdonly zv); [right|left]; reflexivity.
Qed.

(** [zvol_geom_bio_dmu_ctx_init] completes the bio with [ENXIO] whenever
    [zvol_dmu_ctx_init] returns an error other than [EINPROGRESS], whatever
    that error was.  A request refused by the read-only or bounds check is
    completed once.  A request that was admitted and whose [dmu_ctx_init]
    fails has already been completed and freed by the error callback when
    the error is returned, so it is completed and freed a second time.  A
    deferred request is not completed here. *)
Theorem zvol_geom_bio_dmu_ctx_init_completions ncpus o zv zds os :
  zds_retry zds = false -> zv_objset zv = Some os ->
  let v := zvol_dmu_ctx_validate zv zds in
  let id := zds_id zds in
  exists r tr,
    zvol_geom_bio_dmu_ctx_init ncpus o zv zds = Some (r, tr) /\
    (forall e, In e (dones tr) -> e = ENXIO) /\
    (v <> 0 -> dones tr = [ENXIO] /\ frees id tr = 1%nat) /\
    (v = 0 -> ncpus <= zv_active zv ->
     dones tr = [] /\ frees id tr = 0%nat /\ ir_queued r = true) /\
    (v = 0 -> zv_active zv < ncpus ->
     o_dmu_ctx_init o <> 0 -> o_dmu_ctx_init o <> EINPROGRESS ->
     dones tr = [ENXIO; ENXIO] /\ frees id tr = 2%nat) /\
    (v = 0 -> zv_active zv < ncpus -> o_dmu_ctx_init o = 0 ->
     dones tr
     = (if negb (zds_reader zds) && (o_prefault_count o =? 0)
           && negb (o_tx_assign o =? 0)
        then [ENXIO] else []) /\
     (frees id tr <= 1)%nat).
Proof.
  intros Hr Hos v id.
  unfold zvol_geom_bio_dmu_ctx_init, zvol_dmu_ctx_init. rewrite Hos.
  cbn [zds_retry zds_set_sync]. rewrite Hr.
  rewrite zvol_dmu_ctx_validate_frame. fold v.
  destruct (zvol_dmu_ctx_validate_values zv zds) as [Hv|Hv]; fold v in Hv.
  2:{ rewrite Hv. cbn.
      eexists _, _. split; [reflexivity|]. fold id.
      unfold zvol_strategy_done. cbn [dones frees]. rewrite Z.eqb_refl.
      split; [intros e [<-|[]]; reflexivity|].
      split; [intros _; split; reflexivity|].
      repeat split; intros; discriminate. }
  rewrite Hv. cbn [Z.eqb negb].
  unfold zvol_dmu_ctx_admit, zvol_dmu_max_active.
  cbn [zv_active zv_set_suspend_ref].
  destruct (ncpus <=? zv_active zv) eqn:Hm.
  - apply Z.leb_le in Hm. cbn.
    eexists _, _. split; [reflexivity|].
    split; [intros e []|].
    split; [intros H; contradiction|].
    split; [intros _ _; repeat split|].
    split; intros; lia.
  - apply Z.leb_gt in Hm. cbn [Z.eqb EINPROGRESS].
    match goal with
    | |- context [zvol_dmu_ctx_start o ?z ?d] =>
        set (zvs := z); set (zdss := d)
    end.
    destruct (zvol_dmu_ctx_start_outcome o zvs zdss)
      as (Hret & Hid & Hd & Hf & Hph).
    change (zds_reader zdss) with (zds_reader zds) in *.
    change (zds_id zdss) with id in *.
    set (r := zvol_dmu_ctx_start o zvs zdss) in *.
    destruct (o_dmu_ctx_init o =? 0) eqn:Hc; cbn [negb orb] in *.
    + apply Z.eqb_eq in Hc.
      destruct (zds_reader zds) eqn:Hrd; cbn [negb andb] in *.
      * destruct (o_rangelock_wait o).
        -- rewrite Hret. cbn.
           eexists _, _. split; [reflexivity|]. rewrite Hd, Hf.
           split; [intros e []|].
           split; [intros H; contradiction|].
           split; [intros; lia|]. split; [intros; congruence|].
           intros; split; [reflexivity|lia].
        -- rewrite Hret. cbn [Z.eqb negb].
           unfold ir_released, zvol_dmu_issue.
           destruct (zvol_dmu_ctx_init_deferred_cases (ir_zv r))
             as [[Hq ->]|(h & t & Hq & ->)];
             cbn [ir_trace app];
             eexists _, _; (split; [reflexivity|]);
             rewrite dones_app, frees_app, Hd, Hf; cbn;
             (split; [intros e []|]);
             (split; [intros H; contradiction|]);
             (split; [intros; lia|]); (split; [intros; congruence|]);
             (intros; split; [reflexivity|lia]).
      * rewrite Hret. cbn.
        eexists _, _. split; [reflexivity|]. rewrite Hd, Hf.
        split; [destruct ((o_prefault_count o =? 0)
                          && negb (o_tx_assign o =? 0));
                [intros e [<-|[]]; reflexivity|intros e []]|].
        split; [intros H; contradiction|].
        split; [intros; lia|]. split; [intros; congruence|].
        intros; split; [reflexivity|].
        destruct ((o_prefault_count o =? 0) && negb (o_tx_assign o =? 0));
          lia.
    + apply Z.eqb_neq in Hc. rewrite Hret.
      destruct (o_dmu_ctx_init o =? EINPROGRESS) eqn:He.
      * apply Z.eqb_eq in He.
        eexists _, _. split; [reflexivity|]. rewrite Hd, Hf.
        split; [intros e [<-|[]]; reflexivity|].
        split; [intros H; contradiction|].
        split; [intros; lia|]. split; [intros; congruence|].
        intros; congruence.
      * apply Z.eqb_neq in He.
        assert ((o_dmu_ctx_init o =? 0) = false) as ->
            by (apply Z.eqb_neq; exact Hc).
        cbn [negb].
        eexists _, _. split; [reflexivity|].
        rewrite dones_app, frees_app, Hd, Hf.
        unfold zvol_strategy_done. cbn [dones frees app].
        rewrite Z.eqb_refl.
        split; [intros e [<-|[<-|[]]]; reflexivity|].
        split; [intros H; contradiction|].
        split; [intros; lia|]. split; [intros; split; reflexivity|].
        intros; congruence.
Qed.

(** A read of the example volume whose [dmu_ctx_init] fails with [EIO]:
    completed twice, freed twice. *)
Lemma zvol_geom_bio_dmu_ctx_init_completions_witness :
  exists r tr,
    zvol_geom_bio_dmu_ctx_init 3 (mk_oracle EIO true 0 0 0) ex_vol
      (ex_read 1 0 4096) = Some (r, tr) /\
    dones tr = [ENXIO; ENXIO] /\ frees 1 tr = 2%nat.
Proof.
  destruct (zvol_geom_bio_dmu_ctx_init_completions 3
              (mk_oracle EIO true 0 0 0) ex_vol (ex_read 1 0 4096) ex_os
              eq_refl eq_refl)
    as (r & tr & Hrun & _ & _ & _ & H2 & _).
  exists r, tr. split; [exact Hrun|].
  apply H2; try reflexivity; discriminate.
Defined.

(* ------------------------------------------------------------------ *)
(** ** Changing the block size *)

Lemma set_blocksize_calls_app t1 t2 :
  set_blocksize_calls (t1 ++ t2)
  = set_blocksize_calls t1 ++ set_blocksize_calls t2.
Proof.
  induction t1 as [|e t1 IH]; [reflexivity|].
  destruct e; cbn [app set_blocksize_calls]; rewrite ?IH; reflexivity.
Qed.

Lemma set_blocksize_calls_XEv tr : set_blocksize_calls (map XEv tr) = [].
Proof. induction tr as [|e tr IH]; [reflexivity|exact IH]. Qed.

Lemma zvol_set_volblocksize_found_run assign_err set_err vbs zv :
  zv_state_lock zv = true -> zv_suspend_lock zv = RW_READER ->
  let ls := L_state (zv_name zv) in
  let lq := L_suspend (zv_name zv) in
  let unlock := [XEv (EvMutexExit ls); XEv (EvRwExit lq)] in
  let rel z := zv_set_suspend_lock (zv_set_state_lock z false) RW_NONE in
  zvol_set_volblocksize_found assign_err set_err vbs zv
  = Some
      (if zv_rdonly zv then (EROFS, rel zv, unlock)
       else if negb (assign_err =? 0) then
         (assign_err, rel zv,
          [XEv EvTxCreate; XEv (EvTxAssign assign_err); XEv EvTxAbort]
          ++ unlock)
       else
         let error := if set_err =? ENOTSUP then EBUSY else set_err in
         (error,
          rel (if error =? 0 then zv_set_volblocksize zv vbs else zv),
          [XEv EvTxCreate; XEv (EvTxAssign assign_err);
           XSetBlocksize vbs set_err; XEv EvTxCommit] ++ unlock)).
Proof.
  intros Hm Hq ls lq unlock rel.
  unfold zvol_set_volblocksize_found, vlift, xlift, xbind, xget, xemit,
    xret, xwhen, xmodify, assert_, MUTEX_HELD, RW_READ_HELD,
    m_mutex_exit, m_rw_exit, m_state_lock, m_suspend_lock, lock_op, bind,
    mutex_exit, rw_exit.
  rewrite Hm, Hq. cbn [krw_eqb map app].
  destruct (zv_rdonly zv) eqn:Hro.
  - cbn. rewrite Hm. cbn. rewrite Hq. reflexivity.
  - destruct (assign_err =? 0); cbn [negb].
    + destruct (if set_err =? ENOTSUP then EBUSY else set_err) eqn:He;
        cbn; rewrite ?Hm; cbn; rewrite ?Hq; reflexivity.
    + cbn. rewrite Hm. cbn. rewrite Hq. reflexivity.
Qed.

(** [zvol_set_volblocksize] returns [ENXIO] when no volume has the name,
    [EROFS] for a read-only volume without creating a transaction, the
    error of [dmu_tx_assign] when that fails, and otherwise the result of
    [dmu_object_set_blocksize] with [ENOTSUP] turned into [EBUSY].  The
    volume's block size becomes the new one exactly when the result is 0,
    the new size is passed on as given, and in every case the volume is
    left with neither of its locks held. *)
Theorem zvol_set_volblocksize_outcome
    env try_ok table ht assign_err set_err name vbs :
  let hash := zvol_name_hash table name in
  (forall zv, In zv (ht hash) -> zv_state_lock zv = false) ->
  (forall zv, In zv (ht hash) -> name_hash_match zv name hash = true ->
              zv_suspend_lock zv = RW_NONE /\
              name_hash_match (env zv) name hash = true) ->
  exists e r tr,
    zvol_set_volblocksize env try_ok table ht assign_err set_err name vbs
    = Some (e, r, tr) /\
    match r with
    | None =>
        e = ENXIO /\ set_blocksize_calls tr = [] /\
        forall zv, In zv (ht hash) -> name_hash_match zv name hash = false
    | Some (i, zv') =>
        exists zv0,
          nth_error (ht hash) i = Some zv0 /\
          name_hash_match zv0 name hash = true /\
          let zvx := if try_ok then zv0 else env zv0 in
          zv_state_lock zv' = false /\ zv_suspend_lock zv' = RW_NONE /\
          zv_volsize zv' = zv_volsize zvx /\
          zv_volblocksize zv'
          = (if e =? 0 then vbs else zv_volblocksize zvx) /\
          e = (if zv_rdonly zvx then EROFS
               else if negb (assign_err =? 0) then assign_err
               else if set_err =? ENOTSUP then EBUSY else set_err) /\
          set_blocksize_calls tr
          = (if zv_rdonly zvx || negb (assign_err =? 0) then []
             else [vbs]) /\
          (In (XEv EvTxCreate) tr <-> zv_rdonly zvx = false)
    end.
Proof.
  intros hash Hl Hm.
  unfold zvol_set_volblocksize, zvol_find_by_name, zvol_find_by_name_hash.
  fold hash.
  destruct (zvol_find_chain_total env try_ok (ht hash) name hash RW_READER
              Hl Hm) as (r & tr & Hf).
  rewrite Hf. destruct r as [[i zv]|].
  - destruct (zvol_find_chain_found _ _ _ _ _ _ _ _ _ Hf)
      as (zv0 & Hn & Hl0 & Hz & _ & _ & Hq).
    destruct (Hq ltac:(discriminate)) as (Hs0 & zvx & Hx & ->).
    assert (Hzx : zvx = if try_ok then zv0 else env zv0)
      by (destruct Hx as [[-> ->]|[-> ->]]; reflexivity).
    rewrite zvol_set_volblocksize_found_run by reflexivity.
    cbn [zv_rdonly zv_set_state_lock zv_set_suspend_lock zv_name].
    assert (Hfind : ~ In (XEv EvTxCreate)
                      (map XEv (EvRwEnter L_zvol_state_lock RW_READER
                                  :: tr ++ [EvRwExit L_zvol_state_lock]))).
    { intros Hin. apply in_map_iff in Hin. destruct Hin as (x & Hx' & Hin).
      injection Hx' as ->.
      destruct Hin as [Hin|Hin]; [discriminate Hin|].
      apply in_app_or in Hin. destruct Hin as [Hin|[Hin|[]]];
        [|discriminate Hin].
      pose proof (zvol_find_chain_lock_events _ _ _ _ _ _ _ _ Hf _ Hin)
        as Hev.
      discriminate Hev. }
    destruct (zv_rdonly zvx) eqn:Hro.
    + eexists _, _, _. split; [reflexivity|].
      exists zv0. split; [exact Hn|]. split; [exact Hz|].
      cbn zeta. rewrite <- Hzx, Hro.
      split; [reflexivity|]. split; [reflexivity|]. split; [reflexivity|].
      split; [reflexivity|]. split; [reflexivity|].
      split.
      * rewrite set_blocksize_calls_app, set_blocksize_calls_XEv.
        reflexivity.
      * split; [|discriminate]. intros Hin. exfalso.
        apply in_app_or in Hin. destruct Hin as [Hin|Hin];
          [exact (Hfind Hin)|].
        cbn in Hin. destruct Hin as [H|[H|[]]]; discriminate H.
    + destruct (assign_err =? 0) eqn:Ha; cbn [negb].
      * set (error := if set_err =? ENOTSUP then EBUSY else set_err).
        eexists _, _, _. split; [reflexivity|].
        exists zv0. split; [exact Hn|]. split; [exact Hz|].
        cbn zeta. rewrite <- Hzx, Hro. cbn [orb negb].
        fold error.
        split; [destruct (error =? 0); reflexivity|].
        split; [destruct (error =? 0); reflexivity|].
        split; [destruct (error =? 0); reflexivity|].
        split; [destruct (error =? 0); reflexivity|].
        split; [reflexivity|].
        split.
        -- rewrite set_blocksize_calls_app, set_blocksize_calls_XEv.
           reflexivity.
        -- split; [reflexivity|]. intros _. apply in_or_app. right.
           left. reflexivity.
      * apply Z.eqb_neq in Ha.
        eexists _, _, _. split; [reflexivity|].
        exists zv0. split; [exact Hn|]. split; [exact Hz|].
        cbn zeta. rewrite <- Hzx, Hro. cbn [orb negb].
        assert ((assign_err =? 0) = false) as -> by (apply Z.eqb_neq; exact Ha).
        split; [reflexivity|]. split; [reflexivity|]. split; [reflexivity|].
        split; [reflexivity|]. split; [reflexivity|].
        split.
        -- rewrite set_blocksize_calls_app, set_blocksize_calls_XEv.
           reflexivity.
        -- split; [reflexivity|]. intros _. apply in_or_app. right.
           left. reflexivity.
  - eexists _, _, _. split; [reflexivity|].
    split; [reflexivity|]. split; [apply set_blocksize_calls_XEv|].
    exact (zvol_find_chain_none _ _ _ _ _ _ _ Hf).
Qed.

(** The block size of [tank/vol] is changed to 8 KiB. *)
Lemma zvol_set_volblocksize_outcome_witness :
  exists r tr,
    zvol_set_volblocksize (fun z => z) true ex_table ex_ht 0 0 "tank/vol"
      8192 = Some (0, r, tr) /\
    set_blocksize_calls tr = [8192] /\
    exists zv', r = Some (1%nat, zv') /\ zv_volblocksize zv' = 8192 /\
                zv_state_lock zv' = false /\ zv_suspend_lock zv' = RW_NONE.
Proof.
  pose proof (zvol_set_volblocksize_outcome (fun z => z) true ex_table
                ex_ht 0 0 "tank/vol" 8192) as H.
  cbv zeta in H. rewrite ex_vol_hash in H.
  destruct (H ex_ht_chain_unlocked ex_ht_chain_match)
    as (e & r & tr & Hrun & Hr).
  assert (Hc : exists tr0,
             zvol_set_volblocksize (fun z => z) true ex_table ex_ht 0 0
               "tank/vol" 8192
             = Some (0, Some (1%nat, zv_set_volblocksize ex_vol 8192), tr0))
    by (eexists; vm_compute; reflexivity).
  destruct Hc as (tr0 & Hc). rewrite Hc in Hrun.
  injection Hrun as <- <- <-.
  destruct Hr as (zv0 & Hn & _ & Hl & Hs & _ & Hb & _ & Hcalls & _).
  injection Hn as <-.
  exists (Some (1%nat, zv_set_volblocksize ex_vol 8192)), tr0.
  split; [exact Hc|]. split; [exact Hcalls|].
  eexists. split; [reflexivity|]. split; [exact Hb|].
  split; [exact Hl|exact Hs].
Defined.
(* ------------------------------------------------------------------ *)
(** ** Data for a logged write *)

(** [zvol_get_data] returns the first error met.  Unless it hands the
    record to [dmu_sync] (indirect form, hold and sync both succeeding),
    it has released the range lock and every buffer it held and freed its
    [zgd_t] exactly once when it returns; when it hands the record over it
    returns 0 with the range lock and the buffer still held and the
    [zgd_t] not freed. *)
Theorem zvol_get_data_cleanup zgd re he se zv offset size immediate :
  size <> 0 ->
  let handed := negb immediate && (he =? 0) && (se =? 0) in
  exists e tr,
    zvol_get_data zgd re he se zv offset size immediate = Some (e, tr) /\
    e = (if immediate then re else if he =? 0 then se else he) /\
    rangelocks_held tr = (if handed then 1 else 0) /\
    dbufs_held tr = (if handed then 1 else 0) /\
    frees zgd tr = (if handed then 0 else 1)%nat /\
    (immediate = true -> In (XDmuRead offset size re) tr) /\
    (immediate = false ->
     forall o l e', ~ In (XDmuRead o l e') tr).
Proof.
  intros Hs handed. unfold zvol_get_data.
  apply Z.eqb_neq in Hs. rewrite Hs. subst handed.
  destruct immediate; cbn [negb andb].
  - eexists _, _. split; [reflexivity|]. cbn.
    rewrite Z.eqb_refl.
    repeat split; auto; discriminate.
  - destruct (he =? 0) eqn:Hh; cbn [andb].
    + apply Z.eqb_eq in Hh. subst he.
      destruct (se =? 0) eqn:Hse.
      * apply Z.eqb_eq in Hse. subst se.
        eexists _, _. split; [reflexivity|]. cbn.
        repeat split; try discriminate.
        intros _ o l e' [H|[H|[H|[]]]]; discriminate H.
      * eexists _, _. split; [reflexivity|]. cbn.
        rewrite Z.eqb_refl.
        repeat split; try discriminate.
        intros _ o l e' H.
        repeat (destruct H as [H|H]; [discriminate H|]). destruct H.
    + eexists _, _. split; [reflexivity|]. cbn. rewrite Hh.
      rewrite Z.eqb_refl.
      repeat split; try discriminate.
      intros _ o l e' H.
      repeat (destruct H as [H|H]; [discriminate H|]). destruct H.
Qed.

Lemma zvol_get_data_cleanup_witness :
  exists tr,
    zvol_get_data 1 0 0 EIO ex_vol 6000 2192 false = Some (EIO, tr) /\
    rangelocks_held tr = 0 /\ dbufs_held tr = 0 /\ frees 1 tr = 1%nat.
Proof.
  destruct (zvol_get_data_cleanup 1 0 0 EIO ex_vol 6000 2192 false
              ltac:(discriminate))
    as (e & tr & Hrun & He & Hr & Hd & Hf & _).
  exists tr. subst e. split; [exact Hrun|].
  split; [exact Hr|]. split; [exact Hd|exact Hf].
Defined.

Lemma P2ALIGN_pow2 x k :
  0 <= x < UINT64_MOD -> 0 <= k < 64 ->
  P2ALIGN x (2 ^ k) = 2 ^ k * (x / 2 ^ k).
Proof.
  intros Hx Hk. unfold P2ALIGN, UINT64_MOD in *.
  assert (Hp : 0 < 2 ^ k) by (apply Z.pow_pos_nonneg; lia).
  assert (Hlt : 2 ^ k < 2 ^ 64) by (apply Z.pow_lt_mono_r; lia).
  assert (Hm : (- 2 ^ k) mod 2 ^ 64 = 2 ^ 64 - 2 ^ k).
  { symmetry. apply Z.mod_unique with (q := -1); lia. }
  rewrite Hm.
  assert (Hs : 2 ^ 64 - 2 ^ k = Z.shiftl (Z.ones (64 - k)) k).
  { rewrite Z.shiftl_mul_pow2 by lia. rewrite Z.ones_equiv.
    rewrite Z.mul_pred_l. rewrite <- Z.pow_add_r by lia.
    replace (64 - k + k) with 64 by lia. lia. }
  rewrite Hs.
  replace (2 ^ k * (x / 2 ^ k)) with (Z.shiftl (Z.shiftr x k) k)
    by (rewrite Z.shiftl_mul_pow2, Z.shiftr_div_pow2 by lia; lia).
  apply Z.bits_inj'. intros n Hn.
  rewrite Z.land_spec.
  destruct (Z.lt_ge_cases n k) as [Hnk|Hnk].
  - rewrite !Z.shiftl_spec_low by lia. apply andb_false_r.
  - rewrite !Z.shiftl_spec by lia. rewrite Z.shiftr_spec by lia.
    replace (n - k + k) with n by lia.
    destruct (Z.lt_ge_cases n 64) as [Hn64|Hn64].
    + rewrite Z.ones_spec_low by lia. apply andb_true_r.
    + rewrite Z.ones_spec_high by lia. rewrite andb_false_r.
      symmetry.
      destruct (Z.eq_dec x 0) as [->|Hx0]; [apply Z.bits_0|].
      apply Z.bits_above_log2; [lia|].
      apply Z.log2_lt_pow2; [lia|].
      assert (2 ^ 64 <= 2 ^ n) by (apply Z.pow_le_mono_r; lia). lia.
Qed.

Lemma zvol_log_write_loop_indirect_records zl rf k sync :
  0 <= k < 32 ->
  forall fuel off size,
    0 <= off -> 0 <= size -> off + size <= UINT64_MOD ->
    forall i,
      In i (zvol_log_write_loop fuel zl rf WR_INDIRECT (2 ^ k) off size
              sync) ->
      off <= lr_offset i /\ 0 < lr_length i /\
      lr_offset i + lr_length i <= off + size /\
      lr_offset i / 2 ^ k = (lr_offset i + lr_length i - 1) / 2 ^ k.
Proof.
  intros Hk.
  assert (Hb : 0 < 2 ^ k < 2 ^ 32).
  { split; [apply Z.pow_pos_nonneg; lia|].
    apply Z.pow_lt_mono_r; lia. }
  induction fuel as [|fuel IH]; intros off size Ho Hs Hw i Hi;
    [destruct Hi|].
  cbn [zvol_log_write_loop wr_state_eqb andb negb] in Hi.
  destruct (size =? 0) eqn:Hz; [destruct Hi|].
  apply Z.eqb_neq in Hz.
  pose proof (P2PHASE_bound off (2 ^ k) Ho Hb) as Hp.
  assert (Hsub : sub64 (2 ^ k) (P2PHASE off (2 ^ k))
                 = 2 ^ k - P2PHASE off (2 ^ k)).
  { unfold sub64, UINT64_MOD. apply Z.mod_small.
    assert (2 ^ 32 < 2 ^ 64) by (vm_compute; reflexivity). lia. }
  rewrite Hsub in Hi.
  set (len := Z.min (2 ^ k - P2PHASE off (2 ^ k)) size) in *.
  assert (Hlen : 0 < len <= 2 ^ k) by (unfold len; lia).
  assert (Hlen' : len <= size) by (unfold len; lia).
  assert (Hlen2 : len <= 2 ^ k - off mod 2 ^ k)
    by (rewrite <- P2PHASE_pow2 by exact Hk; unfold len; lia).
  destruct Hi as [<-|Hi].
  - cbn [lr_offset lr_length].
    split; [lia|]. split; [lia|]. split; [lia|].
    apply itx_in_block_intro; lia.
  - destruct (Z.eq_dec (size - len) 0) as [E|N].
    + rewrite E in Hi. destruct fuel; destruct Hi.
    + rewrite (Z.mod_small (off + len)) in Hi
        by (unfold UINT64_MOD in *; lia).
      destruct (IH (off + len) (size - len) ltac:(lia) ltac:(lia)
                  ltac:(lia) i Hi) as (H1 & H2 & H3 & H4).
      split; [lia|]. split; [lia|]. split; [lia|exact H4].
Qed.

(** Every record [zvol_log_write] logs by reference can be fetched by
    [zvol_get_data] in the indirect form: the range it locks is the one
    block of the volume, aligned to the block size, that contains the
    whole record. *)
Theorem zvol_get_data_covers_record
    zgd re he se imm_sz zl rf k zv off size sync i :
  0 <= k < 32 -> 0 <= off -> 0 < size -> off + size <= UINT64_MOD ->
  zl_replaying zl = false ->
  zvol_log_write_state imm_sz zl (2 ^ k) size sync = WR_INDIRECT ->
  zv_volblocksize zv = 2 ^ k ->
  In i (zvol_log_write imm_sz zl rf (2 ^ k) off size sync) ->
  exists e tr o,
    zvol_get_data zgd re he se zv (lr_offset i) (lr_length i) false
    = Some (e, tr) /\
    In (XEv (EvRangelockEnter o (2 ^ k) true)) tr /\
    In (XDbufHold o he) tr /\
    o mod 2 ^ k = 0 /\
    o <= lr_offset i /\ lr_offset i + lr_length i <= o + 2 ^ k.
Proof.
  intros Hk Ho Hs Hw Hr Hst Hbs Hi.
  unfold zvol_log_write in Hi. rewrite Hr, Hst in Hi.
  destruct (zvol_log_write_loop_indirect_records zl rf k sync Hk _ off size
              Ho ltac:(lia) Hw i Hi) as (H1 & H2 & H3 & H4).
  assert (Hp : 0 < 2 ^ k) by (apply Z.pow_pos_nonneg; lia).
  assert (Ha : P2ALIGN (lr_offset i) (2 ^ k)
               = 2 ^ k * (lr_offset i / 2 ^ k))
    by (apply P2ALIGN_pow2; lia).
  unfold zvol_get_data.
  assert ((lr_length i =? 0) = false) as -> by (apply Z.eqb_neq; lia).
  rewrite Hbs, Ha.
  pose proof (Z.div_mod (lr_offset i) (2 ^ k) ltac:(lia)) as Hdm.
  pose proof (Z.mod_pos_bound (lr_offset i) (2 ^ k) Hp) as Hmb.
  pose proof (Z.div_mod (lr_offset i + lr_length i - 1) (2 ^ k)
                ltac:(lia)) as Hdm2.
  pose proof (Z.mod_pos_bound (lr_offset i + lr_length i - 1) (2 ^ k) Hp)
    as Hmb2.
  assert (Hfin :
            (2 ^ k * (lr_offset i / 2 ^ k)) mod 2 ^ k = 0 /\
            2 ^ k * (lr_offset i / 2 ^ k) <= lr_offset i /\
            lr_offset i + lr_length i
            <= 2 ^ k * (lr_offset i / 2 ^ k) + 2 ^ k).
  { split; [rewrite Z.mul_comm; apply Z.mod_mul; lia|].
    split; [lia|]. rewrite <- H4 in Hdm2. lia. }
  destruct (he =? 0); [destruct (se =? 0)|];
    eexists _, _, _; (split; [reflexivity|]);
    (split; [left; reflexivity|]);
    (split; [right; left; reflexivity|]); exact Hfin.
Qed.

Lemma zvol_get_data_covers_record_witness :
  exists e tr,
    zvol_get_data 1 0 0 0 (zv_set_volblocksize ex_vol (2 ^ 12)) 6000 2192
      false = Some (e, tr) /\
    In (XEv (EvRangelockEnter 4096 (2 ^ 12) true)) tr.
Proof.
  destruct (zvol_get_data_covers_record 1 0 0 0 zvol_immediate_write_sz
              ex_zilog_throughput (fun _ _ => false) 12
              (zv_set_volblocksize ex_vol (2 ^ 12)) 6000 10000 true
              (mk_itx WR_INDIRECT 6000 2192 true))
    as (e & tr & o & Hrun & Hin & _ & Hm & Hlo & Hhi);
    try reflexivity; try lia;
    try (vm_compute; discriminate);
    try (vm_compute; left; reflexivity).
  exists e, tr. split; [exact Hrun|].
    cbn [lr_offset lr_length] in Hlo, Hhi.
    assert (o = 4096).
    { change (2 ^ 12) with 4096 in *.
      pose proof (Z.div_mod o 4096 ltac:(lia)) as Hd. rewrite Hm in Hd.
      assert (o / 4096 = 1) by lia. lia. }
    subst o. exact Hin.
Defined.
(* ------------------------------------------------------------------ *)
(** ** Asynchronous minor tasks *)




(* ------------------------------------------------------------------ *)
(** ** Lazy creation of the ZIL handle on the asynchronous path *)

(** [zvol_ensure_zilog_async], called without the suspend lock, returns
    without it and with a log handle in place.  When the handle exists it
    takes no lock at all; otherwise it takes the suspend lock as writer,
    blocking, and calls [zil_open] only if no other thread has installed a
    handle in the meantime, marking the volume as written to. *)
Theorem zvol_ensure_zilog_async_spec env zl zv :
  zv_suspend_lock zv = RW_NONE ->
  let zvu := env zv in
  let lq := L_suspend (zv_name zvu) in
  exists zv' tr,
    zvol_ensure_zilog_async env zl zv = Some (tt, zv', tr) /\
    zv_zilog zv' <> None /\
    zv_suspend_lock zv' = RW_NONE /\
    zv_state_lock zv' = zv_state_lock zv /\
    (count_zil_open tr <= 1)%nat /\
    (In EvZilOpen tr <-> zv_zilog zv = None /\ zv_zilog zvu = None) /\
    (In EvZilOpen tr ->
     zv_zilog zv' = Some zl /\ zv_written_to zv' = true) /\
    (zv_zilog zv <> None -> zv' = zv /\ tr = []) /\
    (zv_zilog zv = None ->
     zv_zilog zv' = (match zv_zilog zvu with
                     | Some h => Some h
                     | None => Some zl
                     end) /\
     tr = [EvRwEnter lq RW_WRITER]
          ++ (match zv_zilog zvu with
              | Some _ => []
              | None => [EvZilOpen]
              end)
          ++ [EvRwExit lq]) /\
    forall env' zl',
      zvol_ensure_zilog_async env' zl' zv' = Some (tt, zv', []).
Proof.
  intros Hq zvu lq.
  unfold zvol_ensure_zilog_async.
  destruct (zv_zilog zv) as [h|] eqn:Hz.
  - unfold bind, get, ret. rewrite Hz. cbn.
    exists zv, []. split; [reflexivity|].
    split; [congruence|]. split; [exact Hq|]. split; [reflexivity|].
    split; [cbn; lia|].
    split; [split; [intros []|intros [H _]; discriminate H]|].
    split; [intros []|]. split; [auto|]. split; [discriminate|].
    intros env' zl'. rewrite Hz. reflexivity.
  - unfold m_rw_enter, m_rw_exit, m_suspend_lock, lock_op, rw_enter,
      rw_exit, interfere, bind, get, ret, modify, emit.
    rewrite Hz. cbn [zv_suspend_lock zv_set_suspend_lock zv_set_state_lock
                       zv_zilog zv_name app].
    rewrite Hq. cbn [zv_suspend_lock zv_set_suspend_lock zv_set_state_lock
                       zv_zilog zv_name app].
    fold zvu.
    destruct (zv_zilog zvu) as [h|] eqn:Hzu;
      cbn [zv_suspend_lock zv_set_suspend_lock zv_set_state_lock
             zv_set_zilog zv_set_written_to zv_zilog zv_name app];
      eexists _, _; (split; [reflexivity|]);
      cbn [zv_suspend_lock zv_set_suspend_lock zv_set_state_lock
             zv_set_zilog zv_set_written_to zv_zilog zv_name
             zv_state_lock zv_written_to app];
      (split; [try rewrite Hzu; discriminate|]);
      (split; [reflexivity|]); (split; [reflexivity|]);
      (split; [cbn; lia|]).
    + split.
      { split; [intros [H|[H|[]]]; discriminate H
               |intros [_ H]; discriminate H]. }
      split; [intros [H|[H|[]]]; discriminate H|].
      split; [intros H; contradiction|].
      split; [intros _; split; [exact Hzu|reflexivity]|].
      intros env' zl'. cbn. rewrite Hzu. reflexivity.
    + split.
      { split; [intros _; split; reflexivity
               |intros _; right; left; reflexivity]. }
      split; [intros _; split; reflexivity|].
      split; [intros H; contradiction|].
      split; [intros _; split; reflexivity|].
      intros env' zl'. reflexivity.
Qed.

(** On the example volume, which has no handle yet. *)
Lemma zvol_ensure_zilog_async_spec_witness :
  exists zv',
    zvol_ensure_zilog_async (fun z => z) ex_zilog ex_vol
    = Some (tt, zv', [EvRwEnter (L_suspend "tank/vol") RW_WRITER;
                      EvZilOpen; EvRwExit (L_suspend "tank/vol")]) /\
    zv_zilog zv' = Some ex_zilog /\ zv_suspend_lock zv' = RW_NONE.
Proof.
  destruct (zvol_ensure_zilog_async_spec (fun z => z) ex_zilog ex_vol
              eq_refl)
    as (zv' & tr & Hrun & _ & Hl & _ & _ & _ & _ & _ & Hn & _).
  destruct (Hn eq_refl) as (Hz & Htr).
  exists zv'. rewrite Hrun, Htr. split; [reflexivity|].
  split; [exact Hz|exact Hl].
Defined.

(* ------------------------------------------------------------------ *)
(** ** Opening and closing a volume *)

Lemma xbind_run {S A B} (c : XM S A) (k : A -> XM S B) s a s1 t1 :
  c s = Some (a, s1, t1) ->
  xbind c k s = match k a s1 with
                | Some (b, s2, t2) => Some (b, s2, t1 ++ t2)
                | None => None
                end.
Proof. intros H. unfold xbind. rewrite H. reflexivity. Qed.

Lemma xbind_xget {S B} (k : S -> XM S B) s : xbind xget k s = k s s.
Proof.
  unfold xbind, xget. destruct (k s s) as [[[b s2] t2]|]; reflexivity.
Qed.

Lemma xbind_xret {S A B} (a : A) (k : A -> XM S B) s :
  xbind (xret a) k s = k a s.
Proof.
  unfold xbind, xret. destruct (k a s) as [[[b s2] t2]|]; reflexivity.
Qed.

Lemma xbind_xemit {S B} e (k : unit -> XM S B) s :
  xbind (xemit e) k s
  = match k tt s with
    | Some (b, s2, t2) => Some (b, s2, e :: t2)
    | None => None
    end.
Proof. reflexivity. Qed.

Lemma xbind_xmodify {S B} (f : S -> S) (k : unit -> XM S B) s :
  xbind (xmodify f) k s = k tt (f s).
Proof.
  unfold xbind, xmodify. destruct (k tt (f s)) as [[[b s2] t2]|];
    reflexivity.
Qed.

Lemma olift_run {A} (c : M A) s a zv' tr :
  c (zo_zv s) = Some (a, zv', tr) ->
  olift c s = Some (a, zo_set_zv s zv', map XEv tr).
Proof. intros H. unfold olift, xlift. rewrite H. reflexivity. Qed.

Lemma objsets_owned_app t1 t2 :
  objsets_owned (t1 ++ t2) = objsets_owned t1 + objsets_owned t2.
Proof.
  induction t1 as [|e t1 IH]; [reflexivity|].
  destruct e; cbn [app objsets_owned]; rewrite ?IH; try lia.
  match goal with
  | e : event |- _ => destruct e; cbn [app objsets_owned]; rewrite ?IH; lia
  end.
Qed.

Lemma objsets_owned_setup o :
  objsets_owned (map XEv (setup_events o)) = 0.
Proof.
  unfold setup_events.
  destruct (negb (so_prop_err o =? 0)); [reflexivity|].
  destruct (negb (so_zap_err o =? 0)); [reflexivity|].
  destruct (negb (so_dnode_err o =? 0)); reflexivity.
Qed.

Lemma objsets_owned_shutdown zv :
  objsets_owned (map XEv (shutdown_events zv)) = 0.
Proof.
  unfold shutdown_events. destruct (zv_written_to zv); reflexivity.
Qed.

Lemma zvol_shutdown_zv_run zv :
  zv_state_lock zv = true ->
  zv_suspend_lock zv <> RW_NONE ->
  (zv_written_to zv = true -> zv_zilog zv <> None) ->
  zvol_shutdown_zv zv
  = Some (tt, zv_set_dn (zv_set_zilog zv None) None, shutdown_events zv).
Proof.
  intros Hs Hq Hz.
  assert (Hq' : negb (krw_eqb (zv_suspend_lock zv) RW_NONE) = true)
    by (destruct (zv_suspend_lock zv); [congruence|reflexivity..]).
  unfold zvol_shutdown_zv, shutdown_events, when_, bind, assert_, modify,
    emit, get, ret, MUTEX_HELD, RW_LOCK_HELD.
  rewrite Hs, Hq'. cbn [andb].
  destruct (zv_written_to zv) eqn:Hw; [|reflexivity].
  destruct (zv_zilog zv) eqn:Hzl; [|exfalso; apply Hz; auto].
  reflexivity.
Qed.

(** [zvol_last_close] in closed form. *)
Lemma zvol_last_close_run s :
  zv_state_lock (zo_zv s) = true ->
  zv_suspend_lock (zo_zv s) = RW_READER ->
  (zv_written_to (zo_zv s) = true -> zv_zilog (zo_zv s) <> None) ->
  zvol_last_close s
  = Some (tt,
          zo_set_zv s
            (zv_set_objset (zv_set_dn (zv_set_zilog (zo_zv s) None) None)
               None),
          map XEv (shutdown_events (zo_zv s)) ++ [XEv EvObjsetDisown]).
Proof.
  intros Hs Hq Hz. unfold zvol_last_close.
  rewrite (xbind_run _ _ s tt s []).
  2:{ unfold olift, xlift, assert_, RW_READ_HELD. rewrite Hq.
      destruct s; reflexivity. }
  rewrite (xbind_run _ _ s tt s []).
  2:{ unfold olift, xlift, assert_, MUTEX_HELD. rewrite Hs.
      destruct s; reflexivity. }
  rewrite (xbind_run _ _ s tt _ _
             (olift_run _ s _ _ _
                (zvol_shutdown_zv_run (zo_zv s) Hs
                   ltac:(rewrite Hq; discriminate) Hz))).
  unfold xbind, xemit, olift, xlift, modify. cbn.
  rewrite ?app_nil_r. reflexivity.
Qed.

Lemma not_in_map_XEv x l :
  (forall e, x <> XEv e) -> ~ In x (map XEv l).
Proof.
  intros H Hin. apply in_map_iff in Hin. destruct Hin as (e & He & _).
  exact (H e (eq_sym He)).
Qed.

Lemma zvol_first_open_own_run o readonly locked s :
  zv_state_lock (zo_zv s) = true ->
  zv_suspend_lock (zo_zv s) = RW_READER ->
  zvol_first_open_own o readonly locked s
  = Some (first_open_error o,
          zo_set_namespace (zo_set_zv s (first_open_zv o (zo_zv s)))
            (if locked then false else zo_namespace s),
          first_open_own_events o
            (readonly || is_snapshot_name (zv_name (zo_zv s))) locked).
Proof.
  intros Hs Hq.
  unfold zvol_first_open_own, first_open_error, first_open_zv,
    first_open_own_events.
  unfold xbind at 1. unfold xget at 1. cbn [app].
  unfold xbind at 1. unfold xemit at 1.
  destruct (oo_own_err o =? 0) eqn:Ho; cbn [negb].
  - pose proof (zvol_setup_zv_run (oo_setup o)
                  (zv_set_objset (zo_zv s)
                     (Some (so_objset (oo_setup o))))
                  Hs ltac:(cbn; rewrite Hq; discriminate))
      as Hrun.
    unfold xbind, olift, xlift, modify, xwhen, xret, xemit, xmodify.
    cbn [zo_zv zo_set_zv]. rewrite Hrun.
    destruct (setup_error (oo_setup o) =? 0) eqn:He; cbn [negb];
      destruct locked; destruct s; cbn; rewrite ?app_nil_r;
      reflexivity.
  - unfold xbind, xwhen, xret, xemit, xmodify.
    destruct locked; destruct s; cbn; reflexivity.
Qed.

Lemma objsets_owned_first_open o ro locked :
  objsets_owned (first_open_own_events o ro locked)
  = (if first_open_error o =? 0 then 1 else 0).
Proof.
  unfold first_open_own_events, first_open_error.
  cbn [app objsets_owned].
  destruct (oo_own_err o =? 0) eqn:Ho; cbn [negb].
  - rewrite !objsets_owned_app, objsets_owned_setup.
    destruct (setup_error (oo_setup o) =? 0); destruct locked;
      reflexivity.
  - rewrite Ho. destruct locked; reflexivity.
Qed.

Lemma first_open_own_events_ns o ro locked :
  (In XNsExit (first_open_own_events o ro locked) <-> locked = true) /\
  (forall b, ~ In (XNsTryEnter b) (first_open_own_events o ro locked)).
Proof.
  unfold first_open_own_events.
  assert (Hmid : forall x,
             (forall e, x <> XEv e) ->
             ~ In x (if negb (oo_own_err o =? 0) then []
                     else map XEv (setup_events (oo_setup o))
                          ++ (if setup_error (oo_setup o) =? 0 then []
                              else [XEv EvObjsetDisown]))).
  { intros x Hx Hin. destruct (negb (oo_own_err o =? 0)); [destruct Hin|].
    apply in_app_or in Hin. destruct Hin as [Hin|Hin].
    - exact (not_in_map_XEv _ _ Hx Hin).
    - destruct (setup_error (oo_setup o) =? 0); [destruct Hin|].
      destruct Hin as [Hin|[]]. exact (Hx _ (eq_sym Hin)). }
  cbn [app]. split.
  - split.
    + intros [H|H]; [discriminate H|].
      rewrite in_app_iff in H. destruct H as [H|H].
      * exfalso. apply (Hmid XNsExit); [discriminate|exact H].
      * destruct locked; [reflexivity|destruct H].
    + intros ->. right. rewrite in_app_iff. right. left. reflexivity.
  - intros b [H|H]; [discriminate H|].
    rewrite in_app_iff in H. destruct H as [H|H].
    + apply (Hmid (XNsTryEnter b)); [discriminate|exact H].
    + destruct locked; [destruct H as [H|[]]; discriminate H|destruct H].
Qed.

(** [zvol_first_open] in closed form. *)
Lemma zvol_first_open_run o readonly s :
  zv_state_lock (zo_zv s) = true ->
  zv_suspend_lock (zo_zv s) = RW_READER ->
  zvol_first_open o readonly s
  = Some
      (if negb (zo_namespace s) && negb (oo_ns_try_ok o)
       then (EINTR, s, [XNsTryEnter false])
       else
         (first_open_error o,
          zo_set_zv s (first_open_zv o (zo_zv s)),
          (if zo_namespace s then [] else [XNsTryEnter true])
          ++ first_open_own_events o
               (readonly || is_snapshot_name (zv_name (zo_zv s)))
               (negb (zo_namespace s)))).
Proof.
  intros Hs Hq. unfold zvol_first_open.
  rewrite (xbind_run _ _ s tt s []).
  2:{ unfold olift, xlift, assert_, RW_READ_HELD. rewrite Hq.
      destruct s; reflexivity. }
  rewrite (xbind_run _ _ s tt s []).
  2:{ unfold olift, xlift, assert_, MUTEX_HELD. rewrite Hs.
      destruct s; reflexivity. }
  unfold xbind at 1. unfold xget at 1. cbn [app].
  destruct (zo_namespace s) eqn:Hns; cbn [negb andb].
  - rewrite zvol_first_open_own_run by assumption.
    rewrite Hns. destruct s; cbn in *; subst; reflexivity.
  - destruct (oo_ns_try_ok o) eqn:Ht; cbn [negb].
    + unfold xbind at 1. unfold xemit at 1. cbn [app].
      unfold xbind at 1. unfold xmodify at 1. cbn [app].
      rewrite zvol_first_open_own_run by assumption.
      destruct s; cbn in *; subst; reflexivity.
    + unfold xbind, xemit, xret. cbn. reflexivity.
Qed.

Lemma objsets_owned_locks tr :
  forallb is_lock_xevent tr = true -> objsets_owned tr = 0.
Proof.
  induction tr as [|x tr IH]; [reflexivity|].
  cbn [forallb]. intros H. apply andb_true_iff in H. destruct H as [Hx Ht].
  destruct x; try discriminate Hx.
  match goal with
  | e : event |- _ => destruct e; try discriminate Hx
  end; cbn [objsets_owned]; auto.
Qed.

Lemma zo_locks_locks s a b c d : zo_locks (zo_locks s a b) c d = zo_locks s c d.
Proof. reflexivity. Qed.

Lemma zo_locks_id s :
  zo_locks s (zv_state_lock (zo_zv s)) (zv_suspend_lock (zo_zv s)) = s.
Proof. destruct s as [[] ? ? ? ? ?]. reflexivity. Qed.

(** The acquisition of the suspend lock in closed form, for tests that
    look at the open count. *)
Lemma enter_suspend_if_run o (f g : Z -> bool) s0 :
  let v := open_view o f (zo_locks s0 false RW_NONE) in
  let drop := f (zv_open_count (zo_zv s0))
              && (oo_try_ok o || negb (g (zv_open_count (zo_zv v)))) in
  exists tr,
    enter_suspend_if o (fun zv => f (zv_open_count zv))
      (fun zv => g (zv_open_count zv)) (zo_locks s0 true RW_NONE)
    = Some (drop, zo_locks v true (if drop then RW_READER else RW_NONE), tr)
    /\ forallb is_lock_xevent tr = true.
Proof.
  intros v drop. subst v drop. unfold open_view.
  change (zv_open_count (zo_zv (zo_locks s0 false RW_NONE)))
    with (zv_open_count (zo_zv s0)).
  unfold enter_suspend_if.
  unfold xbind at 1. unfold xget at 1. cbn [app].
  change (zv_open_count (zo_zv (zo_locks s0 true RW_NONE)))
    with (zv_open_count (zo_zv s0)).
  destruct (f (zv_open_count (zo_zv s0))) eqn:Hf; cbn [andb];
    [|exists []; split; reflexivity].
  destruct (oo_try_ok o) eqn:Ht; cbn [andb negb orb].
  - eexists. split.
    + unfold xbind, olift, xlift, m_rw_tryenter, rw_tryenter, xret.
      cbn. reflexivity.
    + reflexivity.
  - set (sI := os_interfere (oo_env o) (zo_locks s0 false RW_NONE)).
    assert (Hstep :
              forall b,
                g (zv_open_count (zo_zv sI)) = b ->
                exists tr,
                  xbind (olift (m_rw_tryenter false RW_READER))
                    (fun ok =>
                       if ok then xret true
                       else
                         (olift m_mutex_exit ;;
                          xmodify (os_interfere (oo_env o)) ;;
                          olift (m_rw_enter RW_READER) ;;
                          olift m_mutex_enter ;;
                          s <- xget ;;
                          if g (zv_open_count (zo_zv s))
                          then olift m_rw_exit ;; xret false
                          else xret true)%X)
                    (zo_locks s0 true RW_NONE)
                  = Some (negb b,
                          zo_locks sI true
                            (if negb b then RW_READER else RW_NONE), tr)
                  /\ forallb is_lock_xevent tr = true).
    { intros b Hb.
      assert (Hb' : g (zv_open_count
                         (zo_zv (oo_env o (zo_locks s0 false RW_NONE))))
                    = b) by exact Hb.
      unfold xbind, olift, xlift, m_rw_tryenter, rw_tryenter,
        m_mutex_exit, m_mutex_enter, m_rw_enter, m_rw_exit, m_state_lock,
        m_suspend_lock, lock_op, bind, xmodify, xget, xret, mutex_exit,
        mutex_enter, rw_enter, rw_exit, os_interfere.
      cbn [zo_zv zo_set_zv zv_suspend_lock zv_state_lock zv_open_count
             zv_set_state_lock zv_set_suspend_lock zo_set_namespace
             zo_namespace app map zo_locks zv_name].
      repeat match goal with
             | |- context [oo_env o ?x] =>
                 lazymatch x with
                 | zo_locks s0 false RW_NONE => fail
                 | _ => change x with (zo_locks s0 false RW_NONE)
                 end
             end.
      rewrite Hb'.
      destruct b; cbn; eexists; (split; [reflexivity|reflexivity]). }
    destruct (Hstep _ eq_refl) as (tr & Hrun & Hlk). exists tr.
    split; [rewrite Hrun; reflexivity|exact Hlk].
Qed.

Lemma olift_mutex_enter_run s :
  zv_state_lock (zo_zv s) = false ->
  olift m_mutex_enter s
  = Some (tt, zo_locks s true (zv_suspend_lock (zo_zv s)),
          [XEv (EvMutexEnter (L_state (zv_name (zo_zv s))))]).
Proof.
  intros Hs.
  destruct s as [zv ex sc ms ss ns].
  destruct zv as [nm hs vs vbs oc sr ac ro wt ch os dn zl df sl st].
  cbn in Hs. subst st. reflexivity.
Qed.

(** The exits of an open in closed form. *)
Lemma zvol_open_out_locked_run (dn drop : bool) err s :
  zv_state_lock (zo_zv s) = true ->
  zv_suspend_lock (zo_zv s) = (if drop then RW_READER else RW_NONE) ->
  zvol_open_out_locked dn drop err s
  = Some (err,
          zo_locks (if dn then zo_set_namespace s false else s) false
            RW_NONE,
          (if dn then [XNsExit] else [])
          ++ [XEv (EvMutexExit (L_state (zv_name (zo_zv s))))]
          ++ (if drop then [XEv (EvRwExit (L_suspend (zv_name (zo_zv s))))]
              else [])).
Proof.
  intros Hs Hq.
  destruct s as [zv ex sc ms ss ns].
  destruct zv as [nm hs vs vbs oc sr ac ro wt ch os dn0 zl df sl st].
  cbn in Hs, Hq. subst sl st.
  destruct dn, drop; reflexivity.
Qed.

Lemma zvol_open_out_opened_run (dn drop : bool) err s :
  zv_state_lock (zo_zv s) = true ->
  zv_suspend_lock (zo_zv s) = (if drop then RW_READER else RW_NONE) ->
  (zv_open_count (zo_zv s) = 0 ->
   drop = true /\
   (zv_written_to (zo_zv s) = true -> zv_zilog (zo_zv s) <> None)) ->
  let closes := zv_open_count (zo_zv s) =? 0 in
  let s1 := if closes then zo_last_closed s else s in
  zvol_open_out_opened dn drop err s
  = Some (err,
          zo_locks (if dn then zo_set_namespace s1 false else s1) false
            RW_NONE,
          (if closes
           then map XEv (shutdown_events (zo_zv s)) ++ [XEv EvObjsetDisown]
           else [])
          ++ (if dn then [XNsExit] else [])
          ++ [XEv (EvMutexExit (L_state (zv_name (zo_zv s))))]
          ++ (if drop then [XEv (EvRwExit (L_suspend (zv_name (zo_zv s))))]
              else [])).
Proof.
  intros Hs Hq Hc closes s1. subst closes s1.
  unfold zvol_open_out_opened.
  unfold xbind at 1. unfold xget at 1. cbn [app].
  destruct (zv_open_count (zo_zv s) =? 0) eqn:Ho.
  - apply Z.eqb_eq in Ho. destruct (Hc Ho) as [-> Hz].
    unfold xwhen.
    rewrite (xbind_run _ _ s tt _ _ (zvol_last_close_run s Hs Hq Hz)).
    fold (zo_last_closed s).
    rewrite zvol_open_out_locked_run by (cbn; assumption).
    rewrite <- !app_assoc. reflexivity.
  - unfold xwhen, xret. unfold xbind at 1.
    rewrite zvol_open_out_locked_run by assumption. reflexivity.
Qed.

Lemma in_map_XEv_inv x l : In x (map XEv l) -> exists e, x = XEv e.
Proof.
  intros H. apply in_map_iff in H. destruct H as (e & He & _). eauto.
Qed.

(** The checks of [zvol_cdev_open] in closed form. *)
Lemma zvol_cdev_open_checks_run fl (drop : bool) s :
  zv_state_lock (zo_zv s) = true ->
  zv_suspend_lock (zo_zv s) = (if drop then RW_READER else RW_NONE) ->
  (zv_open_count (zo_zv s) = 0 ->
   drop = true /\
   (zv_written_to (zo_zv s) = true -> zv_zilog (zo_zv s) <> None)) ->
  let e := open_check_error fl false s in
  exists tr,
    zvol_cdev_open_checks fl drop s
    = Some (e,
            zo_locks
              (if e =? 0 then zo_opened fl 1 s
               else if zv_open_count (zo_zv s) =? 0 then zo_last_closed s
                    else s) false RW_NONE,
            tr) /\
    objsets_owned tr
    = (if negb (e =? 0) && (zv_open_count (zo_zv s) =? 0) then -1 else 0) /\
    (forall x, In x tr ->
               (exists ev, x = XEv ev) \/
               (x = XZilAsyncToSync /\ e = 0 /\ fl_sync fl = true /\
                zo_sync_cnt s = 0)).
Proof.
  intros Hs Hq Hc e. subst e.
  unfold zvol_cdev_open_checks, open_check_error.
  rewrite xbind_xget. rewrite orb_false_r.
  assert (Hopened :
            forall err,
              err <> 0 ->
              exists tr,
                zvol_open_out_opened false drop err s
                = Some (err,
                        zo_locks
                          (if err =? 0 then zo_opened fl 1 s
                           else if zv_open_count (zo_zv s) =? 0
                                then zo_last_closed s else s)
                          false RW_NONE, tr) /\
                objsets_owned tr
                = (if negb (err =? 0) && (zv_open_count (zo_zv s) =? 0)
                   then -1 else 0) /\
                (forall x, In x tr ->
                           (exists ev, x = XEv ev) \/
                           (x = XZilAsyncToSync /\ err = 0 /\
                            fl_sync fl = true /\ zo_sync_cnt s = 0))).
  { intros err He.
    rewrite zvol_open_out_opened_run by assumption.
    apply Z.eqb_neq in He. rewrite He. cbn [negb andb app].
    eexists. split; [reflexivity|].
    split.
    - rewrite objsets_owned_app.
      destruct (zv_open_count (zo_zv s) =? 0).
      + rewrite objsets_owned_app, objsets_owned_shutdown.
        destruct drop; reflexivity.
      + destruct drop; reflexivity.
    - intros x Hx. left.
      apply in_app_or in Hx. destruct Hx as [Hx|Hx].
      + destruct (zv_open_count (zo_zv s) =? 0); [|destruct Hx].
        apply in_app_or in Hx. destruct Hx as [Hx|[<-|[]]]; eauto.
        apply in_map_XEv_inv in Hx. exact Hx.
      + destruct drop; cbn in Hx;
          repeat (destruct Hx as [<-|Hx]; eauto); destruct Hx. }
  destruct (fl_write fl && zv_rdonly (zo_zv s));
    [apply Hopened; discriminate|].
  destruct (zo_excl s) eqn:Hex; [apply Hopened; discriminate|].
  destruct (fl_excl fl && negb (zv_open_count (zo_zv s) =? 0)) eqn:Hfe;
    [apply Hopened; discriminate|].
  clear Hopened.
  unfold xbind, xwhen, xmodify, xret, olift, xlift, modify, xget, xemit,
    m_mutex_exit, m_rw_exit, m_state_lock, m_suspend_lock, lock_op, bind,
    mutex_exit, rw_exit.
  destruct (fl_excl fl) eqn:Hfx, (fl_sync fl) eqn:Hfs;
    cbn [zo_zv zo_set_zv zo_set_excl zo_set_sync_cnt zo_sync_cnt
           zv_state_lock zv_suspend_lock zv_set_open_count
           zv_set_state_lock zv_set_suspend_lock zv_name app map];
    rewrite ?Hs;
    cbn [zo_zv zo_set_zv zo_set_excl zo_set_sync_cnt zo_sync_cnt
           zv_state_lock zv_suspend_lock zv_set_open_count
           zv_set_state_lock zv_set_suspend_lock zv_name app map];
    try (destruct (zo_sync_cnt s + 1 =? 1) eqn:Hsc;
         [apply Z.eqb_eq in Hsc|]);
    cbn [zo_zv zo_set_zv zo_set_excl zo_set_sync_cnt zo_sync_cnt
           zv_state_lock zv_suspend_lock zv_set_open_count
           zv_set_state_lock zv_set_suspend_lock zv_name app map];
    rewrite ?Hs, ?Hq;
    destruct drop;
    cbn [zo_zv zo_set_zv zo_set_excl zo_set_sync_cnt zo_sync_cnt
           zv_state_lock zv_suspend_lock zv_set_open_count
           zv_set_state_lock zv_set_suspend_lock zv_name app map];
    rewrite ?Hs, ?Hq;
    (eexists; split;
     [unfold zo_opened, zo_locks; rewrite ?Hfx, ?Hfs;
      unfold zv_set_state_lock, zv_set_suspend_lock, zv_set_open_count;
      cbn; rewrite ?Z.add_0_r, ?Hq; reflexivity|]);
    (split; [reflexivity|]);
    intros x Hx; cbn in Hx;
    repeat (destruct Hx as [<-|Hx];
            [first [left; eexists; reflexivity
                   |right; repeat split; try reflexivity; lia]|]);
    destruct Hx.
Qed.

Lemma first_open_zv_frame o zv :
  zv_state_lock (first_open_zv o zv) = zv_state_lock zv /\
  zv_suspend_lock (first_open_zv o zv) = zv_suspend_lock zv /\
  zv_open_count (first_open_zv o zv) = zv_open_count zv /\
  zv_name (first_open_zv o zv) = zv_name zv /\
  (first_open_error o = 0 ->
   zv_written_to (first_open_zv o zv) = false /\
   zv_objset (first_open_zv o zv) = Some (so_objset (oo_setup o)) /\
   zv_rdonly (first_open_zv o zv)
   = (so_ro (oo_setup o) || so_snapshot (oo_setup o)
      || negb (so_writeable (oo_setup o))) /\
   zv_volsize (first_open_zv o zv) = so_volsize (oo_setup o)) /\
  (first_open_error o <> 0 ->
   zv_objset zv = None -> zv_objset (first_open_zv o zv) = None).
Proof.
  unfold first_open_zv, first_open_error, zv_setup.
  destruct (oo_own_err o =? 0) eqn:Ho; cbn [negb].
  - destruct (setup_error (oo_setup o) =? 0) eqn:He.
    + apply Z.eqb_eq in He.
      repeat split; try reflexivity. intros; contradiction.
    + apply Z.eqb_neq in He.
      repeat split; try reflexivity; intros; contradiction.
  - apply Z.eqb_neq in Ho.
    repeat split; try reflexivity; intros; try contradiction; assumption.
Qed.

(** [zvol_cdev_open] once the locks are taken, in closed form. *)
Lemma zvol_cdev_open_locked_run o fl (drop : bool) s :
  zv_state_lock (zo_zv s) = true ->
  zv_suspend_lock (zo_zv s) = (if drop then RW_READER else RW_NONE) ->
  (zv_open_count (zo_zv s) = 0 -> drop = true) ->
  let first := zv_open_count (zo_zv s) =? 0 in
  let eintr := first && negb (zo_namespace s) && negb (oo_ns_try_ok o) in
  let e1 := if first then (if eintr then EINTR else first_open_error o)
            else 0 in
  let s3 := if first && negb eintr
            then zo_set_zv s (first_open_zv o (zo_zv s)) else s in
  let e := if e1 =? 0 then open_check_error fl false s3 else e1 in
  exists tr,
    zvol_cdev_open_locked o fl drop s
    = Some (e,
            zo_locks
              (if e =? 0 then zo_opened fl 1 s3
               else if (e1 =? 0) && first then zo_last_closed s3 else s3)
              false RW_NONE,
            tr) /\
    objsets_owned tr = (if first && (e =? 0) then 1 else 0).
Proof.
  intros Hs Hq Hd first eintr e1 s3 e.
  unfold zvol_cdev_open_locked.
  rewrite xbind_xemit.
  rewrite (xbind_run _ _ s tt s []).
  2:{ unfold olift, xlift, assert_, MUTEX_HELD. rewrite Hs.
      destruct s; reflexivity. }
  rewrite xbind_xget. cbn [app].
  destruct (zv_open_count (zo_zv s) =? 0) eqn:Hoc.
  - (* first open *)
    apply Z.eqb_eq in Hoc. pose proof (Hd Hoc) as ->.
    destruct (first_open_zv_frame o (zo_zv s))
      as (Hf1 & Hf2 & Hf3 & Hf4 & Hf5 & Hf6).
    assert (Hfo :
              (olift (assert_ RW_READ_HELD) ;;
               zvol_first_open o (negb (fl_write fl)))%X s
              = zvol_first_open o (negb (fl_write fl)) s).
    { rewrite (xbind_run _ _ s tt s []).
      - destruct (zvol_first_open _ _ s) as [[[? ?] ?]|]; reflexivity.
      - unfold olift, xlift, assert_, RW_READ_HELD. rewrite Hq.
        destruct s; reflexivity. }
    unfold xbind at 1. rewrite Hfo.
    rewrite zvol_first_open_run by assumption.
    subst first eintr e1 s3 e. cbn [andb].
    destruct (negb (zo_namespace s) && negb (oo_ns_try_ok o)) eqn:Hei;
      cbn [negb andb].
    + (* EINTR *)
      change (EINTR =? 0) with false. cbn [negb andb].
      rewrite zvol_open_out_locked_run by assumption.
      eexists. split; [reflexivity|]. reflexivity.
    + destruct (first_open_error o =? 0) eqn:He; cbn [negb andb].
      * apply Z.eqb_eq in He. destruct (Hf5 He) as (Hw & _).
        set (s3 := zo_set_zv s (first_open_zv o (zo_zv s))).
        destruct (zvol_cdev_open_checks_run fl true s3)
          as (tr & Hrun & Hown & _).
        { cbn. rewrite Hf1. exact Hs. }
        { cbn. rewrite Hf2. exact Hq. }
        { intros _. split; [reflexivity|]. cbn. rewrite Hw. discriminate. }
        rewrite Hrun.
        assert (Ho3 : (zv_open_count (zo_zv s3) =? 0) = true)
          by (cbn; rewrite Hf3; apply Z.eqb_eq; exact Hoc).
        rewrite Ho3 in Hown.
        eexists. split; [rewrite Ho3; reflexivity|].
        cbn [objsets_owned]. rewrite !objsets_owned_app, Hown.
        rewrite objsets_owned_first_open. rewrite He.
        change (0 =? 0) with true.
        destruct (zo_namespace s);
          destruct (open_check_error fl false s3 =? 0); reflexivity.
      * rewrite zvol_open_out_locked_run
          by (cbn; rewrite ?Hf1, ?Hf2; assumption).
        rewrite ?He.
        eexists. split; [reflexivity|].
        cbn [objsets_owned]. rewrite !objsets_owned_app.
        rewrite objsets_owned_first_open. rewrite ?He.
        destruct (zo_namespace s); reflexivity.
  - (* already open *)
    subst first eintr e1 s3 e. cbn [andb negb].
    rewrite xbind_xret. cbn [Z.eqb negb].
    destruct (zvol_cdev_open_checks_run fl drop s Hs Hq)
      as (tr & Hrun & Hown & _).
    { intros H. apply Z.eqb_neq in Hoc. contradiction. }
    rewrite Hrun. rewrite Hoc in Hown. rewrite andb_false_r in Hown.
    rewrite Hoc. cbn [andb].
    eexists. split; [reflexivity|].
    cbn [objsets_owned]. exact Hown.
Qed.

Lemma zo_locks_unlocked s :
  zv_unlocked (zo_zv s) -> zo_locks s false RW_NONE = s.
Proof.
  intros [Hs Hq]. rewrite <- (zo_locks_id s) at 2. rewrite Hs, Hq.
  reflexivity.
Qed.

Lemma open_view_frame o f s :
  zo_namespace (open_view o f s) = zo_namespace s /\
  zv_state_lock (zo_zv (open_view o f s)) = zv_state_lock (zo_zv s) /\
  zv_suspend_lock (zo_zv (open_view o f s)) = zv_suspend_lock (zo_zv s).
Proof.
  unfold open_view.
  destruct (f (zv_open_count (zo_zv s)) && negb (oo_try_ok o));
    repeat split; reflexivity.
Qed.

(** [zvol_cdev_open_zv] in closed form: the lock acquisition followed by
    the rest of the function on the volume as it is then. *)
Lemma zvol_cdev_open_zv_run o fl s :
  zv_unlocked (zo_zv s) ->
  let v := open_view o (fun c => c =? 0) s in
  let drop := (zv_open_count (zo_zv s) =? 0)
              && (oo_try_ok o
                  || negb (negb (zv_open_count (zo_zv v) =? 0))) in
  let s2 := zo_locks v true (if drop then RW_READER else RW_NONE) in
  (zv_open_count (zo_zv v) = 0 -> drop = true) /\
  exists tr0,
    forallb is_lock_xevent tr0 = true /\
    zvol_cdev_open_zv o fl s
    = match zvol_cdev_open_locked o fl drop s2 with
      | Some (e, s', tr) => Some (e, s', tr0 ++ tr)
      | None => None
      end.
Proof.
  intros Hu v drop s2.
  split.
  - subst drop v. unfold open_view.
    destruct (zv_open_count (zo_zv s) =? 0) eqn:Hoc; cbn [andb].
    + destruct (oo_try_ok o); cbn [negb orb]; [reflexivity|].
      intros H. rewrite H. reflexivity.
    + intros H. apply Z.eqb_neq in Hoc. contradiction.
  - destruct Hu as [Hs Hq].
    destruct (enter_suspend_if_run o (fun c => c =? 0)
                (fun c => negb (c =? 0)) s) as (tr1 & Hrun & Hlk).
    rewrite (zo_locks_unlocked s (conj Hs Hq)) in Hrun.
    fold v in Hrun. fold drop in Hrun. fold s2 in Hrun.
    unfold zvol_cdev_open_zv.
    rewrite xbind_xemit.
    rewrite (xbind_run _ _ _ _ _ _ (olift_mutex_enter_run s Hs)).
    rewrite Hq.
    rewrite (xbind_run _ _ _ _ _ _ Hrun).
    exists (XEv (EvRwEnter L_zvol_state_lock RW_READER)
            :: [XEv (EvMutexEnter (L_state (zv_name (zo_zv s))))] ++ tr1).
    split.
    + cbn [forallb app is_lock_xevent is_lock_event andb]. exact Hlk.
    + destruct (zvol_cdev_open_locked o fl drop s2) as [[[e s'] tr]|];
        [|reflexivity].
      cbn [app]. rewrite <- ?app_assoc. reflexivity.
Qed.

Ltac zo_fields :=
  cbn [zo_zv zo_excl zo_sync_cnt zo_namespace zo_mediasize zo_stripesize
         zo_locks zo_set_zv zo_set_excl zo_set_sync_cnt zo_set_namespace
         zo_set_provider zo_last_closed
         zv_open_count zv_objset zv_rdonly zv_state_lock zv_suspend_lock
         zv_dn zv_zilog zv_name zv_volsize zv_volblocksize
         zv_set_state_lock zv_set_suspend_lock zv_set_objset zv_set_dn
         zv_set_zilog zv_set_open_count].

Lemma zvol_cdev_open_spec o fl s :
  zv_unlocked (zo_zv s) ->
  let v := open_view o (fun c => c =? 0) s in
  let first := zv_open_count (zo_zv v) =? 0 in
  let eintr := negb (zo_namespace s) && negb (oo_ns_try_ok o) in
  exists e s' tr,
    zvol_cdev_open o fl (Some s) = Some (e, Some s', tr) /\
    zv_unlocked (zo_zv s') /\
    zo_namespace s' = zo_namespace s /\
    objsets_owned tr = (if first && (e =? 0) then 1 else 0) /\
    (e = 0 ->
     zv_open_count (zo_zv s') = zv_open_count (zo_zv v) + 1 /\
     zo_excl v = false /\ zo_excl s' = fl_excl fl /\
     (fl_excl fl = true -> first = true) /\
     (fl_write fl = true -> zv_rdonly (zo_zv s') = false) /\
     zo_sync_cnt s' = zo_sync_cnt v + (if fl_sync fl then 1 else 0) /\
     (first = true ->
      zv_objset (zo_zv s') = Some (so_objset (oo_setup o)) /\
      zv_written_to (zo_zv s') = false)) /\
    (e <> 0 ->
     zv_open_count (zo_zv s') = zv_open_count (zo_zv v) /\
     zo_excl s' = zo_excl v /\ zo_sync_cnt s' = zo_sync_cnt v /\
     (first = true -> zv_objset (zo_zv v) = None ->
      zv_objset (zo_zv s') = None)) /\
    (first = false -> e = open_check_error fl false v) /\
    (first = true -> eintr = true -> e = EINTR) /\
    (first = true -> eintr = false -> first_open_error o <> 0 ->
     e = first_open_error o) /\
    (first = true -> eintr = false -> first_open_error o = 0 ->
     e = if fl_write fl
            && (so_ro (oo_setup o) || so_snapshot (oo_setup o)
                || negb (so_writeable (oo_setup o)))
         then EROFS else if zo_excl v then EBUSY else 0).
Proof.
  intros Hu v first eintr.
  destruct (zvol_cdev_open_zv_run o fl s Hu) as (Hd & tr0 & Hlk & Hrun).
  fold v in Hd, Hrun.
  destruct (open_view_frame o (fun c => c =? 0) s) as (Hvn & _ & _).
  fold v in Hvn.
  set (drop := (zv_open_count (zo_zv s) =? 0)
               && (oo_try_ok o
                   || negb (negb (zv_open_count (zo_zv v) =? 0)))) in *.
  set (s2 := zo_locks v true (if drop then RW_READER else RW_NONE)) in *.
  destruct (zvol_cdev_open_locked_run o fl drop s2)
    as (tr & Hrun2 & Hown); [reflexivity|reflexivity|exact Hd|].
  change (zv_open_count (zo_zv s2)) with (zv_open_count (zo_zv v))
    in Hrun2, Hown.
  change (zo_namespace s2) with (zo_namespace v) in Hrun2, Hown.
  fold first in Hrun2, Hown. rewrite Hvn in Hrun2, Hown.
  fold eintr in Hrun2, Hown.
  unfold zvol_cdev_open. rewrite Hrun, Hrun2.
  eexists _, _, _. split; [reflexivity|].
  rewrite objsets_owned_app, (objsets_owned_locks _ Hlk), Hown.
  clear Hrun Hrun2 Hown.
  destruct (first_open_zv_frame o (zo_zv s2))
    as (Hf1 & Hf2 & Hf3 & Hf4 & Hf5 & Hf6).
  destruct first eqn:Hfirst; cbn [andb negb] in *.
  - (* the volume is closed *)
    unfold eintr in *. clear eintr.
    destruct (negb (zo_namespace s) && negb (oo_ns_try_ok o)) eqn:Hei;
      cbn [andb negb] in *.
    + change (EINTR =? 0) with false. cbn [andb].
      split; [split; reflexivity|]. split; [exact Hvn|].
      split; [reflexivity|].
      split; [intros H; discriminate H|].
      split; [intros _; repeat split; auto|].
      split; [discriminate|]. split; [reflexivity|].
      split; intros _ H; discriminate H.
    + destruct (first_open_error o =? 0) eqn:He; cbn [andb negb].
      * apply Z.eqb_eq in He. destruct (Hf5 He) as (Hw & Hos & Hro & _).
        set (s3 := zo_set_zv s2 (first_open_zv o (zo_zv s2))).
        assert (Hce : open_check_error fl false s3
                      = if fl_write fl && zv_rdonly (zo_zv s3) then EROFS
                        else if zo_excl v then EBUSY else 0).
        { unfold open_check_error. rewrite orb_false_r.
          change (zo_excl s3) with (zo_excl v).
          change (zv_open_count (zo_zv s3))
            with (zv_open_count (first_open_zv o (zo_zv s2))).
          rewrite Hf3.
          change (zv_open_count (zo_zv s2)) with (zv_open_count (zo_zv v)).
          fold first. rewrite Hfirst. cbn [negb]. rewrite andb_false_r.
          reflexivity. }
        rewrite Hce.
        destruct (fl_write fl && zv_rdonly (zo_zv s3)) eqn:Hwr.
        -- change (EROFS =? 0) with false.
           split; [split; reflexivity|]. split; [exact Hvn|].
           split; [reflexivity|].
           split; [intros H; discriminate H|].
           split; [intros _; repeat split; intros; subst s3; zo_fields;
                   rewrite ?Hf3; unfold s2; zo_fields; reflexivity|].
           split; [discriminate|]. split; [discriminate|].
           split; [intros _ _ H; rewrite He in H; contradiction|].
           intros _ _ _. rewrite <- Hro.
           change (zv_rdonly (first_open_zv o (zo_zv s2)))
             with (zv_rdonly (zo_zv s3)).
           rewrite Hwr. reflexivity.
        -- destruct (zo_excl v) eqn:Hex.
           ++ change (EBUSY =? 0) with false.
              split; [split; reflexivity|]. split; [exact Hvn|].
              split; [reflexivity|].
              split; [intros H; discriminate H|].
              split; [intros _; repeat split; intros; subst s3;
                      zo_fields; rewrite ?Hf3; unfold s2; zo_fields;
                      auto|].
              split; [discriminate|]. split; [discriminate|].
              split; [intros _ _ H; rewrite He in H; contradiction|].
              intros _ _ _. rewrite <- Hro.
              change (zv_rdonly (first_open_zv o (zo_zv s2)))
                with (zv_rdonly (zo_zv s3)).
              rewrite Hwr. reflexivity.
           ++ change (0 =? 0) with true.
              split; [split; reflexivity|].
              split; [unfold zo_opened; destruct (fl_excl fl); exact Hvn|].
              split; [reflexivity|].
              split.
              { intros _.
                assert (Hro3 : fl_write fl = true ->
                               zv_rdonly (first_open_zv o (zo_zv s2))
                               = false).
                { intros Hfw. rewrite Hfw in Hwr. exact Hwr. }
                unfold zo_opened.
                destruct (fl_excl fl); subst s3; zo_fields;
                  cbn [zv_written_to];
                  rewrite ?Hf3; unfold s2; zo_fields;
                  repeat split; auto. }
              split; [intros H; contradiction|].
              split; [discriminate|]. split; [discriminate|].
              split; [intros _ _ H; rewrite He in H; contradiction|].
              intros _ _ _. rewrite <- Hro.
              change (zv_rdonly (first_open_zv o (zo_zv s2)))
                with (zv_rdonly (zo_zv s3)).
              rewrite Hwr. reflexivity.
      * rewrite ?He.
        split; [split; reflexivity|]. split; [exact Hvn|].
        split; [reflexivity|].
        apply Z.eqb_neq in He.
        split; [intros H; contradiction|].
        split.
        { intros _. split; [zo_fields; rewrite Hf3; reflexivity|].
          split; [reflexivity|]. split; [reflexivity|].
          intros _ Hn. zo_fields. apply Hf6; [exact He|exact Hn]. }
        split; [discriminate|]. split; [discriminate|].
        split; [auto|]. intros _ _ H. contradiction.
  - (* the volume is open *)
    cbn [Z.eqb] in *.
    assert (Hce : open_check_error fl false s2 = open_check_error fl false v)
      by reflexivity.
    rewrite Hce.
    destruct (open_check_error fl false v =? 0) eqn:He.
    + apply Z.eqb_eq in He. pose proof He as He0.
      split; [split; reflexivity|].
      split; [unfold zo_opened; destruct (fl_excl fl); exact Hvn|].
      split; [reflexivity|].
      unfold open_check_error in He. rewrite orb_false_r in He.
      fold first in He. rewrite Hfirst in He. cbn [negb] in He.
      rewrite andb_true_r in He.
      destruct (fl_write fl && zv_rdonly (zo_zv v)) eqn:Hwr;
        [discriminate He|].
      destruct (zo_excl v) eqn:Hex; [discriminate He|].
      destruct (fl_excl fl) eqn:Hfx; [discriminate He|].
      split.
      { intros _. unfold zo_opened. rewrite Hfx.
        split; [reflexivity|]. split; [reflexivity|].
        split; [exact Hex|]. split; [discriminate|].
        split; [intros Hfw; rewrite Hfw in Hwr; exact Hwr|].
        split; [reflexivity|]. discriminate. }
      split; [intros H; contradiction|].
      split; [intros _; reflexivity|]. repeat split; discriminate.
    + split; [split; reflexivity|]. split; [exact Hvn|].
      split; [reflexivity|].
      apply Z.eqb_neq in He.
      split; [intros H; contradiction|].
      split; [intros _; repeat split; try reflexivity; discriminate|].
      split; [reflexivity|]. repeat split; discriminate.
Qed.

(** [zvol_cdev_open] returns with neither lock of the volume held and the
    namespace lock as the caller had it, whatever happens.  The open that
    finds the volume closed owns the dataset and sets the volume up; it
    fails with [EINTR] when the namespace lock is contended.  An open for
    writing of a read-only volume fails with [EROFS], any open of a
    volume opened exclusively and an exclusive open of a volume already
    open fail with [EBUSY].  A failed open leaves the open count, the
    exclusive flag and the sync count as they were and disowns the
    dataset it owned; a successful one adds one to the open count and
    leaves the dataset owned. *)
Theorem zvol_cdev_open_outcome o fl s :
  zv_unlocked (zo_zv s) ->
  let v := open_view o (fun c => c =? 0) s in
  let first := zv_open_count (zo_zv v) =? 0 in
  let eintr := negb (zo_namespace s) && negb (oo_ns_try_ok o) in
  exists e s' tr,
    zvol_cdev_open o fl (Some s) = Some (e, Some s', tr) /\
    zv_unlocked (zo_zv s') /\
    zo_namespace s' = zo_namespace s /\
    objsets_owned tr = (if first && (e =? 0) then 1 else 0) /\
    (e = 0 ->
     zv_open_count (zo_zv s') = zv_open_count (zo_zv v) + 1 /\
     zo_excl v = false /\ zo_excl s' = fl_excl fl /\
     (fl_excl fl = true -> first = true) /\
     (fl_write fl = true -> zv_rdonly (zo_zv s') = false) /\
     zo_sync_cnt s' = zo_sync_cnt v + (if fl_sync fl then 1 else 0) /\
     (first = true ->
      zv_objset (zo_zv s') = Some (so_objset (oo_setup o)) /\
      zv_written_to (zo_zv s') = false)) /\
    (e <> 0 ->
     zv_open_count (zo_zv s') = zv_open_count (zo_zv v) /\
     zo_excl s' = zo_excl v /\ zo_sync_cnt s' = zo_sync_cnt v /\
     (first = true -> zv_objset (zo_zv v) = None ->
      zv_objset (zo_zv s') = None)) /\
    (first = false -> e = open_check_error fl false v) /\
    (first = true -> eintr = true -> e = EINTR) /\
    (first = true -> eintr = false -> first_open_error o <> 0 ->
     e = first_open_error o) /\
    (first = true -> eintr = false -> first_open_error o = 0 ->
     e = if fl_write fl
            && (so_ro (oo_setup o) || so_snapshot (oo_setup o)
                || negb (so_writeable (oo_setup o)))
         then EROFS else if zo_excl v then EBUSY else 0).
Proof. exact (zvol_cdev_open_spec o fl s). Qed.

(** A first open for writing of the example volume nobody has open. *)
Lemma zvol_cdev_open_outcome_witness :
  exists s' tr,
    zvol_cdev_open ex_open_oracle (mk_fl true false false) (Some ex_closed)
    = Some (0, Some s', tr) /\
    zv_open_count (zo_zv s') = 1 /\ objsets_owned tr = 1 /\
    zv_objset (zo_zv s') = Some ex_os.
Proof.
  destruct (zvol_cdev_open_outcome ex_open_oracle (mk_fl true false false)
              ex_closed (conj eq_refl eq_refl))
    as (e & s' & tr & Hrun & _ & _ & Hown & Hok & _).
  assert (He : e = 0).
  { assert (Hc : exists s0 tr0,
               zvol_cdev_open ex_open_oracle (mk_fl true false false)
                 (Some ex_closed) = Some (0, Some s0, tr0))
      by (eexists _, _; vm_compute; reflexivity).
    destruct Hc as (s0 & tr0 & Hc). rewrite Hc in Hrun.
    injection Hrun as <- _ _. reflexivity. }
  subst e. exists s', tr. split; [exact Hrun|].
  destruct (Hok eq_refl) as (Hoc & _ & _ & _ & _ & _ & Hos).
  split; [exact Hoc|]. split; [exact Hown|].
  exact (proj1 (Hos eq_refl)).
Defined.

Lemma zo_set_excl_id s : zo_excl s = false -> zo_set_excl s false = s.
Proof. intros H. destruct s. cbn in H. subst. reflexivity. Qed.

(** [zvol_cdev_close] once the locks are taken, in closed form. *)
Lemma zvol_cdev_close_locked_run fl (drop : bool) s :
  zv_state_lock (zo_zv s) = true ->
  zv_suspend_lock (zo_zv s) = (if drop then RW_READER else RW_NONE) ->
  (zv_open_count (zo_zv s) = 1 ->
   drop = true /\
   (zv_written_to (zo_zv s) = true -> zv_zilog (zo_zv s) <> None)) ->
  let last := zv_open_count (zo_zv s) =? 1 in
  let s1 :=
    zo_set_sync_cnt
      (zo_set_zv s
         (zv_set_open_count (zo_zv s) (zv_open_count (zo_zv s) - 1)))
      (zo_sync_cnt s - (if fl_sync fl then 1 else 0)) in
  exists tr,
    zvol_cdev_close_locked fl drop s
    = Some (0, zo_locks (if last then zo_last_closed s1 else s1) false
                 RW_NONE, tr) /\
    objsets_owned tr = (if last then -1 else 0).
Proof.
  intros Hs Hq Hc last s1.
  unfold zvol_cdev_close_locked.
  rewrite xbind_xemit.
  rewrite (xbind_run _ _ s tt s []).
  2:{ unfold olift, xlift, assert_, MUTEX_HELD. rewrite Hs.
      destruct s; reflexivity. }
  rewrite (xbind_run _ _ s tt
             (zo_set_zv s
                (zv_set_open_count (zo_zv s) (zv_open_count (zo_zv s) - 1)))
             []) by reflexivity.
  set (sa := zo_set_zv s
               (zv_set_open_count (zo_zv s) (zv_open_count (zo_zv s) - 1))).
  assert (Hsync :
            xwhen (fl_sync fl)
              (xmodify (fun s => zo_set_sync_cnt s (zo_sync_cnt s - 1))) sa
            = Some (tt, s1, [])).
  { unfold xwhen, xmodify, xret. subst s1 sa.
    destruct (fl_sync fl); [reflexivity|].
    destruct s. cbn. rewrite Z.sub_0_r. reflexivity. }
  rewrite (xbind_run _ _ _ _ _ _ Hsync).
  rewrite xbind_xget.
  change (zv_open_count (zo_zv s1)) with (zv_open_count (zo_zv s) - 1).
  assert (Hl : (zv_open_count (zo_zv s) - 1 =? 0) = last).
  { subst last. destruct (zv_open_count (zo_zv s) =? 1) eqn:H1.
    - apply Z.eqb_eq in H1. apply Z.eqb_eq. lia.
    - apply Z.eqb_neq in H1. apply Z.eqb_neq. lia. }
  rewrite Hl. subst last.
  destruct (zv_open_count (zo_zv s) =? 1) eqn:H1.
  - apply Z.eqb_eq in H1. destruct (Hc H1) as [-> Hz].
    unfold xwhen.
    assert (Hlc :
              (olift (assert_ RW_READ_HELD) ;; zvol_last_close)%X s1
              = Some (tt, zo_last_closed s1,
                      map XEv (shutdown_events (zo_zv s1))
                      ++ [XEv EvObjsetDisown])).
    { rewrite (xbind_run _ _ s1 tt s1 []).
      - rewrite zvol_last_close_run by (cbn; assumption). reflexivity.
      - unfold olift, xlift, assert_, RW_READ_HELD. cbn. rewrite Hq.
        destruct s; reflexivity. }
    rewrite (xbind_run _ _ _ _ _ _ Hlc).
    unfold xbind, olift, xlift, m_mutex_exit, m_rw_exit, m_state_lock,
      m_suspend_lock, lock_op, bind, mutex_exit, rw_exit, xret.
    cbn [negb andb] in Hq.
    do 3 (cbn [zo_zv zo_set_zv zo_last_closed zo_set_sync_cnt zv_state_lock
                 zv_suspend_lock zv_set_objset zv_set_dn zv_set_zilog
                 zv_set_open_count s1 sa zv_set_state_lock
                 zv_set_suspend_lock];
          rewrite ?Hs, ?Hq).
    eexists. split; [reflexivity|].
    cbn [app map objsets_owned].
    rewrite !objsets_owned_app, objsets_owned_shutdown.
    reflexivity.
  - unfold xwhen. rewrite xbind_xret.
    unfold xbind, olift, xlift, m_mutex_exit, m_rw_exit, m_state_lock,
      m_suspend_lock, lock_op, bind, mutex_exit, rw_exit, xret.
    destruct drop;
      do 3 (cbn [zo_zv zo_set_zv zo_set_sync_cnt zv_state_lock
                   zv_suspend_lock zv_set_open_count s1 sa
                   zv_set_state_lock zv_set_suspend_lock];
            rewrite ?Hs, ?Hq);
      cbn;
      (eexists; split;
       [unfold zo_locks, zv_set_state_lock, zv_set_suspend_lock,
          zv_set_open_count; cbn; rewrite ?Hq; reflexivity
       |reflexivity]).
Qed.

(** [zvol_cdev_close_zv] in closed form up to the lock acquisition. *)
Lemma zvol_cdev_close_zv_run o fl s :
  zv_unlocked (zo_zv s) ->
  0 < zv_open_count (zo_zv s) ->
  (zo_excl s = true -> zv_open_count (zo_zv s) = 1) ->
  let v := open_view o (fun c => c =? 1) (zo_set_excl s false) in
  let drop := (zv_open_count (zo_zv s) =? 1)
              && (oo_try_ok o
                  || negb (negb (zv_open_count (zo_zv v) =? 1))) in
  let s2 := zo_locks v true (if drop then RW_READER else RW_NONE) in
  (zv_open_count (zo_zv v) = 1 -> drop = true) /\
  exists tr0,
    forallb is_lock_xevent tr0 = true /\
    zvol_cdev_close_zv o fl s
    = match zvol_cdev_close_locked fl drop s2 with
      | Some (e, s', tr) => Some (e, s', tr0 ++ tr)
      | None => None
      end.
Proof.
  intros Hu Hpos Hex v drop s2.
  split.
  - subst drop v. unfold open_view.
    change (zv_open_count (zo_zv (zo_set_excl s false)))
      with (zv_open_count (zo_zv s)).
    destruct (zv_open_count (zo_zv s) =? 1) eqn:Hoc; cbn [andb].
    + destruct (oo_try_ok o); cbn [negb orb]; [reflexivity|].
      intros H. rewrite H. reflexivity.
    + intros H. apply Z.eqb_neq in Hoc. contradiction.
  - destruct Hu as [Hs Hq].
    set (sx := zo_set_excl s false).
    assert (Hux : zv_unlocked (zo_zv sx)) by (split; assumption).
    destruct (enter_suspend_if_run o (fun c => c =? 1)
                (fun c => negb (c =? 1)) sx) as (tr1 & Hrun & Hlk).
    rewrite (zo_locks_unlocked sx Hux) in Hrun.
    change (zv_open_count (zo_zv sx)) with (zv_open_count (zo_zv s))
      in Hrun.
    fold v in Hrun. fold drop in Hrun. fold s2 in Hrun.
    unfold zvol_cdev_close_zv.
    rewrite xbind_xemit.
    rewrite (xbind_run _ _ _ _ _ _ (olift_mutex_enter_run s Hs)).
    rewrite Hq. rewrite xbind_xget.
    assert (Hclr :
              (xwhen (zo_excl (zo_locks s true RW_NONE))
                 (xassert (fun s => zv_open_count (zo_zv s) =? 1) ;;
                  xmodify (fun s => zo_set_excl s false)))%X
                (zo_locks s true RW_NONE)
              = Some (tt, zo_locks sx true RW_NONE, [])).
    { change (zo_excl (zo_locks s true RW_NONE)) with (zo_excl s).
      unfold xwhen. destruct (zo_excl s) eqn:He.
      - unfold xbind, xassert, xmodify.
        change (zv_open_count (zo_zv (zo_locks s true RW_NONE)))
          with (zv_open_count (zo_zv s)).
        rewrite (Hex eq_refl). reflexivity.
      - unfold xret. subst sx. rewrite (zo_set_excl_id s He). reflexivity. }
    rewrite (xbind_run _ _ _ _ _ _ Hclr).
    assert (Hpos' :
              xassert (fun s => 0 <? zv_open_count (zo_zv s))
                (zo_locks sx true RW_NONE)
              = Some (tt, zo_locks sx true RW_NONE, [])).
    { unfold xassert.
      change (zv_open_count (zo_zv (zo_locks sx true RW_NONE)))
        with (zv_open_count (zo_zv s)).
      apply Z.ltb_lt in Hpos. rewrite Hpos. reflexivity. }
    rewrite (xbind_run _ _ _ _ _ _ Hpos').
    rewrite (xbind_run _ _ _ _ _ _ Hrun).
    subst sx. fold v. fold drop. fold s2.
    exists (XEv (EvRwEnter L_zvol_state_lock RW_READER)
            :: [XEv (EvMutexEnter (L_state (zv_name (zo_zv s))))] ++ tr1).
    split.
    + cbn [forallb app is_lock_xevent is_lock_event andb]. exact Hlk.
    + destruct (zvol_cdev_close_locked fl drop s2) as [[[e s'] tr]|];
        [|reflexivity].
      cbn [app]. rewrite <- ?app_assoc. reflexivity.
Qed.

Lemma zvol_cdev_close_spec o fl s :
  zv_unlocked (zo_zv s) ->
  0 < zv_open_count (zo_zv s) ->
  (zo_excl s = true -> zv_open_count (zo_zv s) = 1) ->
  let v := open_view o (fun c => c =? 1) (zo_set_excl s false) in
  let last := zv_open_count (zo_zv v) =? 1 in
  (zv_written_to (zo_zv v) = true -> zv_zilog (zo_zv v) <> None) ->
  exists s' tr,
    zvol_cdev_close o fl (Some s) = Some (0, Some s', tr) /\
    zv_unlocked (zo_zv s') /\
    zo_namespace s' = zo_namespace s /\
    zo_excl s' = zo_excl v /\
    zv_open_count (zo_zv s') = zv_open_count (zo_zv v) - 1 /\
    zo_sync_cnt s' = zo_sync_cnt v - (if fl_sync fl then 1 else 0) /\
    zv_name (zo_zv s') = zv_name (zo_zv v) /\
    objsets_owned tr = (if last then -1 else 0) /\
    (last = true -> zv_closed (zo_zv s')) /\
    (last = false ->
     zv_objset (zo_zv s') = zv_objset (zo_zv v) /\
     zv_dn (zo_zv s') = zv_dn (zo_zv v) /\
     zv_zilog (zo_zv s') = zv_zilog (zo_zv v)).
Proof.
  intros Hu Hpos Hex v last Hz.
  destruct (zvol_cdev_close_zv_run o fl s Hu Hpos Hex)
    as (Hd & tr0 & Hlk & Hrun).
  fold v in Hd, Hrun.
  destruct (open_view_frame o (fun c => c =? 1) (zo_set_excl s false))
    as (Hvn & _ & _).
  fold v in Hvn. change (zo_namespace (zo_set_excl s false))
    with (zo_namespace s) in Hvn.
  set (drop := (zv_open_count (zo_zv s) =? 1)
               && (oo_try_ok o
                   || negb (negb (zv_open_count (zo_zv v) =? 1)))) in *.
  set (s2 := zo_locks v true (if drop then RW_READER else RW_NONE)) in *.
  destruct (zvol_cdev_close_locked_run fl drop s2)
    as (tr & Hrun2 & Hown); [reflexivity|reflexivity| |].
  { intros H. split; [exact (Hd H)|exact Hz]. }
  change (zv_open_count (zo_zv s2)) with (zv_open_count (zo_zv v))
    in Hrun2, Hown.
  fold last in Hrun2, Hown.
  unfold zvol_cdev_close. rewrite Hrun, Hrun2.
  eexists _, _. split; [reflexivity|].
  rewrite objsets_owned_app, (objsets_owned_locks _ Hlk), Hown.
  clear Hrun Hrun2 Hown.
  destruct last eqn:Hlast.
  - apply Z.eqb_eq in Hlast.
    split; [split; reflexivity|]. split; [exact Hvn|].
    split; [reflexivity|]. split; [reflexivity|]. split; [reflexivity|].
    split; [reflexivity|]. split; [reflexivity|].
    split; [|discriminate].
    intros _. unfold zv_closed. zo_fields. rewrite Hlast.
    repeat split; reflexivity.
  - split; [split; reflexivity|]. split; [exact Hvn|].
    split; [reflexivity|]. split; [reflexivity|]. split; [reflexivity|].
    split; [reflexivity|]. split; [reflexivity|].
    split; [discriminate|]. intros _. repeat split; reflexivity.
Qed.



Lemma open_view_try_ok o f s : oo_try_ok o = true -> open_view o f s = s.
Proof.
  intros H. unfold open_view. rewrite H. cbn [negb].
  rewrite andb_false_r. reflexivity.
Qed.

(** A first open that succeeds followed by the matching close brings a
    closed volume back to where it was: closed, with the dataset
    disowned, with no lock held, and with the exclusive flag, the sync
    count and the caller's hold on the namespace lock as before. *)
Theorem zvol_cdev_open_close_round_trip o fl s :
  zv_unlocked (zo_zv s) -> zv_closed (zo_zv s) -> zo_excl s = false ->
  oo_try_ok o = true ->
  zo_namespace s = true \/ oo_ns_try_ok o = true ->
  first_open_error o = 0 ->
  (fl_write fl = true ->
   so_ro (oo_setup o) || so_snapshot (oo_setup o)
   || negb (so_writeable (oo_setup o)) = false) ->
  exists s1 tr1 s2 tr2,
    zvol_cdev_open o fl (Some s) = Some (0, Some s1, tr1) /\
    zvol_cdev_close o fl (Some s1) = Some (0, Some s2, tr2) /\
    zv_open_count (zo_zv s1) = 1 /\
    zv_objset (zo_zv s1) = Some (so_objset (oo_setup o)) /\
    zv_unlocked (zo_zv s2) /\ zv_closed (zo_zv s2) /\
    zo_excl s2 = false /\ zo_sync_cnt s2 = zo_sync_cnt s /\
    zo_namespace s2 = zo_namespace s /\
    objsets_owned (tr1 ++ tr2) = 0.
Proof.
  intros Hu (Hoc & Hos & Hdn & Hzl) Hex Htry Hns Hfo Hro.
  destruct (zvol_cdev_open_spec o fl s Hu)
    as (e & s1 & tr1 & Hrun1 & Hu1 & Hn1 & Hown1 & Hok & _ & _ & _ & _
        & Hsucc).
  rewrite (open_view_try_ok o _ s Htry) in Hown1, Hok, Hsucc.
  rewrite Hoc in Hown1, Hok, Hsucc. change (0 =? 0) with true in *.
  assert (Hei : negb (zo_namespace s) && negb (oo_ns_try_ok o) = false).
  { destruct Hns as [-> | ->]; [reflexivity|apply andb_false_r]. }
  assert (He : e = 0).
  { rewrite (Hsucc eq_refl Hei Hfo). rewrite Hex.
    destruct (fl_write fl) eqn:Hfw; [|reflexivity].
    rewrite (Hro eq_refl). reflexivity. }
  subst e. cbn [andb Z.eqb] in Hown1.
  destruct (Hok eq_refl) as (Hoc1 & _ & Hex1 & Hfx & _ & Hsc1 & Hos1).
  cbn [Z.add] in Hoc1.
  destruct (zvol_cdev_close_spec o fl s1 Hu1)
    as (s2 & tr2 & Hrun2 & Hu2 & Hn2 & Hex2 & Hoc2 & Hsc2 & _ & Hown2
        & Hlast & _).
  { rewrite Hoc1. reflexivity. }
  { intros _. exact Hoc1. }
  { rewrite (open_view_try_ok o _ _ Htry). cbn [zo_zv zo_set_excl].
    rewrite (proj2 (Hos1 eq_refl)). discriminate. }
  exists s1, tr1, s2, tr2.
  rewrite (open_view_try_ok o _ _ Htry) in *.
  cbn [zo_zv zo_set_excl zo_excl zo_sync_cnt] in *.
  rewrite Hoc1 in *. change (1 =? 1) with true in *.
  split; [exact Hrun1|]. split; [exact Hrun2|]. split; [reflexivity|].
  split; [exact (proj1 (Hos1 eq_refl))|]. split; [exact Hu2|].
  split; [exact (Hlast eq_refl)|]. split; [exact Hex2|].
  split; [rewrite Hsc2, Hsc1; destruct (fl_sync fl); lia|].
  split; [congruence|].
  rewrite objsets_owned_app, Hown1, Hown2. reflexivity.
Qed.

(** The example volume nobody has open is opened for writing and closed
    again. *)
Lemma zvol_cdev_open_close_round_trip_witness :
  exists s1 tr1 s2 tr2,
    zvol_cdev_open ex_open_oracle (mk_fl true false true) (Some ex_closed)
    = Some (0, Some s1, tr1) /\
    zvol_cdev_close ex_open_oracle (mk_fl true false true) (Some s1)
    = Some (0, Some s2, tr2) /\
    zv_closed (zo_zv s2) /\ zo_sync_cnt s2 = 0 /\
    objsets_owned (tr1 ++ tr2) = 0.
Proof.
  destruct (zvol_cdev_open_close_round_trip ex_open_oracle
              (mk_fl true false true) ex_closed
              (conj eq_refl eq_refl)
              (conj eq_refl (conj eq_refl (conj eq_refl eq_refl)))
              eq_refl eq_refl (or_intror eq_refl) eq_refl
              (fun _ => eq_refl))
    as (s1 & tr1 & s2 & tr2 & H1 & H2 & _ & _ & _ & Hc & _ & Hs & _ & Ho).
  exists s1, tr1, s2, tr2.
  split; [exact H1|]. split; [exact H2|]. split; [exact Hc|].
  split; [exact Hs|exact Ho].
Defined.

(* ------------------------------------------------------------------ *)
(** ** The registry of minors *)



(** With no suspend lock asked for, the walk depends neither on the other
    threads nor on the lock's availability. *)
Lemma zvol_find_chain_none_mode env try_ok chain name hash :
  zvol_find_chain env try_ok chain name hash RW_NONE
  = zvol_find_chain (fun z => z) true chain name hash RW_NONE.
Proof.
  induction chain as [|zv rest IH]; [reflexivity|].
  cbn -[name_hash_match]. rewrite IH. reflexivity.
Qed.

Lemma zvol_find_chain_none_mode_run chain name hash :
  (forall zv, In zv chain -> zv_state_lock zv = false) ->
  let hit := existsb (fun zv => name_hash_match zv name hash) chain in
  exists r tr,
    zvol_find_chain (fun z => z) true chain name hash RW_NONE
    = Some (r, tr) /\
    (hit = false -> r = None) /\
    (hit = true ->
     exists i zv, r = Some (i, zv_set_state_lock zv true) /\
                  nth_error chain i = Some zv /\
                  name_hash_match zv name hash = true).
Proof.
  induction chain as [|zv rest IH]; intros Hl hit.
  - exists None, []. repeat split. intros H. discriminate H.
  - subst hit. cbn [existsb].
    cbn -[name_hash_match]. unfold mutex_enter.
    rewrite (Hl zv (or_introl eq_refl)).
    assert (Hnm : name_hash_match (zv_set_state_lock zv true) name hash
                  = name_hash_match zv name hash) by reflexivity.
    rewrite Hnm.
    destruct (name_hash_match zv name hash) eqn:Hm.
    + eexists _, _. split; [reflexivity|].
      split; [discriminate|]. intros _. exists O, zv. auto.
    + unfold mutex_exit. cbn -[name_hash_match].
      destruct IH as (r & tr & Hrun & Hno & Hyes);
        [intros z Hz; apply Hl; right; exact Hz|].
      rewrite Hrun. eexists _, _. split; [reflexivity|].
      cbn [orb]. split.
      * intros H. rewrite (Hno H). reflexivity.
      * intros H. destruct (Hyes H) as (i & z & -> & Hn & Hz).
        exists (S i), z. auto.
Qed.











Lemma ex_registry_unlocked : reg_unlocked ex_registry.
Proof.
  intros q. cbn. destruct (q =? 1); split; reflexivity.
Qed.





(** [zvol_remove] undoes [zvol_insert]: after both, the list of volumes
    and every hash chain are as they were, for a volume that was not
    linked before. *)
Theorem zvol_insert_remove_round_trip ht_head p r :
  zvol_state_lock r = RW_WRITER ->
  reg_fresh r p ->
  exists r',
    (zvol_insert ht_head p ;; zvol_remove p)%X r = Some (tt, r', []) /\
    zvol_state_list r' = zvol_state_list r /\
    (forall i, zvol_htable r' i = zvol_htable r i) /\
    (forall q, reg_zv r' q = reg_zv r q) /\
    zvol_state_lock r' = RW_WRITER /\
    zvol_minors r' = zvol_minors r.
Proof.
  intros Hl [Hfl Hfh].
  unfold zvol_insert, zvol_remove, xbind, xassert, xmodify.
  rewrite Hl. cbn [krw_eqb app zvol_state_lock]. rewrite Hl.
  cbn [krw_eqb app].
  eexists. split; [reflexivity|].
  cbn [zvol_state_list zvol_htable reg_zv zvol_state_lock zvol_minors].
  split.
  { cbn [remove]. destruct (Z.eq_dec p p) as [_|Hne];
      [|exfalso; apply Hne; reflexivity].
    apply notin_remove. exact Hfl. }
  split.
  { intros i. unfold hlist_del, hlist_add_head.
    destruct (i =? ht_head (zv_hash (reg_zv r p))).
    - cbn [remove]. destruct (Z.eq_dec p p) as [_|Hne];
        [|exfalso; apply Hne; reflexivity].
      apply notin_remove. apply Hfh.
    - apply notin_remove. apply Hfh. }
  split; [reflexivity|]. split; reflexivity.
Qed.

Lemma zvol_insert_remove_round_trip_witness :
  exists r',
    (zvol_insert (fun h => h) 3 ;; zvol_remove 3)%X
      (reg_set_lock ex_registry RW_WRITER) = Some (tt, r', []) /\
    zvol_state_list r' = [1; 2].
Proof.
  destruct (zvol_insert_remove_round_trip (fun h => h) 3
              (reg_set_lock ex_registry RW_WRITER) eq_refl)
    as (r' & Hrun & Hlist & _).
  - split; [|intros i]; cbn; intuition discriminate.
  - exists r'. split; [exact Hrun|exact Hlist].
Defined.

Lemma zvol_rename_minor_spec table ht_head sz e p newname s :
  zvol_state_lock (rs_reg s) <> RW_NONE ->
  zv_state_lock (reg_zv (rs_reg s) p) = true ->
  rename_simple s p = true ->
  let r := rs_reg s in
  let zv := reg_zv r p in
  let h := zvol_name_hash table (zv_name zv) in
  exists s' tr,
    zvol_rename_minor table ht_head sz e p newname s = Some (tt, s', tr) /\
    reg_zv (rs_reg s') p
    = zv_set_name (zv_set_hash zv h) (strlcpy newname sz) /\
    (forall q, q <> p -> reg_zv (rs_reg s') q = reg_zv r q) /\
    zvol_state_list (rs_reg s') = zvol_state_list r /\
    (forall i, zvol_htable (rs_reg s') i
               = hlist_add_head (hlist_del (zvol_htable r) p) (ht_head h)
                   p i) /\
    zvol_state_lock (rs_reg s') = zvol_state_lock r /\
    zvol_minors (rs_reg s') = zvol_minors r /\
    rs_os s' p = renamed_os e newname (zv_volsize zv) (rs_os s p) /\
    (forall q, q <> p -> rs_os s' q = rs_os s q).
Proof.
  intros Hl Hm Hs r zv h.
  assert (Hl' : negb (krw_eqb (zvol_state_lock (rs_reg s)) RW_NONE) = true).
  { destruct (zvol_state_lock (rs_reg s)); try reflexivity.
    exfalso. apply Hl. reflexivity. }
  unfold rename_simple in Hs.
  unfold zvol_rename_minor.
  cbv beta iota delta [xbind xassert rlift xlift xmodify xget xemit xret
                         xwhen assert_ modify MUTEX_HELD].
  rewrite Hl', Hm.
  cbn [rs_reg rs_os rs_set_reg rs_set_zv reg_set_htable reg_set_zv reg_zv
         zvol_htable zvol_state_list zvol_state_lock zvol_minors].
  assert (Hne : forall q, q <> p -> (q =? p) = false)
    by (intros q Hq; apply Z.eqb_neq; exact Hq).
  rewrite ?Z.eqb_refl. cbn [zv_open_count zv_set_hash].
  destruct (zso_volmode (rs_os s p)) eqn:Hvm;
    cbn [volmode_eqb];
    [ | destruct (zsg_provider (rs_os s p)) eqn:Hpp; [|discriminate Hs]
      | destruct (zsd_cdev (rs_os s p)) eqn:Hcd;
        [destruct (0 <? zv_open_count (reg_zv (rs_reg s) p)) eqn:Hoc;
         [discriminate Hs|]|];
        destruct (e =? 0) eqn:He
      | ];
    (eexists _, _; split; [reflexivity|]);
    unfold renamed_os; rewrite Hvm;
    cbn [rs_reg rs_os rs_set_reg rs_set_zv rs_set_os reg_set_htable
           reg_set_zv reg_zv zvol_htable zvol_state_list zvol_state_lock
           zvol_minors mo_set_provider mo_set_cdev mo_excl zso_volmode
           zsg_provider zsd_cdev];
    rewrite ?Z.eqb_refl, ?Hvm, ?Hpp, ?Hcd, ?He;
    cbn [rs_reg rs_os rs_set_reg rs_set_zv rs_set_os reg_set_htable
           reg_set_zv reg_zv zvol_htable zvol_state_list zvol_state_lock
           zvol_minors mo_set_provider mo_set_cdev mo_excl zso_volmode
           zsg_provider zsd_cdev zv_volsize zv_set_hash];
    repeat split; try reflexivity;
    try (intros q Hq; rewrite ?(Hne q Hq); reflexivity).
  destruct (rs_os s p) as [a b c d]. cbn in Hcd. rewrite Hcd. reflexivity.
Qed.

Lemma zvol_rename_minor_crash table ht_head sz e p newname s :
  zvol_state_lock (rs_reg s) <> RW_NONE ->
  zv_state_lock (reg_zv (rs_reg s) p) = true ->
  (zso_volmode (rs_os s p) = ZFS_VOLMODE_GEOM /\
   zsg_provider (rs_os s p) = None) \/
  (zso_volmode (rs_os s p) = ZFS_VOLMODE_DEV /\
   zsd_cdev (rs_os s p) <> None /\
   0 < zv_open_count (reg_zv (rs_reg s) p) /\
   zv_suspend_lock (reg_zv (rs_reg s) p) <> RW_READER) ->
  zvol_rename_minor table ht_head sz e p newname s = None.
Proof.
  intros Hl Hm Hc.
  assert (Hl' : negb (krw_eqb (zvol_state_lock (rs_reg s)) RW_NONE) = true).
  { destruct (zvol_state_lock (rs_reg s)); try reflexivity.
    exfalso. apply Hl. reflexivity. }
  unfold zvol_rename_minor.
  cbv beta iota delta [xbind xassert rlift xlift xmodify xget xemit xret
                         xwhen assert_ modify MUTEX_HELD].
  rewrite Hl', Hm.
  cbn [rs_reg rs_os rs_set_reg rs_set_zv reg_set_htable reg_set_zv reg_zv
         zvol_htable zvol_state_list zvol_state_lock zvol_minors].
  rewrite ?Z.eqb_refl. cbn [zv_open_count zv_set_hash].
  destruct Hc as [[Hvm Hpp]|(Hvm & Hcd & Hoc & Hsl)]; rewrite Hvm;
    cbn [volmode_eqb].
  - rewrite Hpp. reflexivity.
  - destruct (zsd_cdev (rs_os s p)) as [d|]; [|exfalso; apply Hcd; reflexivity].
    apply Z.ltb_lt in Hoc. rewrite Hoc.
    unfold zvol_last_close_at at 1.
    cbv beta iota delta [xbind rlift xlift assert_ RW_READ_HELD].
    cbn [rs_reg rs_os rs_set_reg rs_set_zv rs_set_os reg_set_htable
           reg_set_zv reg_zv zvol_htable zvol_state_list zvol_state_lock
           zvol_minors].
    rewrite ?Z.eqb_refl.
    cbn [zv_suspend_lock zv_set_open_count zv_set_hash].
    destruct (zv_suspend_lock (reg_zv (rs_reg s) p)); try reflexivity.
    exfalso. apply Hsl. reflexivity.
Qed.

Lemma strncmp_eq_prefix b : forall a,
  strncmp_eq a b (String.length b) = String.prefix b a.
Proof.
  induction b as [|y b IH]; intros a.
  - destruct a; reflexivity.
  - destruct a as [|x a]; [reflexivity|].
    cbn [String.length strncmp_eq String.prefix].
    rewrite IH. destruct (ascii_dec y x) as [->|Hne].
    + rewrite Ascii.eqb_refl. reflexivity.
    + destruct (Ascii.eqb x y) eqn:He; [|reflexivity].
      apply Ascii.eqb_eq in He. subst. exfalso. apply Hne. reflexivity.
Qed.

Lemma strdrop_get n : forall s c,
  String.get n s = Some c -> String c (strdrop (S n) s) = strdrop n s.
Proof.
  induction n as [|n IH]; intros s c H.
  - destruct s as [|x s]; [discriminate H|].
    cbn in H. injection H as ->. reflexivity.
  - destruct s as [|x s]; [discriminate H|].
    cbn [String.get] in H. cbn [strdrop]. rewrite <- (IH s c H).
    reflexivity.
Qed.

Lemma rlift_mutex_enter_run p s :
  zv_state_lock (reg_zv (rs_reg s) p) = false ->
  rlift p m_mutex_enter s
  = Some (tt,
          rs_set_zv s p (zv_set_state_lock (reg_zv (rs_reg s) p) true),
          [XEv (EvMutexEnter (L_state (zv_name (reg_zv (rs_reg s) p))))]).
Proof.
  intros H. unfold rlift, xlift, m_mutex_enter, m_state_lock, lock_op, bind,
    mutex_enter.
  rewrite H. reflexivity.
Qed.

Lemma rlift_mutex_exit_run p s :
  zv_state_lock (reg_zv (rs_reg s) p) = true ->
  rlift p m_mutex_exit s
  = Some (tt,
          rs_set_zv s p (zv_set_state_lock (reg_zv (rs_reg s) p) false),
          [XEv (EvMutexExit (L_state (zv_name (reg_zv (rs_reg s) p))))]).
Proof.
  intros H. unfold rlift, xlift, m_mutex_exit, m_state_lock, lock_op, bind,
    mutex_exit.
  rewrite H. reflexivity.
Qed.

Lemma zv_lock_cycle zv :
  zv_state_lock zv = false ->
  zv_set_state_lock (zv_set_state_lock zv true) false = zv.
Proof. destruct zv; cbn; intros ->; reflexivity. Qed.

Lemma zv_lock_cycle_rename zv h n :
  zv_state_lock zv = false ->
  zv_set_state_lock
    (zv_set_name (zv_set_hash (zv_set_state_lock zv true) h) n) false
  = zv_set_name (zv_set_hash zv h) n.
Proof. destruct zv; cbn; intros ->; reflexivity. Qed.

Lemma zvol_rename_minors_body_spec table ht_head sz mde old new p s :
  zvol_state_lock (rs_reg s) <> RW_NONE ->
  zv_state_lock (reg_zv (rs_reg s) p) = false ->
  rename_simple s p = true ->
  let r := rs_reg s in
  let zv := reg_zv r p in
  let h := zvol_name_hash table (zv_name zv) in
  let target := rename_target old new (zv_name zv) in
  exists s' tr,
    zvol_rename_minors_body table ht_head sz mde old new p s
    = Some (tt, s', tr) /\
    reg_zv (rs_reg s') p = rename_zv table sz old new zv /\
    (forall q, q <> p -> reg_zv (rs_reg s') q = reg_zv r q) /\
    zvol_state_list (rs_reg s') = zvol_state_list r /\
    (forall i, zvol_htable (rs_reg s') i
               = match target with
                 | Some _ =>
                     hlist_add_head (hlist_del (zvol_htable r) p)
                       (ht_head h) p i
                 | None => zvol_htable r i
                 end) /\
    zvol_state_lock (rs_reg s') = zvol_state_lock r /\
    zvol_minors (rs_reg s') = zvol_minors r /\
    rs_os s' p = match target with
                 | Some n => renamed_os (mde n) n (zv_volsize zv) (rs_os s p)
                 | None => rs_os s p
                 end /\
    (forall q, q <> p -> rs_os s' q = rs_os s q).
Proof.
  intros Hl Hm Hs r zv h target.
  assert (Hne : forall q, q <> p -> (q =? p) = false)
    by (intros q Hq; apply Z.eqb_neq; exact Hq).
  unfold zvol_rename_minors_body.
  rewrite (xbind_run _ _ _ _ _ _ (rlift_mutex_enter_run p s Hm)).
  rewrite xbind_xget.
  set (s1 := rs_set_zv s p (zv_set_state_lock (reg_zv (rs_reg s) p) true)).
  assert (Hz1 : reg_zv (rs_reg s1) p = zv_set_state_lock zv true).
  { unfold s1. cbn [rs_reg rs_set_zv rs_set_reg reg_set_zv reg_zv].
    rewrite Z.eqb_refl. reflexivity. }
  assert (Hl1 : zvol_state_lock (rs_reg s1) <> RW_NONE) by exact Hl.
  assert (Hm1 : zv_state_lock (reg_zv (rs_reg s1) p) = true)
    by (rewrite Hz1; reflexivity).
  assert (Hs1 : rename_simple s1 p = true).
  { unfold rename_simple in *. rewrite Hz1.
    cbn [zv_open_count zv_set_state_lock]. exact Hs. }
  cbv zeta. rewrite Hz1. cbn [zv_name zv_set_state_lock].
  fold zv.
  assert (Hrename :
    forall n, target = Some n ->
      exists s' tr,
        xbind (zvol_rename_minor table ht_head sz (mde n) p n)
          (fun _ => rlift p m_mutex_exit) s1 = Some (tt, s', tr) /\
        reg_zv (rs_reg s') p = rename_zv table sz old new zv /\
        (forall q, q <> p -> reg_zv (rs_reg s') q = reg_zv r q) /\
        zvol_state_list (rs_reg s') = zvol_state_list r /\
        (forall i, zvol_htable (rs_reg s') i
                   = hlist_add_head (hlist_del (zvol_htable r) p)
                       (ht_head h) p i) /\
        zvol_state_lock (rs_reg s') = zvol_state_lock r /\
        zvol_minors (rs_reg s') = zvol_minors r /\
        rs_os s' p = renamed_os (mde n) n (zv_volsize zv) (rs_os s p) /\
        (forall q, q <> p -> rs_os s' q = rs_os s q)).
  { intros n Hn.
    destruct (zvol_rename_minor_spec table ht_head sz (mde n) p n s1 Hl1 Hm1
                Hs1)
      as (s2 & tr2 & Hrun & Hzv & Hoth & Hlist & Hht & Hlk & Hmin & Hos
          & Hoso).
    rewrite Hz1 in Hzv, Hos.
    rewrite (xbind_run _ _ _ _ _ _ Hrun).
    rewrite rlift_mutex_exit_run by (rewrite Hzv; reflexivity).
    eexists _, _. split; [reflexivity|].
    cbn [rs_reg rs_os rs_set_zv rs_set_reg reg_set_zv reg_zv zvol_htable
           zvol_state_list zvol_state_lock zvol_minors].
    rewrite Z.eqb_refl, Hzv.
    split.
    { unfold rename_zv. fold target. rewrite Hn.
      cbn [zv_name zv_set_state_lock].
      apply zv_lock_cycle_rename. exact Hm. }
    split.
    { intros q Hq. rewrite (Hne q Hq), (Hoth q Hq). unfold s1.
      cbn [rs_reg rs_set_zv rs_set_reg reg_set_zv reg_zv].
      rewrite (Hne q Hq). reflexivity. }
    split; [exact Hlist|].
    split; [intros i; rewrite Hht, Hz1; reflexivity|].
    split; [exact Hlk|]. split; [exact Hmin|].
    split; [exact Hos|]. exact Hoso. }
  unfold target, rename_target, name_selects in *.
  destruct (String.eqb (zv_name zv) old) eqn:Heq.
  - cbn [orb] in *.
    destruct (Hrename new eq_refl) as (s' & tr & Hrun & Hrest).
    unfold xbind in Hrun |- *.
    destruct (zvol_rename_minor table ht_head sz (mde new) p new s1)
      as [[[u s2] t2]|]; [|discriminate Hrun].
    destruct (rlift p m_mutex_exit s2) as [[[u3 s3] t3]|];
      [|discriminate Hrun].
    injection Hrun as <- <- <-. destruct u3.
    eexists _, _. split; [reflexivity|]. exact Hrest.
  - cbn [orb] in *. rewrite strncmp_eq_prefix.
    destruct (String.prefix old (zv_name zv)
              && match String.get (String.length old) (zv_name zv) with
                 | Some c => Ascii.eqb c "/" || Ascii.eqb c "@"
                 | None => false
                 end) eqn:Hc.
    + destruct (String.get (String.length old) (zv_name zv)) as [c|] eqn:Hg;
        [|rewrite andb_false_r in Hc; discriminate Hc].
      rewrite (strdrop_get _ _ _ Hg).
      destruct (Hrename _ eq_refl) as (s' & tr & Hrun & Hrest).
      unfold xbind in Hrun |- *.
      destruct (zvol_rename_minor table ht_head sz _ p _ s1)
        as [[[u s2] t2]|]; [|discriminate Hrun].
      destruct (rlift p m_mutex_exit s2) as [[[u3 s3] t3]|];
        [|discriminate Hrun].
      injection Hrun as <- <- <-. destruct u3.
      eexists _, _. split; [reflexivity|]. exact Hrest.
    + rewrite xbind_xret.
      rewrite rlift_mutex_exit_run by exact Hm1.
      eexists _, _. split; [reflexivity|].
      cbn [rs_reg rs_os rs_set_zv rs_set_reg reg_set_zv reg_zv zvol_htable
             zvol_state_list zvol_state_lock zvol_minors].
      rewrite Hz1. unfold s1.
      cbn [rs_reg rs_os rs_set_zv rs_set_reg reg_set_zv reg_zv zvol_htable
             zvol_state_list zvol_state_lock zvol_minors].
      rewrite Z.eqb_refl.
      split.
      { unfold rename_zv, rename_target, name_selects.
        rewrite Heq. cbn [orb]. rewrite Hc.
        apply zv_lock_cycle. exact Hm. }
      split.
      { intros q Hq. rewrite (Hne q Hq). reflexivity. }
      repeat split; reflexivity.
Qed.

Lemma hlist_rehash_inv ht hd p q i :
  In q (hlist_add_head (hlist_del ht p) hd p i) -> q = p \/ In q (ht i).
Proof.
  unfold hlist_add_head, hlist_del. intros H.
  destruct (i =? hd).
  - destruct H as [H|H]; [left; symmetry; exact H|].
    right. apply in_remove in H. apply H.
  - right. apply in_remove in H. apply H.
Qed.

Lemma hlist_rehash_other ht hd p q i :
  q <> p -> In q (ht i) -> In q (hlist_add_head (hlist_del ht p) hd p i).
Proof.
  unfold hlist_add_head, hlist_del. intros Hq H.
  assert (Hr : In q (remove Z.eq_dec p (ht i)))
    by (apply in_in_remove; assumption).
  destruct (i =? hd); [right|]; exact Hr.
Qed.

Lemma hlist_rehash_head ht hd p :
  In p (hlist_add_head (hlist_del ht p) hd p hd).
Proof.
  unfold hlist_add_head. rewrite Z.eqb_refl. left. reflexivity.
Qed.

Lemma zvol_rename_minors_loop_spec table ht_head sz mde old new :
  forall l s,
    NoDup l ->
    zvol_state_lock (rs_reg s) <> RW_NONE ->
    (forall q, In q l ->
               zv_state_lock (reg_zv (rs_reg s) q) = false /\
               rename_simple s q = true) ->
    exists s' tr,
      zvol_rename_minors_loop table ht_head sz mde old new l s
      = Some (tt, s', tr) /\
      (forall q, In q l ->
                 reg_zv (rs_reg s') q
                 = rename_zv table sz old new (reg_zv (rs_reg s) q)) /\
      (forall q, ~ In q l -> reg_zv (rs_reg s') q = reg_zv (rs_reg s) q) /\
      zvol_state_list (rs_reg s') = zvol_state_list (rs_reg s) /\
      zvol_state_lock (rs_reg s') = zvol_state_lock (rs_reg s) /\
      zvol_minors (rs_reg s') = zvol_minors (rs_reg s) /\
      (forall q i, In q (zvol_htable (rs_reg s') i) ->
                   In q (zvol_htable (rs_reg s) i) \/ In q l) /\
      (forall q i, ~ In q l -> In q (zvol_htable (rs_reg s) i) ->
                   In q (zvol_htable (rs_reg s') i)) /\
      (forall q, In q l ->
                 rename_target old new (zv_name (reg_zv (rs_reg s) q))
                 <> None ->
                 In q (zvol_htable (rs_reg s')
                         (ht_head
                            (zvol_name_hash table
                               (zv_name (reg_zv (rs_reg s) q)))))) /\
      (forall q, In q l ->
                 rs_os s' q
                 = match rename_target old new
                           (zv_name (reg_zv (rs_reg s) q)) with
                   | Some n =>
                       renamed_os (mde n) n
                         (zv_volsize (reg_zv (rs_reg s) q)) (rs_os s q)
                   | None => rs_os s q
                   end) /\
      (forall q, ~ In q l -> rs_os s' q = rs_os s q).
Proof.
  induction l as [|p rest IH]; intros s Hnd Hl Hall.
  - exists s, []. split; [reflexivity|].
    repeat split; try reflexivity;
      try (intros q0 H; solve [destruct H]);
      try (intros q0 i0 H; tauto).
  - inversion Hnd as [|p' rest' Hnotin Hnd']; subst.
    destruct (Hall p (or_introl eq_refl)) as [Hm Hs].
    destruct (zvol_rename_minors_body_spec table ht_head sz mde old new p s
                Hl Hm Hs)
      as (s1 & tr1 & Hrun1 & Hzv1 & Hoth1 & Hlist1 & Hht1 & Hlk1 & Hmin1
          & Hos1 & Hoso1).
    assert (Hrest_ne : forall q, In q rest -> q <> p).
    { intros q Hq ->. exact (Hnotin Hq). }
    assert (Hsimple : forall q, q <> p ->
                                rename_simple s1 q = rename_simple s q).
    { intros q Hq. unfold rename_simple.
      rewrite (Hoso1 q Hq), (Hoth1 q Hq). reflexivity. }
    destruct (IH s1 Hnd') as
      (s' & tr & Hrun & Hzv & Hoth & Hlist & Hlk & Hmin & Hhin & Hhkeep
       & Hhnew & Hos & Hoso).
    { rewrite Hlk1. exact Hl. }
    { intros q Hq. pose proof (Hrest_ne q Hq) as Hqp.
      rewrite (Hoth1 q Hqp), (Hsimple q Hqp).
      apply Hall. right. exact Hq. }
    cbn [zvol_rename_minors_loop].
    rewrite (xbind_run _ _ _ _ _ _ Hrun1), Hrun.
    eexists _, _. split; [reflexivity|].
    assert (Hht1_inv : forall q i, In q (zvol_htable (rs_reg s1) i) ->
                                   q = p \/ In q (zvol_htable (rs_reg s) i)).
    { intros q i. rewrite Hht1.
      destruct (rename_target old new (zv_name (reg_zv (rs_reg s) p)));
        [apply hlist_rehash_inv|intros H; right; exact H]. }
    assert (Hht1_keep : forall q i, q <> p ->
                                    In q (zvol_htable (rs_reg s) i) ->
                                    In q (zvol_htable (rs_reg s1) i)).
    { intros q i Hq. rewrite Hht1.
      destruct (rename_target old new (zv_name (reg_zv (rs_reg s) p)));
        [apply hlist_rehash_other; exact Hq|intros H; exact H]. }
    split.
    { intros q [<-|Hq].
      - rewrite (Hoth p Hnotin). exact Hzv1.
      - rewrite (Hzv q Hq), (Hoth1 q (Hrest_ne q Hq)). reflexivity. }
    split.
    { intros q Hq.
      assert (Hqp : q <> p) by (intros ->; apply Hq; left; reflexivity).
      assert (Hqr : ~ In q rest) by (intros H; apply Hq; right; exact H).
      rewrite (Hoth q Hqr). apply Hoth1. exact Hqp. }
    split; [rewrite Hlist; exact Hlist1|].
    split; [rewrite Hlk; exact Hlk1|].
    split; [rewrite Hmin; exact Hmin1|].
    split.
    { intros q i Hin. destruct (Hhin q i Hin) as [H1|H1].
      - destruct (Hht1_inv q i H1) as [->|H2];
          [right; left; reflexivity|left; exact H2].
      - right. right. exact H1. }
    split.
    { intros q i Hq Hin.
      assert (Hqp : q <> p) by (intros ->; apply Hq; left; reflexivity).
      assert (Hqr : ~ In q rest) by (intros H; apply Hq; right; exact H).
      apply Hhkeep; [exact Hqr|]. apply Hht1_keep; assumption. }
    split.
    { intros q [<-|Hq] Ht.
      - apply Hhkeep; [exact Hnotin|]. rewrite Hht1.
        destruct (rename_target old new (zv_name (reg_zv (rs_reg s) p)));
          [apply hlist_rehash_head|exfalso; apply Ht; reflexivity].
      - pose proof (Hrest_ne q Hq) as Hqp.
        rewrite <- (Hoth1 q Hqp). apply Hhnew; [exact Hq|].
        rewrite (Hoth1 q Hqp). exact Ht. }
    split.
    { intros q [<-|Hq].
      - rewrite (Hoso p Hnotin). exact Hos1.
      - pose proof (Hrest_ne q Hq) as Hqp.
        rewrite (Hos q Hq), (Hoth1 q Hqp), (Hoso1 q Hqp). reflexivity. }
    intros q Hq.
    assert (Hqp : q <> p) by (intros ->; apply Hq; left; reflexivity).
    assert (Hqr : ~ In q rest) by (intros H; apply Hq; right; exact H).
    rewrite (Hoso q Hqr). apply Hoso1. exact Hqp.
Qed.

Lemma zvol_rename_minors_impl_spec table ht_head sz mde old new s :
  zvol_state_lock (rs_reg s) = RW_NONE ->
  NoDup (zvol_state_list (rs_reg s)) ->
  (forall q, In q (zvol_state_list (rs_reg s)) ->
             zv_state_lock (reg_zv (rs_reg s) q) = false /\
             rename_simple s q = true) ->
  let l := zvol_state_list (rs_reg s) in
  exists s' tr,
    zvol_rename_minors_impl false table ht_head sz mde old new s
    = Some (tt, s', tr) /\
    (forall q, In q l ->
               reg_zv (rs_reg s') q
               = rename_zv table sz old new (reg_zv (rs_reg s) q)) /\
    (forall q, ~ In q l -> reg_zv (rs_reg s') q = reg_zv (rs_reg s) q) /\
    zvol_state_list (rs_reg s') = l /\
    zvol_state_lock (rs_reg s') = RW_NONE /\
    zvol_minors (rs_reg s') = zvol_minors (rs_reg s) /\
    (forall q i, In q (zvol_htable (rs_reg s') i) ->
                 In q (zvol_htable (rs_reg s) i) \/ In q l) /\
    (forall q i, ~ In q l -> In q (zvol_htable (rs_reg s) i) ->
                 In q (zvol_htable (rs_reg s') i)) /\
    (forall q, In q l ->
               rename_target old new (zv_name (reg_zv (rs_reg s) q))
               <> None ->
               In q (zvol_htable (rs_reg s')
                       (ht_head
                          (zvol_name_hash table
                             (zv_name (reg_zv (rs_reg s) q)))))) /\
    (forall q, In q l ->
               rs_os s' q
               = match rename_target old new
                         (zv_name (reg_zv (rs_reg s) q)) with
                 | Some n =>
                     renamed_os (mde n) n
                       (zv_volsize (reg_zv (rs_reg s) q)) (rs_os s q)
                 | None => rs_os s q
                 end) /\
    (forall q, ~ In q l -> rs_os s' q = rs_os s q).
Proof.
  intros Hl Hnd Hall l.
  set (s0 := rs_set_reg s (reg_set_lock (rs_reg s) RW_READER)).
  assert (Henter : rs_lift (reg_rw_enter RW_READER) s
                   = Some (tt, s0,
                           [XEv (EvRwEnter L_zvol_state_lock RW_READER)])).
  { unfold rs_lift, reg_rw_enter. rewrite Hl. reflexivity. }
  destruct (zvol_rename_minors_loop_spec table ht_head sz mde old new l s0)
    as (s1 & tr1 & Hrun & Hzv & Hoth & Hlist & Hlk & Hmin & Hhin & Hhkeep
        & Hhnew & Hos & Hoso).
  { exact Hnd. }
  { unfold s0. cbn. discriminate. }
  { intros q Hq. exact (Hall q Hq). }
  unfold zvol_rename_minors_impl.
  rewrite (xbind_run _ _ _ _ _ _ Henter), xbind_xget.
  change (zvol_state_list (rs_reg s0)) with l.
  rewrite (xbind_run _ _ _ _ _ _ Hrun).
  unfold rs_lift, reg_rw_exit. rewrite Hlk.
  change (zvol_state_lock (rs_reg s0)) with RW_READER. cbv iota.
  eexists _, _. split; [reflexivity|].
  cbn [rs_reg rs_os rs_set_reg reg_set_lock reg_zv zvol_state_list
         zvol_htable zvol_state_lock zvol_minors].
  split; [exact Hzv|]. split; [exact Hoth|]. split; [exact Hlist|].
  split; [reflexivity|]. split; [exact Hmin|]. split; [exact Hhin|].
  split; [exact Hhkeep|]. split; [exact Hhnew|]. split; [exact Hos|].
  exact Hoso.
Qed.

Lemma strncmp_eq_longer a : forall c b m n,
  (String.length a < n)%nat -> (String.length a < m)%nat ->
  strncmp_eq (strtake m (a ++ String c b)) a n = false.
Proof.
  induction a as [|x a IH]; intros c b m n Hn Hm.
  - destruct n as [|n]; [inversion Hn|]. destruct m as [|m]; [inversion Hm|].
    reflexivity.
  - destruct n as [|n]; [inversion Hn|]. destruct m as [|m]; [inversion Hm|].
    cbn [String.length] in Hn, Hm.
    cbn [append strtake strncmp_eq]. rewrite Ascii.eqb_refl. cbn [andb].
    apply IH; apply PeanoNat.lt_S_n; assumption.
Qed.

Lemma rename_zv_lock table sz old new zv :
  zv_state_lock (rename_zv table sz old new zv) = zv_state_lock zv.
Proof.
  unfold rename_zv.
  destruct (rename_target old new (zv_name zv)); reflexivity.
Qed.

Lemma rename_zv_no_match table sz old new zv :
  zvol_name_hash table new <> zvol_name_hash table old ->
  (String.length new < MAXNAMELEN)%nat ->
  (String.length new + 1 < sz)%nat ->
  name_hash_match zv new (zvol_name_hash table new) = false ->
  name_hash_match (rename_zv table sz old new zv) new
    (zvol_name_hash table new) = false.
Proof.
  intros Hh Hlen Hsz Hno. unfold rename_zv, rename_target, name_selects.
  destruct (String.eqb (zv_name zv) old) eqn:Heq.
  - apply String.eqb_eq in Heq.
    unfold name_hash_match. cbn [zv_hash zv_set_name zv_set_hash].
    rewrite Heq.
    destruct (zvol_name_hash table old =? zvol_name_hash table new) eqn:He;
      [|reflexivity].
    apply Z.eqb_eq in He. exfalso. apply Hh. symmetry. exact He.
  - cbn [orb].
    destruct (String.prefix old (zv_name zv)
              && match String.get (String.length old) (zv_name zv) with
                 | Some c => Ascii.eqb c "/" || Ascii.eqb c "@"
                 | None => false
                 end) eqn:Hc; [|exact Hno].
    destruct (String.get (String.length old) (zv_name zv)) as [c|] eqn:Hg;
      [|rewrite andb_false_r in Hc; discriminate Hc].
    rewrite <- (strdrop_get _ _ _ Hg).
    unfold name_hash_match. cbn [zv_name zv_set_name zv_set_hash].
    unfold strlcpy. rewrite strncmp_eq_longer.
    + apply andb_false_r.
    + exact Hlen.
    + lia.
Qed.

Lemma strtake_fits s : forall n,
  (String.length s <= n)%nat -> strtake n s = s.
Proof.
  induction s as [|c s IH]; intros n H.
  - destruct n; reflexivity.
  - destruct n as [|n]; [inversion H|].
    cbn [strtake]. rewrite IH; [reflexivity|].
    cbn [String.length] in H. lia.
Qed.

Lemma strncmp_eq_refl s : forall n, strncmp_eq s s n = true.
Proof.
  induction s as [|c s IH]; intros n.
  - destruct n; reflexivity.
  - destruct n as [|n]; [reflexivity|].
    cbn [strncmp_eq]. rewrite Ascii.eqb_refl, IH. reflexivity.
Qed.

(** [zvol_rename_minor] recomputes [zv_hash] before it copies the new
    name, so the volume gets the hash of its old name and is linked at
    the head of the chain of that hash; only [zv_name] and the provider
    or the device follow the new name.  For a new name that fits
    [zv_name], the test of [zvol_find_by_name_hash] for the new name
    succeeds on the renamed volume only if the two names have the same
    hash. *)
Theorem zvol_rename_minor_keeps_old_hash table ht_head sz e p newname s :
  zvol_state_lock (rs_reg s) <> RW_NONE ->
  zv_state_lock (reg_zv (rs_reg s) p) = true ->
  rename_simple s p = true ->
  let zv := reg_zv (rs_reg s) p in
  let h := zvol_name_hash table (zv_name zv) in
  exists s' tr,
    zvol_rename_minor table ht_head sz e p newname s = Some (tt, s', tr) /\
    zv_name (reg_zv (rs_reg s') p) = strlcpy newname sz /\
    zv_hash (reg_zv (rs_reg s') p) = h /\
    (forall i, zvol_htable (rs_reg s') i
               = if i =? ht_head h
                 then p :: remove Z.eq_dec p (zvol_htable (rs_reg s) i)
                 else remove Z.eq_dec p (zvol_htable (rs_reg s) i)) /\
    zvol_state_list (rs_reg s') = zvol_state_list (rs_reg s) /\
    (forall q, q <> p -> reg_zv (rs_reg s') q = reg_zv (rs_reg s) q) /\
    rs_os s' p = renamed_os e newname (zv_volsize zv) (rs_os s p) /\
    ((String.length newname < sz)%nat ->
     name_hash_match (reg_zv (rs_reg s') p) newname
       (zvol_name_hash table newname)
     = (h =? zvol_name_hash table newname)).
Proof.
  intros Hl Hm Hs zv h.
  destruct (zvol_rename_minor_spec table ht_head sz e p newname s Hl Hm Hs)
    as (s' & tr & Hrun & Hzv & Hoth & Hlist & Hht & _ & _ & Hos & _).
  exists s', tr. split; [exact Hrun|].
  rewrite Hzv. split; [reflexivity|]. split; [reflexivity|].
  split; [intros i; rewrite Hht; reflexivity|].
  split; [exact Hlist|]. split; [exact Hoth|]. split; [exact Hos|].
  intros Hfit.
  unfold name_hash_match. cbn [zv_hash zv_name zv_set_name zv_set_hash].
  unfold strlcpy. rewrite strtake_fits by lia.
  rewrite strncmp_eq_refl. apply andb_true_r.
Qed.

Lemma zvol_rename_minor_keeps_old_hash_witness :
  exists s' tr,
    zvol_rename_minor ex_crc_table (fun h => h) MAXNAMELEN 0 1 "tank/new"
      ex_rename_locked = Some (tt, s', tr) /\
    zv_name (reg_zv (rs_reg s') 1) = "tank/new"%string /\
    zv_hash (reg_zv (rs_reg s') 1)
    = zvol_name_hash ex_crc_table "tank/other" /\
    zsd_cdev (rs_os s' 1) = Some "tank/new"%string.
Proof.
  destruct (zvol_rename_minor_keeps_old_hash ex_crc_table (fun h => h)
              MAXNAMELEN 0 1
              "tank/new" ex_rename_locked ltac:(discriminate) eq_refl
              eq_refl)
    as (s' & tr & Hrun & Hn & Hh & _ & _ & _ & Hos & _).
  exists s', tr. split; [exact Hrun|]. split; [exact Hn|].
  split; [exact Hh|]. rewrite Hos. reflexivity.
Defined.

(** [zvol_rename_minor] dereferences the provider of a GEOM volume that
    has none, and for a device volume that is open it calls
    [zvol_last_close], whose assertion fails unless the caller holds
    [zv_suspend_lock] as reader. *)
Theorem zvol_rename_minor_open_device table ht_head sz e p newname s :
  zvol_state_lock (rs_reg s) <> RW_NONE ->
  zv_state_lock (reg_zv (rs_reg s) p) = true ->
  (zso_volmode (rs_os s p) = ZFS_VOLMODE_GEOM /\
   zsg_provider (rs_os s p) = None) \/
  (zso_volmode (rs_os s p) = ZFS_VOLMODE_DEV /\
   zsd_cdev (rs_os s p) <> None /\
   0 < zv_open_count (reg_zv (rs_reg s) p) /\
   zv_suspend_lock (reg_zv (rs_reg s) p) <> RW_READER) ->
  zvol_rename_minor table ht_head sz e p newname s = None.
Proof.
  exact (zvol_rename_minor_crash table ht_head sz e p newname s).
Qed.

Lemma zvol_rename_minor_open_device_witness :
  zvol_rename_minor ex_crc_table (fun h => h) MAXNAMELEN 0 2 "tank/new"
    ex_rename_open
  = None.
Proof.
  apply zvol_rename_minor_open_device.
  - discriminate.
  - reflexivity.
  - right. split; [reflexivity|]. split; [discriminate|].
    split; [reflexivity|discriminate].
Defined.

(** [zvol_rename_minors_impl] renames the volume called [oldname] to
    [newname] and every volume below it ([oldname] followed by a slash or
    an at sign) to [newname] followed by the rest of its name, cut to
    the size of [zv_name]; these are the volumes
    [zvol_remove_minors_impl] selects for [oldname].  Each renamed volume
    gets the hash of its old name and is linked in the chain of that
    hash.  Nothing else in the
    registry changes, and every lock taken is released. *)
Theorem zvol_rename_minors_impl_names table ht_head sz mde old new s :
  zvol_state_lock (rs_reg s) = RW_NONE ->
  NoDup (zvol_state_list (rs_reg s)) ->
  (forall q, In q (zvol_state_list (rs_reg s)) ->
             zv_state_lock (reg_zv (rs_reg s) q) = false /\
             rename_simple s q = true) ->
  let l := zvol_state_list (rs_reg s) in
  exists s' tr,
    zvol_rename_minors_impl false table ht_head sz mde old new s
    = Some (tt, s', tr) /\
    (forall q, In q l ->
       let zv := reg_zv (rs_reg s) q in
       reg_zv (rs_reg s') q
       = if String.eqb (zv_name zv) old then
           zv_set_name (zv_set_hash zv (zvol_name_hash table (zv_name zv)))
             (strlcpy new sz)
         else if name_selects (Some old) (zv_name zv) then
           zv_set_name (zv_set_hash zv (zvol_name_hash table (zv_name zv)))
             (strlcpy (new ++ strdrop (String.length old) (zv_name zv))
                sz)
         else zv) /\
    (forall q, In q l ->
       name_selects (Some old) (zv_name (reg_zv (rs_reg s) q)) = true ->
       In q (zvol_htable (rs_reg s')
               (ht_head
                  (zvol_name_hash table (zv_name (reg_zv (rs_reg s) q)))))) /\
    (forall q, ~ In q l -> reg_zv (rs_reg s') q = reg_zv (rs_reg s) q) /\
    zvol_state_list (rs_reg s') = l /\
    zvol_state_lock (rs_reg s') = RW_NONE /\
    zvol_minors (rs_reg s') = zvol_minors (rs_reg s).
Proof.
  intros Hl Hnd Hall l.
  destruct (zvol_rename_minors_impl_spec table ht_head sz mde old new s Hl Hnd
              Hall)
    as (s' & tr & Hrun & Hzv & Hoth & Hlist & Hlk & Hmin & _ & _ & Hhnew
        & _ & _).
  exists s', tr. split; [exact Hrun|].
  split.
  { intros q Hq zv. rewrite (Hzv q Hq). unfold rename_zv, rename_target.
    fold zv. destruct (String.eqb (zv_name zv) old); [reflexivity|].
    destruct (name_selects (Some old) (zv_name zv)); reflexivity. }
  split.
  { intros q Hq Hsel. apply Hhnew; [exact Hq|].
    unfold rename_target. rewrite Hsel.
    destruct (String.eqb (zv_name (reg_zv (rs_reg s) q)) old);
      discriminate. }
  split; [exact Hoth|]. split; [exact Hlist|]. split; [exact Hlk|].
  exact Hmin.
Qed.

Lemma ex_rename_state_ready q :
  In q (zvol_state_list (rs_reg ex_rename_state)) ->
  zv_state_lock (reg_zv (rs_reg ex_rename_state) q) = false /\
  rename_simple ex_rename_state q = true.
Proof.
  intros [<-|[<-|[]]]; split; reflexivity.
Qed.

Lemma ex_rename_state_nodup :
  NoDup (zvol_state_list (rs_reg ex_rename_state)).
Proof.
  repeat constructor; cbn; intuition discriminate.
Qed.

Lemma zvol_rename_minors_impl_names_witness :
  exists s' tr,
    zvol_rename_minors_impl false ex_crc_table (fun h => h) MAXNAMELEN
      (fun _ => 0)
      "tank/vol" "tank/new" ex_rename_state = Some (tt, s', tr) /\
    zv_name (reg_zv (rs_reg s') 2) = "tank/new"%string /\
    zv_name (reg_zv (rs_reg s') 1) = "tank/other"%string.
Proof.
  destruct (zvol_rename_minors_impl_names ex_crc_table (fun h => h)
              MAXNAMELEN (fun _ => 0) "tank/vol" "tank/new" ex_rename_state
              eq_refl
              ex_rename_state_nodup ex_rename_state_ready)
    as (s' & tr & Hrun & Hzv & _).
  exists s', tr. split; [exact Hrun|].
  rewrite (Hzv 2 (or_intror (or_introl eq_refl))).
  rewrite (Hzv 1 (or_introl eq_refl)).
  split; reflexivity.
Defined.

(** After [zvol_rename_minors_impl] has renamed [oldname] to [newname],
    a lookup of [newname] finds no volume when the two names have
    different hashes: the renamed volume is still filed under the hash
    of [oldname]. *)
Theorem zvol_rename_minors_impl_lookup table ht_head sz mde old new s :
  zvol_state_lock (rs_reg s) = RW_NONE ->
  reg_unlocked (rs_reg s) ->
  NoDup (zvol_state_list (rs_reg s)) ->
  (forall q, In q (zvol_state_list (rs_reg s)) ->
             rename_simple s q = true) ->
  zvol_name_hash table new <> zvol_name_hash table old ->
  (String.length new < MAXNAMELEN)%nat ->
  (String.length new + 1 < sz)%nat ->
  (forall q, name_hash_match (reg_zv (rs_reg s) q) new
               (zvol_name_hash table new) = false) ->
  exists s' tr,
    zvol_rename_minors_impl false table ht_head sz mde old new s
    = Some (tt, s', tr) /\
    (forall q, In q (zvol_state_list (rs_reg s)) ->
               zv_name (reg_zv (rs_reg s) q) = old ->
               zv_name (reg_zv (rs_reg s') q) = strlcpy new sz) /\
    forall env try_ok,
    exists tr',
      zvol_find_by_name env try_ok table (reg_ht ht_head (rs_reg s')) new
        RW_NONE = Some (None, tr').
Proof.
  intros Hl Hu Hnd Hsimple Hh Hlen Hsz Hno.
  destruct (zvol_rename_minors_impl_spec table ht_head sz mde old new s Hl Hnd)
    as (s' & tr & Hrun & Hzv & Hoth & _).
  { intros q Hq. split; [apply Hu|apply Hsimple; exact Hq]. }
  exists s', tr. split; [exact Hrun|].
  split.
  { intros q Hq Hname. rewrite (Hzv q Hq).
    unfold rename_zv, rename_target. rewrite Hname, String.eqb_refl.
    reflexivity. }
  assert (Hall : forall q,
             zv_state_lock (reg_zv (rs_reg s') q) = false /\
             name_hash_match (reg_zv (rs_reg s') q) new
               (zvol_name_hash table new) = false).
  { intros q.
    destruct (in_dec Z.eq_dec q (zvol_state_list (rs_reg s))) as [Hq|Hq].
    - rewrite (Hzv q Hq). split.
      + rewrite rename_zv_lock. apply Hu.
      + apply rename_zv_no_match;
          [exact Hh|exact Hlen|exact Hsz|apply Hno].
    - rewrite (Hoth q Hq). split; [apply Hu|apply Hno]. }
  intros env try_ok.
  set (hn := zvol_name_hash table new) in *.
  destruct (zvol_find_chain_none_mode_run (reg_ht ht_head (rs_reg s') hn)
              new hn) as (r & tr' & Hfind & Hmiss & _).
  { intros zv Hin. apply in_map_iff in Hin. destruct Hin as (q & <- & _).
    apply Hall. }
  rewrite Hmiss in Hfind.
  2:{ apply not_true_is_false. intros Hex. apply existsb_exists in Hex.
      destruct Hex as (zv & Hin & Hmatch).
      apply in_map_iff in Hin. destruct Hin as (q & <- & _).
      rewrite (proj2 (Hall q)) in Hmatch. discriminate Hmatch. }
  unfold zvol_find_by_name, zvol_find_by_name_hash. fold hn.
  rewrite zvol_find_chain_none_mode, Hfind.
  eexists. reflexivity.
Qed.

Lemma ex_rename_state_simple q :
  In q (zvol_state_list (rs_reg ex_rename_state)) ->
  rename_simple ex_rename_state q = true.
Proof. intros H. apply ex_rename_state_ready. exact H. Qed.

Lemma ex_rename_state_no_match q :
  name_hash_match (reg_zv (rs_reg ex_rename_state) q) "tank/new"
    (zvol_name_hash ex_crc_table "tank/new") = false.
Proof. cbn [rs_reg ex_rename_state reg_zv ex_registry].
  destruct (q =? 1); vm_compute; reflexivity.
Qed.

Lemma zvol_rename_minors_impl_lookup_witness :
  exists s' tr tr',
    zvol_rename_minors_impl false ex_crc_table (fun h => h) MAXNAMELEN
      (fun _ => 0)
      "tank/vol" "tank/new" ex_rename_state = Some (tt, s', tr) /\
    zv_name (reg_zv (rs_reg s') 2) = "tank/new"%string /\
    zvol_find_by_name (fun zv => zv) true ex_crc_table
      (reg_ht (fun h => h) (rs_reg s')) "tank/new" RW_NONE
    = Some (None, tr').
Proof.
  destruct (zvol_rename_minors_impl_lookup ex_crc_table (fun h => h)
              MAXNAMELEN (fun _ => 0) "tank/vol" "tank/new" ex_rename_state
              eq_refl
              ex_registry_unlocked ex_rename_state_nodup
              ex_rename_state_simple)
    as (s' & tr & Hrun & Hname & Hfind).
  - vm_compute. discriminate.
  - apply Nat.ltb_lt. vm_compute. reflexivity.
  - apply Nat.ltb_lt. vm_compute. reflexivity.
  - exact ex_rename_state_no_match.
  - destruct (Hfind (fun zv => zv) true) as (tr' & Hf).
    exists s', tr, tr'. split; [exact Hrun|].
    split; [|exact Hf].
    apply (Hname 2 (or_intror (or_introl eq_refl)) eq_refl).
Defined.

Lemma xbind_fail {S A B} (c : XM S A) (k : A -> XM S B) s :
  c s = None -> xbind c k s = None.
Proof. intros H. unfold xbind. rewrite H. reflexivity. Qed.

(** [zvol_geom_close] once the locks are taken, in closed form. *)
Lemma zvol_geom_close_locked_run count (drop : bool) s :
  zv_state_lock (zo_zv s) = true ->
  zv_suspend_lock (zo_zv s) = (if drop then RW_READER else RW_NONE) ->
  let c := zv_open_count (zo_zv s) - count in
  let last := c =? 0 in
  let s1 := zo_set_zv s (zv_set_open_count (zo_zv s) c) in
  (last && negb drop = true ->
   zvol_geom_close_locked count drop s = None) /\
  (last && negb drop = false ->
   (zv_written_to (zo_zv s) = true -> zv_zilog (zo_zv s) <> None) ->
   exists tr,
     zvol_geom_close_locked count drop s
     = Some (0, zo_locks (if last then zo_last_closed s1 else s1) false
                  RW_NONE, tr) /\
     objsets_owned tr = (if last then -1 else 0)).
Proof.
  intros Hs Hq c last s1.
  unfold zvol_geom_close_locked.
  rewrite xbind_xemit.
  rewrite (xbind_run _ _ s tt s []).
  2:{ unfold olift, xlift, assert_, MUTEX_HELD. rewrite Hs.
      destruct s; reflexivity. }
  rewrite (xbind_run _ _ s tt s1 []) by reflexivity.
  rewrite xbind_xget.
  change (zv_open_count (zo_zv s1)) with c. fold last.
  destruct last eqn:Hlast; cbn [andb].
  - unfold xwhen at 1.
    destruct drop; cbn [negb]; (split; [|]); try discriminate.
    + intros _ Hz.
      assert (Hlc :
                (olift (assert_ RW_READ_HELD) ;; zvol_last_close)%X s1
                = Some (tt, zo_last_closed s1,
                        map XEv (shutdown_events (zo_zv s1))
                        ++ [XEv EvObjsetDisown])).
      { rewrite (xbind_run _ _ s1 tt s1 []).
        - rewrite zvol_last_close_run by (cbn; assumption). reflexivity.
        - unfold olift, xlift, assert_, RW_READ_HELD. cbn. rewrite Hq.
          destruct s; reflexivity. }
      rewrite (xbind_run _ _ _ _ _ _ Hlc).
      unfold xbind, olift, xlift, m_mutex_exit, m_rw_exit, m_state_lock,
        m_suspend_lock, lock_op, bind, mutex_exit, rw_exit, xret, xwhen.
      do 3 (cbn [zo_zv zo_set_zv zo_last_closed zv_state_lock
                   zv_suspend_lock zv_set_objset zv_set_dn zv_set_zilog
                   zv_set_open_count s1 zv_set_state_lock
                   zv_set_suspend_lock];
            rewrite ?Hs, ?Hq).
      eexists. split; [reflexivity|].
      cbn [app map objsets_owned].
      rewrite !objsets_owned_app, objsets_owned_shutdown.
      reflexivity.
    + intros _.
      assert (Hfail :
                (olift (assert_ RW_READ_HELD) ;; zvol_last_close)%X s1
                = None).
      { apply xbind_fail. unfold olift, xlift, assert_, RW_READ_HELD.
        change (zv_suspend_lock (zo_zv s1))
          with (zv_suspend_lock (zo_zv s)).
        rewrite Hq. reflexivity. }
      rewrite (xbind_fail _ _ _ Hfail). reflexivity.
  - split; [discriminate|]. intros _ _.
    unfold xwhen at 1. rewrite xbind_xret.
    unfold xbind, olift, xlift, m_mutex_exit, m_rw_exit, m_state_lock,
      m_suspend_lock, lock_op, bind, mutex_exit, rw_exit, xret, xwhen.
    destruct drop;
      do 3 (cbn [zo_zv zo_set_zv zv_state_lock
                   zv_suspend_lock zv_set_open_count s1
                   zv_set_state_lock zv_set_suspend_lock];
            rewrite ?Hs, ?Hq);
      cbn;
      (eexists; split;
       [unfold zo_locks, zv_set_state_lock, zv_set_suspend_lock,
          zv_set_open_count; cbn; rewrite ?Hq; reflexivity
       |reflexivity]).
Qed.

Lemma zvol_geom_close_zv_run o count s :
  zv_unlocked (zo_zv s) ->
  0 < zv_open_count (zo_zv s) ->
  (zo_excl s = true -> zv_open_count (zo_zv s) = 1) ->
  let f := fun c => c - count =? 0 in
  let v := open_view o f (zo_set_excl s false) in
  let drop := f (zv_open_count (zo_zv s))
              && (oo_try_ok o
                  || negb (negb (zv_open_count (zo_zv v) =? 1))) in
  let s2 := zo_locks v true (if drop then RW_READER else RW_NONE) in
  exists tr0,
    forallb is_lock_xevent tr0 = true /\
    zvol_geom_close_zv o ZFS_VOLMODE_GEOM count s
    = match zvol_geom_close_locked count drop s2 with
      | Some (e, s', tr) => Some (e, s', tr0 ++ tr)
      | None => None
      end.
Proof.
  intros Hu Hpos Hex f v drop s2.
  destruct Hu as [Hs Hq].
  set (sx := zo_set_excl s false).
  assert (Hux : zv_unlocked (zo_zv sx)) by (split; assumption).
  destruct (enter_suspend_if_run o f (fun c => negb (c =? 1)) sx)
    as (tr1 & Hrun & Hlk).
  rewrite (zo_locks_unlocked sx Hux) in Hrun.
  change (zv_open_count (zo_zv sx)) with (zv_open_count (zo_zv s))
    in Hrun.
  fold v in Hrun. fold drop in Hrun. fold s2 in Hrun.
  unfold zvol_geom_close_zv.
  rewrite xbind_xemit.
  rewrite (xbind_run _ _ _ _ _ _ (olift_mutex_enter_run s Hs)).
  rewrite Hq. rewrite xbind_xget.
  assert (Hclr :
            (xwhen (zo_excl (zo_locks s true RW_NONE))
               (xassert (fun s => zv_open_count (zo_zv s) =? 1) ;;
                xmodify (fun s => zo_set_excl s false)))%X
              (zo_locks s true RW_NONE)
            = Some (tt, zo_locks sx true RW_NONE, [])).
  { change (zo_excl (zo_locks s true RW_NONE)) with (zo_excl s).
    unfold xwhen. destruct (zo_excl s) eqn:He.
    - unfold xbind, xassert, xmodify.
      change (zv_open_count (zo_zv (zo_locks s true RW_NONE)))
        with (zv_open_count (zo_zv s)).
      rewrite (Hex eq_refl). reflexivity.
    - unfold xret. subst sx. rewrite (zo_set_excl_id s He). reflexivity. }
  rewrite (xbind_run _ _ _ _ _ _ Hclr).
  rewrite (xbind_run _ _ _ tt (zo_locks sx true RW_NONE) [])
    by reflexivity.
  assert (Hpos' :
            xassert (fun s => 0 <? zv_open_count (zo_zv s))
              (zo_locks sx true RW_NONE)
            = Some (tt, zo_locks sx true RW_NONE, [])).
  { unfold xassert.
    change (zv_open_count (zo_zv (zo_locks sx true RW_NONE)))
      with (zv_open_count (zo_zv s)).
    apply Z.ltb_lt in Hpos. rewrite Hpos. reflexivity. }
  rewrite (xbind_run _ _ _ _ _ _ Hpos').
  rewrite (xbind_run _ _ _ _ _ _ Hrun).
  subst sx. fold v. fold drop. fold s2.
  exists (XEv (EvRwEnter L_zvol_state_lock RW_READER)
          :: [XEv (EvMutexEnter (L_state (zv_name (zo_zv s))))] ++ tr1).
  split.
  + cbn [forallb app is_lock_xevent is_lock_event andb]. exact Hlk.
  + destruct (zvol_geom_close_locked count drop s2) as [[[e s'] tr]|];
      [|reflexivity].
    cbn [app]. rewrite <- ?app_assoc. reflexivity.
Qed.

Lemma zvol_geom_close_spec o count s :
  zv_unlocked (zo_zv s) ->
  0 < count <= zv_open_count (zo_zv s) ->
  (zo_excl s = true -> zv_open_count (zo_zv s) = 1) ->
  oo_try_ok o = true \/ zv_open_count (zo_zv s) <> count ->
  (zv_written_to (zo_zv s) = true -> zv_zilog (zo_zv s) <> None) ->
  let last := zv_open_count (zo_zv s) =? count in
  exists s' tr,
    zvol_geom_close o ZFS_VOLMODE_GEOM count (Some s)
    = Some (0, Some s', tr) /\
    zv_unlocked (zo_zv s') /\
    zo_excl s' = false /\
    zo_namespace s' = zo_namespace s /\
    zv_open_count (zo_zv s') = zv_open_count (zo_zv s) - count /\
    zv_name (zo_zv s') = zv_name (zo_zv s) /\
    objsets_owned tr = (if last then -1 else 0) /\
    (last = true -> zv_closed (zo_zv s')) /\
    (last = false ->
     zv_objset (zo_zv s') = zv_objset (zo_zv s) /\
     zv_dn (zo_zv s') = zv_dn (zo_zv s) /\
     zv_zilog (zo_zv s') = zv_zilog (zo_zv s)).
Proof.
  intros Hu Hc Hex Hfree Hz last.
  destruct (zvol_geom_close_zv_run o count s Hu ltac:(lia) Hex)
    as (tr0 & Hlk & Hrun).
  set (f := fun c => c - count =? 0) in *.
  assert (Hf : f (zv_open_count (zo_zv s)) = last).
  { unfold f, last. destruct (zv_open_count (zo_zv s) =? count) eqn:H1.
    - apply Z.eqb_eq in H1. apply Z.eqb_eq. lia.
    - apply Z.eqb_neq in H1. apply Z.eqb_neq. lia. }
  assert (Hv : open_view o f (zo_set_excl s false) = zo_set_excl s false).
  { unfold open_view.
    change (zv_open_count (zo_zv (zo_set_excl s false)))
      with (zv_open_count (zo_zv s)).
    rewrite Hf. unfold last.
    destruct Hfree as [Ht|Hne].
    - rewrite Ht, andb_false_r. reflexivity.
    - apply Z.eqb_neq in Hne. rewrite Hne. reflexivity. }
  rewrite Hv in Hrun.
  change (zv_open_count (zo_zv (zo_set_excl s false)))
    with (zv_open_count (zo_zv s)) in Hrun.
  change (zv_open_count (zo_zv s) - count =? 0)
    with (f (zv_open_count (zo_zv s))) in Hrun.
  rewrite Hf in Hrun.
  set (drop := last
               && (oo_try_ok o
                   || negb (negb (zv_open_count (zo_zv s) =? 1)))) in *.
  assert (Hdrop : last = true -> drop = true).
  { intros Hl. unfold drop. rewrite Hl. cbn [andb].
    destruct Hfree as [Ht|Hne]; [rewrite Ht; reflexivity|].
    unfold last in Hl. apply Z.eqb_eq in Hl. contradiction. }
  set (s2 := zo_locks (zo_set_excl s false) true
               (if drop then RW_READER else RW_NONE)) in *.
  destruct (zvol_geom_close_locked_run count drop s2)
    as [_ Hok]; [reflexivity|reflexivity|].
  change (zv_open_count (zo_zv s2)) with (zv_open_count (zo_zv s)) in Hok.
  assert (Hl0 : (zv_open_count (zo_zv s) - count =? 0) = last).
  { unfold last. destruct (zv_open_count (zo_zv s) =? count) eqn:H1.
    - apply Z.eqb_eq in H1. apply Z.eqb_eq. lia.
    - apply Z.eqb_neq in H1. apply Z.eqb_neq. lia. }
  rewrite Hl0 in Hok.
  destruct Hok as (tr & Hrun2 & Hown).
  { destruct last eqn:Hl; [|reflexivity].
    rewrite (Hdrop eq_refl). reflexivity. }
  { exact Hz. }
  unfold zvol_geom_close. rewrite Hrun, Hrun2.
  eexists _, _. split; [reflexivity|].
  rewrite objsets_owned_app, (objsets_owned_locks _ Hlk), Hown.
  clear Hrun Hrun2 Hown.
  destruct last eqn:Hlast.
  - apply Z.eqb_eq in Hl0.
    split; [split; reflexivity|]. split; [reflexivity|].
    split; [reflexivity|].
    split; [reflexivity|]. split; [reflexivity|]. split; [reflexivity|].
    split; [|discriminate].
    intros _. unfold zv_closed. zo_fields. rewrite Hl0.
    repeat split; reflexivity.
  - split; [split; reflexivity|]. split; [reflexivity|].
    split; [reflexivity|].
    split; [reflexivity|]. split; [reflexivity|]. split; [reflexivity|].
    split; [discriminate|]. intros _. repeat split; reflexivity.
Qed.

(** A close of [count] references that does not have to wait for the
    suspend lock returns 0 with the count lowered by [count] and every
    lock released; when these were the last references the volume is shut
    down and its dataset disowned, otherwise the dataset stays as it
    was.  [ZVOL_EXCL] is cleared in both cases. *)
Theorem zvol_geom_close_outcome o count s :
  zv_unlocked (zo_zv s) ->
  0 < count <= zv_open_count (zo_zv s) ->
  (zo_excl s = true -> zv_open_count (zo_zv s) = 1) ->
  oo_try_ok o = true \/ zv_open_count (zo_zv s) <> count ->
  (zv_written_to (zo_zv s) = true -> zv_zilog (zo_zv s) <> None) ->
  let last := zv_open_count (zo_zv s) =? count in
  exists s' tr,
    zvol_geom_close o ZFS_VOLMODE_GEOM count (Some s)
    = Some (0, Some s', tr) /\
    zv_unlocked (zo_zv s') /\
    zo_excl s' = false /\
    zo_namespace s' = zo_namespace s /\
    zv_open_count (zo_zv s') = zv_open_count (zo_zv s) - count /\
    zv_name (zo_zv s') = zv_name (zo_zv s) /\
    objsets_owned tr = (if last then -1 else 0) /\
    (last = true -> zv_closed (zo_zv s')) /\
    (last = false ->
     zv_objset (zo_zv s') = zv_objset (zo_zv s) /\
     zv_dn (zo_zv s') = zv_dn (zo_zv s) /\
     zv_zilog (zo_zv s') = zv_zilog (zo_zv s)).
Proof.
  exact (zvol_geom_close_spec o count s).
Qed.

Lemma zvol_geom_close_outcome_witness :
  exists s' tr,
    zvol_geom_close ex_open_oracle ZFS_VOLMODE_GEOM 1 (Some ex_geom_open)
    = Some (0, Some s', tr) /\
    zv_closed (zo_zv s') /\ objsets_owned tr = -1.
Proof.
  destruct (zvol_geom_close_outcome ex_open_oracle 1 ex_geom_open)
    as (s' & tr & Hrun & _ & _ & _ & _ & _ & Hown & Hcl & _).
  - split; reflexivity.
  - cbn. lia.
  - intros _. reflexivity.
  - left. reflexivity.
  - discriminate.
  - exists s', tr. split; [exact Hrun|].
    split; [exact (Hcl eq_refl)|exact Hown].
Defined.

(** When the close of the last [count] references, [count] at least 2,
    finds the suspend lock taken, it waits for the lock and then gives
    it up again, because the count is compared with 1 instead of
    [count]; the count then drops to zero and the assertion that the
    suspend lock is held, made before [zvol_last_close], fails. *)
Theorem zvol_geom_close_contended o count s :
  zv_unlocked (zo_zv s) ->
  zo_excl s = false ->
  zv_open_count (zo_zv s) = count ->
  2 <= count ->
  oo_try_ok o = false ->
  zv_open_count (zo_zv (oo_env o s)) = count ->
  zvol_geom_close o ZFS_VOLMODE_GEOM count (Some s) = None.
Proof.
  intros Hu Hex Hoc Hc Ht Henv.
  destruct (zvol_geom_close_zv_run o count s Hu ltac:(lia)
              ltac:(intros H; rewrite Hex in H; discriminate H))
    as (tr0 & Hlk & Hrun).
  rewrite (zo_set_excl_id s Hex) in Hrun.
  set (f := fun c => c - count =? 0) in *.
  assert (Hf : f (zv_open_count (zo_zv s)) = true).
  { unfold f. rewrite Hoc, Z.sub_diag. reflexivity. }
  change (zv_open_count (zo_zv s) - count =? 0)
    with (f (zv_open_count (zo_zv s))) in Hrun.
  assert (Hv : open_view o f s = os_interfere (oo_env o) s).
  { unfold open_view. rewrite Hf, Ht. reflexivity. }
  rewrite Hv, Hf, Ht in Hrun.
  change (zv_open_count (zo_zv (os_interfere (oo_env o) s)))
    with (zv_open_count (zo_zv (oo_env o s))) in Hrun.
  rewrite Henv in Hrun.
  assert (H1 : (count =? 1) = false) by (apply Z.eqb_neq; lia).
  rewrite H1 in Hrun. cbn [andb orb negb] in Hrun.
  destruct (zvol_geom_close_locked_run count false
              (zo_locks (os_interfere (oo_env o) s) true RW_NONE))
    as [Hnone _]; [reflexivity|reflexivity|].
  change (zv_open_count
            (zo_zv (zo_locks (os_interfere (oo_env o) s) true RW_NONE)))
    with (zv_open_count (zo_zv (oo_env o s))) in Hnone.
  rewrite Henv, Z.sub_diag in Hnone.
  unfold zvol_geom_close. rewrite Hrun, (Hnone eq_refl). reflexivity.
Qed.

Lemma zvol_geom_close_contended_witness :
  zvol_geom_close ex_busy_oracle ZFS_VOLMODE_GEOM 2 (Some ex_geom_open2)
  = None.
Proof.
  apply zvol_geom_close_contended.
  - split; reflexivity.
  - reflexivity.
  - reflexivity.
  - lia.
  - reflexivity.
  - reflexivity.
Defined.

(** The checks of [zvol_geom_open] in closed form. *)
Lemma zvol_geom_open_checks_run o fl count (dn drop : bool) s :
  zv_state_lock (zo_zv s) = true ->
  zv_suspend_lock (zo_zv s) = (if drop then RW_READER else RW_NONE) ->
  (zv_open_count (zo_zv s) = 0 ->
   drop = true /\
   (zv_written_to (zo_zv s) = true -> zv_zilog (zo_zv s) <> None)) ->
  let e := open_check_error fl (oo_incompatible o) s in
  let s1 := if e =? 0 then zo_geom_opened fl count s
            else if zv_open_count (zo_zv s) =? 0 then zo_last_closed s
                 else s in
  exists tr,
    zvol_geom_open_checks o fl count dn drop s
    = Some (e,
            zo_locks (if dn then zo_set_namespace s1 false else s1) false
              RW_NONE,
            tr) /\
    objsets_owned tr
    = (if negb (e =? 0) && (zv_open_count (zo_zv s) =? 0) then -1 else 0).
Proof.
  intros Hs Hq Hc e s1. subst e s1.
  unfold zvol_geom_open_checks, open_check_error.
  rewrite xbind_xget.
  assert (Hopened :
            forall err,
              err <> 0 ->
              exists tr,
                zvol_open_out_opened dn drop err s
                = Some (err,
                        zo_locks
                          (if dn
                           then zo_set_namespace
                                  (if err =? 0 then zo_geom_opened fl count s
                                   else if zv_open_count (zo_zv s) =? 0
                                        then zo_last_closed s else s) false
                           else
                             if err =? 0 then zo_geom_opened fl count s
                             else if zv_open_count (zo_zv s) =? 0
                                  then zo_last_closed s else s)
                          false RW_NONE, tr) /\
                objsets_owned tr
                = (if negb (err =? 0) && (zv_open_count (zo_zv s) =? 0)
                   then -1 else 0)).
  { intros err He.
    rewrite zvol_open_out_opened_run by assumption.
    apply Z.eqb_neq in He. rewrite He. cbn [negb andb app].
    eexists. split; [reflexivity|].
    rewrite objsets_owned_app.
    destruct (zv_open_count (zo_zv s) =? 0).
    + rewrite objsets_owned_app, objsets_owned_shutdown.
      destruct dn, drop; reflexivity.
    + destruct dn, drop; reflexivity. }
  destruct (fl_write fl && (zv_rdonly (zo_zv s) || oo_incompatible o));
    [apply Hopened; discriminate|].
  destruct (zo_excl s) eqn:Hex; [apply Hopened; discriminate|].
  destruct (fl_excl fl && negb (zv_open_count (zo_zv s) =? 0)) eqn:Hfe;
    [apply Hopened; discriminate|].
  clear Hopened.
  unfold xbind, xwhen, xmodify, xret, olift, xlift, modify, xget, xemit,
    m_mutex_exit, m_rw_exit, m_state_lock, m_suspend_lock, lock_op, bind,
    mutex_exit, rw_exit.
  destruct (fl_excl fl) eqn:Hfx, dn;
    cbn [zo_zv zo_set_zv zo_set_excl zo_set_namespace
           zv_state_lock zv_suspend_lock zv_set_open_count
           zv_set_state_lock zv_set_suspend_lock zv_name app map];
    rewrite ?Hs;
    cbn [zo_zv zo_set_zv zo_set_excl zo_set_namespace
           zv_state_lock zv_suspend_lock zv_set_open_count
           zv_set_state_lock zv_set_suspend_lock zv_name app map];
    rewrite ?Hs, ?Hq;
    destruct drop;
    cbn [zo_zv zo_set_zv zo_set_excl zo_set_namespace
           zv_state_lock zv_suspend_lock zv_set_open_count
           zv_set_state_lock zv_set_suspend_lock zv_name app map];
    rewrite ?Hs, ?Hq;
    (eexists; split;
     [unfold zo_geom_opened, zo_locks; rewrite ?Hfx;
      unfold zv_set_state_lock, zv_set_suspend_lock, zv_set_open_count;
      cbn; rewrite ?Hq; reflexivity|reflexivity]).
Qed.

(** [zvol_geom_open] once the locks are taken, in closed form.  The
    caller holds the namespace lock when the volume is closed. *)
Lemma zvol_geom_open_locked_run o fl count (dn drop : bool) s :
  zv_state_lock (zo_zv s) = true ->
  zv_suspend_lock (zo_zv s) = (if drop then RW_READER else RW_NONE) ->
  (zv_open_count (zo_zv s) = 0 -> drop = true /\ zo_namespace s = true) ->
  let first := zv_open_count (zo_zv s) =? 0 in
  let e1 := if first then first_open_error o else 0 in
  let sf := zo_set_zv s (first_open_zv o (zo_zv s)) in
  let s3 := if first
            then if e1 =? 0
                 then zo_set_provider sf (zv_volsize (zo_zv sf))
                        (zv_volblocksize (zo_zv sf))
                 else sf
            else s in
  let e := if e1 =? 0 then open_check_error fl (oo_incompatible o) s3
           else e1 in
  let s4 := if e =? 0 then zo_geom_opened fl count s3
            else if (e1 =? 0) && first then zo_last_closed s3 else s3 in
  exists tr,
    zvol_geom_open_locked o fl count dn drop s
    = Some (e,
            zo_locks (if dn then zo_set_namespace s4 false else s4) false
              RW_NONE,
            tr) /\
    objsets_owned tr = (if first && (e =? 0) then 1 else 0).
Proof.
  intros Hs Hq Hd first e1 sf s3 e s4.
  unfold zvol_geom_open_locked.
  rewrite xbind_xemit.
  rewrite (xbind_run _ _ s tt s []).
  2:{ unfold olift, xlift, assert_, MUTEX_HELD. rewrite Hs.
      destruct s; reflexivity. }
  rewrite xbind_xget. cbn [app].
  destruct (zv_open_count (zo_zv s) =? 0) eqn:Hoc.
  - (* first open *)
    apply Z.eqb_eq in Hoc. destruct (Hd Hoc) as [-> Hns].
    destruct (first_open_zv_frame o (zo_zv s))
      as (Hf1 & Hf2 & Hf3 & Hf4 & Hf5 & Hf6).
    rewrite (xbind_run _ _ s tt s []).
    2:{ unfold olift, xlift, assert_, RW_READ_HELD. rewrite Hq.
        destruct s; reflexivity. }
    pose proof (zvol_first_open_run o (negb (fl_write fl)) s Hs Hq)
      as Hfo.
    rewrite Hns in Hfo. cbn [negb andb app] in Hfo.
    rewrite (xbind_run _ _ _ _ _ _ Hfo).
    fold sf.
    subst first e1 s3 e s4. cbn [andb].
    destruct (first_open_error o =? 0) eqn:He; cbn [negb andb].
    + apply Z.eqb_eq in He. destruct (Hf5 He) as (Hw & _).
      rewrite xbind_xmodify.
      set (s3 := zo_set_provider sf (zv_volsize (zo_zv sf))
                   (zv_volblocksize (zo_zv sf))).
      destruct (zvol_geom_open_checks_run o fl count dn true s3)
        as (tr & Hrun & Hown).
      { cbn. rewrite Hf1. exact Hs. }
      { cbn. rewrite Hf2. exact Hq. }
      { intros _. split; [reflexivity|]. cbn. rewrite Hw. discriminate. }
      rewrite Hrun.
      assert (Ho3 : (zv_open_count (zo_zv s3) =? 0) = true)
        by (cbn; rewrite Hf3; apply Z.eqb_eq; exact Hoc).
      rewrite Ho3 in Hown.
      eexists. split; [rewrite Ho3; reflexivity|].
      cbn [app objsets_owned]. rewrite !objsets_owned_app, Hown.
      rewrite objsets_owned_first_open.
      assert (He' : (first_open_error o =? 0) = true)
        by (apply Z.eqb_eq; exact He).
      rewrite He'.
      destruct (open_check_error fl (oo_incompatible o) s3 =? 0);
        reflexivity.
    + rewrite zvol_open_out_locked_run
        by (cbn; rewrite ?Hf1, ?Hf2; assumption).
      rewrite ?He.
      eexists. split; [reflexivity|].
      cbn [app objsets_owned]. rewrite !objsets_owned_app.
      rewrite objsets_owned_first_open. rewrite ?He.
      destruct dn; reflexivity.
  - (* already open *)
    subst first e1 s3 e s4. cbn [andb negb]. cbn [Z.eqb].
    destruct (zvol_geom_open_checks_run o fl count dn drop s Hs Hq)
      as (tr & Hrun & Hown).
    { intros H. apply Z.eqb_neq in Hoc. contradiction. }
    rewrite Hrun. rewrite Hoc in Hown. rewrite andb_false_r in Hown.
    rewrite Hoc.
    eexists. split; [reflexivity|].
    cbn [app objsets_owned]. exact Hown.
Qed.

(** [zvol_geom_open_held] in closed form: the lock acquisition followed
    by the rest of the function on the volume as it is then. *)
Lemma zvol_geom_open_held_run o fl count dn s :
  zv_unlocked (zo_zv s) ->
  let v := open_view o (fun c => c =? 0) s in
  let drop := (zv_open_count (zo_zv s) =? 0)
              && (oo_try_ok o
                  || negb (negb (zv_open_count (zo_zv v) =? 0))) in
  let s2 := zo_locks v true (if drop then RW_READER else RW_NONE) in
  (zv_open_count (zo_zv v) = 0 -> drop = true) /\
  exists tr0,
    forallb is_lock_xevent tr0 = true /\
    zvol_geom_open_held o ZFS_VOLMODE_GEOM fl count dn s
    = match zvol_geom_open_locked o fl count dn drop s2 with
      | Some (e, s', tr) => Some (e, s', tr0 ++ tr)
      | None => None
      end.
Proof.
  intros Hu v drop s2.
  split.
  - subst drop v. unfold open_view.
    destruct (zv_open_count (zo_zv s) =? 0) eqn:Hoc; cbn [andb].
    + destruct (oo_try_ok o); cbn [negb orb]; [reflexivity|].
      intros H. rewrite H. reflexivity.
    + intros H. apply Z.eqb_neq in Hoc. contradiction.
  - destruct Hu as [Hs Hq].
    destruct (enter_suspend_if_run o (fun c => c =? 0)
                (fun c => negb (c =? 0)) s) as (tr1 & Hrun & Hlk).
    rewrite (zo_locks_unlocked s (conj Hs Hq)) in Hrun.
    fold v in Hrun. fold drop in Hrun. fold s2 in Hrun.
    unfold zvol_geom_open_held.
    rewrite (xbind_run _ _ _ _ _ _ (olift_mutex_enter_run s Hs)).
    rewrite Hq.
    rewrite (xbind_run _ _ _ tt (zo_locks s true RW_NONE) [])
      by reflexivity.
    rewrite (xbind_run _ _ _ _ _ _ Hrun).
    exists ([XEv (EvMutexEnter (L_state (zv_name (zo_zv s))))] ++ tr1).
    split.
    + cbn [forallb app is_lock_xevent is_lock_event andb]. exact Hlk.
    + destruct (zvol_geom_open_locked o fl count dn drop s2)
        as [[[e s'] tr]|]; [|reflexivity].
      cbn [app]. rewrite <- ?app_assoc. reflexivity.
Qed.

Lemma os_interfere_unlocked env s :
  zv_unlocked (zo_zv s) -> zv_unlocked (zo_zv (os_interfere env s)).
Proof. intros [Hs Hq]. split; cbn; assumption. Qed.

(** Two passes through [retry] are enough: the caller that had to wait
    for the namespace lock owns it on the second pass. *)
Lemma zvol_geom_open_retry_run n o fl count gone s :
  let takes := (zv_open_count (zo_zv s) =? 0) && negb (zo_namespace s) in
  let waits := takes && negb (oo_ns_try_ok o) in
  let sw := if waits then os_interfere (oo_env o) s else s in
  let sh := if takes then zo_set_namespace sw true else s in
  exists tr0,
    objsets_owned tr0 = 0 /\
    zvol_geom_open_retry (S (S n)) o ZFS_VOLMODE_GEOM fl count gone false
      false s
    = if waits && gone
      then Some (ENXIO, zo_set_namespace sw false, tr0)
      else
        match zvol_geom_open_held o ZFS_VOLMODE_GEOM fl count takes sh with
        | Some (e, s', tr) => Some (e, s', tr0 ++ tr)
        | None => None
        end.
Proof.
  intros takes waits sw sh. subst waits sw sh.
  cbn [zvol_geom_open_retry andb].
  rewrite xbind_xemit, xbind_xget. fold takes.
  destruct takes eqn:Htk; cbn [andb].
  - rewrite xbind_xemit.
    destruct (oo_ns_try_ok o) eqn:Ht; cbn [negb andb].
    + rewrite xbind_xmodify.
      exists [XEv (EvRwEnter L_zvol_state_lock RW_READER);
              XNsTryEnter true].
      split; [reflexivity|].
      destruct (zvol_geom_open_held _ _ _ _ _ _) as [[[e s'] tr]|];
        reflexivity.
    + rewrite xbind_xemit, xbind_xmodify, xbind_xemit, xbind_xmodify.
      rewrite xbind_xemit. cbn [andb].
      destruct gone.
      * unfold xbind, xwhen, xemit, xmodify, xret. cbn [app].
        eexists. split; [|reflexivity]. reflexivity.
      * rewrite xbind_xget.
        change (zo_namespace
                  (zo_set_namespace (os_interfere (oo_env o) s) true))
          with true.
        rewrite andb_false_r.
        exists [XEv (EvRwEnter L_zvol_state_lock RW_READER);
                XNsTryEnter false; XEv (EvRwExit L_zvol_state_lock);
                XNsEnter; XEv (EvRwEnter L_zvol_state_lock RW_READER)].
        split; [reflexivity|].
        destruct (zvol_geom_open_held _ _ _ _ _ _) as [[[e s'] tr]|];
          reflexivity.
  - exists [XEv (EvRwEnter L_zvol_state_lock RW_READER)].
    split; [reflexivity|].
    destruct (zvol_geom_open_held _ _ _ _ _ _) as [[[e s'] tr]|];
      reflexivity.
Qed.

Lemma zvol_geom_open_spec n o fl count gone s :
  zv_unlocked (zo_zv s) ->
  let takes := (zv_open_count (zo_zv s) =? 0) && negb (zo_namespace s) in
  let waits := takes && negb (oo_ns_try_ok o) in
  let sw := if waits then os_interfere (oo_env o) s else s in
  let sh := if takes then zo_set_namespace sw true else s in
  let v := open_view o (fun c => c =? 0) sh in
  let first := zv_open_count (zo_zv v) =? 0 in
  let ro := so_ro (oo_setup o) || so_snapshot (oo_setup o)
            || negb (so_writeable (oo_setup o)) in
  exists e s' tr,
    zvol_geom_open (S (S n)) o ZFS_VOLMODE_GEOM fl count false gone (Some s)
    = Some (e, Some s', tr) /\
    zv_unlocked (zo_zv s') /\
    zo_namespace s' = zo_namespace s /\
    (waits && gone = true -> e = ENXIO /\ objsets_owned tr = 0) /\
    (waits && gone = false ->
     objsets_owned tr = (if first && (e =? 0) then 1 else 0) /\
     e = (if first
          then if first_open_error o =? 0
               then if fl_write fl && (ro || oo_incompatible o) then EROFS
                    else if zo_excl v then EBUSY else 0
               else first_open_error o
          else open_check_error fl (oo_incompatible o) v) /\
     zv_open_count (zo_zv s')
     = zv_open_count (zo_zv v) + (if e =? 0 then count else 0) /\
     zo_excl s' = (if e =? 0 then fl_excl fl else zo_excl v) /\
     (first = true -> e = 0 ->
      zv_objset (zo_zv s') = Some (so_objset (oo_setup o)) /\
      zo_mediasize s' = zv_volsize (zo_zv s') /\
      zo_stripesize s' = zv_volblocksize (zo_zv s') /\
      zv_written_to (zo_zv s') = false) /\
     (first = true -> e <> 0 -> zv_objset (zo_zv v) = None ->
      zv_objset (zo_zv s') = None)).
Proof.
  intros Hu takes waits sw sh v first ro.
  destruct (zvol_geom_open_retry_run n o fl count gone s)
    as (trr & Hownr & Hrunr).
  fold takes in Hrunr. fold waits in Hrunr. fold sw in Hrunr.
  fold sh in Hrunr.
  assert (Hns_takes : takes = true -> zo_namespace s = false).
  { unfold takes. intros H. apply andb_true_iff in H. destruct H as [_ H].
    destruct (zo_namespace s); [discriminate H|reflexivity]. }
  assert (Huw : zv_unlocked (zo_zv sw)).
  { unfold sw. destruct waits; [apply os_interfere_unlocked|]; exact Hu. }
  assert (Hnw : zo_namespace sw = zo_namespace s).
  { unfold sw. destruct waits; reflexivity. }
  unfold zvol_geom_open. rewrite Hrunr.
  destruct (waits && gone) eqn:Hwg.
  - (* the volume went away while the caller waited *)
    eexists _, _, _. split; [reflexivity|].
    split; [exact Huw|].
    split.
    { cbn. symmetry. apply Hns_takes.
      apply andb_true_iff in Hwg. destruct Hwg as [Hw _].
      unfold waits in Hw. apply andb_true_iff in Hw. apply Hw. }
    split; [intros _; split; [reflexivity|exact Hownr]|].
    intros H. discriminate H.
  - assert (Huh : zv_unlocked (zo_zv sh)).
    { unfold sh. destruct takes; [exact Huw|exact Hu]. }
    destruct (zvol_geom_open_held_run o fl count takes sh Huh)
      as (Hd & tr0 & Hlk & Hrun).
    fold v in Hd, Hrun.
    destruct (open_view_frame o (fun c => c =? 0) sh) as (Hvn & _ & _).
    fold v in Hvn.
    set (drop := (zv_open_count (zo_zv sh) =? 0)
                 && (oo_try_ok o
                     || negb (negb (zv_open_count (zo_zv v) =? 0)))) in *.
    set (s2 := zo_locks v true (if drop then RW_READER else RW_NONE)) in *.
    assert (Hnsh : zv_open_count (zo_zv v) = 0 -> zo_namespace sh = true).
    { intros Hv0. pose proof (Hd Hv0) as Hdr. unfold drop in Hdr.
      apply andb_true_iff in Hdr. destruct Hdr as [Hsh0 _].
      clear - Hsh0. unfold sh, takes in Hsh0 |- *.
      destruct (zo_namespace s) eqn:Hn.
      - rewrite andb_false_r. exact Hn.
      - destruct (zv_open_count (zo_zv s) =? 0) eqn:Hz; cbn [andb negb] in *;
          [reflexivity|].
        rewrite Hz in Hsh0. discriminate Hsh0. }
    destruct (zvol_geom_open_locked_run o fl count takes drop s2)
      as (tr & Hrun2 & Hown); [reflexivity|reflexivity| |].
    { intros H. split; [exact (Hd H)|].
      change (zo_namespace s2) with (zo_namespace v). rewrite Hvn.
      exact (Hnsh H). }
    change (zv_open_count (zo_zv s2)) with (zv_open_count (zo_zv v))
      in Hrun2, Hown.
    fold first in Hrun2, Hown.
    assert (Hfin : forall s4,
               let S' := zo_locks (if takes then zo_set_namespace s4 false
                                   else s4) false RW_NONE in
               zv_unlocked (zo_zv S') /\
               zo_namespace S' = (if takes then false else zo_namespace s4) /\
               zv_open_count (zo_zv S') = zv_open_count (zo_zv s4) /\
               zo_excl S' = zo_excl s4 /\
               zv_objset (zo_zv S') = zv_objset (zo_zv s4) /\
               zo_mediasize S' = zo_mediasize s4 /\
               zo_stripesize S' = zo_stripesize s4 /\
               zv_volsize (zo_zv S') = zv_volsize (zo_zv s4) /\
               zv_volblocksize (zo_zv S') = zv_volblocksize (zo_zv s4) /\
               zv_written_to (zo_zv S') = zv_written_to (zo_zv s4)).
    { intros s4. destruct takes; repeat split; reflexivity. }
    assert (Hns2 : forall x, zo_namespace x = zo_namespace sh ->
                             (if takes then false else zo_namespace x)
                             = zo_namespace s).
    { intros x Hx. rewrite Hx. unfold sh.
      destruct takes eqn:Htk; [|reflexivity].
      symmetry. apply Hns_takes. reflexivity. }
    destruct (first_open_zv_frame o (zo_zv s2))
      as (Hf1 & Hf2 & Hf3 & Hf4 & Hf5 & Hf6).
    change (zv_open_count (zo_zv s2)) with (zv_open_count (zo_zv v)) in Hf3.
    rewrite Hrun. clear Hrun Hrunr.
    assert (Hsum : forall t x,
               objsets_owned t = x ->
               objsets_owned (trr ++ tr0 ++ t) = x).
    { intros t x Ht.
      rewrite !objsets_owned_app, Hownr, (objsets_owned_locks _ Hlk), Ht.
      reflexivity. }
    destruct first eqn:Hfirst; cbn [andb negb] in Hrun2, Hown.
    + (* the volume is closed *)
      destruct (first_open_error o =? 0) eqn:He.
      * apply Z.eqb_eq in He. destruct (Hf5 He) as (Hw & Hos & Hro & _).
        set (sf := zo_set_zv s2 (first_open_zv o (zo_zv s2))).
        set (s3 := zo_set_provider sf (zv_volsize (zo_zv sf))
                     (zv_volblocksize (zo_zv sf))).
        assert (Hce : open_check_error fl (oo_incompatible o) s3
                      = if fl_write fl && (ro || oo_incompatible o)
                        then EROFS
                        else if zo_excl v then EBUSY else 0).
        { unfold open_check_error.
          change (zo_excl s3) with (zo_excl v).
          change (zv_open_count (zo_zv s3))
            with (zv_open_count (first_open_zv o (zo_zv s2))).
          change (zv_rdonly (zo_zv s3))
            with (zv_rdonly (first_open_zv o (zo_zv s2))).
          rewrite Hf3, Hro. fold ro. fold first. rewrite Hfirst.
          cbn [negb]. rewrite andb_false_r. reflexivity. }
        cbn [Z.eqb andb] in Hrun2, Hown.
        fold sf in Hrun2, Hown. fold s3 in Hrun2, Hown.
        rewrite Hce in Hrun2, Hown.
        set (e := if fl_write fl && (ro || oo_incompatible o) then EROFS
                  else if zo_excl v then EBUSY else 0) in *.
        rewrite Hrun2. apply Hsum in Hown. clear Hrun2.
        eexists _, _, _. split; [reflexivity|].
        match goal with
        | |- zv_unlocked
               (zo_zv (zo_locks (if takes then zo_set_namespace ?x false
                                 else ?x) false RW_NONE)) /\ _ =>
            destruct (Hfin x) as (Hu' & Hn' & Hoc' & Hex' & Hob' & Hms'
                                  & Hss' & Hvs' & Hvb' & Hwt');
            set (s4 := x) in *
        end.
        split; [exact Hu'|].
        split.
        { rewrite Hn'. apply Hns2. unfold s4.
          destruct (e =? 0); [unfold zo_geom_opened; destruct (fl_excl fl)|];
            exact Hvn. }
        split; [intros H; discriminate H|]. intros _.
        split; [exact Hown|]. split; [reflexivity|].
        rewrite Hoc', Hex', Hob', Hms', Hss', Hvs', Hvb', Hwt'.
        unfold s4.
        destruct (e =? 0) eqn:He0.
        -- assert (Hexv : zo_excl v = false).
           { unfold e in He0.
             destruct (fl_write fl && (ro || oo_incompatible o));
               [discriminate He0|].
             destruct (zo_excl v); [discriminate He0|reflexivity]. }
           unfold zo_geom_opened.
           split; [destruct (fl_excl fl); subst s3 sf; zo_fields;
                   rewrite Hf3; reflexivity|].
           split; [destruct (fl_excl fl); subst s3 sf; zo_fields;
                   [reflexivity|exact Hexv]|].
           split.
           { intros _ _.
             destruct (fl_excl fl); subst s3 sf; zo_fields;
               cbn [zv_written_to];
               repeat split; try reflexivity; assumption. }
           intros _ H. apply Z.eqb_eq in He0. contradiction.
        -- cbn [andb].
           split; [subst s3 sf; zo_fields; rewrite Hf3; lia|].
           split; [reflexivity|].
           split.
           { intros _ H. apply Z.eqb_neq in He0. contradiction. }
           intros _ _ _. reflexivity.
      * (* zvol_first_open fails *)
        cbn [Z.eqb andb] in Hrun2, Hown. rewrite ?He in Hrun2, Hown.
        cbn [andb] in Hrun2, Hown.
        rewrite Hrun2. apply Hsum in Hown. clear Hrun2.
        eexists _, _, _. split; [reflexivity|].
        match goal with
        | |- zv_unlocked
               (zo_zv (zo_locks (if takes then zo_set_namespace ?x false
                                 else ?x) false RW_NONE)) /\ _ =>
            destruct (Hfin x) as (Hu' & Hn' & Hoc' & Hex' & Hob' & Hms'
                                  & Hss' & Hvs' & Hvb' & Hwt')
        end.
        split; [exact Hu'|].
        split; [rewrite Hn'; apply Hns2; exact Hvn|].
        split; [intros H; discriminate H|]. intros _.
        rewrite ?He. cbn [andb].
        split; [exact Hown|]. split; [reflexivity|].
        rewrite Hoc', Hex', Hob'. zo_fields. rewrite Hf3.
        apply Z.eqb_neq in He.
        split; [lia|]. split; [reflexivity|].
        split; [intros _ H; contradiction|].
        intros _ _ Hn. apply Hf6; [exact He|exact Hn].
    + (* the volume is open *)
      cbn [Z.eqb andb] in Hrun2, Hown.
      assert (Hce : open_check_error fl (oo_incompatible o) s2
                    = open_check_error fl (oo_incompatible o) v)
        by reflexivity.
      rewrite Hce in Hrun2. rewrite ?Hce in Hown.
      set (e := open_check_error fl (oo_incompatible o) v) in *.
      rewrite Hrun2. apply Hsum in Hown. clear Hrun2.
      eexists _, _, _. split; [reflexivity|].
      match goal with
      | |- zv_unlocked
             (zo_zv (zo_locks (if takes then zo_set_namespace ?x false
                               else ?x) false RW_NONE)) /\ _ =>
          destruct (Hfin x) as (Hu' & Hn' & Hoc' & Hex' & Hob' & Hms'
                                & Hss' & Hvs' & Hvb' & Hwt');
          set (s4 := x) in *
      end.
      split; [exact Hu'|].
      split.
      { rewrite Hn'. apply Hns2. unfold s4.
        destruct (e =? 0); [unfold zo_geom_opened; destruct (fl_excl fl)|];
          exact Hvn. }
      split; [intros H; discriminate H|]. intros _.
      split; [exact Hown|]. split; [reflexivity|].
      rewrite Hoc', Hex'. unfold s4.
      destruct (e =? 0) eqn:He0.
      * assert (Hexv : zo_excl v = false).
        { unfold e, open_check_error in He0.
          destruct (fl_write fl && _); [discriminate He0|].
          destruct (zo_excl v); [discriminate He0|reflexivity]. }
        unfold zo_geom_opened.
        split; [destruct (fl_excl fl); reflexivity|].
        split; [destruct (fl_excl fl); zo_fields;
                [reflexivity|exact Hexv]|].
        split; intros H; discriminate H.
      * split; [unfold s2; zo_fields; lia|]. split; [reflexivity|].
        split; intros H; discriminate H.
Qed.

(** [zvol_geom_open] returns with neither lock of the volume held and
    the namespace lock as the caller had it, whatever happens.  When the
    volume is closed it takes the namespace lock before the state lock,
    waiting for it if it must, so that [zvol_first_open] finds the lock
    held and the open does not fail because the lock is contended; if
    the provider has lost its volume during the wait the result is
    [ENXIO].  Otherwise the result is the error of [zvol_first_open], or
    [EROFS] for a write open of a read-only or incompatibly encrypted
    volume, or [EBUSY] for an exclusively opened volume.  A failed open
    leaves the open count and the exclusive flag as they were and the
    dataset disowned; a successful one adds [count] to the open count
    and, when it was the first, leaves the dataset owned and the provider
    with the size and block size of the volume. *)
Theorem zvol_geom_open_outcome n o fl count gone s :
  zv_unlocked (zo_zv s) ->
  let takes := (zv_open_count (zo_zv s) =? 0) && negb (zo_namespace s) in
  let waits := takes && negb (oo_ns_try_ok o) in
  let sw := if waits then os_interfere (oo_env o) s else s in
  let sh := if takes then zo_set_namespace sw true else s in
  let v := open_view o (fun c => c =? 0) sh in
  let first := zv_open_count (zo_zv v) =? 0 in
  let ro := so_ro (oo_setup o) || so_snapshot (oo_setup o)
            || negb (so_writeable (oo_setup o)) in
  exists e s' tr,
    zvol_geom_open (S (S n)) o ZFS_VOLMODE_GEOM fl count false gone (Some s)
    = Some (e, Some s', tr) /\
    zv_unlocked (zo_zv s') /\
    zo_namespace s' = zo_namespace s /\
    (waits && gone = true -> e = ENXIO /\ objsets_owned tr = 0) /\
    (waits && gone = false ->
     objsets_owned tr = (if first && (e =? 0) then 1 else 0) /\
     e = (if first
          then if first_open_error o =? 0
               then if fl_write fl && (ro || oo_incompatible o) then EROFS
                    else if zo_excl v then EBUSY else 0
               else first_open_error o
          else open_check_error fl (oo_incompatible o) v) /\
     zv_open_count (zo_zv s')
     = zv_open_count (zo_zv v) + (if e =? 0 then count else 0) /\
     zo_excl s' = (if e =? 0 then fl_excl fl else zo_excl v) /\
     (first = true -> e = 0 ->
      zv_objset (zo_zv s') = Some (so_objset (oo_setup o)) /\
      zo_mediasize s' = zv_volsize (zo_zv s') /\
      zo_stripesize s' = zv_volblocksize (zo_zv s') /\
      zv_written_to (zo_zv s') = false) /\
     (first = true -> e <> 0 -> zv_objset (zo_zv v) = None ->
      zv_objset (zo_zv s') = None)).
Proof.
  exact (zvol_geom_open_spec n o fl count gone s).
Qed.

(** The example volume nobody has open is opened through GEOM with three
    references, the namespace lock being contended. *)
Lemma zvol_geom_open_outcome_witness :
  exists s' tr,
    zvol_geom_open 2 ex_ns_busy_oracle ZFS_VOLMODE_GEOM
      (mk_fl true false false) 3 false false (Some ex_closed)
    = Some (0, Some s', tr) /\
    zv_open_count (zo_zv s') = 3 /\ zo_namespace s' = false /\
    objsets_owned tr = 1.
Proof.
  destruct (zvol_geom_open_outcome 0 ex_ns_busy_oracle
              (mk_fl true false false) 3 false ex_closed
              (conj eq_refl eq_refl))
    as (e & s' & tr & Hrun & _ & Hns & _ & Hok).
  destruct (Hok eq_refl) as (Hown & He & Hoc & _).
  assert (He0 : e = 0) by (rewrite He; reflexivity).
  subst e. exists s', tr.
  split; [exact Hrun|]. split; [exact Hoc|].
  split; [exact Hns|exact Hown].
Defined.

Lemma open_view_try_ok_geom o f s :
  oo_try_ok o = true -> open_view o f s = s.
Proof.
  intros H. unfold open_view. rewrite H, andb_false_r. reflexivity.
Qed.

(** A first [zvol_geom_open] of [count] references that succeeds,
    followed by the [zvol_geom_close] of the same [count], brings a
    closed volume back to where it was: closed, with the dataset
    disowned, no lock held, the exclusive flag clear and the caller's
    hold on the namespace lock as before. *)
Theorem zvol_geom_open_close_round_trip n o fl count gone s :
  zv_unlocked (zo_zv s) -> zv_closed (zo_zv s) -> zo_excl s = false ->
  0 < count ->
  oo_try_ok o = true ->
  zo_namespace s = true \/ oo_ns_try_ok o = true ->
  first_open_error o = 0 ->
  (fl_write fl = true ->
   so_ro (oo_setup o) || so_snapshot (oo_setup o)
   || negb (so_writeable (oo_setup o)) || oo_incompatible o = false) ->
  (fl_excl fl = true -> count = 1) ->
  exists s1 tr1 s2 tr2,
    zvol_geom_open (S (S n)) o ZFS_VOLMODE_GEOM fl count false gone (Some s)
    = Some (0, Some s1, tr1) /\
    zvol_geom_close o ZFS_VOLMODE_GEOM count (Some s1)
    = Some (0, Some s2, tr2) /\
    zv_open_count (zo_zv s1) = count /\
    zv_objset (zo_zv s1) = Some (so_objset (oo_setup o)) /\
    zo_mediasize s1 = zv_volsize (zo_zv s1) /\
    zv_unlocked (zo_zv s2) /\ zv_closed (zo_zv s2) /\
    zo_excl s2 = false /\
    zo_namespace s2 = zo_namespace s /\
    objsets_owned (tr1 ++ tr2) = 0.
Proof.
  intros Hu (Hoc & Hos & Hdn & Hzl) Hex Hcnt Htry Hns Hfo Hro Hfx.
  destruct (zvol_geom_open_spec n o fl count gone s Hu)
    as (e & s1 & tr1 & Hrun1 & Hu1 & Hn1 & _ & Hok).
  assert (Hw : ((zv_open_count (zo_zv s) =? 0) && negb (zo_namespace s))
               && negb (oo_ns_try_ok o) = false).
  { destruct Hns as [-> | ->]; [rewrite andb_false_r; reflexivity|].
    apply andb_false_r. }
  rewrite Hw in Hok. cbn [andb] in Hok.
  rewrite (open_view_try_ok_geom o _ _ Htry) in Hok.
  assert (Hoch : zv_open_count
                   (zo_zv (if (zv_open_count (zo_zv s) =? 0)
                              && negb (zo_namespace s)
                           then zo_set_namespace s true else s)) = 0).
  { destruct (zo_namespace s); rewrite Hoc;
      cbn [Z.eqb andb negb zo_zv zo_set_namespace]; exact Hoc. }
  assert (Hexh : zo_excl
                   (if (zv_open_count (zo_zv s) =? 0)
                       && negb (zo_namespace s)
                    then zo_set_namespace s true else s) = false).
  { destruct (zo_namespace s); rewrite Hoc;
      cbn [Z.eqb andb negb zo_excl zo_set_namespace]; exact Hex. }
  rewrite Hoch, Hexh in Hok. change (0 =? 0) with true in Hok.
  assert (Hfo' : (first_open_error o =? 0) = true)
    by (apply Z.eqb_eq; exact Hfo).
  rewrite Hfo' in Hok.
  destruct (Hok eq_refl) as (Hown1 & He & Hoc1 & Hex1 & Hfirst & _).
  assert (He0 : e = 0).
  { rewrite He. destruct (fl_write fl) eqn:Hfw; [|reflexivity].
    rewrite (Hro eq_refl). reflexivity. }
  clear He. subst e. cbn [andb Z.eqb Z.add] in Hown1, Hoc1, Hex1.
  destruct (Hfirst eq_refl eq_refl) as (Hos1 & Hms1 & _ & Hw1).
  destruct (zvol_geom_close_spec o count s1 Hu1)
    as (s2 & tr2 & Hrun2 & Hu2 & Hex2 & Hn2 & Hoc2 & _ & Hown2 & Hlast
        & _).
  { rewrite Hoc1. lia. }
  { intros Hx. rewrite Hex1 in Hx. rewrite (Hfx Hx) in Hoc1. exact Hoc1. }
  { left. exact Htry. }
  { rewrite Hw1. discriminate. }
  rewrite Hoc1, Z.eqb_refl in Hown2, Hlast.
  exists s1, tr1, s2, tr2.
  split; [exact Hrun1|]. split; [exact Hrun2|]. split; [exact Hoc1|].
  split; [exact Hos1|]. split; [exact Hms1|]. split; [exact Hu2|].
  split; [exact (Hlast eq_refl)|]. split; [exact Hex2|].
  split; [congruence|].
  rewrite objsets_owned_app, Hown1, Hown2. reflexivity.
Qed.

Lemma zvol_geom_open_close_round_trip_witness :
  exists s1 tr1 s2 tr2,
    zvol_geom_open 2 ex_open_oracle ZFS_VOLMODE_GEOM
      (mk_fl true false false) 3 false false (Some ex_closed)
    = Some (0, Some s1, tr1) /\
    zvol_geom_close ex_open_oracle ZFS_VOLMODE_GEOM 3 (Some s1)
    = Some (0, Some s2, tr2) /\
    zv_closed (zo_zv s2) /\ objsets_owned (tr1 ++ tr2) = 0.
Proof.
  destruct (zvol_geom_open_close_round_trip 0 ex_open_oracle
              (mk_fl true false false) 3 false ex_closed
              (conj eq_refl eq_refl)
              (conj eq_refl (conj eq_refl (conj eq_refl eq_refl)))
              eq_refl eq_refl eq_refl (or_intror eq_refl) eq_refl
              (fun _ => eq_refl))
    as (s1 & tr1 & s2 & tr2 & H1 & H2 & _ & _ & _ & _ & Hc & _ & _ & Ho).
  - intros H. discriminate H.
  - exists s1, tr1, s2, tr2.
    split; [exact H1|]. split; [exact H2|]. split; [exact Hc|exact Ho].
Defined.
